(* ===== verification/_CoqProject ===== *)
-Q . S2P
Prelude.v
Effects.v
GoStrings.v
Secrets.v
AsyncLog.v
Luks.v
Units.v
Rpc.v
RcloneConfig.v
Mounts.v
VfsNames.v
VfsCache.v
VfsSetup.v
Session.v
MountManager.v
Polling.v
Eviction.v
Csi.v
Endpoint.v
Controller.v
NodeMounts.v
NodeLuks.v
NodeState.v
Drain.v
RawDir.v
S3Live.v
NodeServer.v
Consumers.v
Checker.v
Registration.v
Process.v
WatchdogScript.v
Pods.v
Invariant.v
System.v
World.v
Lifecycle.v
Provision.v
Cloud.v
CloudOps.v
S3Life.v
Heal.v
Interleave.v
Refine.v
