(* ===== verification/Prelude.v ===== *)
(** * LUKSCryptWalker CSI driver: verification library

    The repository is a Kubernetes CSI driver in Go.  One binary runs a
    controller (one per cluster) and a node plugin (one per node).  A volume
    is either local, a LUKS container in a backing file of one node, or
    remote, an S3 prefix mounted by an embedded rclone through an encrypted
    on-disk cache.  The development models the driver's own logic as Rocq
    functions translated from the Go source and proves what the driver
    promises: data is never deleted while it is the only copy, a volume is
    reported detached only on evidence, a pod is never given a directory
    without the volume behind it, layers go up and come down in order, and the
    parsers and name encodings around this lose nothing.

    ** The parts and the files

    - Prelude (this file): results and errors ([result], [gerr], the sentinels
      [errors.Is] finds), gRPC [status], durations, 64-bit wrap-around.
    - Effects: the outside world.  A Go function that runs commands, makes
      system calls, or talks to the API server or librclone is a [prog], the
      tree of its external calls; an [environment] answers each call from the
      whole history, so any interleaving of outside events is covered.  [run]
      gives the history and the result; [wpc] is the program logic; [eval] is
      the result in a world that holds still.
    - GoStrings: the parts of strings, strconv and path/filepath the driver
      uses, on byte strings.
    - Secrets (pkg/secrets), AsyncLog (pkg/asynclog), Luks (pkg/luks).
    - Units, Rpc, RcloneConfig, Mounts, VfsNames, VfsCache, VfsSetup, Session,
      RawDir, MountManager, Eviction (pkg/rclone): sizes and durations; the
      in-flight RPC table with its watchdog, and the redaction of error texts;
      remotes and the purge of a volume's objects; the host mount table and its
      timed cache; VFS names and generations; the dirty scan, validation and
      sweeps of the on-disk cache; the encrypted cache volume; the sessions of
      a volume; the entries in a raw directory buffer; mounting, exposing,
      draining and unmounting; the cache monitor.
    - Csi, Endpoint, Controller (driver.go, controller.go, k8s.go): the fields
      of the CSI messages the driver reads, the socket it serves on, and the
      controller service.
    - NodeMounts, NodeLuks (node.go, utils.go, node_luks.go): host mounts and
      loop devices; local volumes from backing file to filesystem.
    - NodeState, Drain, S3Live, NodeServer (node.go, node_s3.go): the node
      server's run-time state and state-passing programs [M]; staging and
      cleaning up S3 volumes with their drain goroutines; the liveness probes
      of FUSE mounts; the CSI node service and the reclaim of orphans.
    - Consumers, Checker (node_s3.go, node.go): rebinding, restarting and
      deleting the pods over a dead mount; the periodic checker that diagnoses
      and repairs S3 mounts, recovers stranded volumes and collects caches.
    - Registration, Process (registration.go, identity.go, selfmonitor.go,
      watchdog.go, cmd/main.go): whether kubelet knows the driver, read from
      the API server and /proc; the liveness probe, the self-monitor, the host
      watchdog's installation, the start and the end of the process.
      WatchdogScript (the shell script in watchdog.go): what the watchdog does
      on the host, run by run.
    - Polling: the loops that poll a clock end.  Pods, Invariant, System: the
      node server as one state machine, the events of which are the CSI calls,
      the ticks of checker and registration, and the ends of drains and
      probes; the invariant of its state; who touches pods.
    - World, Lifecycle: a node whose files, LUKS mappings, filesystems, their
      sizes and mounts are a state that the driver's commands change, and the handlers
      run against it: a local volume as an abstract machine.  Provision: from
      [CreateVolume] through the cluster to that machine.  Cloud, CloudOps,
      S3Life: the same for an S3 volume, whose world is a clock, the live
      rclone session, the mount table, the cache on disk and the bucket.
      Heal: the checker run against that world after the session died.
    - Interleave: the same operations on one S3 volume as concurrent
      goroutines, reduced to what they share.  Refine: every event of System
      is a run of its skeleton there.

    ** How state and operations correspond to the code

    A Go method is a definition of the same name; struct fields keep their
    names where two structs do not clash.  Mutable maps and flags of a
    long-lived object are a record threaded through the operations
    ([MountManager], [globals], [node], [rpc_table], [mount_cache]).  A Go map
    is a [gmap]; a directory walk is the list of visits filepath.WalkDir
    makes.  A goroutine started by a handler is a [task] of the node state and
    runs to its end later ([run_task]), in any order with the other handlers
    ([Drain.reachable], [System.running]).  There each handler and each drain
    is one step of the state; the interleaving of their parts is the subject
    of Interleave, whose goroutines ([proc]) are the same operations down to
    their accesses to the volume's lock, drain slot, setup mark and manager,
    with every other branch left open; Refine is the simulation that ties the
    two.  The log writer, the mount-table cache
    and the liveness probe, whose goroutines interleave more finely, are step
    relations of their own ([AsyncLog.step], [Mounts.mtrace],
    [Identity.step]).  Commands with a time budget carry it in the call, and a
    reply may be a time-out.  World and Cloud are concrete environments
    ([interp_is_run]), so that what is proved of every environment holds of
    them; they are used only where a theorem is about what the calls achieve
    and not about what the driver does with the replies.  Log lines are left
    out; so is the wording of most errors, but not the parts the code searches
    for.

    ** Fuel

    Go's loops over data are structural.  The others carry fuel, and where the
    fuel runs out the program performs [CDiverge], a call of its own that the
    theorems exclude or count: [ensure_fuel], [wait_fuel], [ready_fuel],
    [session_fuel] are larger than the number of rounds the loop's own counter
    or deadline allows, as [polling_ends] shows for the loops that wait on a
    clock, provided the clock advances by what is slept; [redactBetween] takes
    its fuel as an argument, and [redaction_exact] shows that one round
    decides, the other case being a loop that does not end whatever the fuel.
    In Cloud the waits end because uploads proceed, one item a second while a
    session is live, and the budgets of the waits are the code's own.

    ** What the theorems show

    The closed loop: [local_volume_lifecycle] and [s3_volume_lifecycle] refine
    the handlers to small machines of a volume's life, over all sequences of
    CSI calls, writes by pods, drains and restarts: every call succeeds or is
    refused as the machine says, and what a pod wrote is what later pods read
    or what the bucket holds; a local volume keeps its data and its size
    through expansions; [unstage_completes]: an unstage that is refused
    for unfinished uploads succeeds when it is repeated after the drain;
    [dead_mount_is_repaired]: a session that died is replaced by the checker;
    [created_volume_fits_its_node] starts one step earlier, at the controller.
    Never losing the only copy: [unmount_never_loses_writes],
    [empty_queue_needs_evidence], [unuploaded_data_exact],
    [unstaged_only_on_evidence], [unstage_success_means_detached],
    [drain_end_is_recorded], [one_drain_per_volume],
    [eviction_removes_only_idle_files], [validate_removes_only_clean],
    [sweep_removes_only_clean], [cache_gc_only_orphans],
    [orphan_needs_missing_pv], [stranded_recovery_exclusive].
    Never writing plaintext or formatting over data:
    [publish_binds_live_mount], [rebind_clear_and_live],
    [main_needs_encrypted_cache], [process_serves_encrypted],
    [SetupVFSCache_safe],
    [format_only_after_failed_probe], [backing_file_safe].
    Order of the layers: [expansion_grows_bottom_up], [cleanup_top_down],
    [unmounted_means_gone].
    The watchdog on the host: [watchdog_acts_only_on_signature],
    [watchdog_heals].
    The socket: [listens_where_it_dials], [unix_endpoint_path].
    Leaving pods alone: [handlers_leave_pods_alone], [repairs_only_on_evidence],
    [repair_within_budget], [one_recovery_per_sweep],
    [recovery_touches_one_pod], [forced_deletes_only_stuck],
    [backoff_spaces_and_never_starves], [stranded_exact],
    [registration_lost_exact].
    The state as a whole: [server_state_consistent] over all runs of events,
    [mounts_exclude_each_other] and [operations_never_deadlock] over all
    interleavings (by a discipline of ownership that each operation is checked
    to obey), [server_follows_skeletons] from the detailed handlers to those
    operations, [probe_single_flight], [monitors_report_edges],
    [served_table_is_last_read], [abort_iff_mount_lock_stuck], and
    [writer_refines_lossy_queue], the log writer as a bounded queue that
    counts what it drops.
    Isolation of volumes: [vfs_names_roundtrip],
    [shutdown_reaches_own_sessions], [purge_covers_mounted_data],
    [fetch_reads_only_named_secrets], [CreateVolume_correct],
    [DeleteVolume_targets].
    Parsers, bounds and ends: [mount_table_roundtrip], [units_roundtrip],
    [proc_read_back], [directory_read_back], [probe_bounded_and_sound],
    [polling_ends], [flush_ends], [evict_loop_exact].
    Behaviour the documentation does not promise, proved on the same
    definitions: [recovery_can_mount_twice], [lost_table_destroys_live_volume],
    [unreadable_staging_reads_unstaged], [timed_out_probe_reformats],
    [unknown_table_deletes_staging], [failed_umount_still_deletes],
    [failed_restage_drops_marker], [older_generation_unstaged],
    [invalidate_pins_stale_table], [vanished_entry_hides_dirty],
    [redaction_exact], [refused_call_changes_nothing] (an xfs volume after a
    restart), [returning_pod_loses_its_mount], [slow_write_back_never_confirms],
    [neighbour_removed], [empty_listing_spends_the_cure],
    [tiny_volume_never_stages].

    ** What is not modelled

    The gRPC and HTTP servers behind a listening socket, tickers and flags are
    I/O: [Endpoint.Run] listens and serves in two calls of the environment, a
    signal is the end of the second, and the ticks are events.  The logging
    set-up of [main], the creation of the Kubernetes client and the event
    recorder are left out: whether there is a client is a parameter.  What
    net/url makes of an endpoint that is not a plain URL is a parameter of
    Endpoint.  Rclone, cryptsetup, crictl, the kernel and the API server are
    the environment: nothing is assumed of their replies beyond their types,
    except in World and Cloud, which answer as their documentation says, for
    the commands on the paths of one volume: directories, permissions, mount
    options, the passphrase hashing of LUKS and partial failures of a command
    are not part of those worlds; a LUKS header takes 16 MiB there, and there
    is one loop device. *)

From Stdlib Require Export ZArith Lia.
From stdpp Require Export base list gmap strings sorting numbers option.

#[global] Open Scope Z_scope.

(** ** Results, errors and sentinels

    A Go function of type [(T, error)] is modelled by [result T gerr].  A
    [gerr] keeps the two things the driver can observe of an [error]: its
    text ([err.Error()], which several functions search for a substring) and
    the sentinels [errors.Is] finds in its [%w] chain. *)

Inductive result (A E : Type) : Type :=
  | Ok (a : A)
  | Err (e : E).
Arguments Ok {A E} _.
Arguments Err {A E} _.

Lemma Ok_inj {A E} (a b : A) : @Ok A E a = Ok b -> a = b.
Proof. congruence. Qed.

Inductive errno : Set :=
  | ENOENT | EIO | ENOTCONN | ESTALE | EINVAL | EEXIST | EACCES | EBUSY
  | EOTHER (n : Z).

#[global] Instance errno_eq_dec : EqDecision errno.
Proof. solve_decision. Defined.

Inductive sentinel : Set :=
  | SErrno (e : errno)
  | SRPCTimeout
  | SUnuploadedData
  | SCmdTimeout.

#[global] Instance sentinel_eq_dec : EqDecision sentinel.
Proof. solve_decision. Defined.

Record gerr : Set := GErr { e_text : string; e_is : list sentinel }.

(** [fmt.Errorf("pre: %v", err)]: the text is kept, the chain is not. *)
Definition errorf_v (pre : string) (e : gerr) : gerr :=
  GErr (String.append pre (String.append ": " (e_text e))) [].
(** [fmt.Errorf("pre: %w", err)]: the chain is kept too. *)
Definition errorf_w (pre : string) (e : gerr) : gerr :=
  GErr (String.append pre (String.append ": " (e_text e))) (e_is e).
(** [fmt.Errorf("text")] / [errors.New("text")]. *)
Definition error_new (s : string) : gerr := GErr s [].
Definition errno_err (e : errno) : gerr := GErr "errno" [SErrno e].
(** [errors.Is(err, target)]. *)
Definition errors_is (e : gerr) (s : sentinel) : bool := bool_decide (s ∈ e_is e).

Definition is_ok {A E} (r : result A E) : bool :=
  match r with Ok _ => true | Err _ => false end.

(** ** gRPC status errors *)

Inductive code : Set :=
  | InvalidArgument | FailedPrecondition | Internal | Unavailable | Aborted
  | Unimplemented | CtxError.

#[global] Instance code_eq_dec : EqDecision code.
Proof. solve_decision. Defined.

Record status : Set := Status { st_code : code; st_msg : string }.

Definition status_errorf (c : code) (pre : string) (e : gerr) : status :=
  Status c (String.append pre (String.append ": " (e_text e))).

(** ** Time, as Go's [time.Duration] and unix-nano [int64]s *)

Definition ms : Z := 1000000.
Definition second : Z := 1000000000.
Definition minute : Z := 60 * second.
Definition hour : Z := 60 * minute.

(** ** 64-bit two's complement integers *)

Definition wrap64 (z : Z) : Z := (z + 2 ^ 63) `mod` 2 ^ 64 - 2 ^ 63.
Definition in_int64 (z : Z) : Prop := - 2 ^ 63 <= z < 2 ^ 63.
Definition in_int64b (z : Z) : bool := (- 2 ^ 63 <=? z) && (z <? 2 ^ 63).

Lemma wrap64_range z : in_int64 (wrap64 z).
Proof.
  unfold in_int64, wrap64.
  pose proof (Z.mod_pos_bound (z + 2 ^ 63) (2 ^ 64) eq_refl). lia.
Qed.

Lemma wrap64_id z : in_int64 z -> wrap64 z = z.
Proof.
  unfold in_int64, wrap64. intros H.
  rewrite Z.mod_small by lia. lia.
Qed.

Lemma in_int64b_spec z : in_int64b z = true <-> in_int64 z.
Proof. unfold in_int64b, in_int64. rewrite andb_true_iff, Z.leb_le, Z.ltb_lt. lia. Qed.

(** ** Lists *)

Lemma Forall_elem {A} (P : A -> Prop) l x : Forall P l -> x ∈ l -> P x.
Proof. induction 1; [by intros ?%not_elem_of_nil | intros [-> | ?]%elem_of_cons; auto]. Qed.

Lemma elem_of_filter_bool {A} (f : A -> bool) l x : x ∈ List.filter f l <-> x ∈ l /\ f x = true.
Proof. by rewrite !list_elem_of_In, filter_In. Qed.

Create HintDb go discriminated.
#[export] Hint Resolve wrap64_range : go.

(** ** Tactics shared by the development *)

(** Split every conjunction of the context and of the goal. *)
Ltac splits := repeat match goal with |- _ /\ _ => split end.

(** Case on the scrutinee of the first match of the goal (or hypothesis). *)
Ltac case_goal :=
  match goal with
  | |- context [match ?x with _ => _ end] =>
      lazymatch x with
      | context [match _ with _ => _ end] => fail
      | _ => destruct x eqn:?
      end
  end.
Ltac case_hyp H :=
  match type of H with
  | context [match ?x with _ => _ end] =>
      lazymatch x with
      | context [match _ with _ => _ end] => fail
      | _ => destruct x eqn:?
      end
  end.

(** Turn boolean tests in the context into propositions. *)
Ltac bools :=
  repeat match goal with
  | H : andb _ _ = true |- _ => apply andb_true_iff in H as [? ?]
  | H : orb _ _ = false |- _ => apply orb_false_iff in H as [? ?]
  | H : negb _ = true |- _ => apply negb_true_iff in H
  | H : negb _ = false |- _ => apply negb_false_iff in H
  | H : (_ <=? _) = true |- _ => apply Z.leb_le in H
  | H : (_ <=? _) = false |- _ => apply Z.leb_gt in H
  | H : (_ <? _) = true |- _ => apply Z.ltb_lt in H
  | H : (_ <? _) = false |- _ => apply Z.ltb_ge in H
  | H : (_ =? _) = true |- _ => apply Z.eqb_eq in H
  | H : (_ =? _) = false |- _ => apply Z.eqb_neq in H
  | H : bool_decide _ = true |- _ => apply bool_decide_eq_true in H
  | H : bool_decide _ = false |- _ => apply bool_decide_eq_false in H
  end.
