(* ===== verification/Effects.v ===== *)
(** * Effects: the outside world and the programs that call it

    Most of the driver's functions interleave decisions with calls to things
    that are not under src/: commands, system calls, the Kubernetes API, and
    librclone.  Such a function is translated to a [prog]: a tree whose nodes
    are the external calls in the order the code makes them, and whose
    branches are the replies.  A [call] says exactly what was asked; what
    comes back is chosen by an arbitrary environment.  [run] executes a
    program against an environment, recording the history of calls and
    replies (newest first); [wpc] is the program logic used for the proofs. *)

From S2P Require Import Prelude.

(** ** Data that crosses the boundary *)

(** [os.FileInfo] / [syscall.Stat_t], as far as the driver reads them. *)
Record fstat : Set := FStat { st_size : Z; st_isdir : bool; st_dev : Z }.

(** [syscall.Statfs_t], as far as the driver reads it. *)
Record statfs : Set := Statfs { f_bavail : Z; f_blocks : Z; f_bsize : Z }.

(** [os.DirEntry] / [DirEntryRaw]. *)
Record dirent : Set := DirEnt
  { de_name : string; de_isdir : bool; de_isreg : bool; de_unknown : bool }.

(** How an external command ended: it could not start, it exited (status,
    stdout, stderr), or it was still running when its budget ran out. *)
Inductive exec_reply : Set :=
  | XStartErr (e : errno)
  | XExit (status : Z) (stdout stderr : string)
  | XTimeout.

(** A call made in a goroutine and awaited for a bounded time. *)
Inductive bounded (A : Type) : Type :=
  | Done (a : A)
  | Blocked.
Arguments Done {A} _.
Arguments Blocked {A}.

(** Decoded JSON, as [encoding/json] delivers it into [interface{}].  Numbers
    are the integers rclone reports (Go holds them as [float64]). *)
Inductive json : Set :=
  | JNull | JBool (b : bool) | JNum (n : Z) | JStr (s : string)
  | JArr (l : list json) | JObj (l : list (string * json)).

(** One entry of a mount table: device and filesystem type. *)
Record HostMount : Set := { Dev : string; FSType : string }.
Abbreviation stacks := (gmap string (list HostMount)).

(** The reply of [librclone.RPC], or none within the budget.  A body is
    absent, JSON, or text that is not JSON. *)
Inductive rpc_body : Set :=
  | BodyEmpty | BodyJson (fields : list (string * json)) | BodyRaw (s : string).
Inductive rpc_reply : Set :=
  | RpcTimedOut
  | RpcDone (status : Z) (body : rpc_body).

(** The value half of an RPC parameter map. *)
Inductive pval : Set :=
  | PStr (s : string) | PBool (b : bool) | PInt (n : Z)
  | PMap (l : list (string * pval)).

(** One callback of [filepath.WalkDir]: a path with its kind, or the error of
    reading it. *)
Inductive visit : Set :=
  | VDir (path : string) | VFile (path : string) | VErr (path : string) (e : errno).

(** The fields of rclone's cache metadata the driver decodes (cachecheck.go,
    [cacheItemInfo]): ranges are (Pos, Size). *)
Record cacheItemInfo : Set := Meta { m_Size : Z; m_Dirty : bool; m_Rs : list (Z * Z) }.

(** ** Kubernetes objects, as far as the driver reads them *)

Inductive k8serr : Set := KNotFound | KApiErr (text : string).

Record csi_source : Type := CSISource
  { csi_driver : string; csi_handle : string;
    csi_attributes : option (gmap string string) }.
Record pv : Type := PV
  { pv_name : string; pv_annotations : gmap string string;
    pv_storage_class : string; pv_csi : option csi_source;
    pv_claim : option (string * string) (* namespace, name *) }.
Record pvc : Type := PVC
  { pvc_annotations : gmap string string; pvc_volume : string }.

Inductive pod_phase : Set := PodRunning | PodSucceeded | PodFailed | PodOther.
Inductive propagation : Set := PropNone | HostToContainer | Bidirectional.
Record volume_mount : Set := VolumeMount
  { vm_name : string; vm_prop : option propagation }.
Record pod : Set := Pod
  { pod_uid : string; pod_ns : string; pod_name : string;
    pod_deletion : option Z (* DeletionTimestamp, unix ns *);
    pod_grace : option Z (* DeletionGracePeriodSeconds *);
    pod_phase_of : pod_phase; pod_restart_never : bool;
    pod_controlled : bool (* metav1.GetControllerOf(pod) != nil *);
    pod_fsgroup : option Z;
    pod_volumes : list (string * option string) (* name, claim *);
    pod_containers : list (list volume_mount);
    pod_init_containers : list (list volume_mount) }.

Inductive event_ref : Set :=
  | NodeRef | PVCRef (ns name : string) | PodRef (uid : string).

(** ** The calls *)

Inductive call : Type :=
  (* time *)
  | CNow | CSleep (d : Z)
  (* commands: optional hard budget, stdin, argv *)
  | CExec (budget : option Z) (stdin : string) (argv : list string)
  (* files *)
  | CStat (path : string) | CReadFile (path : string)
  | CWriteFile (path data : string) | CReadDir (path : string)
  | CMkdirAll (path : string) | CMkdir (path : string)
  | CChmod (path : string) | CCreate (path : string)
  | CRemove (path : string) | CRemoveAll (path : string)
  | CRename (src dst : string) | CTruncate (path : string) (size : Z)
  | CStatfs (path : string)
  | CGetenv (name : string)
  (* bounded system calls *)
  | CMkdirAllB (path : string) (budget : Z)
  | CRemoveB (path : string) (budget : Z)
  | CRemoveAllB (path : string) (budget : Z)
  | CBindB (src dst : string) (budget : Z)
  | CUnmountB (path : string) (lazy : bool) (budget : Z)
  | CStatB (path : string) (budget : Z)
  | CStatfsB (path : string) (budget : Z)
  | CReadDirB (path : string) (budget : Z)
  | CReadDirRaw (path : string) (max : Z) | COpenProbe (path : string)
  | CReadDirRawB (path : string) (max budget : Z)
  | CReadFileB (path : string) (budget : Z)
  | CKill (pid : Z) | CLstat (path : string)
  | CMountedDeviceB (path : string) (budget : Z)
  (* directory walks, file information, links *)
  | CWalkDir (root : string) | CInfo (path : string)
  | CReadlink (path : string) | CEvalSymlinks (path : string) | CGlobFds
  (* files read or written as JSON: the decoded contents, None when the text
     does not decode *)
  | CReadMeta (path : string) | CReadNameMap (path : string) | CReadJson (path : string)
  | CWriteNameMap (path : string) (m : gmap string string)
  (* librclone and rclone's config package *)
  | CRpc (method : string) (params : list (string * pval)) (budget : Z)
  | CSetCacheDir (path : string) | CGetCacheDir
  (* the host mount table, as HostMountStacksOK answers it (see Mounts) *)
  | CHostMounts | CInvalidateMounts
  (* the end of a volume's background drain, awaited for a bounded time *)
  | CAwaitDrain (volumeID : string) (budget : Z)
  (* Kubernetes *)
  | CGetPV (name : string) | CListPVs | CGetStorageClass (name : string)
  | CGetSecret (ns name : string) | CGetPVC (ns name : string)
  | CGetPod (ns name : string) | CListPods (ns : string) (on_node : option string)
  | CDeletePod (ns name : string) (grace : option Z)
  | CGetCSINode (name : string)
  | CEvent (ref : event_ref) (reason : string)
  (* a connection to a unix socket, opened and closed *)
  | CDial (path : string) (timeout : Z)
  (* a listening socket, and serving on it until the process is told to stop
     (None) or the server fails *)
  | CListen (network address : string) | CServe
  (* close-on-exec set on a descriptor of the process *)
  | CSetCloexec (fd : Z)
  (* points the process does not get past: a loop that never ends, os.Exit.
     The model goes on after them, which only adds behaviours. *)
  | CDiverge (where_ : string) | CExit (reason : string).

Definition reply (c : call) : Type :=
  match c with
  | CNow => Z
  | CSleep _ => unit
  | CExec _ _ _ => exec_reply
  | CStat _ => result fstat errno
  | CReadFile _ => result string errno
  | CWriteFile _ _ | CMkdirAll _ | CMkdir _ | CChmod _ | CCreate _
  | CRemove _ | CRemoveAll _ | CRename _ _ | CTruncate _ _
  | COpenProbe _ => result unit errno
  | CReadDir _ => result (list dirent) errno
  | CReadDirRaw _ _ => list dirent * option errno (* what was read before the error *)
  | CStatfs _ => result statfs errno
  | CGetenv _ => string
  | CMkdirAllB _ _ | CRemoveB _ _ | CRemoveAllB _ _ | CBindB _ _ _
  | CUnmountB _ _ _ | CStatfsB _ _ => bounded (result unit errno)
  | CStatB _ _ => bounded (result fstat errno)
  | CReadDirB _ _ => bounded (result (list dirent) errno)
  | CReadDirRawB _ _ _ => bounded (result (list dirent) errno)
  | CMountedDeviceB _ _ => bounded (result (string * bool) errno)
  | CWalkDir _ => list visit
  | CInfo _ => result (Z * Z) errno (* size, modification time *)
  | CReadlink _ | CEvalSymlinks _ => result string errno
  | CGlobFds => list string
  | CReadMeta _ => result (option cacheItemInfo) errno
  | CReadNameMap _ => result (option (gmap string string)) errno
  | CReadJson _ => result (option json) errno
  | CReadFileB _ _ => bounded (result string errno)
  | CKill _ => result unit errno
  | CLstat _ => result unit errno
  | CWriteNameMap _ _ => result unit errno
  | CRpc _ _ _ => rpc_reply
  | CSetCacheDir _ => result unit gerr
  | CGetCacheDir => string
  | CHostMounts => option stacks
  | CInvalidateMounts => unit
  | CAwaitDrain _ _ => bool
  | CGetPV _ => result pv k8serr
  | CListPVs => result (list pv) k8serr
  | CGetStorageClass _ => result (gmap string string) k8serr
  | CGetSecret _ _ => result (gmap string string) k8serr
  | CGetPVC _ _ => result pvc k8serr
  | CGetPod _ _ => result pod k8serr
  | CListPods _ _ => result (list pod) k8serr
  | CDeletePod _ _ _ => result unit k8serr
  | CGetCSINode _ => result (list string) k8serr
  | CEvent _ _ => unit
  | CDial _ _ => result unit errno
  | CListen _ _ | CSetCloexec _ => result unit errno
  | CServe => option (result unit errno)
  | CDiverge _ | CExit _ => unit
  end.

(** ** Programs *)

Inductive prog (A : Type) : Type :=
  | Ret (a : A)
  | Do (c : call) (k : reply c -> prog A).
Arguments Ret {A} _.
Arguments Do {A} _ _.

Fixpoint bind {A B} (p : prog A) (f : A -> prog B) : prog B :=
  match p with
  | Ret a => f a
  | Do c k => Do c (fun r => bind (k r) f)
  end.

Definition perform (c : call) : prog (reply c) := Do c Ret.

Declare Scope go_scope.
Delimit Scope go_scope with go.
Notation "x <- p ;; k" := (bind p (fun x => k))
  (at level 100, p at next level, right associativity) : go_scope.
Notation "'let*' pat := p ;; k" := (bind p (fun x => match x with pat => k end))
  (at level 100, pat pattern, p at next level, right associativity) : go_scope.
Notation "p ;;; k" := (bind p (fun _ => k))
  (at level 100, right associativity) : go_scope.
(** [if err := p; err != nil { return Err (w err) }], else bind the value. *)
Notation "'try' x <- p 'else' w ;; k" :=
  (bind p (fun r => match r with Ok x => k | Err e => Ret (Err (w e)) end))
  (at level 100, x name, p at next level, w at level 0, right associativity) : go_scope.
#[global] Open Scope go_scope.

(** [for _, x := range l { body }], where [body] never leaves the loop. *)
Fixpoint for_each {A} (l : list A) (body : A -> prog unit) : prog unit :=
  match l with
  | [] => Ret tt
  | x :: l => body x ;;; for_each l body
  end.

(** ** Histories and executions *)

Inductive event : Type := Ev (c : call) (r : reply c).
Abbreviation history := (list event).

Definition environment : Type := history -> forall c, reply c.

Fixpoint run {A} (env : environment) (p : prog A) (h : history) : history * A :=
  match p with
  | Ret a => (h, a)
  | Do c k => let r := env h c in run env (k r) (Ev c r :: h)
  end.

(** Concrete environments, for evaluating programs: a fixed reply per call,
    overridden where an example needs another one. *)
Definition default_reply (c : call) : reply c :=
  match c return reply c with
  | CExec _ _ _ => XExit 0 "" ""
  | CStat _ => Err ENOENT
  | CNow => 0 | CSleep _ => tt
  | CReadFile _ => Err ENOENT | CWriteFile _ _ => Ok tt | CReadDir _ => Err ENOENT
  | CMkdirAll _ => Ok tt | CMkdir _ => Ok tt | CChmod _ => Ok tt | CCreate _ => Ok tt
  | CRemove _ => Ok tt | CRemoveAll _ => Ok tt | CRename _ _ => Ok tt
  | CTruncate _ _ => Ok tt | CStatfs _ => Err ENOENT | CGetenv _ => ""
  | CMkdirAllB _ _ => Done (Ok tt) | CRemoveB _ _ => Done (Ok tt)
  | CRemoveAllB _ _ => Done (Ok tt) | CBindB _ _ _ => Done (Ok tt)
  | CUnmountB _ _ _ => Done (Ok tt) | CStatB _ _ => Done (Err ENOENT)
  | CStatfsB _ _ => Done (Ok tt) | CReadDirB _ _ => Done (Ok [])
  | CReadDirRaw _ _ => ([], None) | COpenProbe _ => Ok tt
  | CReadDirRawB _ _ _ => Done (Ok []) | CMountedDeviceB _ _ => Done (Err ENOENT)
  | CWalkDir root => [VErr root ENOENT] | CInfo _ => Err ENOENT
  | CReadlink _ => Err ENOENT | CEvalSymlinks _ => Err ENOENT | CGlobFds => []
  | CReadMeta _ => Err ENOENT | CReadNameMap _ => Err ENOENT | CReadJson _ => Err ENOENT
  | CReadFileB _ _ => Done (Err ENOENT) | CKill _ => Ok tt | CLstat _ => Err ENOENT | CWriteNameMap _ _ => Ok tt
  | CRpc _ _ _ => RpcDone 200 BodyEmpty
  | CSetCacheDir _ => Ok tt | CGetCacheDir => ""
  | CHostMounts => None | CInvalidateMounts => tt
  | CAwaitDrain _ _ => false
  | CGetPV _ => Err KNotFound | CListPVs => Err KNotFound | CGetStorageClass _ => Err KNotFound
  | CGetSecret _ _ => Err KNotFound | CGetPVC _ _ => Err KNotFound | CGetPod _ _ => Err KNotFound
  | CListPods _ _ => Ok [] | CDeletePod _ _ _ => Ok tt | CGetCSINode _ => Err KNotFound
  | CEvent _ _ => tt
  | CDial _ _ => Ok tt
  | CListen _ _ => Ok tt | CSetCloexec _ => Ok tt | CServe => None
  | CDiverge _ => tt | CExit _ => tt
  end.
Definition quiet_env : environment := fun _ c => default_reply c.
Definition override_env (f : history -> forall c, option (reply c)) : environment :=
  fun h c => match f h c with Some r => r | None => default_reply c end.

(** [hist_ok G h]: every call of [h] satisfied [G] when it was made. *)
Fixpoint hist_ok (G : history -> call -> Prop) (h : history) : Prop :=
  match h with
  | [] => True
  | Ev c _ :: h' => G h' c /\ hist_ok G h'
  end.

(** ** The program logic

    [wpc G p Q h]: started after history [h], program [p] makes only calls
    allowed by [G], and ends in a result and history satisfying [Q], whatever
    the replies are. *)
Fixpoint wpc {A} (G : history -> call -> Prop) (p : prog A)
    (Q : history -> A -> Prop) (h : history) : Prop :=
  match p with
  | Ret a => Q h a
  | Do c k => G h c /\ forall r, wpc G (k r) Q (Ev c r :: h)
  end.

Definition anything : history -> call -> Prop := fun _ _ => True.

Lemma wpc_bind {A B} G (p : prog A) (f : A -> prog B) Q h :
  wpc G p (fun h' a => wpc G (f a) Q h') h -> wpc G (bind p f) Q h.
Proof.
  revert h. induction p as [a | c k IH]; cbn; intros h; [done |].
  intros [HG Hk]. split; [done |]. intros r. apply IH, Hk.
Qed.

Lemma wpc_mono {A} (G G' : history -> call -> Prop) (p : prog A)
    (Q Q' : history -> A -> Prop) h :
  wpc G p Q h ->
  (forall h c, G h c -> G' h c) ->
  (forall h a, Q h a -> Q' h a) ->
  wpc G' p Q' h.
Proof.
  intros Hp HG HQ. revert h Hp. induction p as [a | c k IH]; cbn; intros h.
  - apply HQ.
  - intros [Hc Hk]. split; [by apply HG |]. intros r. apply IH, Hk.
Qed.

Lemma wpc_post {A} G (p : prog A) (Q Q' : history -> A -> Prop) h :
  wpc G p Q h -> (forall h a, Q h a -> Q' h a) -> wpc G p Q' h.
Proof. intros Hp HQ. eapply wpc_mono; eauto. Qed.

Lemma wpc_perform G c (Q : history -> reply c -> Prop) h :
  G h c -> (forall r, Q (Ev c r :: h) r) -> wpc G (perform c) Q h.
Proof. intros HG HQ. cbn. by split. Qed.

(** Loop rule: an invariant on histories kept by the body. *)
Lemma wpc_for_each {A} G (l : list A) body (I : history -> Prop) h :
  I h ->
  (forall x h, x ∈ l -> I h -> wpc G (body x) (fun h' _ => I h') h) ->
  wpc G (for_each l body) (fun h' _ => I h') h.
Proof.
  revert h. induction l as [| x l IH]; intros h HI Hbody; [done |].
  cbn. apply wpc_bind. eapply wpc_post.
  - apply Hbody; [by left | done].
  - intros h' u HI'. apply IH; [done |].
    intros y h'' Hy HIy. apply Hbody; [by right | done].
Qed.

(** Adequacy: what the logic proves holds of every execution. *)
Lemma wpc_run {A} (env : environment) G (p : prog A) Q h :
  wpc G p Q h -> hist_ok G h ->
  hist_ok G (fst (run env p h)) /\ Q (fst (run env p h)) (snd (run env p h)).
Proof.
  revert h. induction p as [a | c k IH]; cbn; intros h Hp Hh; [done |].
  destruct Hp as [Hc Hk]. apply IH; [apply Hk |]. done.
Qed.

(** Every call made after history [h0] satisfied [G] when it was made. *)
Inductive ok_since (G : history -> call -> Prop) (h0 : history) : history -> Prop :=
  | since_here : ok_since G h0 h0
  | since_call c r h : G h c -> ok_since G h0 h -> ok_since G h0 (Ev c r :: h).

Lemma wpc_run_since {A} (env : environment) G (p : prog A) Q h0 h :
  wpc G p Q h -> ok_since G h0 h -> ok_since G h0 (fst (run env p h)).
Proof.
  revert h. induction p as [a | c k IH]; cbn; intros h Hp Hh; [done |].
  destruct Hp as [Hc Hk]. apply IH; [apply Hk | by constructor].
Qed.

Lemma wpc_run_post {A} (env : environment) (p : prog A) Q h :
  wpc anything p Q h ->
  Q (fst (run env p h)) (snd (run env p h)).
Proof.
  revert h. induction p as [a | c k IH]; cbn; intros h Hp; [done |].
  apply IH, Hp.
Qed.

Lemma wpc_trivial {A} (p : prog A) h : wpc anything p (fun _ _ => True) h.
Proof. revert h. induction p as [a | c k IH]; cbn; intros h; [done |]. split; [done | eauto]. Qed.

(** Histories only grow. *)
Lemma wpc_extends {A} G (p : prog A) Q h :
  wpc G p Q h -> wpc G p (fun h' a => h ⊆ h' /\ Q h' a) h.
Proof.
  revert h. induction p as [a | c k IH]; cbn; intros h Hp; [by split |].
  destruct Hp as [Hc Hk]. split; [done |]. intros r.
  eapply wpc_post; [apply IH, Hk |]. intros h' a [Hs Hq]. split; [| done].
  intros x Hx. apply Hs. by right.
Qed.

Lemma wpc_grows {A} G (p : prog A) Q h :
  wpc G p Q h -> wpc (fun h' c => h ⊆ h' /\ G h' c) p Q h.
Proof.
  intros Hp. assert (H0 : h ⊆ h) by done. revert H0 Hp. generalize h at 2 3 5 as h1.
  induction p as [a | c k IH]; cbn; intros h1 H1 Hp; [done |].
  destruct Hp as [Hc Hk]. split; [done |]. intros r. apply IH; [| apply Hk]. intros x Hx. right. auto.
Qed.

Lemma wpc_conj {A} G (p : prog A) (Q Q' : history -> A -> Prop) h :
  wpc G p Q h -> wpc anything p Q' h -> wpc G p (fun h a => Q h a /\ Q' h a) h.
Proof.
  revert h. induction p as [a | c k IH]; cbn; intros h; [done |].
  intros [Hc Hk] [_ Hk']. split; [done |]. auto.
Qed.

(** Calls that change something outside the process. *)
Definition mutates (c : call) : bool :=
  match c with
  | CExec _ _ _ | CWriteFile _ _ | CMkdirAll _ | CMkdir _ | CChmod _ | CCreate _ | CRemove _
  | CRemoveAll _ | CRename _ _ | CTruncate _ _ | CMkdirAllB _ _ | CRemoveB _ _ | CRemoveAllB _ _
  | CBindB _ _ _ | CUnmountB _ _ _ | CRpc _ _ _ | CSetCacheDir _ | CWriteNameMap _ _
  | CDeletePod _ _ _ | CEvent _ _ | CKill _ | CListen _ _ | CServe | CSetCloexec _ | CDiverge _ | CExit _ => true
  | _ => false
  end.
(** Guard: only looks. *)
Definition looks_only : history -> call -> Prop := fun _ c => mutates c = false.

Lemma wpc_looks {A} (G : history -> call -> Prop) (p : prog A) Q h :
  wpc looks_only p Q h -> (forall h c, mutates c = false -> G h c) -> wpc G p Q h.
Proof. intros H HG. eapply wpc_mono; [exact H | by auto | done]. Qed.

Lemma run_bind {A B} env (p : prog A) (f : A -> prog B) h :
  run env (bind p f) h = run env (f (snd (run env p h))) (fst (run env p h)).
Proof. revert h. induction p as [a | c k IH]; cbn; intros h; [done | apply IH]. Qed.

Lemma bind_assoc {A B C} (p : prog A) (f : A -> prog B) (g : B -> prog C) :
  forall env h, run env (bind (bind p f) g) h = run env (bind p (fun a => bind (f a) g)) h.
Proof. intros env h. by rewrite !run_bind. Qed.

(** ** Snapshot evaluation

    [eval f p]: the value of [p] when the world answers every call by [f] and
    does not change meanwhile.  For a program that only looks, [eval] is a
    pure reading of it. *)
Fixpoint eval {A} (f : forall c, reply c) (p : prog A) : A :=
  match p with Ret a => a | Do c k => eval f (k (f c)) end.

Lemma eval_run {A} f (p : prog A) h : (run (fun _ => f) p h).2 = eval f p.
Proof. revert h. induction p as [a | c k IH]; cbn; intros h; [done | apply IH]. Qed.
Lemma eval_bind {A B} f (p : prog A) (g : A -> prog B) : eval f (bind p g) = eval f (g (eval f p)).
Proof. induction p as [a | c k IH]; cbn; [done | apply IH]. Qed.
Lemma eval_perform f c : eval f (perform c) = f c.
Proof. done. Qed.

(** Every call of [p], in that world, satisfies [G]. *)
Fixpoint sok {A} (f : forall c, reply c) (G : call -> Prop) (p : prog A) : Prop :=
  match p with Ret _ => True | Do c k => G c /\ sok f G (k (f c)) end.

Lemma sok_bind {A B} f G (p : prog A) (g : A -> prog B) :
  sok f G (bind p g) <-> sok f G p /\ sok f G (g (eval f p)).
Proof.
  induction p as [a | c k IH]; cbn; [tauto |]. rewrite IH. tauto.
Qed.
Lemma sok_for_each {A} f G (l : list A) body :
  (forall x, x ∈ l -> sok f G (body x)) -> sok f G (for_each l body).
Proof.
  induction l as [| x l IH]; intros H; cbn; [done |].
  apply sok_bind. split; [apply H; by left | apply IH; intros y Hy; apply H; by right].
Qed.
Lemma sok_mono {A} f (G G' : call -> Prop) (p : prog A) :
  sok f G p -> (forall c, G c -> G' c) -> sok f G' p.
Proof. intros H HG. induction p as [a | c k IH]; cbn in *; [done |]. destruct H; auto. Qed.
Lemma sok_wpc {A} f (G : call -> Prop) (p : prog A) h Q :
  wpc (fun _ => G) p Q h -> sok f G p.
Proof. revert h. induction p as [a | c k IH]; cbn; intros h; [done |]. intros [Hc Hk]. eauto. Qed.

Lemma sok_run {A} f G (p : prog A) h c r :
  sok f G p -> Ev c r ∈ (run (fun _ => f) p h).1 -> Ev c r ∈ h \/ G c.
Proof.
  revert h. induction p as [a | d k IH]; cbn; intros h; [by left |]. intros [Hd Hk] Hin.
  destruct (IH _ _ Hk Hin) as [[E | Hin']%elem_of_cons | HG]; [right | by left | by right].
  pose (call_of := fun e : event => match e with Ev c _ => c end).
  apply (f_equal call_of) in E. cbn in E. by subst.
Qed.

(** ** Programs that make only some calls

    [only P p]: whatever the replies, every call of [p] satisfies [P]. *)
Fixpoint only {A} (P : call -> Prop) (p : prog A) : Prop :=
  match p with Ret _ => True | Do c k => P c /\ forall r, only P (k r) end.

Lemma only_bind {A B} P (p : prog A) (f : A -> prog B) :
  only P p -> (forall a, only P (f a)) -> only P (bind p f).
Proof. intros Hp Hf. induction p as [a | c k IH]; cbn in *; [done |]. destruct Hp. split; auto. Qed.
Lemma only_perform (P : call -> Prop) c : P c -> only P (perform c).
Proof. done. Qed.
Lemma only_for_each {A} P (l : list A) body : (forall x, only P (body x)) -> only P (for_each l body).
Proof. intros H. induction l as [| x l IH]; cbn; [done |]. by apply only_bind. Qed.
Lemma only_mono {A} (P P' : call -> Prop) (p : prog A) : only P p -> (forall c, P c -> P' c) -> only P' p.
Proof. intros Hp HP. induction p as [a | c k IH]; cbn in *; [done |]. destruct Hp. split; auto. Qed.

(** What such a program adds to a history. *)
Lemma wpc_only {A} (P : call -> Prop) (p : prog A) Q h :
  only P p -> wpc anything p Q h ->
  wpc (fun h' c => ok_since (fun _ => P) h h' /\ P c) p (fun h' a => ok_since (fun _ => P) h h' /\ Q h' a) h.
Proof.
  intros Hp Hq. assert (H0 : ok_since (fun _ => P) h h) by constructor.
  revert H0 Hq. generalize h at 2 3 6 as h1. induction p as [a | c k IH]; cbn in *; intros h1 H1 Hq; [done |].
  destruct Hp as [Hc Hk], Hq as [_ Hq]. split; [done |]. intros r. apply IH; [done | by constructor | apply Hq].
Qed.
Lemma since_trans G h1 h2 h3 : ok_since G h1 h2 -> ok_since G h2 h3 -> ok_since G h1 h3.
Proof. induction 2; [done | by constructor]. Qed.
Lemma since_mono (G G' : history -> call -> Prop) h h' :
  (forall h c, G h c -> G' h c) -> ok_since G h h' -> ok_since G' h h'.
Proof. intros HG. induction 1; constructor; auto. Qed.
Lemma since_hist_ok G h : ok_since G [] h -> hist_ok G h.
Proof. induction 1; by split. Qed.
(** A guard kept, as a fact about the history. *)
Lemma wpc_since {A} G (p : prog A) Q h :
  wpc G p Q h -> wpc anything p (fun h' a => ok_since G h h' /\ Q h' a) h.
Proof.
  intros Hp. assert (H0 : ok_since G h h) by constructor. revert H0 Hp. generalize h at 2 3 5 as h1.
  induction p as [a | c k IH]; cbn; intros h1 H1 Hp; [done |].
  destruct Hp as [Hc Hk]. split; [done |]. intros r. apply IH; [by constructor | apply Hk].
Qed.
Lemma since_subset G h h' : ok_since G h h' -> h ⊆ h'.
Proof. induction 1; [done |]. intros x Hx. right. auto. Qed.
Lemma since_elem (P : call -> Prop) h h' c r : ok_since (fun _ => P) h h' -> Ev c r ∈ h' -> Ev c r ∈ h \/ P c.
Proof.
  induction 1 as [| d q h2 Hd _ IH]; [by left |]. intros [E | Hin]%elem_of_cons; [| by apply IH].
  right. apply (f_equal (fun e : event => match e with Ev c _ => c end)) in E. cbn in E. by subst.
Qed.

(** ** Order

    [ordered [P; Q; ..] h]: the history falls into consecutive stretches, [P]
    of the first, [Q] of what came after it, and so on. *)
Fixpoint ordered (Ps : list (history -> Prop)) (h : history) : Prop :=
  match Ps with
  | [] => True
  | P :: Ps => exists h1 h2, h = h2 ++ h1 /\ P h1 /\ ordered Ps h2
  end.

(** Evidence is what more events cannot take away; what only looks at the order
    of events persists at least when older ones are added. *)
Definition evidence (P : history -> Prop) : Prop := forall h h', h ⊆ h' -> P h -> P h'.
Definition persists (P : history -> Prop) : Prop := forall l h, P l -> P (l ++ h).

Lemma evidence_persists P : evidence P -> persists P.
Proof. intros HP l h. apply HP. intros x ?. apply elem_of_app. by left. Qed.
Lemma ordered_persists P Ps : persists P -> persists (ordered (P :: Ps)).
Proof. intros HP l h (h1 & h2 & -> & H1 & H2). exists (h1 ++ h), h2. rewrite app_assoc. auto. Qed.

Lemma ordered_later Ps l h : ordered Ps h -> ordered Ps (l ++ h).
Proof.
  revert h. induction Ps as [| P Ps IH]; intros h; [done |]. intros (h1 & h2 & -> & HP & H).
  exists h1, (l ++ h2). split; [by rewrite app_assoc |]. auto.
Qed.
Lemma ordered_suffix Ps h h' : h `suffix_of` h' -> ordered Ps h -> ordered Ps h'.
Proof. intros [l ->]. apply ordered_later. Qed.
Lemma ordered_then Ps P h l : persists P -> ordered Ps h -> P l -> ordered (Ps ++ [P]) (l ++ h).
Proof.
  intros HP. revert h. induction Ps as [| Q Ps IH]; intros h; cbn [app ordered].
  - intros _ Hl. exists (l ++ h), []. auto.
  - intros (h1 & h2 & -> & HQ & H) Hl. exists h1, (l ++ h2). split; [by rewrite app_assoc |]. auto.
Qed.
Lemma ordered_one (P : history -> Prop) h : P h -> ordered [P] h.
Proof. intros H. by exists h, []. Qed.
Lemma ordered_mono Ps Ps' h : Forall2 (fun P P' => forall h, P h -> P' h) Ps Ps' -> ordered Ps h -> ordered Ps' h.
Proof.
  intros HF. revert h. induction HF as [| P P' Ps Ps' HP _ IH]; intros h; [done |].
  intros (h1 & h2 & -> & H1 & H2). exists h1, h2. auto.
Qed.

(** What a program does whatever came before it, as a stretch of the history. *)
Lemma wpc_shift {A} (p : prog A) (P : history -> A -> Prop) h0 h :
  wpc anything p P h0 -> wpc anything p (fun h' a => exists l, h' = l ++ h /\ P l a) (h0 ++ h).
Proof.
  revert h0. induction p as [a | c k IH]; cbn; intros h0; [by exists h0 |].
  intros [_ Hk]. split; [done |]. intros r. apply (IH r (Ev c r :: h0)), Hk.
Qed.
Lemma wpc_stretch {A} G (p : prog A) Q (P : history -> A -> Prop) h :
  wpc G p Q h -> wpc anything p P [] -> wpc G p (fun h' a => Q h' a /\ exists l, h' = l ++ h /\ P l a) h.
Proof. intros HQ HP. apply wpc_conj; [done |]. by apply (wpc_shift p P []). Qed.
(** A program proved on its own, run after [h]. *)
Lemma wpc_frame {A} (P G : history -> call -> Prop) (p : prog A) (R : history -> A -> Prop) h :
  wpc P p R [] -> (forall l c, P l c -> G (l ++ h) c) ->
  wpc G p (fun h' a => exists l, h' = l ++ h /\ R l a) h.
Proof.
  intros Hp HG. change h with ([] ++ h) at 2. revert Hp. generalize (@nil event) as l0.
  induction p as [a | c k IH]; cbn; intros l0; [by exists l0 |].
  intros [Hc Hk]. split; [by apply HG |]. intros r. apply (IH r (Ev c r :: l0)), Hk.
Qed.
Lemma wpc_any {A} G (p : prog A) Q h : wpc G p Q h -> wpc anything p Q h.
Proof. intros H. by eapply wpc_mono. Qed.

Lemma wpc_suffix {A} (p : prog A) h : wpc anything p (fun h' _ => h `suffix_of` h') h.
Proof.
  eapply wpc_post; [apply (wpc_shift p (fun _ _ => True) [] h), wpc_trivial |]. intros h' a (l & -> & _). by exists l.
Qed.

Create HintDb only discriminated.
#[export] Hint Resolve only_perform : only.

(** Case analysis down to the calls; [tac] decides [P] of one. *)
Ltac only_with tac := repeat first
  [ solve [auto 2 with only] | apply only_bind | apply only_for_each | progress cbn zeta
  | match goal with
    | |- forall _, _ => intros ?
    | |- only _ (Ret _) => exact I
    | |- only _ (perform _) => apply only_perform; tac
    | |- only _ (match ?x with _ => _ end) => destruct x
    end ].

(** ** Automation for [wpc] goals *)

#[export] Hint Unfold anything : go.

(** One symbolic-execution step: enter a bind, perform a call, return, or
    case on the value the program branches on. *)
Ltac wp_step :=
  lazymatch goal with
  | |- wpc _ (bind _ _) _ _ => apply wpc_bind
  | |- wpc _ (perform _) _ _ => apply wpc_perform; [try done | intros ?]
  | |- wpc _ (Ret _) _ _ => cbn [wpc]
  | |- wpc _ (Do _ _) _ _ => cbn [wpc]; split; [try done | intros ?]
  | |- wpc _ (match ?x with _ => _ end) _ _ => destruct x eqn:?
  | |- wpc _ (let '_ := ?x in _) _ _ => destruct x eqn:?
  end; cbn beta iota.
Ltac wp := repeat wp_step.

(** Use a specification already proved for the program at the head. *)
Tactic Notation "wp_use" uconstr(H) :=
  first [ eapply wpc_post; [ eapply H | ] | eapply wpc_mono; [ eapply H | | ] ].

(** Solve [h ⊆ h'] along the extensions of the context. *)
Ltac sub :=
  let e := fresh "e" in let He := fresh "He" in
  cbn beta in *; intros e He;
  solve [repeat first [ exact He
               | match goal with H : _ ⊆ ?h |- e ∈ ?h => apply H end
               | right ]].
