(* ===== verification/GoStrings.v ===== *)
(** * GoStrings: Go's strings, strconv and path/filepath on byte strings

    The parts of the Go standard library the driver's parsers and name
    builders use, on [string] as a sequence of bytes.  Case folding and white
    space are the ASCII ones: every text the driver parses with them (mount
    tables, command output, rclone errors, sizes and durations) is ASCII. *)

From Stdlib Require Import Ascii DecimalString DecimalZ DecimalPos DecimalN DecimalFacts.
From S2P Require Import Prelude.

#[global] Open Scope string_scope.
#[global] Open Scope list_scope.
#[global] Open Scope Z_scope.

Infix "+s+" := String.append (at level 60, right associativity) : string_scope.
#[global] Arguments String.append !_ _ : simpl nomatch.

(** ** Prefixes, searching and cutting *)

Fixpoint cut_prefix (p s : string) : option string :=
  match p, s with
  | EmptyString, _ => Some s
  | String a p, String b s => if Ascii.eqb a b then cut_prefix p s else None
  | String _ _, EmptyString => None
  end.

Definition has_prefix (p s : string) : bool :=
  match cut_prefix p s with Some _ => true | None => false end.

(** [strings.Cut(s, sep)]. *)
Fixpoint cut (sep s : string) : option (string * string) :=
  match cut_prefix sep s with
  | Some rest => Some ("", rest)
  | None =>
      match s with
      | EmptyString => None
      | String c s' =>
          match cut sep s' with
          | Some (a, b) => Some (String c a, b)
          | None => None
          end
      end
  end.

(** [strings.Contains(s, sub)]. *)
Definition contains (s sub : string) : bool :=
  match cut sub s with Some _ => true | None => false end.

(** The text before and after the last occurrence of [sep]
    ([strings.LastIndex]). *)
Fixpoint cut_last (sep s : string) : option (string * string) :=
  match s with
  | EmptyString => match sep with EmptyString => Some ("", "") | _ => None end
  | String c s' =>
      match cut_last sep s' with
      | Some (a, b) => Some (String c a, b)
      | None =>
          match cut_prefix sep s with
          | Some rest => Some ("", rest)
          | None => None
          end
      end
  end.

(** ** Splitting, joining, trimming *)

(** [strings.Split(s, sep)] for a one-byte separator. *)
Fixpoint split (sep : ascii) (s : string) : list string :=
  match s with
  | EmptyString => [EmptyString]
  | String c s' =>
      if Ascii.eqb c sep then EmptyString :: split sep s'
      else match split sep s' with
           | w :: ws => String c w :: ws
           | [] => [String c EmptyString]
           end
  end.

(** [strings.Join(l, sep)]. *)
Fixpoint join (sep : string) (l : list string) : string :=
  match l with
  | [] => ""
  | [x] => x
  | x :: l => x +s+ sep +s+ join sep l
  end.

Definition nl : ascii := "010".
Definition tab : ascii := "009".

(** [unicode.IsSpace] of a byte below 128. *)
Definition is_ascii (c : ascii) : bool := match c with Ascii _ _ _ _ _ _ _ b7 => negb b7 end.
Definition is_space (c : ascii) : bool :=
  Ascii.eqb c " " || Ascii.eqb c "009" || Ascii.eqb c "010"
  || Ascii.eqb c "011" || Ascii.eqb c "012" || Ascii.eqb c "013".

(** The other runes [unicode.IsSpace] accepts, in UTF-8: U+0085 and U+00A0;
    U+1680, U+2000 to U+200A, U+2028, U+2029, U+202F, U+205F and U+3000. *)
Definition space2 (c d : ascii) : bool :=
  Ascii.eqb c "194" && (Ascii.eqb d "133" || Ascii.eqb d "160").
Definition space3 (c d e : ascii) : bool :=
  Ascii.eqb c "225" && Ascii.eqb d "154" && Ascii.eqb e "128"
  || Ascii.eqb c "226" && Ascii.eqb d "128"
     && ((128 <=? nat_of_ascii e)%nat && (nat_of_ascii e <=? 138)%nat
         || Ascii.eqb e "168" || Ascii.eqb e "169" || Ascii.eqb e "175")
  || Ascii.eqb c "226" && Ascii.eqb d "129" && Ascii.eqb e "159"
  || Ascii.eqb c "227" && Ascii.eqb d "128" && Ascii.eqb e "128".

(** The bytes of the white space [s] starts with, 0 if it does not.  The first
    byte of such a rune is never inside another one, so trying at every byte
    finds what decoding rune by rune finds. *)
Definition space_len (s : string) : nat :=
  match s with
  | "" => 0
  | String c s1 =>
      if is_space c then 1
      else match s1 with
           | "" => 0
           | String d s2 =>
               if space2 c d then 2
               else match s2 with
                    | "" => 0
                    | String e _ => if space3 c d e then 3 else 0
                    end
           end
  end.
Fixpoint has_space (s : string) : bool :=
  match s with
  | "" => false
  | String _ s' => (0 <? space_len s)%nat || has_space s'
  end.

(** [strings.Fields(s)]: [w] is the word being read, [skip] the bytes left of
    the white space being passed. *)
Fixpoint fields_from (skip : nat) (w s : string) : list string :=
  match s with
  | EmptyString => if decide (w = "") then [] else [w]
  | String c s' =>
      match skip with
      | S n => fields_from n w s'
      | O =>
          match space_len s with
          | O => fields_from 0 (w +s+ String c "") s'
          | S n => if decide (w = "") then fields_from n "" s' else w :: fields_from n "" s'
          end
      end
  end.
Definition fields (s : string) : list string := fields_from 0 "" s.

Fixpoint trim_left_from (skip : nat) (s : string) : string :=
  match s with
  | EmptyString => ""
  | String c s' =>
      match skip with
      | S n => trim_left_from n s'
      | O => match space_len s with O => s | S n => trim_left_from n s' end
      end
  end.
Definition trim_left (s : string) : string := trim_left_from 0 s.

Fixpoint all_space_from (skip : nat) (s : string) : bool :=
  match s with
  | EmptyString => true
  | String c s' =>
      match skip with
      | S n => all_space_from n s'
      | O => match space_len s with O => false | S n => all_space_from n s' end
      end
  end.
Fixpoint trim_right (s : string) : string :=
  match s with
  | EmptyString => ""
  | String c s' => if all_space_from 0 s then "" else String c (trim_right s')
  end.
(** [strings.TrimSpace(s)]. *)
Definition trim_space (s : string) : string := trim_right (trim_left s).

(** [strings.ReplaceAll(s, c, by)] for a one-byte [c]. *)
Fixpoint replace_char (c : ascii) (by_ s : string) : string :=
  match s with
  | EmptyString => ""
  | String x s' => if Ascii.eqb x c then by_ +s+ replace_char c by_ s'
                   else String x (replace_char c by_ s')
  end.

Fixpoint string_exists (f : ascii -> bool) (s : string) : bool :=
  match s with
  | EmptyString => false
  | String c s' => f c || string_exists f s'
  end.

Fixpoint mem_char (c : ascii) (s : string) : bool :=
  match s with EmptyString => false | String x s' => Ascii.eqb x c || mem_char c s' end.

(** [strings.ContainsAny(s, chars)]. *)
Definition contains_any (s chars : string) : bool :=
  string_exists (fun c => mem_char c chars) s.

Definition lower_ascii (c : ascii) : ascii :=
  let n := N_of_ascii c in
  if ((65 <=? n) && (n <=? 90))%N then ascii_of_N (n + 32) else c.
(** [strings.ToLower(s)]. *)
Fixpoint to_lower (s : string) : string :=
  match s with EmptyString => "" | String c s' => String (lower_ascii c) (to_lower s') end.

(** [strings.NewReplacer] over escapes: at each position the first pattern
    (in argument order) that matches is replaced, and scanning goes on after
    it.  [skip] bytes of the current match are still to be passed over. *)
Fixpoint first_match (pats : list (string * string)) (s : string) : option (nat * string) :=
  match pats with
  | [] => None
  | (p, by_) :: pats =>
      if has_prefix p s then Some (String.length p, by_) else first_match pats s
  end.
Fixpoint replacer (pats : list (string * string)) (skip : nat) (s : string) : string :=
  match s with
  | EmptyString => ""
  | String c s' =>
      match skip with
      | S k => replacer pats k s'
      | O => match first_match pats s with
             | Some (S k, by_) => by_ +s+ replacer pats k s'
             | _ => String c (replacer pats 0 s')
             end
      end
  end.

(** The last byte of a string and what precedes it ([s[len(s)-1]], [s[:len(s)-1]]). *)
Fixpoint last_byte (s : string) : option (string * ascii) :=
  match s with
  | EmptyString => None
  | String c EmptyString => Some ("", c)
  | String c s' => match last_byte s' with
                   | Some (i, l) => Some (String c i, l)
                   | None => None
                   end
  end.

(** ** Numbers *)

(** [fmt.Sprintf("%d", z)]. *)
Definition format_int (z : Z) : string := NilZero.string_of_int (Z.to_int z).

Definition parse_digits (s : string) : option Z :=
  match NilZero.uint_of_string s with
  | Some u => Some (Z.of_uint u)
  | None => None
  end.

Definition range64 (o : option Z) : option Z :=
  match o with Some z => if in_int64b z then Some z else None | None => None end.

(** [strconv.ParseInt(s, 10, 64)] and [strconv.Atoi(s)]. *)
Definition parse_int (s : string) : option Z :=
  range64 match s with
    | String "+" r => parse_digits r
    | String "-" r => option_map Z.opp (parse_digits r)
    | _ => parse_digits s
    end.

Definition is_digit (c : ascii) : bool :=
  let n := N_of_ascii c in ((48 <=? n) && (n <=? 57))%N.

Fixpoint digit_prefix (s : string) : string :=
  match s with
  | String c s' => if is_digit c then String c (digit_prefix s') else ""
  | EmptyString => ""
  end.

(** [fmt.Sscanf(s, "%d", &n)]: an optional sign and the longest run of
    digits; what follows them is ignored. *)
Definition sscanf_d (s : string) : option Z :=
  match s with
  | String "+" r => range64 (parse_digits (digit_prefix r))
  | String "-" r => range64 (option_map Z.opp (parse_digits (digit_prefix r)))
  | _ => range64 (parse_digits (digit_prefix s))
  end.

(** ** Paths *)

Definition slash : ascii := "/".

(** [filepath.Clean]: the component stack, innermost first. *)
Fixpoint clean_comps (rooted : bool) (st comps : list string) : list string :=
  match comps with
  | [] => st
  | c :: cs =>
      if decide (c = "") then clean_comps rooted st cs
      else if decide (c = ".") then clean_comps rooted st cs
      else if decide (c = "..") then
        match st with
        | [] => clean_comps rooted (if rooted then [] else [".."]) cs
        | t :: st' => if decide (t = "..") then clean_comps rooted (".." :: st) cs
                      else clean_comps rooted st' cs
        end
      else clean_comps rooted (c :: st) cs
  end.
Definition clean (p : string) : string :=
  if decide (p = "") then "."
  else
    let rooted := has_prefix "/" p in
    let out := join "/" (rev (clean_comps rooted [] (split slash p))) in
    if rooted then "/" +s+ out
    else if decide (out = "") then "." else out.

(** [filepath.Join(elems...)]. *)
Definition path_join (l : list string) : string :=
  match List.filter (fun e => negb (bool_decide (e = ""))) l with
  | [] => ""
  | l => clean (join "/" l)
  end.

(** [filepath.Dir(p)] and [filepath.Base(p)]. *)
Definition path_dir (p : string) : string :=
  match cut_last "/" p with
  | Some (d, _) => clean (d +s+ "/")
  | None => "."
  end.
Fixpoint trim_slashes (s : string) : string :=
  match s with
  | EmptyString => ""
  | String c s' =>
      match trim_slashes s' with
      | EmptyString => if Ascii.eqb c slash then "" else String c ""
      | t => String c t
      end
  end.
Definition path_base (p : string) : string :=
  if decide (p = "") then "."
  else match trim_slashes p with
       | EmptyString => "/"
       | t => match cut_last "/" t with Some (_, b) => b | None => t end
       end.

Example path_examples :
  path_join ["/a/b/"; "c"] = "/a/b/c" /\ path_join ["/a"; "../b"] = "/b"
  /\ path_dir "/a/b/c" = "/a/b" /\ path_base "/a/b/c/" = "c" /\ clean "a//./b/.." = "a"
  /\ path_dir "/a" = "/" /\ clean "" = ".".
Proof. vm_compute. repeat split. Qed.

Example split_examples :
  split ":" "a:b:" = ["a"; "b"; ""] /\ fields "  a b	c " = ["a"; "b"; "c"]
  /\ trim_space "  a b " = "a b" /\ parse_int "-12" = Some (-12)
  /\ parse_int "12x" = None /\ sscanf_d "12x" = Some 12 /\ format_int (-7) = "-7"
  /\ cut ":" "ab:c:d" = Some ("ab", "c:d") /\ cut_last ":" "ab:c:d" = Some ("ab:c", "d").
Proof. vm_compute. repeat split. Qed.

Example unicode_spaces :
  let nbsp := String "194" (String "160" "") in let ideographic := String "227" (String "128" (String "128" "")) in
  fields ("a" +s+ nbsp +s+ "b" +s+ ideographic) = ["a"; "b"]
  /\ trim_space (ideographic +s+ "a" +s+ nbsp +s+ "b" +s+ nbsp +s+ " ") = "a" +s+ nbsp +s+ "b"
  /\ fields (String "226" (String "130" (String "172" ""))) = [String "226" (String "130" (String "172" ""))].
Proof. vm_compute. repeat split. Qed.

(** ** Lemmas *)

Lemma sapp_assoc a b c : (a +s+ b) +s+ c = a +s+ (b +s+ c).
Proof. induction a as [| x a IH]; cbn; [done | by rewrite IH]. Qed.
Lemma sapp_nil_r a : a +s+ "" = a.
Proof. induction a as [| x a IH]; cbn; [done | by rewrite IH]. Qed.
Lemma sapp_inj_l a b c : a +s+ b = a +s+ c -> b = c.
Proof. induction a as [| x a IH]; cbn; [done |]. intros [=]. auto. Qed.
Lemma slen_app a b : String.length (a +s+ b) = (String.length a + String.length b)%nat.
Proof. induction a as [| x a IH]; cbn; [done | by rewrite IH]. Qed.
Create Rewrite HintDb gostr.
#[export] Hint Rewrite sapp_assoc sapp_nil_r slen_app : gostr.

Lemma cut_prefix_app p s : cut_prefix p (p +s+ s) = Some s.
Proof. induction p as [| x p IH]; cbn; [done |]. by rewrite Ascii.eqb_refl. Qed.

Lemma cut_prefix_Some p s r : cut_prefix p s = Some r <-> s = p +s+ r.
Proof.
  split; [| intros ->; apply cut_prefix_app].
  revert s. induction p as [| x p IH]; intros s; cbn; [by intros [=] |].
  destruct s as [| y s]; [done |].
  destruct (Ascii.eqb_spec x y) as [-> |]; [| done].
  intros H%IH. by subst.
Qed.

Lemma has_prefix_app p s : has_prefix p (p +s+ s) = true.
Proof. unfold has_prefix. by rewrite cut_prefix_app. Qed.

Lemma has_prefix_true p s : has_prefix p s = true <-> exists r, s = p +s+ r.
Proof.
  unfold has_prefix. destruct (cut_prefix p s) as [r |] eqn:E.
  - apply cut_prefix_Some in E as ->. split; [by exists r | done].
  - split; [done |]. intros [r ->]. by rewrite cut_prefix_app in E.
Qed.

Lemma has_prefix_trans a b c :
  has_prefix a b = true -> has_prefix b c = true -> has_prefix a c = true.
Proof.
  rewrite !has_prefix_true. intros [r ->] [r' ->]. exists (r +s+ r').
  by rewrite sapp_assoc.
Qed.

Lemma cut_Some sep s a b : cut sep s = Some (a, b) -> s = a +s+ sep +s+ b.
Proof.
  revert a b. induction s as [| c s IH]; intros a b; cbn.
  - destruct (cut_prefix sep "") as [r |] eqn:E; [| done].
    apply cut_prefix_Some in E. by intros [= <- <-].
  - destruct (cut_prefix sep (String c s)) as [r |] eqn:E.
    + apply cut_prefix_Some in E. by intros [= <- <-].
    + destruct (cut sep s) as [[a' b'] |] eqn:E2; [| done].
      intros [= <- <-]. cbn. by rewrite (IH _ _ eq_refl).
Qed.

Lemma cut_first_char c r a b :
  mem_char c a = false -> cut (String c r) (a +s+ String c r +s+ b) = Some (a, b).
Proof.
  induction a as [| x a IH]; intros Ha.
  - cbn [String.append]. unfold cut; fold cut.
    change (String c (r +s+ b)) with (String c r +s+ b).
    rewrite cut_prefix_app. by destruct (String c r +s+ b).
  - cbn in Ha. apply orb_false_iff in Ha as [Hx Ha]. cbn.
    rewrite Ascii.eqb_sym, Hx. cbn in IH. by rewrite IH.
Qed.

Lemma cut_no_char c r s : mem_char c s = false -> cut (String c r) s = None.
Proof.
  induction s as [| x s IH]; cbn; [done |]. intros [Hx Hs]%orb_false_iff.
  by rewrite Ascii.eqb_sym, Hx, IH.
Qed.

(** Before the first occurrence of a character there is none. *)
Lemma cut_char_before c s a b : cut (String c "") s = Some (a, b) -> mem_char c a = false.
Proof.
  revert a. induction s as [| x s IH]; intros a; cbn; [done |].
  destruct (Ascii.eqb c x) eqn:E; [by intros [= <- _] |].
  destruct (cut (String c "") s) as [[a' b'] |]; [| done]. intros [= <- ->].
  cbn. rewrite Ascii.eqb_sym, E. by apply IH.
Qed.

Lemma contains_app a sub b : contains (a +s+ sub +s+ b) sub = true.
Proof.
  unfold contains. induction a as [| x a IH].
  - cbn [String.append]. destruct (sub +s+ b) as [| c s] eqn:E;
      unfold cut; fold cut; rewrite <- E, cut_prefix_app; done.
  - cbn. destruct (cut_prefix sub _); [done |].
    by destruct (cut sub (a +s+ sub +s+ b)) as [[] |].
Qed.

Lemma contains_true s sub :
  contains s sub = true <-> exists a b, s = a +s+ sub +s+ b.
Proof.
  split; [| intros (a & b & ->); apply contains_app].
  unfold contains. destruct (cut sub s) as [[a b] |] eqn:E; [| done].
  intros _. exists a, b. by apply cut_Some.
Qed.

Lemma contains_prefix s sub : has_prefix sub s = true -> contains s sub = true.
Proof.
  rewrite has_prefix_true, contains_true. intros [r ->]. by exists "", r.
Qed.

Lemma mem_char_app c a b : mem_char c (a +s+ b) = mem_char c a || mem_char c b.
Proof. induction a as [| x a IH]; cbn; [done |]. by rewrite IH, orb_assoc. Qed.

Lemma split_no_sep sep s : mem_char sep s = false -> split sep s = [s].
Proof.
  induction s as [| x s IH]; cbn; [done |]. intros [-> Hs]%orb_false_iff. by rewrite IH.
Qed.

Lemma split_app sep a b :
  mem_char sep a = false -> split sep (a +s+ String sep b) = a :: split sep b.
Proof.
  induction a as [| x a IH]; cbn.
  - by rewrite Ascii.eqb_refl.
  - intros [-> Ha]%orb_false_iff. by rewrite (IH Ha).
Qed.

Lemma split_not_nil sep s : split sep s <> [].
Proof. destruct s as [| x s]; cbn; [done |]. destruct (Ascii.eqb x sep); [done |]. by destruct (split sep s). Qed.

Lemma split_elem_no_sep sep s w : w ∈ split sep s -> mem_char sep w = false.
Proof.
  revert w. induction s as [| x s IH]; cbn; intros w.
  - rewrite list_elem_of_singleton. by intros ->.
  - destruct (Ascii.eqb x sep) eqn:Ex.
    + intros [-> | Hw]%elem_of_cons; [done | auto].
    + destruct (split sep s) as [| w' ws] eqn:E; [by apply split_not_nil in E |].
      intros [-> | Hw]%elem_of_cons; cbn.
      * rewrite Ex. apply IH. by left.
      * apply IH. by right.
Qed.

Lemma cut_last_Some sep s a b : cut_last sep s = Some (a, b) -> s = a +s+ sep +s+ b.
Proof.
  revert a b. induction s as [| c s IH]; intros a b; cbn.
  - destruct sep; [by intros [= <- <-] | done].
  - destruct (cut_last sep s) as [[a' b'] |] eqn:E.
    + intros [= <- <-]. cbn. by rewrite (IH _ _ eq_refl).
    + destruct (cut_prefix sep (String c s)) as [r |] eqn:E2; [| done].
      apply cut_prefix_Some in E2. by intros [= <- <-].
Qed.

Lemma cut_last_no_char c r s : mem_char c s = false -> cut_last (String c r) s = None.
Proof.
  induction s as [| x s IH]; cbn; [done |]. intros [Hx Hs]%orb_false_iff.
  by rewrite IH, Ascii.eqb_sym, Hx.
Qed.

Lemma cut_last_app c r a b :
  mem_char c (r +s+ b) = false ->
  cut_last (String c r) (a +s+ String c r +s+ b) = Some (a, b).
Proof.
  intros Hb. induction a as [| x a IH].
  - cbn [String.append cut_last]. rewrite cut_last_no_char by done.
    change (String c (r +s+ b)) with (String c r +s+ b). by rewrite cut_prefix_app.
  - cbn [String.append cut_last]. cbn in IH. by rewrite IH.
Qed.

(** ** Number round trips *)

Lemma parse_digits_nonneg s z : parse_digits s = Some z -> 0 <= z.
Proof.
  unfold parse_digits. destruct (NilZero.uint_of_string s); [| done].
  intros [= <-]. unfold Z.of_uint. lia.
Qed.

Lemma range64_Some o z : range64 o = Some z <-> o = Some z /\ in_int64 z.
Proof.
  destruct o as [x |]; cbn; [| split; [done | by intros [? _]]].
  rewrite <- in_int64b_spec. destruct (in_int64b x) eqn:E.
  - split; [by intros [= ->] | by intros [[= ->] _]].
  - split; [done | intros [[= ->] ?]; congruence].
Qed.

Lemma parse_int_range s z : parse_int s = Some z -> in_int64 z.
Proof. unfold parse_int. by intros [_ ?]%range64_Some. Qed.

Lemma sscanf_d_range s z : sscanf_d s = Some z -> in_int64 z.
Proof.
  unfold sscanf_d. intros H.
  destruct s as [| [[] [] [] [] [] [] [] []] s]; by apply range64_Some in H as [_ ?].
Qed.

(** *** White space *)

Lemma string_exists_app f a b : string_exists f (a +s+ b) = string_exists f a || string_exists f b.
Proof. induction a as [| c a IH]; cbn; [done |]. by rewrite IH, orb_assoc. Qed.

(** An ASCII byte is no part of a longer white space. *)
Lemma space2_high c d : space2 c d = true -> is_ascii c = false /\ is_ascii d = false.
Proof.
  unfold space2. rewrite andb_true_iff, orb_true_iff, !Ascii.eqb_eq. by intros [-> [-> | ->]].
Qed.
Lemma space3_high c d e : space3 c d e = true -> is_ascii c = false /\ is_ascii d = false /\ is_ascii e = false.
Proof.
  assert (He : (128 <=? nat_of_ascii e)%nat = true -> is_ascii e = false) by (by destruct e as [[] [] [] [] [] [] [] []]).
  unfold space3. repeat rewrite orb_true_iff. repeat rewrite andb_true_iff. repeat rewrite orb_true_iff. repeat rewrite andb_true_iff.
  rewrite !Ascii.eqb_eq. intuition (subst; auto).
Qed.

Lemma space_len_ascii c s : is_ascii c = true -> space_len (String c s) = if is_space c then 1%nat else 0%nat.
Proof.
  intros Hc. cbn. destruct (is_space c); [done |]. destruct s as [| d s]; [done |].
  destruct (space2 c d) eqn:E; [by apply space2_high in E as [E _]; rewrite E in Hc |].
  destruct s as [| e s]; [done |]. by destruct (space3 c d e) eqn:E3; [apply space3_high in E3 as [E3 _]; rewrite E3 in Hc |].
Qed.
Lemma space_len_app a c b : is_ascii c = true -> a <> "" -> space_len (a +s+ String c b) = space_len a.
Proof.
  intros Hc Ha. destruct a as [| x a]; [done |]. cbn. destruct (is_space x); [done |].
  destruct a as [| y a]; cbn.
  - destruct (space2 x c) eqn:E; [by apply space2_high in E as [_ E]; rewrite E in Hc |].
    destruct b as [| e b]; [done |]. by destruct (space3 x c e) eqn:E3; [apply space3_high in E3 as (_ & E3 & _); rewrite E3 in Hc |].
  - destruct (space2 x y); [done |]. destruct a as [| z a]; cbn; [| done].
    by destruct (space3 x y c) eqn:E3; [apply space3_high in E3 as (_ & _ & E3); rewrite E3 in Hc |].
Qed.
Lemma has_space_app a c b :
  is_ascii c = true -> has_space (a +s+ String c b) = has_space a || has_space (String c b).
Proof.
  intros Hc. induction a as [| x a IH]; [done |].
  change (has_space (String x a +s+ String c b)) with ((0 <? space_len (String x a +s+ String c b))%nat || has_space (a +s+ String c b)).
  by rewrite IH, space_len_app, orb_assoc.
Qed.

Definition ascii_text (s : string) : bool := negb (string_exists (fun c => negb (is_ascii c)) s).
Lemma has_space_ascii a b : ascii_text a = true -> has_space (a +s+ b) = string_exists is_space a || has_space b.
Proof.
  unfold ascii_text. rewrite negb_true_iff. induction a as [| c a IH]; [done |]. cbn [string_exists]. intros [Hc Ha]%orb_false_iff.
  apply negb_false_iff in Hc.
  change (has_space (String c a +s+ b)) with ((0 <? space_len (String c (a +s+ b)))%nat || has_space (a +s+ b)).
  rewrite IH, space_len_ascii by done. by destruct (is_space c).
Qed.
Lemma has_space_text a : ascii_text a = true -> has_space a = string_exists is_space a.
Proof. intros H. pose proof (has_space_ascii a "" H) as E. by rewrite sapp_nil_r, orb_false_r in E. Qed.
Lemma has_space_weaken s : has_space s = false -> string_exists is_space s = false.
Proof.
  induction s as [| c s IH]; [done |]. cbn [has_space string_exists]. intros [Hc Hs]%orb_false_iff.
  rewrite (IH Hs), orb_false_r. cbn in Hc. by destruct (is_space c).
Qed.

(** What is left of a longer white space has no ASCII byte. *)
Fixpoint high (n : nat) (s : string) : Prop :=
  match n, s with
  | O, _ => True
  | S n, String c s => is_ascii c = false /\ high n s
  | S _, "" => False
  end.
Lemma space_len_high c s n : space_len (String c s) = S n -> high n s.
Proof.
  cbn. destruct (is_space c); [by intros [= <-] |]. destruct s as [| d s]; [done |].
  destruct (space2 c d) eqn:E; [intros [= <-]; by apply space2_high in E as [_ ?] |].
  destruct s as [| e s]; [done |]. destruct (space3 c d e) eqn:E3; [| done]. intros [= <-].
  by apply space3_high in E3 as (_ & ? & ?).
Qed.

Lemma not_all_space k a u r :
  is_ascii u = true -> is_space u = false -> high k (a +s+ String u r) -> all_space_from k (a +s+ String u r) = false.
Proof.
  intros Ha Hu. revert k. induction a as [| c a IH]; intros k Hk.
  - destruct k as [| k]; [| destruct Hk as [Hk _]; by rewrite Hk in Ha].
    cbn [String.append all_space_from]. by rewrite space_len_ascii, Hu.
  - change (String c a +s+ String u r) with (String c (a +s+ String u r)) in *. cbn [all_space_from].
    destruct k as [| k]; [| by apply IH, Hk]. destruct (space_len _) eqn:E; [done |].
    by apply IH, (space_len_high c).
Qed.
Lemma trim_right_tail s u r :
  is_ascii u = true -> is_space u = false -> trim_right (s +s+ String u r) = s +s+ String u (trim_right r).
Proof.
  intros Ha Hu. induction s as [| c s IH].
  - change ("" +s+ String u r) with (String u r). cbn [trim_right].
    pose proof (not_all_space 0 "" u r Ha Hu I) as E. cbn [String.append] in E. by rewrite E.
  - change (String c s +s+ String u r) with (String c (s +s+ String u r)). cbn [trim_right].
    pose proof (not_all_space 0 (String c s) u r Ha Hu I) as E. cbn [String.append] in E. by rewrite E, IH.
Qed.
Lemma trim_right_snoc s u : is_ascii u = true -> is_space u = false -> trim_right (s +s+ String u "") = s +s+ String u "".
Proof. apply trim_right_tail. Qed.
Lemma trim_right_line s : has_space s = false -> trim_right (s +s+ String nl "") = s.
Proof.
  induction s as [| c s IH]; [done |]. cbn [has_space]. intros [Hc Hs]%orb_false_iff.
  change (String c s +s+ String nl "") with (String c (s +s+ String nl "")). cbn [trim_right all_space_from].
  change (String c (s +s+ String nl "")) with (String c s +s+ String nl ""). rewrite space_len_app by done.
  destruct (space_len (String c s)); [| done]. by rewrite IH.
Qed.
Lemma trim_left_plain c s : space_len (String c s) = 0%nat -> trim_left (String c s) = String c s.
Proof. intros E. unfold trim_left. cbn [trim_left_from]. by rewrite E. Qed.
Lemma trim_space_line s : s <> "" -> has_space s = false -> trim_space (s +s+ String nl "") = s.
Proof.
  intros Hne Hs. unfold trim_space. destruct s as [| c s]; [done |].
  change (String c s +s+ String nl "") with (String c (s +s+ String nl "")).
  rewrite trim_left_plain; [exact (trim_right_line (String c s) Hs) |].
  change (String c (s +s+ String nl "")) with (String c s +s+ String nl ""). rewrite space_len_app by done.
  cbn [has_space] in Hs. by destruct (space_len (String c s)).
Qed.

(** A word: non-empty, without white space. *)
Definition word (s : string) : Prop := s <> "" /\ has_space s = false.

Lemma fields_from_word w v c r :
  is_ascii c = true -> has_space v = false -> fields_from 0 w (v +s+ String c r) = fields_from 0 (w +s+ v) (String c r).
Proof.
  intros Hc. revert w. induction v as [| x v IH]; intros w; [by rewrite sapp_nil_r |].
  cbn [has_space]. intros [Hx Hv]%orb_false_iff.
  change (String x v +s+ String c r) with (String x (v +s+ String c r)). cbn [fields_from].
  change (String x (v +s+ String c r)) with (String x v +s+ String c r). rewrite space_len_app by done.
  destruct (space_len (String x v)); [| done]. rewrite IH by done. by rewrite sapp_assoc.
Qed.
Lemma fields_from_last w v : has_space v = false -> fields_from 0 w v = if decide (w +s+ v = "") then [] else [w +s+ v].
Proof.
  revert w. induction v as [| x v IH]; intros w; [by rewrite sapp_nil_r |].
  cbn [has_space fields_from]. intros [Hx Hv]%orb_false_iff. destruct (space_len (String x v)); [| done].
  rewrite IH by done. by rewrite sapp_assoc.
Qed.
Lemma fields_join ws : Forall word ws -> fields (join " " ws) = ws.
Proof.
  unfold fields. induction 1 as [| w ws [Hne Hw] Hws IH]; [done |].
  destruct ws as [| w' ws].
  - cbn [join]. rewrite fields_from_last by done. cbn. by destruct (decide (w = "")).
  - change (join " " (w :: w' :: ws)) with (w +s+ String " " (join " " (w' :: ws))).
    rewrite fields_from_word by done. cbn [String.append fields_from]. rewrite space_len_ascii by done.
    change (is_space " ") with true. cbn match.
    destruct (decide (w = "")) as [E | _]; [by destruct Hne |]. by rewrite IH.
Qed.

Definition all_digits (s : string) : bool := negb (string_exists (fun c => negb (is_digit c)) s).

Lemma uint_string_digits d : all_digits (NilEmpty.string_of_uint d) = true.
Proof. unfold all_digits. induction d; cbn; done. Qed.

Lemma all_digits_no_char c s : is_digit c = false -> all_digits s = true -> mem_char c s = false.
Proof.
  unfold all_digits. intros Hc. induction s as [| x s IH]; cbn; [done |].
  rewrite negb_orb, negb_involutive. intros [Hx Hs]%andb_true_iff. rewrite (IH Hs), orb_false_r.
  destruct (Ascii.eqb_spec x c) as [-> |]; [congruence | done].
Qed.

Lemma format_pos_string p :
  format_int (Z.pos p) = NilZero.string_of_uint (Pos.to_uint p).
Proof. done. Qed.

Lemma parse_digits_format p : parse_digits (NilZero.string_of_uint (Pos.to_uint p)) = Some (Z.pos p).
Proof.
  unfold parse_digits. rewrite NilZero.usu by apply DecimalPos.Unsigned.to_uint_nonnil.
  f_equal. unfold Z.of_uint. by rewrite DecimalPos.Unsigned.of_to.
Qed.

Lemma nilzero_digits p : all_digits (NilZero.string_of_uint (Pos.to_uint p)) = true.
Proof.
  unfold NilZero.string_of_uint.
  destruct (Pos.to_uint p) eqn:E; try apply uint_string_digits.
  by apply DecimalPos.Unsigned.to_uint_nonnil in E.
Qed.

Lemma digits_not_signed (s r : string) c :
  all_digits s = true -> is_digit c = false -> s <> String c r.
Proof.
  intros Hs Hc ->. unfold all_digits in Hs. cbn in Hs.
  by rewrite Hc in Hs.
Qed.

Lemma parse_int_digits s :
  all_digits s = true -> parse_int s = range64 (parse_digits s).
Proof.
  intros Hs. unfold parse_int.
  destruct s as [| c s']; [done |].
  assert (c <> "+"%char /\ c <> "-"%char) as [H1 H2].
  { split; intros ->; by apply (digits_not_signed _ s' _ Hs) in Hs || by unfold all_digits in Hs. }
  destruct c as [[] [] [] [] [] [] [] []]; done.
Qed.

(** Printing then parsing gives the number back. *)
Lemma parse_format_int z : in_int64 z -> parse_int (format_int z) = Some z.
Proof.
  intros Hz. destruct z as [| p | p]; [done | |].
  - rewrite format_pos_string, parse_int_digits by apply nilzero_digits.
    rewrite parse_digits_format. by apply range64_Some.
  - change (parse_int (String "-" (NilZero.string_of_uint (Pos.to_uint p))) = Some (Z.neg p)).
    unfold parse_int. rewrite parse_digits_format. by apply range64_Some.
Qed.

Lemma format_int_pos_digits z : 0 < z -> all_digits (format_int z) = true.
Proof. destruct z; [done | | done]. intros _. rewrite format_pos_string. apply nilzero_digits. Qed.

Lemma format_int_inj a b : in_int64 a -> in_int64 b -> format_int a = format_int b -> a = b.
Proof. intros Ha%parse_format_int Hb%parse_format_int E. congruence. Qed.

(** ** Canonical absolute paths *)

(** One path component: a directory entry's name. *)
Definition is_name (v : string) : Prop :=
  v <> "" /\ v <> "." /\ v <> ".." /\ mem_char slash v = false.

(** An absolute path that is its own [filepath.Clean], other than "/". *)
Definition canonical (b : string) : Prop :=
  exists st, st <> [] /\ clean_comps true [] (split slash b) = st
    /\ b = "/" +s+ join "/" (rev st).

Lemma split_app_gen sep a b : split sep (a +s+ String sep b) = split sep a ++ split sep b.
Proof.
  induction a as [| c a IH]; cbn [String.append split].
  - by rewrite Ascii.eqb_refl.
  - destruct (Ascii.eqb c sep); [by rewrite IH |]. rewrite IH.
    destruct (split sep a) as [| w ws] eqn:E; [| done].
    by destruct (split_not_nil sep a).
Qed.

Lemma clean_comps_app r st l1 l2 :
  clean_comps r st (l1 ++ l2) = clean_comps r (clean_comps r st l1) l2.
Proof.
  revert st. induction l1 as [| c l1 IH]; intros st; [done |]. cbn [app clean_comps].
  repeat (destruct (decide _); [apply IH |]).
  destruct (decide (c = "..")); [| apply IH].
  destruct st as [| t st]; [apply IH |]. destruct (decide (t = "..")); apply IH.
Qed.

Lemma join_snoc sep l v : l <> [] -> join sep (l ++ [v]) = join sep l +s+ sep +s+ v.
Proof.
  induction l as [| x l IH]; [done |]. intros _. destruct l as [| y l]; [done |].
  change (join sep ((x :: y :: l) ++ [v])) with (x +s+ sep +s+ join sep ((y :: l) ++ [v])).
  rewrite IH by done. change (join sep (x :: y :: l)) with (x +s+ sep +s+ join sep (y :: l)).
  by rewrite !sapp_assoc.
Qed.

Lemma clean_comps_name st v : is_name v -> clean_comps true st [v] = v :: st.
Proof.
  intros (H1 & H2 & H3 & _). cbn [clean_comps].
  by rewrite !decide_False by done.
Qed.

Lemma rooted_prefix s : has_prefix "/" ("/" +s+ s) = true.
Proof. apply has_prefix_app. Qed.

Lemma canonical_not_empty b : canonical b -> b <> "".
Proof. by intros (st & _ & _ & ->). Qed.

Lemma split_join_name b v :
  canonical b -> is_name v ->
  clean_comps true [] (split slash (b +s+ "/" +s+ v)) = v :: clean_comps true [] (split slash b).
Proof.
  intros _ Hv. change ("/" +s+ v) with (String slash v).
  rewrite split_app_gen, clean_comps_app, (split_no_sep slash v) by apply Hv.
  by apply clean_comps_name.
Qed.

Lemma canonical_app b v : canonical b -> is_name v -> canonical (b +s+ "/" +s+ v).
Proof.
  intros Hb Hv. pose proof (split_join_name _ _ Hb Hv) as E.
  destruct Hb as (st & Hne & Hst & Hb). rewrite Hst in E.
  exists (v :: st). split; [done |]. split; [done |].
  cbn [rev]. rewrite join_snoc. { by rewrite <- (sapp_assoc "/"), <- Hb. }
  intros H. apply (f_equal (@length _)) in H. rewrite length_rev in H. by destruct st.
Qed.

Lemma clean_canonical b : canonical b -> clean b = b.
Proof.
  intros (st & _ & Hst & Hb). unfold clean.
  destruct (decide (b = "")) as [-> | _]; [done |].
  assert (has_prefix "/" b = true) as -> by (rewrite Hb; apply rooted_prefix). by rewrite Hst.
Qed.

Lemma path_join_name b v : canonical b -> is_name v -> path_join [b; v] = b +s+ "/" +s+ v.
Proof.
  intros Hb Hv. unfold path_join. cbn [List.filter].
  rewrite !bool_decide_false by (apply Hv || by apply canonical_not_empty). cbn [negb].
  change (join "/" [b; v]) with (b +s+ "/" +s+ v). by apply clean_canonical, canonical_app.
Qed.

Lemma path_dir_name b v : canonical b -> is_name v -> path_dir (b +s+ "/" +s+ v) = b.
Proof.
  intros Hb Hv. unfold path_dir. rewrite (cut_last_app "/" "") by apply Hv.
  pose proof Hb as (st & _ & Hst & Eb). unfold clean.
  destruct (decide (b +s+ "/" = "")) as [E | _].
  { by apply (f_equal String.length) in E; rewrite slen_app in E; cbn in E; lia. }
  assert (Hs : clean_comps true [] (split slash (b +s+ "/")) = st).
  { change (b +s+ "/") with (b +s+ String slash ""). by rewrite split_app_gen, clean_comps_app, Hst. }
  assert (Hp : has_prefix "/" (b +s+ "/") = true).
  { rewrite Eb, sapp_assoc. apply rooted_prefix. }
  by rewrite Hp, Hs.
Qed.

(** Names below one canonical directory never lie below a sibling. *)
Lemma sibling_prefix b v w p :
  is_name v -> is_name w -> has_prefix (b +s+ "/" +s+ v +s+ "/") p = true ->
  has_prefix (b +s+ "/" +s+ w +s+ "/") p = true -> v = w.
Proof.
  intros Hv Hw [r ->]%has_prefix_true [r' E]%has_prefix_true.
  rewrite !sapp_assoc in E. apply sapp_inj_l, sapp_inj_l in E.
  assert (Hc : forall v r, mem_char slash v = false -> cut "/" (v +s+ "/" +s+ r) = Some (v, r)).
  { intros x y Hx. by apply (cut_first_char slash ""). }
  pose proof (Hc v r (proj2 (proj2 (proj2 Hv)))) as E1.
  pose proof (Hc w r' (proj2 (proj2 (proj2 Hw)))) as E2.
  rewrite E, E2 in E1. congruence.
Qed.

Definition str_le (a b : string) : Prop := String.leb a b = true.
#[export] Instance str_le_dec : RelDecision str_le.
Proof. intros a b. unfold Decision, str_le. apply Bool.bool_dec. Defined.

(** [sort.Strings]. *)
Definition sort_strings (l : list string) : list string :=
  merge_sort str_le l.

Lemma sort_strings_elem l x : x ∈ sort_strings l <-> x ∈ l.
Proof. unfold sort_strings. by rewrite merge_sort_Permutation. Qed.
