(* ===== verification/Secrets.v ===== *)
(** * Secrets: pkg/secrets

    References to Kubernetes secrets taken from the StorageClass parameters
    and the volume context (params.go), the fetch of their contents
    (fetch.go), validation (validation.go) and the S3 credentials CSI passes
    to DeleteVolume (secrets.go). *)

From S2P Require Import Prelude GoStrings Effects.

(** [m[k]] of a Go map: the zero value when the key is missing. *)
Definition mget (m : gmap string string) (k : string) : string := default "" (m !! k).

Lemma mget_some m k s : mget m k = s -> s <> "" -> m !! k = Some s.
Proof. unfold mget. destruct (m !! k); cbn; congruence. Qed.

Module Secrets.

(** ** Keys and data (secrets.go, fetch.go) *)

Definition SecretNamespaceKey := "csi.storage.k8s.io/node-stage-secret-namespace".
Definition SecretNameKey := "csi.storage.k8s.io/node-stage-secret-name".
Definition PassphraseKeyParam := "passphraseKey".
Definition DefaultPassphraseKey := "passphrase".
Definition S3SecretName := "s3-secret-name".
Definition S3SecretNamespace := "s3-secret-namespace".
Definition S3AccessKeyIDKey := "s3-access-key-id".
Definition S3SecretAccessKeyKey := "s3-secret-access-key".
Definition S3BucketKey := "s3-bucket".
Definition S3RegionKey := "s3-region".
Definition S3EndpointKey := "s3-endpoint".
Definition S3ForcePathStyleKey := "s3-force-path-style".

Record VolumeSecrets : Set := MkVolumeSecrets
  { Passphrase : string; vs_PassphraseKey : string;
    S3Bucket : string; S3Region : string; S3Endpoint : string;
    S3ForcePathStyle : bool; S3AccessKeyID : string; S3SecretAccessKey : string;
    LUKSSecretName : string; LUKSSecretNamespace : string;
    vs_S3SecretName : string; vs_S3SecretNamespace : string }.

Record SecretReference : Set := Ref { Name : string; Namespace : string }.

Record SecretParams : Set := Params
  { LUKSSecret : SecretReference; S3Secret : SecretReference; PassphraseKey : string }.

Record S3Credentials : Set := Creds
  { cr_Bucket : string; cr_Region : string; cr_Endpoint : string;
    cr_AccessKeyID : string; cr_SecretAccessKey : string }.

Record S3Config : Set := SConfig
  { sc_Bucket : string; sc_Region : string; sc_Endpoint : string;
    sc_ForcePathStyle : bool; sc_AccessKeyID : string; sc_SecretAccessKey : string }.

(** ** params.go *)

(** One field of [ExtractSecretParams]: the volume context first, then the
    StorageClass parameters (nil when there are none), then [dflt]. *)
Definition pick (volumeContext : gmap string string) (scParams : option (gmap string string))
    (key dflt : string) : string :=
  match volumeContext !! key with
  | Some v => v
  | None =>
      match scParams with
      | Some sc => match sc !! key with Some v => v | None => dflt end
      | None => dflt
      end
  end.

Definition ExtractSecretParams (scParams : option (gmap string string))
    (volumeContext : gmap string string) : SecretParams :=
  Params
    (Ref (pick volumeContext scParams SecretNameKey "")
         (pick volumeContext scParams SecretNamespaceKey ""))
    (Ref (pick volumeContext scParams S3SecretName "")
         (pick volumeContext scParams S3SecretNamespace ""))
    (pick volumeContext scParams PassphraseKeyParam DefaultPassphraseKey).

Definition nonempty (s : string) : bool := negb (bool_decide (s = "")).

Definition HasLUKSSecret (p : SecretParams) : bool :=
  nonempty (Name (LUKSSecret p)) && nonempty (Namespace (LUKSSecret p)).
Definition HasS3Secret (p : SecretParams) : bool :=
  nonempty (Name (S3Secret p)) && nonempty (Namespace (S3Secret p)).

(** ** validation.go *)

Definition Validate (vs : VolumeSecrets) (requireS3 : bool) : option gerr :=
  if bool_decide (Passphrase vs = "")
  then Some (error_new "LUKS passphrase is required but not set")
  else if requireS3 then
    if bool_decide (S3AccessKeyID vs = "")
    then Some (error_new "S3 access key ID is required but not set")
    else if bool_decide (S3SecretAccessKey vs = "")
    then Some (error_new "S3 secret access key is required but not set")
    else None
  else None.

Definition HasS3Credentials (vs : VolumeSecrets) : bool :=
  nonempty (S3AccessKeyID vs) && nonempty (S3SecretAccessKey vs).

(** ** secrets.go *)

Definition S3ConfigFromSecrets (secretData : option (gmap string string)) : option S3Credentials :=
  match secretData with
  | None => None
  | Some m =>
      let bucket := mget m S3BucketKey in
      if bool_decide (bucket = "") then None
      else
        let accessKeyID := mget m S3AccessKeyIDKey in
        let secretAccessKey := mget m S3SecretAccessKeyKey in
        if bool_decide (accessKeyID = "") || bool_decide (secretAccessKey = "") then None
        else Some (Creds bucket (mget m S3RegionKey) (mget m S3EndpointKey)
                     accessKeyID secretAccessKey)
  end.

(** ** fetch.go *)

Definition k8s_err (pre : string) (e : k8serr) : gerr :=
  errorf_w pre (error_new match e with KNotFound => "not found" | KApiErr t => t end).

Definition fetchPassphrase (ref : SecretReference) (passphraseKey : string)
    : prog (result string gerr) :=
  let passphraseKey := if bool_decide (passphraseKey = "") then DefaultPassphraseKey
                       else passphraseKey in
  r <- perform (CGetSecret (Namespace ref) (Name ref)) ;;
  Ret match r with
      | Err e => Err (k8s_err "failed to get secret" e)
      | Ok data =>
          match data !! passphraseKey with
          | Some passphrase => Ok passphrase
          | None => Err (error_new "secret has no entry under the key named by the passphraseKey parameter")
          end
      end.

Definition key_missing (key : string) : gerr := error_new ("key '" +s+ key +s+ "' not found in secret").

(** The part of [fetchS3Config] after the secret has been read. *)
Definition s3ConfigOfData (data : gmap string string) : result S3Config gerr :=
  match data !! S3BucketKey with
  | None => Err (key_missing S3BucketKey)
  | Some bucket =>
  match data !! S3RegionKey with
  | None => Err (key_missing S3RegionKey)
  | Some region =>
  match data !! S3AccessKeyIDKey with
  | None => Err (key_missing S3AccessKeyIDKey)
  | Some accessKeyID =>
  match data !! S3SecretAccessKeyKey with
  | None => Err (key_missing S3SecretAccessKeyKey)
  | Some secretAccessKey =>
      let endpoint := match data !! S3EndpointKey with Some e => e | None => "" end in
      let force := match data !! S3ForcePathStyleKey with
                   | Some f => bool_decide (f = "true") | None => false end in
      Ok (SConfig bucket region endpoint force accessKeyID secretAccessKey)
  end end end end.

Definition fetchS3Config (ref : SecretReference) : prog (result S3Config gerr) :=
  r <- perform (CGetSecret (Namespace ref) (Name ref)) ;;
  Ret match r with
      | Err e => Err (k8s_err "failed to get secret" e)
      | Ok data => s3ConfigOfData data
      end.

(** [FetchVolumeSecrets]; [clientset] says whether [sm.clientset] is non-nil. *)
Definition FetchVolumeSecrets (clientset : bool) (params : SecretParams)
    : prog (result VolumeSecrets gerr) :=
  if negb clientset then Ret (Err (error_new "kubernetes clientset not available"))
  else
    let secrets0 := MkVolumeSecrets "" (PassphraseKey params) "" "" "" false "" "" "" "" "" "" in
    try secrets1 <-
      (if HasLUKSSecret params then
         try passphrase <- fetchPassphrase (LUKSSecret params) (PassphraseKey params)
           else (errorf_w "failed to fetch LUKS passphrase") ;;
         Ret (Ok (MkVolumeSecrets passphrase (PassphraseKey params) "" "" "" false "" ""
                    (Name (LUKSSecret params)) (Namespace (LUKSSecret params)) "" ""))
       else Ret (Ok secrets0))
      else (fun e => e) ;;
    if HasS3Secret params then
      try s3Config <- fetchS3Config (S3Secret params)
        else (errorf_w "failed to fetch S3 configuration") ;;
      Ret (Ok (MkVolumeSecrets (Passphrase secrets1) (vs_PassphraseKey secrets1)
                 (sc_Bucket s3Config) (sc_Region s3Config) (sc_Endpoint s3Config)
                 (sc_ForcePathStyle s3Config) (sc_AccessKeyID s3Config)
                 (sc_SecretAccessKey s3Config)
                 (LUKSSecretName secrets1) (LUKSSecretNamespace secrets1)
                 (Name (S3Secret params)) (Namespace (S3Secret params))))
    else Ret (Ok secrets1).

(** ** Properties *)

Lemma nonempty_true s : nonempty s = true <-> s <> "".
Proof. unfold nonempty. rewrite negb_true_iff, bool_decide_eq_false. done. Qed.

(** Where the passphrase may come from, as seen in the history. *)
Definition passphrase_read (h : history) (params : SecretParams) (p : string) : Prop :=
  exists data,
    Ev (CGetSecret (Namespace (LUKSSecret params)) (Name (LUKSSecret params))) (Ok data) ∈ h
    /\ data !! (if bool_decide (PassphraseKey params = "") then DefaultPassphraseKey
                else PassphraseKey params) = Some p.

Definition s3_read (h : history) (params : SecretParams) (vs : VolumeSecrets) : Prop :=
  exists data c,
    Ev (CGetSecret (Namespace (S3Secret params)) (Name (S3Secret params))) (Ok data) ∈ h
    /\ s3ConfigOfData data = Ok c
    /\ S3Bucket vs = sc_Bucket c /\ S3Region vs = sc_Region c
    /\ S3Endpoint vs = sc_Endpoint c /\ S3ForcePathStyle vs = sc_ForcePathStyle c
    /\ S3AccessKeyID vs = sc_AccessKeyID c /\ S3SecretAccessKey vs = sc_SecretAccessKey c.

(** The calls [FetchVolumeSecrets] may make: reads of the two references. *)
Definition secret_calls (params : SecretParams) (_ : history) (c : call) : Prop :=
  (HasLUKSSecret params = true
   /\ c = CGetSecret (Namespace (LUKSSecret params)) (Name (LUKSSecret params)))
  \/ (HasS3Secret params = true
      /\ c = CGetSecret (Namespace (S3Secret params)) (Name (S3Secret params))).

(** What a successful fetch guarantees. *)
Definition fetched (params : SecretParams) (h : history) (r : result VolumeSecrets gerr) : Prop :=
  match r with
  | Err _ => True
  | Ok vs =>
      (if HasLUKSSecret params then passphrase_read h params (Passphrase vs)
       else Passphrase vs = "")
      /\ (if HasS3Secret params then s3_read h params vs else S3Bucket vs = "")
  end.

Lemma fetchPassphrase_spec params G h :
  G h (CGetSecret (Namespace (LUKSSecret params)) (Name (LUKSSecret params))) ->
  wpc G (fetchPassphrase (LUKSSecret params) (PassphraseKey params))
    (fun h' r => match r with Ok p => passphrase_read h' params p | Err _ => True end) h.
Proof.
  intros HG. unfold fetchPassphrase. wp. destruct r as [data |]; [| done].
  destruct (data !! _) eqn:E; [| done]. exists data. split; [by left | done].
Qed.

Lemma fetchS3Config_spec params G h :
  G h (CGetSecret (Namespace (S3Secret params)) (Name (S3Secret params))) ->
  wpc G (fetchS3Config (S3Secret params))
    (fun h' r => match r with
                 | Ok c => (exists data,
                     Ev (CGetSecret (Namespace (S3Secret params)) (Name (S3Secret params))) (Ok data) ∈ h'
                     /\ s3ConfigOfData data = Ok c) /\ (forall e, e ∈ h -> e ∈ h')
                 | Err _ => True end) h.
Proof.
  intros HG. unfold fetchS3Config. wp. destruct r as [data |]; [| done].
  destruct (s3ConfigOfData data) eqn:E; [| done]. split.
  - exists data. split; [by left | done].
  - intros e He. by right.
Qed.

Lemma FetchVolumeSecrets_spec clientset params :
  wpc (secret_calls params) (FetchVolumeSecrets clientset params) (fetched params) [].
Proof.
  unfold FetchVolumeSecrets. destruct clientset; cbn [negb]; [| done].
  wp_step. eapply (wpc_post _ _ (fun h r => match r with
    | Err _ => True
    | Ok vs => (if HasLUKSSecret params then passphrase_read h params (Passphrase vs)
                else Passphrase vs = "") /\ S3Bucket vs = "" end)).
  - destruct (HasLUKSSecret params) eqn:HL; [| by cbn].
    wp_step. eapply wpc_post; [apply fetchPassphrase_spec; by left |].
    intros h [p |] Hp; cbn; done.
  - intros h [vs |] Hvs; [| done]. destruct Hvs as [Hl Hb].
    destruct (HasS3Secret params) eqn:HS; [| cbn; by rewrite HS].
    wp_step. eapply wpc_post; [apply fetchS3Config_spec; by right |].
    intros h' [c |] Hc; [| done]. destruct Hc as [(data & Hin & Hd) Hmono].
    cbn. rewrite HS. split.
    + destruct (HasLUKSSecret params); [| done].
      destruct Hl as (d & Hd' & Hk). exists d. auto.
    + exists data, c. cbn. by repeat split.
Qed.

(** A secret is only ever read through a complete reference, and
    every value of the result comes from the secret its reference names. *)
Theorem fetch_reads_only_named_secrets env clientset params :
  hist_ok (secret_calls params) (fst (run env (FetchVolumeSecrets clientset params) []))
  /\ fetched params (fst (run env (FetchVolumeSecrets clientset params) []))
       (snd (run env (FetchVolumeSecrets clientset params) [])).
Proof. apply wpc_run; [apply FetchVolumeSecrets_spec | done]. Qed.

End Secrets.
