(* ===== verification/AsyncLog.v ===== *)
(** * AsyncLog: pkg/asynclog

    The never-blocking log writer: a bounded queue, a goroutine draining it
    to a possibly stalled output, and a count of the lines dropped while the
    queue was full.  [Write] is a total function of the state; the drain
    goroutine is split into the atomic steps of its loop body, and [step]
    interleaves them with [Write] in any order. *)

From S2P Require Import Prelude.

Module AsyncLog.

Definition line := string.

(** What reaches the output: log lines, and the two reports of [run]. *)
Inductive out_line : Set :=
  | OLine (l : line) | OStalled (d : Z) | ODropped (n : Z).

(** Where the drain goroutine is in its loop body. *)
Inductive phase : Set :=
  | Waiting                          (* for buf := range w.ch *)
  | Writing (buf : line) (start : Z) (* in w.out.Write(buf) *)
  | Wrote (start : Z)                (* writeStartedAt reset, stall not yet reported *)
  | Reporting.                       (* before w.dropped.Swap(0) *)

Record Writer : Set := MkWriter
  { ch : list line; depth : nat; dropped : Z; out : list out_line;
    writeStartedAt : Z; at_ : phase }.

Definition stallReportThreshold : Z := 5 * second.

Definition New (depth : nat) : Writer := MkWriter [] depth 0 [] 0 Waiting.

(** Whether [w.ch <- buf] can proceed: there is room, or the channel is
    unbuffered and the drain goroutine is waiting to receive. *)
Definition can_send (w : Writer) : bool :=
  (length (ch w) <? depth w)%nat
  || match at_ w, ch w, depth w with Waiting, [], O => true | _, _, _ => false end.

(** [Write]: enqueue, or count a dropped line. *)
Definition Write (p : line) (w : Writer) : Writer :=
  if can_send w
  then MkWriter (ch w ++ [p]) (depth w) (dropped w) (out w) (writeStartedAt w) (at_ w)
  else MkWriter (ch w) (depth w) (dropped w + 1) (out w) (writeStartedAt w) (at_ w).

(** One atomic step of [run] at time [now]. *)
Definition run_step (now : Z) (w : Writer) : Writer :=
  match at_ w with
  | Waiting =>
      match ch w with
      | [] => w
      | buf :: rest => MkWriter rest (depth w) (dropped w) (out w) now (Writing buf now)
      end
  | Writing buf start =>
      MkWriter (ch w) (depth w) (dropped w) (out w ++ [OLine buf]) 0 (Wrote start)
  | Wrote start =>
      let stalled := now - start in
      MkWriter (ch w) (depth w) (dropped w)
        (if stallReportThreshold <? stalled then out w ++ [OStalled stalled] else out w)
        (writeStartedAt w) Reporting
  | Reporting =>
      MkWriter (ch w) (depth w) 0
        (if 0 <? dropped w then out w ++ [ODropped (dropped w)] else out w)
        (writeStartedAt w) Waiting
  end.

(** [StalledFor]. *)
Definition StalledFor (now : Z) (w : Writer) : Z :=
  if writeStartedAt w =? 0 then 0 else now - writeStartedAt w.

(** [DefaultStalledFor], of the writer [SetDefault] recorded, if it did. *)
Definition DefaultStalledFor (now : Z) (defaultWriter : option Writer) : Z :=
  match defaultWriter with Some w => StalledFor now w | None => 0 end.

Definition Dropped (w : Writer) : Z := dropped w.

(** ** The system: any interleaving of writers and the drain goroutine *)

Inductive action : Set := AWrite (p : line) | ARun (now : Z).

Definition step (w : Writer) (a : action) : Writer :=
  match a with AWrite p => Write p w | ARun now => run_step now w end.

Definition exec (depth : nat) (acts : list action) : Writer := foldl step (New depth) acts.

Definition writes (acts : list action) : list line :=
  omap (fun a => match a with AWrite p => Some p | ARun _ => None end) acts.
Definition delivered (o : list out_line) : list line :=
  omap (fun l => match l with OLine p => Some p | _ => None end) o.
Definition reported (o : list out_line) : Z :=
  foldr (fun l n => match l with ODropped k => k + n | _ => n end) 0 o.
Definition in_flight (w : Writer) : list line :=
  match at_ w with Writing buf _ => [buf] | _ => [] end.

(** Lines that were accepted: delivered, being written, or queued. *)
Definition accepted (w : Writer) : list line := delivered (out w) ++ in_flight w ++ ch w.

Lemma delivered_app a b : delivered (a ++ b) = delivered a ++ delivered b.
Proof. apply omap_app. Qed.
Lemma reported_app a b : reported (a ++ b) = reported a + reported b.
Proof. unfold reported. induction a as [| [] a IH]; cbn in *; lia. Qed.
Lemma reported_one l : reported [l] = match l with ODropped k => k | _ => 0 end.
Proof. destruct l; cbn; lia. Qed.
#[local] Arguments reported : simpl never.

Lemma accepted_run now w : accepted (run_step now w) = accepted w.
Proof.
  unfold run_step, accepted, in_flight. destruct w as [q d n o t []]; cbn.
  - destruct q; cbn; by rewrite ?app_nil_r.
  - by rewrite delivered_app, <- app_assoc.
  - case_match; [| done]. by rewrite delivered_app, app_nil_r.
  - case_match; [| done]. by rewrite delivered_app, app_nil_r.
Qed.

Lemma losses_run now w :
  0 <= dropped w ->
  reported (out (run_step now w)) + dropped (run_step now w) = reported (out w) + dropped w.
Proof.
  unfold run_step. destruct w as [q d n o t []]; cbn; intros Hn.
  - by destruct q.
  - rewrite reported_app, reported_one. lia.
  - case_match; [| done]. rewrite reported_app, reported_one. lia.
  - destruct (Z.ltb_spec 0 n); rewrite ?reported_app, ?reported_one; lia.
Qed.

(** The invariant kept by every step: accepted lines are a subsequence, in
    order, of the lines written, and each other line is counted once. *)
Record accounted (ws : list line) (w : Writer) : Prop := Accounted
  { acc_sub : sublist (accepted w) ws;
    acc_dropped : 0 <= dropped w;
    acc_count : Z.of_nat (length ws)
      = Z.of_nat (length (accepted w)) + reported (out w) + dropped w;
    acc_stall : writeStartedAt w = match at_ w with Writing _ s => s | _ => 0 end;
    acc_room : (length (ch w) <= depth w \/ (depth w = 0 /\ length (ch w) <= 1))%nat }.

Lemma accounted_new d : accounted [] (New d).
Proof. split; [apply sublist_nil | cbn; lia | done | done | cbn; lia]. Qed.

Lemma accounted_write ws w p : accounted ws w -> accounted (ws ++ [p]) (Write p w).
Proof.
  intros [Hsub Hd Hc Hs Hr]. unfold Write. destruct (can_send w) eqn:E.
  - assert (accepted (MkWriter (ch w ++ [p]) (depth w) (dropped w) (out w)
      (writeStartedAt w) (at_ w)) = accepted w ++ [p]) as Ha.
    { unfold accepted, in_flight. cbn. by rewrite !app_assoc. }
    split; cbn [dropped out writeStartedAt at_ ch depth]; rewrite ?Ha, ?length_app; cbn [length];
      [by apply sublist_app | done | lia | done |].
    unfold can_send in E. apply orb_true_iff in E as [E%Nat.ltb_lt | E]; [lia |].
    destruct (at_ w), (ch w), (depth w); cbn in *; try done; lia.
  - assert (accepted (MkWriter (ch w) (depth w) (dropped w + 1) (out w)
      (writeStartedAt w) (at_ w)) = accepted w) as Ha by done.
    split; cbn [dropped out writeStartedAt at_ ch depth]; rewrite ?Ha, ?length_app; cbn [length];
      [by apply sublist_inserts_r | lia | lia | done | done].
Qed.

Lemma accounted_run ws w now : accounted ws w -> accounted ws (run_step now w).
Proof.
  intros [Hsub Hd Hc Hs Hr]. pose proof (losses_run now w Hd).
  split; rewrite ?accepted_run; [done | | lia | |];
    unfold run_step; destruct w as [[| b q] d n o t []]; cbn in *; lia || done.
Qed.

Lemma accounted_exec d acts : accounted (writes acts) (exec d acts).
Proof.
  unfold exec. induction acts as [| a acts IH] using rev_ind; [apply accounted_new |].
  rewrite foldl_app. unfold writes. rewrite omap_app. destruct a as [p | now]; cbn.
  - by apply accounted_write.
  - rewrite app_nil_r. by apply accounted_run.
Qed.

(** Whatever the interleaving of log calls and the drain goroutine, no
    line is lost silently or reordered: the lines delivered, being written and
    queued are a subsequence of the lines logged, in order, and every other
    line is counted exactly once, either in the current drop counter or in a
    drop report already written to the output. *)
Theorem no_line_lost_silently depth acts :
  let w := exec depth acts in
  sublist (delivered (out w) ++ in_flight w ++ ch w) (writes acts)
  /\ Z.of_nat (length (writes acts))
     = Z.of_nat (length (delivered (out w) ++ in_flight w ++ ch w))
       + reported (out w) + Dropped w.
Proof. destruct (accounted_exec depth acts). done. Qed.

(** [StalledFor] is the time since the in-flight write began, and zero
    exactly when no write is in flight (the clock being past the epoch). *)
Theorem stalled_for_measures_write depth acts now :
  (forall t, ARun t ∈ acts -> 0 < t < now) ->
  (StalledFor now (exec depth acts) = 0 <->
   forall buf start, at_ (exec depth acts) <> Writing buf start)
  /\ forall buf start, at_ (exec depth acts) = Writing buf start ->
     StalledFor now (exec depth acts) = now - start.
Proof.
  intros Ht. pose proof (acc_stall _ _ (accounted_exec depth acts)) as Hs.
  assert (forall buf start, at_ (exec depth acts) = Writing buf start -> 0 < start < now) as Hpos.
  { revert Ht. clear Hs. unfold exec. induction acts as [| a acts IH] using rev_ind; [done |].
    intros Ht buf start. rewrite foldl_app. cbn.
    assert (forall t, ARun t ∈ acts -> 0 < t < now) as Ht' by (intros t ?; apply Ht; set_solver).
    specialize (IH Ht'). destruct a as [p | t]; cbn.
    - unfold Write. case_match; cbn; apply IH.
    - unfold run_step. destruct (at_ (foldl step (New depth) acts)) eqn:E; cbn.
      + destruct (ch _); cbn; [rewrite E; done |]. intros [= <- <-]. apply Ht. set_solver.
      + done.
      + done.
      + done. }
  unfold StalledFor. rewrite Hs. destruct (at_ (exec depth acts)) as [| b s | |] eqn:E; cbn;
    try (split; [split; done | done]).
  pose proof (Hpos b s eq_refl). rewrite (proj2 (Z.eqb_neq s 0)) by lia.
  split; [| by intros ? ? [= <- <-]].
  split; [lia |]. intros Hne. by destruct (Hne b s).
Qed.

Lemma stalled_for_measures_write_witness :
  StalledFor 20 (exec 2 [AWrite "a"; ARun 5]) = 15.
Proof.
  refine (proj2 (stalled_for_measures_write 2 [AWrite "a"; ARun 5] 20 _) "a" 5 _).
  - intros t Ht. apply elem_of_cons in Ht as [Ht | Ht]; [discriminate |].
    apply elem_of_cons in Ht as [Ht | Ht]; [injection Ht as ->; lia | by apply not_elem_of_nil in Ht].
  - reflexivity.
Defined.

(** ** Bounded writes and the flush *)

Definition syncWriteTimeout : Z := 5 * second.

(** [WriteBounded]: whether a write that takes [elapsed], or never ends, is done
    when the caller gives up on it. *)
Definition WriteBounded (elapsed : option Z) (timeout : Z) : bool :=
  match elapsed with Some e => e <? timeout | None => false end.
Definition WriteSync (elapsed : option Z) : bool := WriteBounded elapsed syncWriteTimeout.

(** [Flush]: [polls] are the queue length and the time each test of the loop
    reads; the number of sleeps, when it ends within them. *)
Fixpoint flush_polls (polls : list (nat * Z)) (deadline : Z) : option nat :=
  match polls with
  | [] => None
  | (len, now) :: polls =>
      if (0 <? len)%nat && (now <? deadline) then option_map S (flush_polls polls deadline) else Some 0%nat
  end.
Definition Flush (start timeout : Z) (polls : list (nat * Z)) : option nat := flush_polls polls (start + timeout).

(** Each poll is read at least a sleep of 10 ms after the one before. *)
Fixpoint paced (at_least : Z) (polls : list (nat * Z)) : Prop :=
  match polls with [] => True | (_, now) :: polls => at_least <= now /\ paced (now + 10 * ms) polls end.

(** [Flush] ends, however full the queue stays: after at most one sleep per
    10 ms of its timeout, and one more. *)
Theorem flush_ends start timeout polls :
  0 <= timeout -> paced start polls -> timeout < Z.of_nat (length polls) * (10 * ms) - 10 * ms ->
  exists n, Flush start timeout polls = Some n /\ (n < length polls)%nat.
Proof.
  unfold Flush, ms. assert (H : forall from, paced from polls ->
    start + timeout < from + Z.of_nat (length polls) * (10 * 1000000) - 10 * 1000000 ->
    exists n, flush_polls polls (start + timeout) = Some n /\ (n < length polls)%nat \/ polls = [] /\ start + timeout < from - 10 * 1000000).
  { induction polls as [| [len now] polls IH]; intros from Hp Hl; cbn [flush_polls length paced] in *; unfold ms in *.
    { exists 0%nat. right. split; [done | lia]. }
    destruct Hp as [Hn Hp]. destruct (_ && _) eqn:E; [| exists 0%nat; left; split; [done | lia]].
    bools. destruct (IH (now + 10 * 1000000) Hp) as (n & [[Hf Hlt] | [-> Hlt]]); [lia | |].
    - exists (S n). left. rewrite Hf. split; [done | lia].
    - lia. }
  intros H0 Hp Hl. destruct (H start Hp) as (n & [[Hf Hlt] | [-> Hlt]]); [lia | by exists n |].
  cbn in Hl. lia.
Qed.

Lemma flush_ends_witness : Flush 0 (15 * ms) [(3%nat, 0); (3%nat, 10 * ms); (3%nat, 20 * ms)] = Some 2%nat.
Proof.
  destruct (flush_ends 0 (15 * ms) [(3%nat, 0); (3%nat, 10 * ms); (3%nat, 20 * ms)]) as (n & Hn & _);
    [done | cbn; unfold ms; lia | cbn; unfold ms; lia |]. rewrite Hn. cbv in Hn. by injection Hn as <-.
Defined.

(** ** What the writer promises: a bounded lossy queue *)

(** The lines accepted and not yet delivered, the losses not yet reported, and
    what was put out. *)
Record lossy_queue : Set := Queue { q_lines : list line; q_lost : Z; q_out : list out_line }.

(** A step that logs a line is labelled with it. *)
Inductive queue_step (cap : nat) : lossy_queue -> list line -> lossy_queue -> Prop :=
  | q_accept p l n o : (length l <= cap)%nat -> queue_step cap (Queue l n o) [p] (Queue (l ++ [p]) n o)
  | q_drop p l n o : (cap <= length l)%nat -> queue_step cap (Queue l n o) [p] (Queue l (n + 1) o)
  | q_deliver p l n o : queue_step cap (Queue (p :: l) n o) [] (Queue l n (o ++ [OLine p]))
  | q_report l n o : 0 < n -> queue_step cap (Queue l n o) [] (Queue l 0 (o ++ [ODropped n]))
  | q_note d l n o : stallReportThreshold < d -> queue_step cap (Queue l n o) [] (Queue l n (o ++ [OStalled d]))
  | q_silent q : queue_step cap q [] q.
Inductive queue_run (cap : nat) : list line -> lossy_queue -> Prop :=
  | run_empty : queue_run cap [] (Queue [] 0 [])
  | run_more ls q l q' : queue_run cap ls q -> queue_step cap q l q' -> queue_run cap (ls ++ l) q'.

Definition abstract (w : Writer) : lossy_queue := Queue (in_flight w ++ ch w) (dropped w) (out w).

(** Every step of the writer is a step of the queue. *)
Lemma step_simulates w a :
  0 <= dropped w -> queue_step (depth w) (abstract w) (match a with AWrite p => [p] | ARun _ => [] end) (abstract (step w a)).
Proof.
  intros Hd. unfold abstract. destruct a as [p | now]; cbn [step].
  - unfold Write. destruct (can_send w) eqn:E; unfold can_send in E; destruct w as [c d n o t at_w]; cbn in *.
    + rewrite app_assoc. apply q_accept. apply orb_true_iff in E as [E | E].
      * apply Nat.ltb_lt in E. rewrite length_app. destruct at_w; cbn; lia.
      * destruct at_w, c, d; try done; cbn; lia.
    + apply q_drop. apply orb_false_iff in E as [E _]. apply Nat.ltb_ge in E. rewrite length_app. lia.
  - unfold run_step. destruct w as [c d n o t at_w]; cbn in *. destruct at_w as [| buf start | start |]; cbn.
    + destruct c; apply q_silent.
    + apply q_deliver.
    + destruct (_ <? _) eqn:E; [by apply q_note, Z.ltb_lt | apply q_silent].
    + destruct (0 <? n) eqn:E; [by apply q_report, Z.ltb_lt |].
      apply Z.ltb_ge in E. replace n with 0 by lia. apply q_silent.
Qed.

Lemma exec_snoc depth acts a : exec depth (acts ++ [a]) = step (exec depth acts) a.
Proof. unfold exec. by rewrite foldl_app. Qed.
Lemma step_depth w a : depth (step w a) = depth w.
Proof.
  destruct a as [p | now]; cbn; unfold Write, run_step; [by destruct (can_send w) |].
  destruct (at_ w); try done. by destruct (ch w).
Qed.
Lemma exec_depth d acts : depth (exec d acts) = d.
Proof. induction acts as [| a acts IH] using rev_ind; [done |]. by rewrite exec_snoc, step_depth. Qed.
Lemma step_dropped w a : 0 <= dropped w -> 0 <= dropped (step w a).
Proof.
  destruct a as [p | now]; cbn; unfold Write, run_step; [destruct (can_send w); cbn; lia |].
  destruct (at_ w); cbn; try lia. destruct (ch w); cbn; lia.
Qed.
Lemma exec_dropped d acts : 0 <= dropped (exec d acts).
Proof. induction acts as [| a acts IH] using rev_ind; [done |]. rewrite exec_snoc. by apply step_dropped. Qed.

Lemma delivered_one l : delivered [l] = match l with OLine p => [p] | _ => [] end.
Proof. by destruct l. Qed.
#[local] Arguments delivered : simpl never.

(** What the queue guarantees. *)
Lemma queue_accounts cap ls q :
  queue_run cap ls q ->
  sublist (delivered (q_out q) ++ q_lines q) ls /\ (length (q_lines q) <= S cap)%nat /\ 0 <= q_lost q
  /\ Z.of_nat (length ls) = Z.of_nat (length (delivered (q_out q) ++ q_lines q)) + reported (q_out q) + q_lost q.
Proof.
  induction 1 as [| ls q l q' Hr (IH1 & IH2 & IH3 & IH4) Hs]; [cbn; splits; (done || lia) |]. rewrite length_app.
  destruct Hs as [p l n o Hl | p l n o Hl | p l n o | l n o Hn | d l n o Hd | q]; cbn [q_lines q_lost q_out length] in *;
    rewrite ?delivered_app, ?delivered_one, ?reported_app, ?reported_one, ?app_nil_r in *.
  - rewrite app_assoc, !length_app in *. cbn. splits; [by apply sublist_app | lia | lia | lia].
  - splits; [by apply sublist_inserts_r | lia | lia | lia].
  - rewrite <- app_assoc. cbn [app length] in *. splits; [done | lia | lia | lia].
  - splits; [done | lia | lia | lia].
  - splits; [done | lia | lia | lia].
  - splits; [done | lia | lia | lia].
Qed.

(** C18: the log writer refines a bounded lossy queue.  Whatever the interleaving
    of log calls and the drain goroutine, its behaviour is a run of the queue
    of the same capacity over the lines logged: a line is accepted at the end
    or, only when the queue is full, counted as lost; lines leave in order;
    losses are reported.  So the lines put out and held are a subsequence of
    those logged, at most one more than the capacity is held, and every other
    line is counted once. *)
Theorem writer_refines_lossy_queue depth acts :
  let w := exec depth acts in
  queue_run depth (writes acts) (abstract w)
  /\ sublist (delivered (out w) ++ in_flight w ++ ch w) (writes acts)
  /\ (length (in_flight w ++ ch w) <= S depth)%nat
  /\ Z.of_nat (length (writes acts))
     = Z.of_nat (length (delivered (out w) ++ in_flight w ++ ch w)) + reported (out w) + Dropped w.
Proof.
  cbn zeta. assert (Hr : queue_run depth (writes acts) (abstract (exec depth acts))).
  { induction acts as [| a acts IH] using rev_ind; [apply run_empty |]. unfold writes. rewrite omap_app, exec_snoc.
    eapply run_more; [exact IH |]. pose proof (step_simulates (exec depth acts) a (exec_dropped _ _)) as Hs.
    rewrite exec_depth in Hs. by destruct a. }
  destruct (queue_accounts _ _ _ Hr) as (H1 & H2 & _ & H4). by splits.
Qed.

End AsyncLog.
