(* ===== verification/Luks.v ===== *)
(** * Luks: pkg/luks

    The cryptsetup front end.  Every command goes through [runBounded]: a
    hard budget, the passphrase on stdin, and a child wedged past its budget
    killed and reported as [errTimeout].  DM_DISABLE_UDEV, set in the child's
    environment, is not part of the modelled command line. *)

From S2P Require Import Prelude GoStrings Effects.

Module Luks.

Definition CryptsetupCmd := "cryptsetup".
Definition cryptsetupTimeout : Z := 2 * minute.

(** [errTimeout] and the type assertion [isTimeout] makes on it. *)
Definition errTimeout (name : string) : gerr :=
  GErr (name +s+ " timed out after its budget") [SCmdTimeout].
Definition isTimeout (e : gerr) : bool := errors_is e SCmdTimeout.

Definition exit_error (code : Z) : gerr := error_new ("exit status " +s+ format_int code).

Definition runBounded (timeout : Z) (stdin : string) (argv : list string)
    : prog (result unit gerr) :=
  r <- perform (CExec (Some timeout) stdin argv) ;;
  Ret match r with
      | XStartErr e => Err (errno_err e)
      | XExit 0 _ _ => Ok tt
      | XExit c _ stderr =>
          if bool_decide (stderr = "") then Err (exit_error c)
          else Err (error_new (e_text (exit_error c) +s+ ": " +s+ trim_space stderr))
      | XTimeout => Err (errTimeout (hd "" argv))
      end.

Definition runCryptsetup (stdin : string) (args : list string) : prog (result unit gerr) :=
  r <- runBounded cryptsetupTimeout stdin (CryptsetupCmd :: args) ;;
  match r with
  | Ok _ => Ret r
  | Err e =>
      if negb (isTimeout e) then Ret r
      else
        runBounded (30 * second) "" ["dmsetup"; "udevcomplete_all"; "-y"] ;;;
        runBounded cryptsetupTimeout stdin (CryptsetupCmd :: args)
  end.

Definition GetMappedDevicePath (mapperName : string) : string :=
  path_join ["/dev/mapper"; mapperName].
Definition GenerateMapperName (volumeID : string) : string := "luks-" +s+ volumeID.

Definition IsLUKSDevice (devicePath : string) : prog bool :=
  r <- runBounded (30 * second) "" [CryptsetupCmd; "isLuks"; devicePath] ;;
  Ret (is_ok r).

Definition IsLUKSOpened (mapperName : string) : prog bool :=
  r <- perform (CStat (path_join ["/dev/mapper"; mapperName])) ;;
  Ret (is_ok r).

Definition OpenLUKS (devicePath mapperName passphrase : string) : prog (result unit gerr) :=
  opened <- IsLUKSOpened mapperName ;;
  if opened then Ret (Ok tt)
  else
    try _ <- runCryptsetup passphrase ["luksOpen"; devicePath; mapperName]
      else (errorf_v ("failed to open LUKS device " +s+ devicePath)) ;;
    Ret (Ok tt).

Definition FormatAndOpenLUKS (devicePath mapperName passphrase : string)
    : prog (result unit gerr) :=
  isLuks <- IsLUKSDevice devicePath ;;
  if isLuks then OpenLUKS devicePath mapperName passphrase
  else
    try _ <- runCryptsetup passphrase ["luksFormat"; "--batch-mode"; devicePath]
      else (errorf_v ("failed to format LUKS device " +s+ devicePath)) ;;
    OpenLUKS devicePath mapperName passphrase.

Definition CloseLUKS (mapperName : string) : prog (result unit gerr) :=
  opened <- IsLUKSOpened mapperName ;;
  if negb opened then Ret (Ok tt)
  else
    try _ <- runCryptsetup "" ["luksClose"; mapperName]
      else (errorf_v ("failed to close LUKS device " +s+ mapperName)) ;;
    Ret (Ok tt).

Definition ResizeLUKS (mapperName passphrase : string) : prog (result unit gerr) :=
  opened <- IsLUKSOpened mapperName ;;
  if negb opened then Ret (Err (error_new ("LUKS device " +s+ mapperName +s+ " is not opened")))
  else
    try _ <- runCryptsetup passphrase ["resize"; mapperName]
      else (errorf_v ("failed to resize LUKS device " +s+ mapperName)) ;;
    Ret (Ok tt).

(** [exec.Command(...).Output()]: stdout on exit status 0. *)
Definition cmd_output (argv : list string) : prog (result string gerr) :=
  r <- perform (CExec None "" argv) ;;
  Ret match r with
      | XExit 0 out _ => Ok out
      | XExit c _ _ => Err (exit_error c)
      | XStartErr e => Err (errno_err e)
      | XTimeout => Err (error_new "killed")
      end.

(** [exec.Command(...).Run()]. *)
Definition cmd_run (argv : list string) : prog (result unit gerr) :=
  r <- cmd_output argv ;; Ret match r with Ok _ => Ok tt | Err e => Err e end.

Definition GetLUKSDeviceSize (devicePath : string) : prog (result Z gerr) :=
  try output <- cmd_output ["blockdev"; "--getsize64"; devicePath]
    else (errorf_v ("failed to get device size for " +s+ devicePath)) ;;
  let sizeStr := trim_space output in
  Ret match parse_int sizeStr with
      | Some size => Ok size
      | None => Err (error_new ("failed to parse device size " +s+ sizeStr))
      end.

(** ** What the histories say *)

(** Command [argv] exited with status 0. *)
Definition exec_ok (argv : list string) (h : history) : Prop :=
  exists b stdin so se, Ev (CExec b stdin argv) (XExit 0 so se) ∈ h.
(** Command [argv] was run and did not exit with status 0. *)
Definition exec_failed (argv : list string) (h : history) : Prop :=
  exists b stdin r, Ev (CExec b stdin argv) r ∈ h /\ forall so se, r <> XExit 0 so se.
(** Path [p] was found to exist. *)
Definition stat_ok (p : string) (h : history) : Prop :=
  exists st, Ev (CStat p) (Ok st) ∈ h.
Definition stat_failed (p : string) (h : history) : Prop :=
  exists e, Ev (CStat p) (Err e) ∈ h.

Definition ran (argv : list string) (h : history) : Prop :=
  exists b stdin r, Ev (CExec b stdin argv) r ∈ h.

(** [h'] extends [h]. *)
Definition extends (h h' : history) : Prop := h ⊆ h'.

Lemma exec_ok_mono argv h h' : h ⊆ h' -> exec_ok argv h -> exec_ok argv h'.
Proof. intros Hs (b & i & so & se & Hin). exists b, i, so, se. auto. Qed.
Lemma exec_failed_mono argv h h' : h ⊆ h' -> exec_failed argv h -> exec_failed argv h'.
Proof. intros Hs (b & i & r & Hin & Hr). exists b, i, r. auto. Qed.
Lemma stat_ok_mono p h h' : h ⊆ h' -> stat_ok p h -> stat_ok p h'.
Proof. intros Hs (st & Hin). exists st. auto. Qed.
Lemma cmd_output_guard (G : history -> call -> Prop) argv h :
  G h (CExec None "" argv) -> wpc G (cmd_output argv) (fun _ _ => True) h.
Proof. intros H. unfold cmd_output. wp; done. Qed.
Lemma cmd_run_guard (G : history -> call -> Prop) argv h :
  G h (CExec None "" argv) -> wpc G (cmd_run argv) (fun _ _ => True) h.
Proof.
  intros H. unfold cmd_run. wp_step. eapply wpc_post; [by apply cmd_output_guard |]. done.
Qed.

Lemma subseteq_cons (e : event) h : h ⊆ e :: h.
Proof. intros x. by right. Qed.
Lemma subseteq_cons_r (e : event) h h' : h ⊆ h' -> h ⊆ e :: h'.
Proof. intros Hs x Hx. right. auto. Qed.
#[export] Hint Resolve exec_ok_mono exec_failed_mono stat_ok_mono subseteq_cons
  subseteq_cons_r : go.

(** ** Specifications *)

Lemma runBounded_spec G timeout stdin argv h :
  G h (CExec (Some timeout) stdin argv) ->
  wpc G (runBounded timeout stdin argv)
    (fun h' r => h ⊆ h' /\ match r with
                 | Ok _ => exec_ok argv h'
                 | Err e => exec_failed argv h' end) h.
Proof.
  intros HG. unfold runBounded. wp. split; [apply subseteq_cons |].
  assert (forall r', r' <> r -> exec_failed argv (Ev (CExec (Some timeout) stdin argv) r :: h)
          \/ r' <> r) as _ by (intros; by right).
  destruct r as [e | c so se |].
  - exists (Some timeout), stdin, (XStartErr e). split; [by left | done].
  - destruct c as [| p | p].
    + exists (Some timeout), stdin, so, se. by left.
    + destruct (bool_decide (se = "")); exists (Some timeout), stdin, (XExit (Z.pos p) so se);
        (split; [by left | done]).
    + destruct (bool_decide (se = "")); exists (Some timeout), stdin, (XExit (Z.neg p) so se);
        (split; [by left | done]).
  - exists (Some timeout), stdin, XTimeout. split; [by left | done].
Qed.

(** The commands of one [runCryptsetup]. *)
Definition cryptsetup_calls (stdin : string) (args : list string) (c : call) : Prop :=
  c = CExec (Some cryptsetupTimeout) stdin (CryptsetupCmd :: args)
  \/ c = CExec (Some (30 * second)) "" ["dmsetup"; "udevcomplete_all"; "-y"].

Lemma runCryptsetup_spec (G : history -> call -> Prop) stdin args h :
  (forall h' c, h ⊆ h' -> cryptsetup_calls stdin args c -> G h' c) ->
  wpc G (runCryptsetup stdin args)
    (fun h' r => h ⊆ h' /\ match r with
                 | Ok _ => exec_ok (CryptsetupCmd :: args) h'
                 | Err _ => exec_failed (CryptsetupCmd :: args) h' end) h.
Proof.
  intros HG. unfold runCryptsetup. wp_step.
  eapply wpc_post; [apply runBounded_spec; apply HG; [done | by left] |].
  intros h1 r [Hs Hr]. destruct r as [[] | e]; [done |].
  destruct (negb (isTimeout e)); [done |].
  wp_step. eapply wpc_post; [apply runBounded_spec; apply HG; [done | by right] |].
  intros h2 r2 [Hs2 _].
  eapply wpc_post; [apply runBounded_spec; apply HG; [by etrans | by left] |].
  intros h3 r3 [Hs3 Hr3]. split; [by do 2 (etrans; [done |]) | done].
Qed.

(** ** Where a volume's device is *)

Lemma luks_name x : mem_char slash x = false -> is_name ("luks-" +s+ x).
Proof. intros Hx. by repeat split. Qed.

Lemma mapped_path v : is_name v -> GetMappedDevicePath (GenerateMapperName v) = "/dev/mapper/luks-" +s+ v.
Proof.
  intros Hn. unfold GetMappedDevicePath, GenerateMapperName. rewrite path_join_name; [done | ..].
  - exists ["mapper"; "dev"]. by vm_compute.
  - apply luks_name, Hn.
Qed.

Lemma IsLUKSOpened_spec (G : history -> call -> Prop) mapperName h :
  G h (CStat (GetMappedDevicePath mapperName)) ->
  wpc G (IsLUKSOpened mapperName)
    (fun h' b => h ⊆ h' /\ if b then stat_ok (GetMappedDevicePath mapperName) h'
                 else stat_failed (GetMappedDevicePath mapperName) h') h.
Proof.
  intros HG. unfold IsLUKSOpened. wp. split; [apply subseteq_cons |].
  destruct r as [st | e]; cbn; [exists st | exists e]; by left.
Qed.

(** What an opened mapper rests on. *)
Definition opened_in (devicePath mapperName : string) (h : history) : Prop :=
  stat_ok (GetMappedDevicePath mapperName) h
  \/ exec_ok [CryptsetupCmd; "luksOpen"; devicePath; mapperName] h.

Lemma OpenLUKS_spec (G : history -> call -> Prop) dev name pass h :
  (forall h' c, h ⊆ h' -> c = CStat (GetMappedDevicePath name)
     \/ cryptsetup_calls pass ["luksOpen"; dev; name] c -> G h' c) ->
  wpc G (OpenLUKS dev name pass)
    (fun h' r => h ⊆ h' /\ match r with Ok _ => opened_in dev name h' | Err _ => True end) h.
Proof.
  intros HG. unfold OpenLUKS. wp_step.
  eapply wpc_post; [apply IsLUKSOpened_spec, HG; [done | by left] |].
  intros h1 b [Hs Hb]. destruct b; [by split; [| left] |].
  wp_step. eapply wpc_post.
  - apply runCryptsetup_spec. intros h' c Hs' Hc. apply HG; [by etrans | by right].
  - intros h2 r [Hs2 Hr]. destruct r as [[] | e]; cbn; (split; [by etrans |]); [by right | done].
Qed.

(** The calls [FormatAndOpenLUKS] may make: the probe, the luksFormat of a
    device whose probe failed, and those of [OpenLUKS]. *)
Definition format_guard (dev name pass : string) (h : history) (c : call) : Prop :=
  c = CExec (Some (30 * second)) "" [CryptsetupCmd; "isLuks"; dev]
  \/ (cryptsetup_calls pass ["luksFormat"; "--batch-mode"; dev] c
      /\ exec_failed [CryptsetupCmd; "isLuks"; dev] h)
  \/ c = CStat (GetMappedDevicePath name)
  \/ cryptsetup_calls pass ["luksOpen"; dev; name] c.

Definition format_post (dev name : string) (h : history) (r : result unit gerr) : Prop :=
  match r with
  | Ok _ => opened_in dev name h
      /\ (exec_ok [CryptsetupCmd; "isLuks"; dev] h
          \/ exec_ok [CryptsetupCmd; "luksFormat"; "--batch-mode"; dev] h)
  | Err _ => True
  end.

Lemma FormatAndOpenLUKS_spec dev name pass h :
  wpc (format_guard dev name pass) (FormatAndOpenLUKS dev name pass) (format_post dev name) h.
Proof.
  unfold FormatAndOpenLUKS, IsLUKSDevice. do 2 wp_step.
  eapply wpc_post; [apply runBounded_spec; by left |].
  intros h1 r [Hs Hr]. cbn [wpc].
  destruct r as [[] | e]; cbn [is_ok].
  - eapply wpc_post.
    + apply OpenLUKS_spec. intros h' c _ [-> | Hc]; unfold format_guard; auto.
    + intros h2 r2 [Hs2 Hr2]. destruct r2; cbn; eauto with go.
  - wp_step. eapply wpc_post.
    + apply runCryptsetup_spec. intros h' c Hs' Hc. right. left. eauto with go.
    + intros h2 r2 [Hs2 Hr2]. destruct r2 as [[] |]; [| done].
      eapply wpc_post.
      * apply OpenLUKS_spec. intros h' c _ [-> | Hc]; unfold format_guard; auto.
      * intros h3 r3 [Hs3 Hr3]. destruct r3; cbn; eauto with go.
Qed.

Lemma OpenLUKS_no_format dev name pass h :
  wpc (fun _ c => forall b i d, c <> CExec b i [CryptsetupCmd; "luksFormat"; "--batch-mode"; d])
    (OpenLUKS dev name pass) (fun _ _ => True) h.
Proof.
  eapply wpc_post; [apply OpenLUKS_spec | done].
  intros h' c _ [-> | [-> | ->]]; done.
Qed.

(** Membership in a history whose calls all satisfied a guard. *)
Lemma hist_ok_elem G h c r : hist_ok G h -> Ev c r ∈ h -> exists h', G h' c /\ h' ⊆ h.
Proof.
  induction h as [| [c' r'] h IH]; [by intros _ ?%not_elem_of_nil |].
  intros [HG Hh] [E | Hin]%elem_of_cons.
  - exists h. assert (c = c') as -> by congruence. split; [done | apply subseteq_cons].
  - destruct (IH Hh Hin) as (h' & ? & Hs). exists h'. split; [done | by apply subseteq_cons_r].
Qed.

(** C15: a backing device is only ever formatted after an [isLuks] probe of it
    failed; the passphrase travels on stdin only, never on a command line; and
    when [FormatAndOpenLUKS] succeeds, the device had a LUKS header (probed,
    or written here) and its mapper exists (found, or opened here). *)
Theorem format_only_after_failed_probe env dev name pass :
  let run' := run env (FormatAndOpenLUKS dev name pass) [] in
  hist_ok (format_guard dev name pass) (fst run') /\ format_post dev name (fst run') (snd run').
Proof. apply wpc_run; [apply FormatAndOpenLUKS_spec | done]. Qed.

(** An existing LUKS volume is never re-formatted when the probe answers:
    if [isLuks] exits 0, no luksFormat of any device is run. *)
Theorem luks_device_not_reformatted (env : environment) dev name pass so se :
  env [] (CExec (Some (30 * second)) "" [CryptsetupCmd; "isLuks"; dev]) = XExit 0 so se ->
  forall d, ~ ran [CryptsetupCmd; "luksFormat"; "--batch-mode"; d]
    (fst (run env (FormatAndOpenLUKS dev name pass) [])).
Proof.
  intros Hprobe d (b & i & r & Hin). unfold FormatAndOpenLUKS, IsLUKSDevice, runBounded in Hin.
  cbn [bind perform run] in Hin. rewrite Hprobe in Hin. cbn [is_ok bind run] in Hin.
  edestruct hist_ok_elem as (h' & HG & _); [| exact Hin |].
  - refine (proj1 (wpc_run env _ _ _ _ (OpenLUKS_no_format dev name pass _) _)). by split.
  - by apply HG in HG || by eapply HG.
Qed.

Lemma luks_device_not_reformatted_witness :
  ~ ran [CryptsetupCmd; "luksFormat"; "--batch-mode"; "/img"]
    (fst (run quiet_env (FormatAndOpenLUKS "/img" "luks-v" "pw") [])).
Proof. apply (luks_device_not_reformatted quiet_env "/img" "luks-v" "pw" "" ""). reflexivity. Defined.

(** A probe that times out counts as "not LUKS": on a device that never
    answered, [FormatAndOpenLUKS] goes on to run luksFormat, which destroys the
    header of a volume that was formatted. *)
Theorem timed_out_probe_reformats (env : environment) dev name pass :
  env [] (CExec (Some (30 * second)) "" [CryptsetupCmd; "isLuks"; dev]) = XTimeout ->
  ran [CryptsetupCmd; "luksFormat"; "--batch-mode"; dev]
    (fst (run env (FormatAndOpenLUKS dev name pass) [])).
Proof.
  intros Hprobe. unfold FormatAndOpenLUKS, IsLUKSDevice, runBounded at 1.
  cbn [bind perform run]. rewrite Hprobe. cbn [is_ok bind run].
  apply (wpc_run_post env _ (fun h _ => ran _ h)). wp_step.
  eapply wpc_post; [by apply runCryptsetup_spec |].
  intros h r [_ Hr]. destruct r as [[] | e].
  - eapply wpc_post; [by apply OpenLUKS_spec |]. cbn.
    intros h' _ [Hs _]. destruct Hr as (b & i & so & se & Hin).
    exists b, i, (XExit 0 so se). auto.
  - destruct Hr as (b & i & r & Hin & _). by exists b, i, r.
Qed.

Definition wedged_probe_env : environment := override_env (fun _ c =>
  match c return option (reply c) with
  | CExec _ _ (_ :: "isLuks" :: _) => Some XTimeout
  | _ => None
  end).

Lemma timed_out_probe_reformats_witness :
  ran [CryptsetupCmd; "luksFormat"; "--batch-mode"; "/img"]
    (fst (run wedged_probe_env (FormatAndOpenLUKS "/img" "luks-v" "pw") [])).
Proof. apply (timed_out_probe_reformats wedged_probe_env "/img" "luks-v" "pw"). reflexivity. Defined.

End Luks.
