(* ===== verification/Units.v ===== *)
(** * Units: sizes and durations (pkg/rclone/syncmanager.go)

    The hand-written parsers behind every size and duration a StorageClass
    can set, with Go's 64-bit arithmetic: the product wraps. *)

From Stdlib Require Import Ascii DecimalString.
From S2P Require Import Prelude GoStrings Effects.

Module Units.


(** [s[:len(s)-1]] and [s[len(s)-1]] of a string of two bytes or more. *)
Definition split_unit (s : string) : option (string * ascii) :=
  if (String.length s <? 2)%nat then None else last_byte s.

Definition bad (s : string) : gerr := error_new s.

Definition parseDurationToNs (s0 : string) : result Z gerr :=
  let s := trim_space s0 in
  match split_unit s with
  | None => Err (bad "invalid duration")
  | Some (value, unit) =>
      match sscanf_d value with
      | None => Err (bad "expected integer")
      | Some num =>
          if Ascii.eqb unit "s" then Ok (wrap64 (num * 1000000000))
          else if Ascii.eqb unit "m" then Ok (wrap64 (num * 60 * 1000000000))
          else if Ascii.eqb unit "h" then Ok (wrap64 (num * 3600 * 1000000000))
          else if Ascii.eqb unit "d" then Ok (wrap64 (num * 86400 * 1000000000))
          else Err (bad "unknown duration unit")
      end
  end.

Definition parseSizeToBytes (s0 : string) : result Z gerr :=
  let s := trim_space s0 in
  match split_unit s with
  | None => Err (bad "invalid size")
  | Some (value, unit) =>
      match sscanf_d value with
      | None => Err (bad "expected integer")
      | Some num =>
          if Ascii.eqb unit "K" || Ascii.eqb unit "k" then Ok (wrap64 (num * 1024))
          else if Ascii.eqb unit "M" || Ascii.eqb unit "m" then Ok (wrap64 (num * 1024 * 1024))
          else if Ascii.eqb unit "G" || Ascii.eqb unit "g" then Ok (wrap64 (num * 1024 * 1024 * 1024))
          else if Ascii.eqb unit "T" || Ascii.eqb unit "t" then Ok (wrap64 (num * 1024 * 1024 * 1024 * 1024))
          else Err (bad "unknown size unit")
      end
  end.

Definition durationOrDefault (s : string) (defaultNs : Z) : Z :=
  if bool_decide (s = "") then defaultNs
  else match parseDurationToNs s with
       | Ok ns => if 0 <? ns then ns else defaultNs
       | Err _ => defaultNs
       end.

(** Nanoseconds and bytes per unit letter. *)
Definition duration_unit (u : ascii) : option Z :=
  if Ascii.eqb u "s" then Some second
  else if Ascii.eqb u "m" then Some minute
  else if Ascii.eqb u "h" then Some hour
  else if Ascii.eqb u "d" then Some (24 * hour)
  else None.
Definition size_unit (u : ascii) : option Z :=
  if mem_char u "Kk" then Some (2 ^ 10)
  else if mem_char u "Mm" then Some (2 ^ 20)
  else if mem_char u "Gg" then Some (2 ^ 30)
  else if mem_char u "Tt" then Some (2 ^ 40)
  else None.

Lemma last_byte_app s u : last_byte (s +s+ String u "") = Some (s, u).
Proof.
  induction s as [| c s IH]; [done |].
  cbn [String.append last_byte]. rewrite IH.
  by destruct (s +s+ String u "") eqn:E; destruct s.
Qed.

Lemma split_unit_value s u :
  s <> "" -> split_unit (s +s+ String u "") = Some (s, u).
Proof.
  intros Hs. unfold split_unit. rewrite slen_app, last_byte_app.
  destruct s; [done |]. rewrite (proj2 (Nat.ltb_ge _ _)); [done |]. cbn [String.length]. lia.
Qed.

Lemma format_int_hd z : exists c r, format_int z = String c r /\ is_ascii c = true /\ is_space c = false.
Proof.
  destruct z as [| p | p]; [by exists "0"%char, "" | | exists "-"%char; by eexists].
  rewrite format_pos_string. pose proof (nilzero_digits p) as Hd.
  destruct (NilZero.string_of_uint (Pos.to_uint p)) as [| c r] eqn:E.
  - unfold NilZero.string_of_uint in E. by destruct (Pos.to_uint p).
  - exists c, r. split; [done |].
    unfold all_digits in Hd. cbn in Hd. apply negb_true_iff, orb_false_iff in Hd as [Hc _].
    apply negb_false_iff in Hc. unfold is_digit in Hc. unfold is_space.
    destruct c as [[] [] [] [] [] [] [] []]; done.
Qed.

Lemma trim_space_number z u :
  is_ascii u = true /\ is_space u = false -> trim_space (format_int z +s+ String u "") = format_int z +s+ String u "".
Proof.
  intros [Ha Hu]. destruct (format_int_hd z) as (c & r & E & Hca & Hc).
  unfold trim_space. rewrite E. cbn [String.append]. rewrite trim_left_plain by (by rewrite space_len_ascii, Hc).
  change (String c (r +s+ String u "")) with (String c r +s+ String u "").
  by apply trim_right_snoc.
Qed.

Lemma digit_prefix_all s : all_digits s = true -> digit_prefix s = s.
Proof.
  unfold all_digits. induction s as [| c s IH]; cbn; [done |].
  rewrite negb_orb, negb_involutive. intros [Hc Hs]%andb_true_iff. rewrite Hc. by rewrite IH.
Qed.

Lemma sscanf_format z : in_int64 z -> sscanf_d (format_int z) = Some z.
Proof.
  intros Hz. destruct z as [| p | p]; [done | |].
  - pose proof (nilzero_digits p) as Hd. rewrite format_pos_string.
    destruct (NilZero.string_of_uint (Pos.to_uint p)) as [| c r] eqn:E.
    + by rewrite <- E, parse_digits_format in * || (unfold NilZero.string_of_uint in E; by destruct (Pos.to_uint p)).
    + assert (sscanf_d (String c r) = range64 (parse_digits (digit_prefix (String c r)))) as ->.
      { unfold all_digits in Hd. cbn in Hd. apply negb_true_iff, orb_false_iff in Hd as [Hc _].
        unfold sscanf_d. destruct c as [[] [] [] [] [] [] [] []]; done. }
      rewrite digit_prefix_all, <- E, parse_digits_format by done. by apply range64_Some.
  - change (sscanf_d (String "-" (NilZero.string_of_uint (Pos.to_uint p))) = Some (Z.neg p)).
    unfold sscanf_d. rewrite digit_prefix_all, parse_digits_format by apply nilzero_digits.
    by apply range64_Some.
Qed.

Lemma format_int_nonempty z : format_int z <> "".
Proof. destruct (format_int_hd z) as (c & r & -> & _). done. Qed.

Lemma duration_unit_not_space u k : duration_unit u = Some k -> is_ascii u = true /\ is_space u = false.
Proof.
  unfold duration_unit. intros H. repeat case_hyp H; try done;
    match goal with E : Ascii.eqb _ _ = true |- _ => apply Ascii.eqb_eq in E; by subst end.
Qed.
Lemma size_unit_not_space u k : size_unit u = Some k -> is_ascii u = true /\ is_space u = false.
Proof.
  unfold size_unit, mem_char. intros H. unfold is_space.
  repeat match type of H with context [Ascii.eqb ?a u] =>
    destruct (Ascii.eqb_spec a u); [subst; done |] end. done.
Qed.

Lemma parse_duration_value z u k :
  in_int64 z -> duration_unit u = Some k ->
  parseDurationToNs (format_int z +s+ String u "") = Ok (wrap64 (z * k)).
Proof.
  intros Hz Hu. unfold parseDurationToNs.
  rewrite trim_space_number by (by eapply duration_unit_not_space).
  rewrite split_unit_value, sscanf_format by (done || apply format_int_nonempty).
  unfold duration_unit, second, minute, hour in *.
  repeat case_match; simplify_eq; do 2 f_equal; unfold minute, second; lia.
Qed.

Lemma parse_size_value z u k :
  in_int64 z -> size_unit u = Some k ->
  parseSizeToBytes (format_int z +s+ String u "") = Ok (wrap64 (z * k)).
Proof.
  intros Hz Hu. unfold parseSizeToBytes.
  rewrite trim_space_number by (by eapply size_unit_not_space).
  rewrite split_unit_value, sscanf_format by (done || apply format_int_nonempty).
  unfold size_unit, mem_char in Hu. rewrite !(Ascii.eqb_sym _ u), !orb_false_r in Hu.
  repeat case_match; simplify_eq; do 2 f_equal; lia.
Qed.

(** A size or duration written as a decimal number and a unit letter is
    read back exactly, as long as the product fits in 64 bits; the parsers
    never return a value outside [int64]. *)
Theorem units_roundtrip z k :
  in_int64 z -> in_int64 (z * k) ->
  (forall u, duration_unit u = Some k -> parseDurationToNs (format_int z +s+ String u "") = Ok (z * k))
  /\ (forall u, size_unit u = Some k -> parseSizeToBytes (format_int z +s+ String u "") = Ok (z * k)).
Proof.
  intros Hz Hk. rewrite <- (wrap64_id _ Hk).
  split; intros u Hu; [by apply parse_duration_value | by apply parse_size_value].
Qed.

Lemma units_roundtrip_witness :
  parseSizeToBytes (format_int 20 +s+ "G") = Ok (20 * 2 ^ 30).
Proof. apply (units_roundtrip 20 (2 ^ 30)); [split; lia | split; lia | reflexivity]. Defined.

(** The number parsed is the leading one and the unit is the last letter;
    whatever stands between them is ignored, so a compound or sub-second
    duration is accepted with another value: "100ms" is 100 seconds and
    "1h30m" is one minute, while the documented "0" (immediate write-back) is
    rejected. *)
Theorem duration_garbage_ignored z u k y j :
  in_int64 z -> 0 <= z -> duration_unit u = Some k -> is_digit y = false ->
  let junk := String y j in
  parseDurationToNs (format_int z +s+ junk +s+ String u "") = Ok (wrap64 (z * k))
  /\ parseDurationToNs "100ms" = Ok (100 * second)
  /\ parseDurationToNs "1h30m" = Ok minute
  /\ parseDurationToNs "0" = Err (bad "invalid duration").
Proof.
  intros Hz H0 Hu Hdig junk. split; [| by vm_compute].
  pose proof (duration_unit_not_space u k Hu) as [Hua Hsp].
  destruct (format_int_hd z) as (c & r & E & Hca & Hc).
  unfold parseDurationToNs.
  assert (trim_space (format_int z +s+ junk +s+ String u "")
          = (format_int z +s+ junk) +s+ String u "") as ->.
  { unfold trim_space. rewrite E. cbn [String.append]. rewrite trim_left_plain by (by rewrite space_len_ascii, Hc).
    rewrite <- sapp_assoc.
    change (String c ((r +s+ junk) +s+ String u "")) with (String c (r +s+ junk) +s+ String u "").
    rewrite trim_right_snoc by done. done. }
  rewrite split_unit_value by (rewrite E; done).
  assert (sscanf_d (format_int z +s+ junk) = Some z) as ->.
  { clear Hu Hsp. rewrite <- (sscanf_format z Hz).
    assert (forall s, digit_prefix (s +s+ junk) = digit_prefix s \/ digit_prefix s <> s) as Hpre.
    { intros s. induction s as [| x s IHs]; cbn.
      - rewrite Hdig. by left.
      - destruct (is_digit x); [| by left].
        destruct IHs as [-> |]; [by left | right; congruence]. }
    assert (all_digits (format_int z) = true) as Hall.
    { destruct z; [done | apply (nilzero_digits p) | lia]. }
    destruct (Hpre (format_int z)) as [Hp | Hp]; [| by rewrite digit_prefix_all in Hp].
    rewrite E in *. assert (c <> "+"%char /\ c <> "-"%char) as [Hp1 Hp2].
    { unfold all_digits in Hall. cbn in Hall. split; intros ->; done. }
    unfold sscanf_d. cbn [String.append].
    destruct c as [[] [] [] [] [] [] [] []]; try done;
      change (String ?c (r +s+ junk)) with (String c r +s+ junk); by rewrite Hp. }
  unfold duration_unit, second, minute, hour in *.
  repeat case_match; simplify_eq; do 2 f_equal; unfold minute, second; lia.
Qed.

Lemma duration_garbage_ignored_witness :
  parseDurationToNs (format_int 2 +s+ "h15" +s+ "s") = Ok (wrap64 (2 * second)).
Proof.
  apply (duration_garbage_ignored 2 "s" second "h" "15"); [split; lia | lia | reflexivity | reflexivity].
Defined.

End Units.
