(* ===== verification/Rpc.v ===== *)
(** * Rpc: pkg/rclone/rclone.go

    The bounded front end to librclone: calls and their budgets, the table
    of calls still in flight and the watchdog over it, the reading of
    replies, and the redaction of credentials from error texts. *)

From Stdlib Require Import Ascii.
From S2P Require Import Prelude GoStrings Effects.

Module Rpc.

Definition RPCDefaultTimeout : Z := 60 * second.
Definition rpcStuckFatalAfter : Z := 5 * minute.
Definition rpcListTimeout : Z := 15 * second.
Definition rpcMountTimeout : Z := 2 * minute.
Definition rpcUnmountTimeout : Z := 2 * minute.
Definition rpcStatsTimeout : Z := 2 * minute.
Definition rpcStatsProbeTimeout : Z := 15 * second.
Definition rpcRefreshTimeout : Z := 30 * minute.

(** ** Redaction

    [redactBetween] loops; one round of it either leaves the loop with a
    result or goes round again with a new text.  [redactBetween fuel] is [None]
    while the loop is still going after [fuel] rounds. *)

Fixpoint take_s (n : nat) (s : string) : string :=
  match n, s with S n, String c s => String c (take_s n s) | _, _ => "" end.
Fixpoint drop_s (n : nat) (s : string) : string :=
  match n, s with S n, String _ s => drop_s n s | _, _ => s end.

Inductive round : Set := Leave (result : string) | Again (result : string).

Definition redact_round (prefix suffix result : string) : round :=
  match cut (to_lower prefix) (to_lower result) with
  | None => Leave result
  | Some (before, _) =>
      let valueStart := (String.length before + String.length prefix)%nat in
      let remaining := drop_s valueStart result in
      match cut suffix (to_lower remaining) with
      | None => Leave (take_s valueStart result +s+ "[REDACTED]")
      | Some (value, _) =>
          Again (take_s valueStart result +s+ "[REDACTED]"
                 +s+ drop_s (valueStart + String.length value) result)
      end
  end.

Fixpoint redactBetween (fuel : nat) (s prefix suffix : string) : option string :=
  match fuel with
  | O => None
  | S fuel =>
      match redact_round prefix suffix s with
      | Leave r => Some r
      | Again r => redactBetween fuel r prefix suffix
      end
  end.

Definition patterns : list (string * string) :=
  [("access_key_id=", ","); ("access_key_id=", ":");
   ("secret_access_key=", ","); ("secret_access_key=", ":");
   ("password=", ","); ("password=", ":");
   ("password2=", ","); ("password2=", ":")].

Fixpoint redact_all (fuel : nat) (pats : list (string * string)) (s : string) : option string :=
  match pats with
  | [] => Some s
  | (p, x) :: pats =>
      match redactBetween fuel s p x with
      | Some s' => redact_all fuel pats s'
      | None => None
      end
  end.

(** [sanitizeErrorMessage], [fuel] rounds per pattern. *)
Definition sanitizeErrorMessage (fuel : nat) (msg : string) : option string :=
  redact_all fuel patterns msg.

(** Sanitizing inside a program: a loop that does not end in its first round
    never ends (see [redact_first_round] below). *)
Definition sanitize (msg : string) : prog string :=
  match sanitizeErrorMessage 1 msg with
  | Some t => Ret t
  | None => perform (CDiverge "redactBetween") ;;; Ret ""
  end.

(** ** Calls *)

Record RPCResult : Set := MkRPCResult { Output : option (list (string * json)); Status : Z }.

Definition ErrRPCTimeout (method : string) : gerr :=
  GErr ("librclone RPC timed out: " +s+ method) [SRPCTimeout].
Definition IsRPCTimeout (e : gerr) : bool := errors_is e SRPCTimeout.

Fixpoint field (k : string) (l : list (string * json)) : option json :=
  match l with
  | [] => None
  | (k', v) :: l => if decide (k = k') then Some v else field k l
  end.

Definition body_output (b : rpc_body) : option (list (string * json)) :=
  match b with
  | BodyEmpty => None
  | BodyJson f => Some f
  | BodyRaw s => Some [("_raw", JStr s)]
  end.

(** The message of a failed reply; other shapes than an "error" string are
    printed by Go with [%v], here "output". *)
Definition error_message (o : option (list (string * json))) : string :=
  match o with
  | None => ""
  | Some f => match field "error" f with Some (JStr m) => m | _ => "output" end
  end.

(** [callLibrclone] as its caller sees it: the in-flight bookkeeping is
    [call_start] and [call_return] below. *)
Definition callLibrclone (method : string) (params : list (string * pval)) (timeout : Z)
    : prog (result (rpc_body * Z) gerr) :=
  r <- perform (CRpc method params timeout) ;;
  Ret match r with
      | RpcDone status body => Ok (body, status)
      | RpcTimedOut => Err (ErrRPCTimeout method)
      end.

Definition RPCWithTimeout (method : string) (params : list (string * pval)) (timeout : Z)
    : prog (option RPCResult * option gerr) :=
  r <- callLibrclone method params timeout ;;
  match r with
  | Err e => Ret (None, Some e)
  | Ok (body, status) =>
      let result := MkRPCResult (body_output body) status in
      if 400 <=? status then
        errMsg <- sanitize (error_message (Output result)) ;;
        Ret (Some result,
             Some (error_new ("RPC " +s+ method +s+ " failed with status "
                              +s+ format_int status +s+ ": " +s+ errMsg)))
      else Ret (Some result, None)
  end.

Definition RPC (method : string) (params : list (string * pval)) :=
  RPCWithTimeout method params RPCDefaultTimeout.

(** The reply as librclone wrote it, which [text_of] recovers from its body:
    output, status and error. *)
Definition RPCWithRaw (text_of : rpc_body -> string) (method : string) (params : list (string * pval))
    : prog (string * Z * option gerr) :=
  r <- callLibrclone method params RPCDefaultTimeout ;;
  match r with
  | Err e => Ret ("", 0, Some e)
  | Ok (body, status) =>
      let output := text_of body in
      if 400 <=? status then
        shown <- sanitize output ;;
        errMsg <- sanitize output ;;
        Ret (shown, status,
             Some (error_new ("RPC " +s+ method +s+ " failed with status "
                              +s+ format_int status +s+ ": " +s+ errMsg)))
      else Ret (output, status, None)
  end.

(** ** Initialization: [initDone] and [initOnce] as state *)

Record init_state : Set := MkInit { initDone : bool; onceDone : bool }.

Definition setServerModTime : prog unit :=
  v <- perform (CGetenv "RCLONE_USE_SERVER_MODTIME") ;;
  if bool_decide (v = "false") then Ret tt
  else
    callLibrclone "options/set"
      [("main", PMap [("UseServerModTime", PBool true)])] RPCDefaultTimeout ;;;
    Ret tt.

Definition Initialize (s : init_state) : prog init_state :=
  if initDone s then Ret s
  else (if onceDone s then Ret tt else setServerModTime) ;;; Ret (MkInit true true).

Definition Finalize (s : init_state) : init_state :=
  if initDone s then MkInit false (onceDone s) else s.

(** ** The table of calls in flight *)

Record inFlightRPC : Set := InFlight { method : string; started : Z; budget : Z }.

Definition overdueBy (now : Z) (c : inFlightRPC) : Z :=
  let limit := Z.max (budget c) rpcStuckFatalAfter in
  (now - started c) - limit.

(** [rpcSeq] is a uint64. *)
Record rpc_table : Type := MkTable { rpcSeq : Z; rpcInFlight : gmap Z inFlightRPC }.
Definition empty_table : rpc_table := MkTable 0 ∅.

(** [callLibrclone] registering a call, and the call's goroutine removing it
    when librclone finally returns. *)
Definition call_start (m : string) (now timeout : Z) (t : rpc_table) : rpc_table * Z :=
  let id := (rpcSeq t + 1) mod 2 ^ 64 in
  (MkTable id (<[id := InFlight m now timeout]> (rpcInFlight t)), id).
Definition call_return (id : Z) (t : rpc_table) : rpc_table :=
  MkTable (rpcSeq t) (delete id (rpcInFlight t)).

(** What happens to the table: a call starts, librclone returns from one, or a
    caller is released by its budget, which does not touch the table. *)
Inductive rpc_event : Set :=
  | RpcStart (m : string) (now timeout : Z) | RpcReturn (id : Z) | RpcRelease (id : Z).
Definition rpc_step (t : rpc_table) (e : rpc_event) : rpc_table :=
  match e with
  | RpcStart m now timeout => (call_start m now timeout t).1
  | RpcReturn id => call_return id t
  | RpcRelease _ => t
  end.
Definition rpc_run (es : list rpc_event) : rpc_table := fold_left rpc_step es empty_table.

Definition holdsMountLock (m : string) : bool := has_prefix "mount/" m.

Definition stuckRPCs (now : Z) (t : rpc_table) : list inFlightRPC :=
  List.filter (fun c => 0 <=? overdueBy now c) (map snd (map_to_list (rpcInFlight t))).

(** [checkStuckRPCs]: the calls reported, and whether the process is ended. *)
Fixpoint check_calls (calls : list inFlightRPC) : list string * bool :=
  match calls with
  | [] => ([], false)
  | c :: calls =>
      if holdsMountLock (method c) then ([], true)
      else let '(rep, ab) := check_calls calls in (method c :: rep, ab)
  end.
Definition checkStuckRPCs (now : Z) (t : rpc_table) : list string * bool :=
  check_calls (stuckRPCs now t).

(** ** Redaction: one round or never *)

Lemma to_lower_app a b : to_lower (a +s+ b) = to_lower a +s+ to_lower b.
Proof. induction a as [| x a IH]; cbn; [done | by rewrite IH]. Qed.
Lemma to_lower_length a : String.length (to_lower a) = String.length a.
Proof. induction a as [| x a IH]; cbn; [done | by rewrite IH]. Qed.

Lemma take_drop_s n s : take_s n s +s+ drop_s n s = s.
Proof. revert s. induction n as [| n IH]; intros [| c s]; cbn; [done | done | done | by rewrite IH]. Qed.
Lemma take_s_app a b : take_s (String.length a) (a +s+ b) = a.
Proof. induction a as [| x a IH]; cbn; [by destruct b | by rewrite IH]. Qed.
Lemma drop_s_app a b n : drop_s (String.length a + n) (a +s+ b) = drop_s n b.
Proof. induction a as [| x a IH]; cbn; [done | by rewrite IH]. Qed.
Lemma take_s_length n s : (n <= String.length s)%nat -> String.length (take_s n s) = n.
Proof.
  revert s. induction n as [| n IH]; intros [| c s]; cbn; intros ?; try lia.
  by rewrite IH by lia.
Qed.

(** Equal-length heads of equal strings are equal. *)
Lemma sapp_inj_len a b x y :
  String.length a = String.length b -> a +s+ x = b +s+ y -> a = b /\ x = y.
Proof.
  revert b. induction a as [| c a IH]; intros [| d b]; cbn; try done.
  intros [=] [= -> E]. by destruct (IH b) as [-> ->].
Qed.

Lemma cut_prefix_long p s t t' :
  (String.length p <= String.length s)%nat ->
  cut_prefix p (s +s+ t) = None -> cut_prefix p (s +s+ t') = None.
Proof.
  revert s. induction p as [| x p IH]; intros [| c s]; cbn; try done; try lia.
  destruct (Ascii.eqb x c); [| done]. intros ?. apply IH. lia.
Qed.

(** Where a separator is first found does not depend on what follows it. *)
Lemma cut_same_head p a b b' :
  p <> "" -> cut p (a +s+ p +s+ b) = Some (a, b) -> cut p (a +s+ p +s+ b') = Some (a, b').
Proof.
  intros Hp. induction a as [| c a IH].
  - intros _. destruct p as [| x p]; [done |].
    pose proof (cut_prefix_app (String x p) b') as E.
    cbn in *. by rewrite E.
  - cbn [String.append]. intros Hc. cbn [cut] in Hc |- *.
    destruct (cut_prefix p (String c (a +s+ p +s+ b))) as [r |] eqn:E; [by injection Hc |].
    destruct (cut p (a +s+ p +s+ b)) as [[u v] |] eqn:Eu; [| done]. injection Hc as -> ->.
    replace (cut_prefix p (String c (a +s+ p +s+ b'))) with (@None string).
    { by rewrite (IH eq_refl). }
    symmetry. change (String c (a +s+ p +s+ b')) with (String c a +s+ (p +s+ b')).
    change (String c (a +s+ p +s+ b)) with (String c a +s+ (p +s+ b)) in E.
    rewrite <- sapp_assoc in E |- *. apply cut_prefix_long with (t := b); [| done].
    rewrite slen_app. cbn. lia.
Qed.

Section redaction.
Context (prefix : string) (x : ascii).
Hypothesis prefix_nonempty : prefix <> "".
(** The suffix is one byte that lowercases to itself, and none of those of
    the replacement text: "," and ":" are. *)
Hypothesis x_lower : lower_ascii x = x.
Hypothesis x_not_redacted : mem_char x "[redacted]" = false.

(** The shape of a text the loop goes round with. *)
Definition stuck_text (t : string) : Prop :=
  exists u v : string,
    t = u +s+ "[REDACTED]" +s+ v
    /\ (forall w, exists b, cut (to_lower prefix) (to_lower (u +s+ w)) = Some (b, to_lower w)
         /\ String.length u = (String.length b + String.length prefix)%nat)
    /\ exists r, to_lower v = String x r.

Lemma round_again s t : redact_round prefix (String x "") s = Again t -> stuck_text t.
Proof.
  unfold redact_round.
  destruct (cut (to_lower prefix) (to_lower s)) as [[b a] |] eqn:Ec; [| done].
  set (vs := (String.length b + String.length prefix)%nat).
  destruct (cut (String x "") (to_lower (drop_s vs s))) as [[val rest] |] eqn:Er; [| done].
  intros [= <-]. pose proof (cut_Some _ _ _ _ Ec) as Es.
  assert (Hlen : (vs <= String.length s)%nat).
  { rewrite <- (to_lower_length s), Es, !slen_app, to_lower_length. subst vs. lia. }
  assert (Hsplit : to_lower (take_s vs s) = b +s+ to_lower prefix
                   /\ to_lower (drop_s vs s) = a).
  { apply sapp_inj_len; [| by rewrite <- to_lower_app, take_drop_s, sapp_assoc].
    by rewrite to_lower_length, take_s_length, slen_app, to_lower_length. }
  destruct Hsplit as [Hu Hd].
  exists (take_s vs s), (drop_s (vs + String.length val) s). split; [done |]. split.
  - intros w. exists b. rewrite take_s_length by done. split; [| done].
    rewrite to_lower_app, Hu, sapp_assoc.
    apply cut_same_head with (b := a); [by destruct prefix | by rewrite <- Es].
  - exists rest. pose proof (cut_Some _ _ _ _ Er) as Ev. cbn in Ev.
    rewrite <- (take_drop_s vs s) at 1.
    rewrite <- (take_s_length vs s Hlen) at 1. rewrite drop_s_app.
    rewrite <- (take_drop_s (String.length val) (drop_s vs s)), to_lower_app in Ev.
    apply sapp_inj_len in Ev as [_ Ev]; [exact Ev |].
    rewrite to_lower_length, take_s_length; [done |].
    rewrite <- (to_lower_length (drop_s vs s)), (cut_Some _ _ _ _ Er), slen_app. lia.
Qed.

Lemma stuck_round t : stuck_text t -> redact_round prefix (String x "") t = Again t.
Proof.
  intros (u & v & -> & Hu & (r & Hv)). unfold redact_round.
  destruct (Hu ("[REDACTED]" +s+ v)) as (b & Hc & Hlen). rewrite Hc, <- Hlen.
  rewrite <- (Nat.add_0_r (String.length u)) at 1. rewrite drop_s_app. cbn [drop_s].
  rewrite (to_lower_app "[REDACTED]" v), Hv.
  change (to_lower "[REDACTED]") with "[redacted]".
  change (String x r) with (String x "" +s+ r).
  rewrite cut_first_char by done.
  rewrite take_s_app, drop_s_app. done.
Qed.

Lemma stuck_diverges fuel t : stuck_text t -> redactBetween fuel t prefix (String x "") = None.
Proof.
  intros Ht. induction fuel as [| fuel IH]; [done |]. cbn. by rewrite (stuck_round _ Ht).
Qed.

(** The loop leaves in its first round, or never. *)
Lemma redact_first_round fuel s :
  redactBetween (S fuel) s prefix (String x "")
  = match redact_round prefix (String x "") s with Leave r => Some r | Again _ => None end.
Proof.
  cbn. destruct (redact_round prefix (String x "") s) as [r | t] eqn:E; [done |].
  apply stuck_diverges. eapply round_again; eauto.
Qed.
End redaction.

(** The two suffixes of [patterns] meet the section's hypotheses. *)
Definition redactable (c : ascii) : Prop := lower_ascii c = c /\ mem_char c "[redacted]" = false.

Lemma cut_char_contains c s : cut (String c "") s = None <-> mem_char c s = false.
Proof.
  split; [| apply cut_no_char].
  induction s as [| d s IH]; [done |]. cbn. destruct (Ascii.eqb c d) eqn:E; [done |].
  destruct (cut (String c "") s) as [[] |]; [done |]. intros _.
  rewrite Ascii.eqb_sym, E. by apply IH.
Qed.

Lemma redactBetween_cases fuel s prefix x :
  prefix <> "" -> redactable x ->
  redactBetween (S fuel) s prefix (String x "")
  = match cut (to_lower prefix) (to_lower s) with
    | None => Some s
    | Some (b, _) =>
        let n := (String.length b + String.length prefix)%nat in
        if mem_char x (to_lower (drop_s n s)) then None
        else Some (take_s n s +s+ "[REDACTED]")
    end.
Proof.
  intros Hp [Hx1 Hx2]. rewrite redact_first_round by done. unfold redact_round.
  destruct (cut (to_lower prefix) (to_lower s)) as [[b a] |]; [| done]. cbn zeta.
  set (rem := to_lower _).
  destruct (cut (String x "") rem) as [[v r] |] eqn:E; destruct (mem_char x rem) eqn:Em;
    try done.
  - by rewrite (proj2 (cut_char_contains x rem) Em) in E.
  - apply cut_char_contains in E. congruence.
Qed.

Lemma patterns_redactable :
  Forall (fun px => px.1 <> "" /\ exists c, px.2 = String c "" /\ redactable c) patterns.
Proof. repeat constructor; cbn; try done; (eexists; split; [done | split; done]). Qed.

Lemma redact_all_fuel fuel pats s :
  Forall (fun px => px.1 <> "" /\ exists c, px.2 = String c "" /\ redactable c) pats ->
  redact_all (S fuel) pats s = redact_all 1 pats s.
Proof.
  intros H. revert s. induction H as [| [p x] pats (Hp & c & Hc & Hr) _ IH]; intros s; [done |].
  cbn [redact_all]. cbn in Hp, Hc. subst x.
  rewrite !redactBetween_cases by done.
  destruct (cut (to_lower p) (to_lower s)) as [[b a] |]; [| apply IH].
  cbn zeta. destruct (mem_char _ _); [done | apply IH].
Qed.

(** The text still to be searched when the first secret's pattern is tried. *)
Lemma first_pattern_stuck fuel p q pats a v rest :
  to_lower p = p -> p <> "" -> redactable q ->
  redact_all fuel ((p, String q "") :: pats) (a +s+ p +s+ v +s+ String q rest) = None.
Proof.
  intros Hl Hp Hq. cbn [redact_all]. destruct fuel as [| fuel]; [done |].
  rewrite redactBetween_cases by done. rewrite Hl, to_lower_app, (to_lower_app p), Hl.
  destruct (cut p (to_lower a +s+ p +s+ to_lower (v +s+ String q rest))) as [[b w] |] eqn:Ec.
  2: { assert (E := contains_app (to_lower a) p (to_lower (v +s+ String q rest))).
       unfold contains in E. by rewrite Ec in E. }
  cbn zeta. set (s := a +s+ p +s+ v +s+ String q rest).
  assert (Hin : mem_char q (to_lower (drop_s (String.length b + String.length p) s)) = true).
  { assert (Hb : (String.length b <= String.length a)%nat).
    { clear -Ec Hp. rewrite <- (to_lower_length a). revert b w Ec.
      generalize (to_lower a) as a'. intros a'. induction a' as [| c a' IH]; intros b w.
      - destruct p as [| c p]; [done |].
        pose proof (cut_prefix_app (String c p) (to_lower (v +s+ String q rest))) as E. cbn in *.
        rewrite E. intros [= <- _]. done.
      - cbn [String.append cut]. destruct (cut_prefix p _); [by intros [= <- _]; cbn; lia |].
        destruct (cut p _) as [[b' w'] |] eqn:E; [| done]. intros [= <- <-].
        specialize (IH _ _ eq_refl). cbn. lia. }
    assert (Hd : exists z, drop_s (String.length b + String.length p) s = z +s+ v +s+ String q rest).
    { subst s. clear -Hb. revert a Hb. induction (String.length b) as [| n IH]; intros a Hb.
      - cbn [Nat.add]. exists (drop_s (String.length p) (a +s+ p)). 
        rewrite <- sapp_assoc. assert (Hp : (String.length p <= String.length (a +s+ p))%nat)
          by (rewrite slen_app; lia).
        revert Hp. generalize (a +s+ p) as u. induction (String.length p) as [| m IHm]; intros u Hu.
        + by destruct u.
        + destruct u as [| c u]; cbn in Hu; [lia |]. cbn. apply IHm. lia.
      - destruct a as [| c a]; cbn in Hb; [lia |]. cbn. apply IH. lia. }
    destruct Hd as [z ->]. rewrite !to_lower_app, !mem_char_app.
    cbn. rewrite (proj1 Hq), Ascii.eqb_refl. by rewrite !orb_true_r. }
  by rewrite Hin.
Qed.

(** ** The watchdog *)

(** The calls of a run: its starts, numbered from 1, that did not return. *)
Fixpoint starts (es : list rpc_event) : Z :=
  match es with [] => 0 | RpcStart _ _ _ :: es => 1 + starts es | _ :: es => starts es end.
Definition in_flight (es : list rpc_event) (id : Z) (c : inFlightRPC) : Prop :=
  exists es1 es2, es = es1 ++ RpcStart (method c) (started c) (budget c) :: es2
    /\ id = starts es1 + 1 /\ RpcReturn id ∉ es2.

Lemma starts_app a b : starts (a ++ b) = starts a + starts b.
Proof. induction a as [| [] a IH]; cbn [app starts]; lia. Qed.
Lemma starts_nonneg es : 0 <= starts es.
Proof. induction es as [| [] es IH]; cbn [starts]; lia. Qed.

Lemma in_flight_snoc es e id c :
  in_flight (es ++ [e]) id c <->
    (in_flight es id c /\ e <> RpcReturn id)
    \/ (e = RpcStart (method c) (started c) (budget c) /\ id = starts es + 1).
Proof.
  split.
  - intros (es1 & es2 & E & Hid & Hr). destruct es2 as [| x es2 _] using rev_ind.
    + apply app_inj_tail in E as [-> ->]. by right.
    + rewrite app_comm_cons, app_assoc in E. apply app_inj_tail in E as [-> ->].
      rewrite elem_of_app, list_elem_of_singleton in Hr. left. split; [| intros ->; by apply Hr; right].
      exists es1, es2. naive_solver.
  - intros [[(es1 & es2 & -> & Hid & Hr) Hne] | [-> ->]].
    + exists es1, (es2 ++ [e]). split; [by rewrite <- app_assoc |]. split; [done |].
      rewrite elem_of_app, list_elem_of_singleton. naive_solver.
    + exists es, []. split; [done |]. split; [done |]. apply not_elem_of_nil.
Qed.

Lemma in_flight_bound es id c : in_flight es id c -> 1 <= id <= starts es.
Proof.
  intros (es1 & es2 & -> & -> & _). rewrite starts_app. cbn [starts].
  pose proof (starts_nonneg es1). pose proof (starts_nonneg es2). lia.
Qed.

(** As long as the counter has not wrapped, the table is the calls in flight. *)
Lemma table_exact es :
  starts es < 2 ^ 64 ->
  rpcSeq (rpc_run es) = starts es /\ forall id c, rpcInFlight (rpc_run es) !! id = Some c <-> in_flight es id c.
Proof.
  unfold rpc_run. induction es as [| e es IH] using rev_ind.
  { intros _. split; [done |]. intros id c. cbn. rewrite lookup_empty. split; [done |].
    intros H%in_flight_bound. cbn in H. lia. }
  rewrite starts_app, fold_left_app. cbn [fold_left]. intros Hb.
  assert (Hb' : starts es < 2 ^ 64) by (destruct e; cbn [starts] in Hb; lia). destruct (IH Hb') as [Hs Ht].
  destruct e as [m now timeout | i | i]; cbn [starts rpc_step] in *.
  - unfold call_start. cbn [fst rpcSeq rpcInFlight]. rewrite Hs. pose proof (starts_nonneg es) as H0.
    rewrite Z.mod_small by lia. split; [lia |]. intros id c. rewrite in_flight_snoc, <- Ht, lookup_insert_Some. split.
    + intros [[<- <-] | [Hne H]]; [by right | by left].
    + intros [[H' _] | [[= -> -> ->] ->]]; [| left; by destruct c]. right. split; [| done].
      apply Ht, in_flight_bound in H'. lia.
  - split; [cbn; lia |]. intros id c. cbn. rewrite in_flight_snoc, <- Ht, lookup_delete_Some. naive_solver.
  - split; [lia |]. intros id c. rewrite in_flight_snoc, <- Ht. naive_solver.
Qed.

Lemma check_calls_abort calls :
  (check_calls calls).2 = true <-> exists c, c ∈ calls /\ holdsMountLock (method c) = true.
Proof.
  induction calls as [| c calls IH]; cbn.
  - split; [done |]. by intros (c & ?%not_elem_of_nil & _).
  - destruct (holdsMountLock (method c)) eqn:E; cbn.
    + split; [| done]. intros _. exists c. by split; [left |].
    + destruct (check_calls calls) as [rep ab]; cbn in *. rewrite IH. split.
      * intros (d & ? & ?). exists d. by split; [right |].
      * intros (d & [-> | ?]%elem_of_cons & ?); [congruence | by exists d].
Qed.

Lemma stuckRPCs_elem now t c :
  c ∈ stuckRPCs now t <->
  exists id, rpcInFlight t !! id = Some c /\ started c + Z.max (budget c) rpcStuckFatalAfter <= now.
Proof.
  unfold stuckRPCs. rewrite elem_of_filter_bool, list_elem_of_fmap.
  unfold overdueBy. rewrite Z.leb_le. split.
  - intros [([id d] & -> & Hin%elem_of_map_to_list) Hle]. exists id. cbn in *. split; [done | lia].
  - intros (id & Hin & Hle). split; [| lia]. exists (id, c). by rewrite elem_of_map_to_list.
Qed.

(** What a check reports. *)
Lemma check_calls_reports calls m :
  m ∈ (check_calls calls).1 -> exists c, c ∈ calls /\ holdsMountLock (method c) = false /\ method c = m.
Proof.
  induction calls as [| c calls IH]; cbn; [by intros ?%not_elem_of_nil |].
  destruct (holdsMountLock (method c)) eqn:E; cbn; [by intros ?%not_elem_of_nil |].
  destruct (check_calls calls) as [rep ab]; cbn in *. intros [-> | H]%elem_of_cons.
  - exists c. split; [by left | done].
  - destruct (IH H) as (d & ? & ?). exists d. by split; [right |].
Qed.
Lemma check_calls_all calls : (check_calls calls).2 = false -> (check_calls calls).1 = map method calls.
Proof.
  induction calls as [| c calls IH]; cbn; [done |]. destruct (holdsMountLock (method c)); [done |].
  destruct (check_calls calls) as [rep ab]; cbn in *. intros H. by rewrite IH.
Qed.

Definition overdue (now : Z) (c : inFlightRPC) : Prop := started c + Z.max (budget c) rpcStuckFatalAfter <= now.

(** C36: the watchdog ends the process exactly when a call of rclone's mount
    lock is stuck.  In any run of calls (fewer than 2^64 of them, the counter's
    width): the table holds exactly the calls that started and from which
    librclone has not returned, each under its own number with its method,
    start and budget; a caller released by its timeout changes nothing.  A check
    ends the process exactly if one of them is overdue (past both its own
    budget and five minutes) and is a mount/ method; what it reports instead are
    overdue calls of other methods, all of them if it does not end the
    process. *)
Theorem abort_iff_mount_lock_stuck es now :
  starts es < 2 ^ 64 ->
  let t := rpc_run es in
  (forall id c, rpcInFlight t !! id = Some c <-> in_flight es id c)
  /\ (forall id, rpc_step t (RpcRelease id) = t)
  /\ ((checkStuckRPCs now t).2 = true <->
       exists id c, in_flight es id c /\ holdsMountLock (method c) = true /\ overdue now c)
  /\ (forall m, m ∈ (checkStuckRPCs now t).1 ->
       exists id c, in_flight es id c /\ holdsMountLock m = false /\ overdue now c /\ method c = m)
  /\ ((checkStuckRPCs now t).2 = false ->
       forall id c, in_flight es id c -> overdue now c -> method c ∈ (checkStuckRPCs now t).1).
Proof.
  intros Hb. pose proof (table_exact es Hb) as [_ Ht]. cbn zeta. unfold checkStuckRPCs.
  assert (Hel : forall c, c ∈ stuckRPCs now (rpc_run es) <-> exists id, in_flight es id c /\ overdue now c).
  { intros c. rewrite stuckRPCs_elem. by setoid_rewrite Ht. }
  splits; [exact Ht | done | | |].
  - rewrite check_calls_abort. split.
    + intros (c & (id & Hin & Hle)%Hel & Hm). by exists id, c.
    + intros (id & c & Hin & Hm & Hle). exists c. split; [| done]. apply Hel. by exists id.
  - intros m (c & (id & Hin & Hle)%Hel & Hm & <-)%check_calls_reports. by exists id, c.
  - intros Hab id c Hin Hle. rewrite check_calls_all by done. apply list_elem_of_fmap. exists c. split; [done |].
    apply Hel. by exists id.
Qed.

Lemma abort_iff_mount_lock_stuck_witness :
  (checkStuckRPCs (5 * minute) (rpc_run [RpcStart "vfs/stats" 0 rpcStatsTimeout;
     RpcStart "mount/unmount" 0 rpcUnmountTimeout; RpcRelease 2; RpcReturn 1])).2 = true.
Proof.
  refine (proj2 (proj1 (proj2 (proj2 (abort_iff_mount_lock_stuck _ (5 * minute) _)))) _).
  - cbn. lia.
  - exists 2, (InFlight "mount/unmount" 0 rpcUnmountTimeout).
    split; [| by vm_compute]. exists [RpcStart "vfs/stats" 0 rpcStatsTimeout], [RpcRelease 2; RpcReturn 1].
    split; [done |]. split; [done |]. by intros [[=] | [[=] | ?%not_elem_of_nil]%elem_of_cons]%elem_of_cons.
Defined.

(** [redactBetween], exactly.  With no secret in the text it is unchanged.
    With a secret that runs to the end of the text, everything after the key is
    replaced.  With a secret followed by its delimiter, the loop rewrites the
    same place for ever, whatever number of rounds it is given: the function
    does not return. *)
Theorem redaction_exact fuel s p x :
  (p, x) ∈ patterns ->
  redactBetween (S fuel) s p x
  = match cut p (to_lower s) with
    | None => Some s
    | Some (b, _) =>
        let n := (String.length b + String.length p)%nat in
        if contains (to_lower (drop_s n s)) x then None
        else Some (take_s n s +s+ "[REDACTED]")
    end.
Proof.
  intros Hin. destruct (Forall_elem _ _ _ patterns_redactable Hin) as (Hp & c & Hc & Hr). cbn in Hp, Hc. subst x.
  assert (Hl : to_lower p = p).
  { clear -Hin. unfold patterns in Hin.
    repeat (apply elem_of_cons in Hin as [[= -> ->] | Hin]; [done |]). by apply not_elem_of_nil in Hin. }
  rewrite redactBetween_cases, Hl by done.
  destruct (cut p (to_lower s)) as [[b a] |]; [| done]. cbn zeta. unfold contains.
  set (rem := to_lower _).
  destruct (cut (String c "") rem) as [[v r] |] eqn:E; destruct (mem_char c rem) eqn:Em; try done.
  - by rewrite (proj2 (cut_char_contains c rem) Em) in E.
  - apply cut_char_contains in E. congruence.
Qed.

Lemma redaction_exact_witness :
  redactBetween 5 "bad access_key_id=AKIA" "access_key_id=" ","
    = Some "bad access_key_id=[REDACTED]"
  /\ redactBetween 1000 "x:s3,access_key_id=AKIA,region=r" "access_key_id=" "," = None.
Proof.
  split; (rewrite (redaction_exact _ _ "access_key_id=" ","); [reflexivity | by left]).
Defined.

End Rpc.
