(* ===== verification/RcloneConfig.v ===== *)
(** * RcloneConfig: pkg/rclone/config.go, DeleteVolumeData of rclone.go

    Remote strings, the named configurations an rclone mount is built from,
    the passwords derived for it, and the purge of a volume's objects. *)

From Stdlib Require Import Ascii.
From S2P Require Import Prelude GoStrings Effects Rpc.
Import Rpc.

Module RcloneConfig.

Record S3Config : Set := MkS3Config
  { Region : string; Endpoint : string; AccessKeyID : string; SecretAccessKey : string;
    Bucket : string; ForcePathStyle : bool; Provider : string }.

Record CryptConfig : Set := MkCrypt { Password : string; Password2 : string }.

Definition quote_specials : string := ":,=' " +s+ String tab "".

Definition quoteValue (value : string) : string :=
  if contains_any value quote_specials
  then "'" +s+ replace_char "'" "''" value +s+ "'"
  else value.

(** The provider default shared by both constructors of a remote. *)
Definition provider_of (config : S3Config) : string :=
  if bool_decide (Provider config = "") then
    if bool_decide (Endpoint config = "") then "AWS" else "Other"
  else Provider config.

Definition remote_parts (config : S3Config) : list string :=
  ["provider=" +s+ provider_of config; "env_auth=false";
   "access_key_id=" +s+ quoteValue (AccessKeyID config);
   "secret_access_key=" +s+ quoteValue (SecretAccessKey config);
   "region=" +s+ quoteValue (Region config)]
  ++ (if bool_decide (Endpoint config = "") then [] else ["endpoint=" +s+ quoteValue (Endpoint config)])
  ++ (if ForcePathStyle config then ["force_path_style=true"] else []).

Definition BuildS3RemoteString (config : S3Config) (path : string) : result string gerr :=
  if bool_decide (Bucket config = "") then Err (error_new "S3 bucket is required")
  else if bool_decide (Region config = "") then Err (error_new "S3 region is required")
  else
    let fullPath := if bool_decide (path = "") then Bucket config
                    else Bucket config +s+ "/" +s+ path in
    Ok (":s3," +s+ join "," (remote_parts config) +s+ ":" +s+ fullPath).

Definition CreateNamedS3Config (name : string) (config : S3Config) : prog (result unit gerr) :=
  RPC "config/delete" [("name", PStr name)] ;;;
  let params :=
    [("name", PStr name); ("type", PStr "s3");
     ("parameters", PMap
        ([("provider", PStr (provider_of config)); ("env_auth", PStr "false");
          ("access_key_id", PStr (AccessKeyID config));
          ("secret_access_key", PStr (SecretAccessKey config));
          ("region", PStr (Region config))]
         ++ (if bool_decide (Endpoint config = "") then []
             else [("endpoint", PStr (Endpoint config))])
         ++ (if ForcePathStyle config then [("force_path_style", PStr "true")] else [])))] in
  let* (_, err) := RPC "config/create" params ;;
  Ret match err with
      | Some e => Err (errorf_w ("failed to create S3 config " +s+ name) e)
      | None => Ok tt
      end.

Definition CreateNamedCryptConfig (name s3RemotePath : string) (cryptConfig : CryptConfig)
    : prog (result unit gerr) :=
  if bool_decide (Password cryptConfig = "") then Ret (Err (error_new "crypt password is required"))
  else
    RPC "config/delete" [("name", PStr name)] ;;;
    let params :=
      [("name", PStr name); ("type", PStr "crypt");
       ("parameters", PMap
          ([("remote", PStr s3RemotePath); ("password", PStr (Password cryptConfig));
            ("filename_encryption", PStr "standard");
            ("directory_name_encryption", PStr "true")]
           ++ (if bool_decide (Password2 cryptConfig = "") then []
               else [("password2", PStr (Password2 cryptConfig))])));
       ("opt", PMap [("obscure", PBool true)])] in
    let* (_, err) := RPC "config/create" params ;;
    Ret match err with
        | Some e => Err (errorf_w ("failed to create crypt config " +s+ name) e)
        | None => Ok tt
        end.

Definition DeleteNamedConfigs (names : list string) : prog unit :=
  for_each names (fun name => RPC "config/delete" [("name", PStr name)] ;;; Ret tt).

Definition DeriveRcloneCryptConfig (luksPassphrase salt : string) : CryptConfig :=
  MkCrypt luksPassphrase (luksPassphrase +s+ "-" +s+ salt).

(** ** DeleteVolumeData (rclone.go) *)

(** rclone.go's [contains]: case-insensitive. *)
Definition contains_fold (s substr : string) : bool := contains (to_lower s) (to_lower substr).

(** Where a volume's objects live in its bucket. *)
Definition volumePath (volumeID s3PathPrefix : string) : string :=
  if bool_decide (s3PathPrefix = "") then "volumes/" +s+ volumeID
  else s3PathPrefix +s+ "/volumes/" +s+ volumeID.

Definition purgeTimeout : Z := 30 * minute.

Definition reads_as_absent (errStr : string) : bool :=
  contains_fold errStr "directory not found" || contains_fold errStr "not found"
  || contains_fold errStr "404".

Definition DeleteVolumeData (s3Config : S3Config) (volumeID s3PathPrefix : string)
    : prog (result unit gerr) :=
  match BuildS3RemoteString s3Config (volumePath volumeID s3PathPrefix) with
  | Err e => Ret (Err (errorf_w "failed to build S3 remote string" e))
  | Ok s3Remote =>
      let* (_, err) := RPCWithTimeout "operations/purge"
                         [("fs", PStr s3Remote); ("remote", PStr "")] purgeTimeout ;;
      Ret match err with
          | None => Ok tt
          | Some e =>
              if reads_as_absent (e_text e) then Ok tt
              else Err (errorf_w "failed to purge volume data" e)
          end
  end.

(** ** Quoting *)

(** What a quoted value stands for: the text between the outer quotes, with
    doubled quotes halved; a value without quotes stands for itself. *)
Fixpoint halve_quotes (s : string) : string :=
  match s with
  | String "'" (String "'" s) => String "'" (halve_quotes s)
  | String c s => String c (halve_quotes s)
  | "" => ""
  end.
Definition unquote (s : string) : string :=
  match s with
  | String "'" s => match last_byte s with Some (v, _) => halve_quotes v | None => "" end
  | _ => s
  end.

Lemma replace_char_cons c by_ x s :
  replace_char c by_ (String x s)
  = (if Ascii.eqb x c then by_ else String x "") +s+ replace_char c by_ s.
Proof. cbn. by destruct (Ascii.eqb x c). Qed.

Lemma halve_quotes_double v : halve_quotes (replace_char "'" "''" v) = v.
Proof.
  induction v as [| c v IH]; [done |]. rewrite replace_char_cons.
  destruct (Ascii.eqb_spec c "'") as [-> | Hne]; cbn; [by rewrite IH |].
  rewrite IH. destruct c as [[] [] [] [] [] [] [] []]; try done.
Qed.

Lemma last_byte_snoc s c : last_byte (s +s+ String c "") = Some (s, c).
Proof. induction s as [| x s IH]; [done |]. cbn. rewrite IH. by destruct s. Qed.

Lemma quoteValue_special v : contains_any v quote_specials = false -> forall r, v <> String "'" r.
Proof. intros H r ->. done. Qed.

Lemma quoteValue_no_comma v :
  mem_char "," v = true -> exists r, quoteValue v = String "'" r.
Proof.
  intros H. unfold quoteValue.
  assert (contains_any v quote_specials = true) as ->; [| eexists; reflexivity].
  unfold contains_any. induction v as [| c v IH]; [done |]. cbn [mem_char string_exists] in *.
  apply orb_true_iff in H as [E%Ascii.eqb_eq | H]; [by subst c |]. rewrite (IH H). apply orb_true_r.
Qed.

(** ** What the remote string holds *)

(** No value is lost or changed by the quoting of a remote string:
    [quoteValue] can be read back, so two different credentials never give
    the same text, and a value goes unquoted only when it holds none of the
    characters the format gives a meaning to. *)
Theorem quoteValue_roundtrip v :
  unquote (quoteValue v) = v
  /\ (forall w, quoteValue v = quoteValue w -> v = w)
  /\ (quoteValue v = v -> forall c, mem_char c ":,=' " = true -> mem_char c v = false).
Proof.
  assert (Hr : forall v, unquote (quoteValue v) = v).
  { clear v. intros v. unfold quoteValue.
    destruct (contains_any v quote_specials) eqn:E.
    - cbn [String.append unquote]. rewrite last_byte_snoc. apply halve_quotes_double.
    - pose proof (quoteValue_special _ E) as Hq. unfold unquote.
      destruct v as [| c v]; [done |].
      destruct (decide (c = "'"%char)) as [-> | Hne]; [by destruct (Hq v) |].
      destruct c as [[] [] [] [] [] [] [] []]; done. }
  splits.
  - apply Hr.
  - intros w Hw. by rewrite <- (Hr v), Hw, Hr.
  - intros Hv c Hc. unfold quoteValue in Hv.
    destruct (contains_any v quote_specials) eqn:E.
    { apply (f_equal String.length) in Hv. rewrite !slen_app in Hv. cbn in Hv.
      assert (String.length v <= String.length (replace_char "'" "''" v))%nat; [| lia].
      clear. induction v as [| c v IH]; [done |]. rewrite replace_char_cons, slen_app.
      destruct (Ascii.eqb c "'"); cbn; lia. }
    clear Hv. destruct (mem_char c v) eqn:Hm; [| done]. exfalso.
    revert E Hm. unfold contains_any. induction v as [| d v IH]; [done |].
    cbn [string_exists mem_char]. intros [Ed Ev]%orb_false_iff [Hd%Ascii.eqb_eq | Hm]%orb_true_iff;
      [| by apply IH]. subst d. clear -Hc Ed.
    destruct c as [[] [] [] [] [] [] [] []]; (discriminate Hc || discriminate Ed).
Qed.

Lemma join_cons2 sep a b l : join sep (a :: b :: l) = a +s+ sep +s+ join sep (b :: l).
Proof. done. Qed.

(** [msg] names the remote string of [config]. *)
Lemma remote_has_key config path remote :
  BuildS3RemoteString config path = Ok remote ->
  exists a rest, remote = a +s+ "access_key_id=" +s+ quoteValue (AccessKeyID config) +s+ "," +s+ rest.
Proof.
  unfold BuildS3RemoteString.
  destruct (bool_decide (Bucket config = "")); [done |].
  destruct (bool_decide (Region config = "")); [done |].
  intros E. assert (exists t, remote = ":s3," +s+ join "," (remote_parts config) +s+ t) as [t ->].
  { eexists. symmetry. exact (Ok_inj _ _ E). }
  clear E. unfold remote_parts. cbn [app].
  do 3 rewrite join_cons2. rewrite !sapp_assoc.
  eexists (":s3," +s+ "provider=" +s+ provider_of config +s+ "," +s+ "env_auth=false" +s+ ","), _.
  rewrite !sapp_assoc. reflexivity.
Qed.

(** An error reply of librclone that quotes the inline remote of a volume
    (the only remote that carries credentials) is never turned into a
    sanitized error: whatever number of rounds the redaction loop is given, it
    has not returned.  A [DeleteVolume] whose purge fails this way never
    answers. *)
Theorem remote_in_error_never_returns config path remote before after fuel :
  BuildS3RemoteString config path = Ok remote ->
  sanitizeErrorMessage fuel (before +s+ remote +s+ after) = None.
Proof.
  intros (a & rest & ->)%remote_has_key. unfold sanitizeErrorMessage, patterns.
  rewrite !sapp_assoc. rewrite <- (sapp_assoc before a).
  exact (first_pattern_stuck fuel "access_key_id=" "," _ (before +s+ a)
    (quoteValue (AccessKeyID config)) (rest +s+ after) eq_refl ltac:(done) ltac:(done)).
Qed.

Definition example_config : S3Config :=
  MkS3Config "eu" "" "AKIA" "se'cr,et" "bucket" false "".

Lemma remote_in_error_never_returns_witness :
  BuildS3RemoteString example_config "volumes/v1"
    = Ok ":s3,provider=AWS,env_auth=false,access_key_id=AKIA,secret_access_key='se''cr,et',region=eu:bucket/volumes/v1"
  /\ sanitizeErrorMessage 1000
       ("error in :s3,provider=AWS,env_auth=false,access_key_id=AKIA,secret_access_key='se''cr,et',region=eu:bucket/volumes/v1: denied") = None.
Proof.
  split; [reflexivity |].
  apply (remote_in_error_never_returns example_config "volumes/v1"
    ":s3,provider=AWS,env_auth=false,access_key_id=AKIA,secret_access_key='se''cr,et',region=eu:bucket/volumes/v1"
    "error in " ": denied" 1000). reflexivity.
Defined.

(** The purge of a volume's objects.  Nothing is purged without a bucket
    and a region; otherwise exactly one purge is asked, of the volume's own
    directory.  Success means the purge was answered with a status below 400,
    or failed with a text that contains "not found" or "404" anywhere: such a
    failure is reported as a deleted volume. *)
Theorem DeleteVolumeData_outcome env config volumeID prefix :
  let '(h, r) := run env (DeleteVolumeData config volumeID prefix) [] in
  match BuildS3RemoteString config (volumePath volumeID prefix) with
  | Err _ => h = [] /\ is_ok r = false
  | Ok remote =>
      exists rep h', h = h' ++ [Ev (CRpc "operations/purge" [("fs", PStr remote); ("remote", PStr "")]
                                 purgeTimeout) rep]
        /\ Forall (fun e => let 'Ev c _ := e in c = CDiverge "redactBetween") h'
        /\ match rep with
           | RpcTimedOut => is_ok r = false
           | RpcDone st body =>
               if 400 <=? st then
                 forall t, sanitizeErrorMessage 1 (error_message (body_output body)) = Some t ->
                 is_ok r = reads_as_absent
                   ("RPC operations/purge failed with status " +s+ format_int st +s+ ": " +s+ t)
               else r = Ok tt
           end
  end.
Proof.
  unfold DeleteVolumeData.
  destruct (BuildS3RemoteString config (volumePath volumeID prefix)) as [remote | e]; [| done].
  unfold RPCWithTimeout, callLibrclone. cbn [bind perform run].
  set (c := CRpc _ _ _). set (rep := env [] c).
  destruct rep as [| st body] eqn:Erep; cbn [bind run].
  - exists RpcTimedOut, []. by vm_compute.
  - destruct (400 <=? st) eqn:Est; cbn [bind run].
    + unfold sanitize. destruct (sanitizeErrorMessage 1 _) as [t |] eqn:Es; cbn [bind perform run].
      * exists (RpcDone st body), []. rewrite Est. splits; [done | constructor |].
        cbn [Output] in Es. intros t' Ht'. rewrite Es in Ht'. injection Ht' as <-.
        cbn [snd e_text error_new]. by destruct (reads_as_absent _).
      * eexists (RpcDone st body), [_]. rewrite Est. splits; [reflexivity | by constructor |].
        cbn [Output] in Es. intros t' Ht'. by rewrite Es in Ht'.
    + exists (RpcDone st body), []. rewrite Est. splits; [done | constructor | done].
Qed.

End RcloneConfig.
