(* ===== verification/Mounts.v ===== *)
(** * Mounts: pkg/rclone/mounts.go

    The host mount table: the parser of mountinfo, the cache in front of the
    read (single-flighted, bounded, served stale for a while), and the queries
    every other component decides with. *)

From Stdlib Require Import Ascii.
From S2P Require Import Prelude GoStrings Effects.

Module Mounts.

Definition hostMountInfo := "/proc/1/mountinfo".
Definition selfMountInfo := "/proc/self/mountinfo".
Definition mountsCacheTTL : Z := 5 * second.
Definition mountsReadBudget : Z := 5 * second.
Definition mountsMaxStale : Z := 90 * second.

(** ** Parsing *)

Definition mount_escapes : list (string * string) :=
  [("\040", " "); ("\011", String tab ""); ("\012", String nl ""); ("\134", "\")].

Definition unescapeMountField (s : string) : string :=
  if negb (contains s "\") then s else replacer mount_escapes 0 s.

(** The loop from field 5 on: the field after the first "-", if there is one. *)
Fixpoint fstype_after_dash (l : list string) : option string :=
  match l with
  | x :: (y :: _) as l' => if decide (x = "-") then Some y else fstype_after_dash l'
  | _ => None
  end.

(** One line of mountinfo: mountpoint and mount. *)
Definition parse_mount_line (line : string) : option (string * HostMount) :=
  match fields line with
  | _ :: _ :: dev :: _ :: mp :: rest =>
      match fstype_after_dash rest with
      | Some fs => Some (unescapeMountField mp, {| Dev := dev; FSType := fs |})
      | None => None
      end
  | _ => None
  end.

Definition stack_push (out : stacks) (line : string) : stacks :=
  match parse_mount_line line with
  | Some (p, m) => <[p := default [] (out !! p) ++ [m]]> out
  | None => out
  end.

Definition parseMountStacks (data : string) : stacks :=
  fold_left stack_push (split nl data) ∅.

(** [flattenMountStacks]: the topmost mount of each path.  An empty stack,
    which the parser never builds, would make the Go code panic. *)
Definition topmost (l : list HostMount) : string :=
  match List.rev l with m :: _ => FSType m | [] => "" end.
Definition flattenMountStacks (s : stacks) : gmap string string := topmost <$> s.

Definition parseMountInfo (data : string) : gmap string string :=
  flattenMountStacks (parseMountStacks data).

Definition readHostMounts : prog (option stacks) :=
  r <- perform (CReadFile hostMountInfo) ;;
  match r with
  | Ok data => Ret (Some (parseMountStacks data))
  | Err _ =>
      r2 <- perform (CReadFile selfMountInfo) ;;
      Ret match r2 with Ok data => Some (parseMountStacks data) | Err _ => None end
  end.

(** ** The cache *)

(** [mountsStacks], [mountsReadAt], [mountsInFlight], [mountsBlockedAt].  The
    first two are set together, and both unset before the first read. *)
Record mount_cache : Type := MCache
  { mc_table : option (stacks * Z); mc_inflight : bool; mc_blocked : Z }.
Definition empty_cache : mount_cache := MCache None false 0.

Definition cachedMountsLocked (now : Z) (s : mount_cache) : option stacks :=
  match mc_table s with
  | None => None
  | Some (m, at_) => if now - at_ <? mountsMaxStale then Some m else None
  end.

(** The first critical section of [hostMountStacksOK]: an immediate answer, or
    the start of a read. *)
Inductive begin_outcome : Type := Answer (r : option stacks) | ReadStarted.

Definition hostMountStacks_begin (now : Z) (s : mount_cache) : mount_cache * begin_outcome :=
  match mc_table s with
  | Some (m, at_) =>
      if now - at_ <? mountsCacheTTL then (s, Answer (Some m))
      else if mc_inflight s then (s, Answer (cachedMountsLocked now s))
      else (MCache (mc_table s) true now, ReadStarted)
  | None =>
      if mc_inflight s then (s, Answer (cachedMountsLocked now s))
      else (MCache None true now, ReadStarted)
  end.

(** The goroutine's read completing with [m]; a waiter still there gets [m]. *)
Definition hostMountStacks_read (now : Z) (m : option stacks) (s : mount_cache) : mount_cache :=
  MCache (match m with Some t => Some (t, now) | None => mc_table s end) false (mc_blocked s).

(** The waiter's budget running out first. *)
Definition hostMountStacks_timeout (now : Z) (s : mount_cache) : option stacks :=
  cachedMountsLocked now s.

Definition InvalidateHostMounts (now : Z) (s : mount_cache) : mount_cache :=
  match mc_table s with
  | Some (m, _) => MCache (Some (m, now - mountsCacheTTL)) (mc_inflight s) (mc_blocked s)
  | None => s
  end.

(** ** Queries *)

Definition HostMountStacksOK : prog (option stacks) := perform CHostMounts.

Definition HostMountsOK : prog (option (gmap string string)) :=
  r <- HostMountStacksOK ;; Ret (flattenMountStacks <$> r).
Definition HostMounts : prog (gmap string string) :=
  r <- HostMountsOK ;; Ret (default ∅ r).

(** Depth of the stack at a path, [None] when the table is unknown. *)
Definition stack_depth (s : stacks) (path : string) : nat := length (default [] (s !! path)).
Definition HostMountDepth (path : string) : prog (option nat) :=
  r <- HostMountStacksOK ;;
  Ret match r with None => None | Some s => Some (stack_depth s path) end.

Definition IsHostMountPoint (path : string) : prog bool :=
  m <- HostMounts ;; Ret (bool_decide (is_Some (m !! path))).

Definition is_fuse (m : gmap string string) (path : string) : bool :=
  match m !! path with Some fs => contains fs "fuse" | None => false end.
(** (isFUSE, known). *)
Definition HostFUSEMountState (path : string) : prog (bool * bool) :=
  r <- HostMountsOK ;;
  Ret match r with None => (false, false) | Some m => (is_fuse m path, true) end.
Definition IsHostFUSEMount (path : string) : prog bool :=
  r <- HostFUSEMountState path ;; Ret (fst r).
Definition HostMountsKnown : prog bool :=
  r <- HostMountsOK ;; Ret (match r with Some _ => true | None => false end).

(** ** What a table reads as *)

(** A table as every query reads it. *)
Definition table_fuse (s : stacks) (path : string) : bool := is_fuse (flattenMountStacks s) path.
Definition table_mounted (s : stacks) (path : string) : bool := bool_decide (is_Some (s !! path)).

(** ** Lemmas on the parser *)

Definition mounts_of_lines (p : string) (lines : list string) : list HostMount :=
  omap (fun l => match parse_mount_line l with
                 | Some (q, m) => if decide (q = p) then Some m else None
                 | None => None end) lines.

Lemma fold_push_lookup lines out p :
  default [] (fold_left stack_push lines out !! p) = default [] (out !! p) ++ mounts_of_lines p lines.
Proof.
  revert out. induction lines as [| l lines IH]; intros out; cbn [fold_left].
  { unfold mounts_of_lines. cbn. by rewrite app_nil_r. }
  rewrite IH. unfold mounts_of_lines at 2. cbn [omap list_omap]. fold (mounts_of_lines p lines).
  unfold stack_push. destruct (parse_mount_line l) as [[q m] |]; [| done].
  destruct (decide (q = p)) as [-> | Hne].
  - rewrite lookup_insert_eq. cbn. rewrite <- app_assoc. by destruct (decide (p = p)).
  - rewrite lookup_insert_ne by done. by destruct (decide (q = p)).
Qed.

Definition no_empty_stack (s : stacks) : Prop := forall p, s !! p <> Some [].

Lemma fold_push_nonempty lines out : no_empty_stack out -> no_empty_stack (fold_left stack_push lines out).
Proof.
  revert out. induction lines as [| l lines IH]; intros out H; [done |].
  apply IH. unfold stack_push. destruct (parse_mount_line l) as [[q m] |]; [| done].
  intros p [[_ E] | [_ E]]%lookup_insert_Some; [by destruct (default [] _) | by apply (H p)].
Qed.

Lemma parse_lookup data p :
  parseMountStacks data !! p
  = match mounts_of_lines p (split nl data) with [] => None | l => Some l end.
Proof.
  unfold parseMountStacks. pose proof (fold_push_lookup (split nl data) ∅ p) as H.
  assert (Hne : no_empty_stack (fold_left stack_push (split nl data) ∅)).
  { apply fold_push_nonempty. intros q. by rewrite lookup_empty. }
  rewrite lookup_empty in H. cbn in H.
  destruct (fold_left stack_push (split nl data) ∅ !! p) as [l |] eqn:E; cbn in H.
  - subst l. destruct (mounts_of_lines p _) eqn:El; [by destruct (Hne p) | done].
  - by rewrite <- H.
Qed.

(** ** A printer, for the round trip *)

(** One mount as the kernel prints it (proc(5), mountinfo). *)
Record kernel_mount : Set := KMount
  { km_id : string; km_parent : string; km_dev : string; km_root : string; km_path : string;
    km_opts : string; km_optional : list string; km_fstype : string; km_source : string;
    km_super : string }.

Definition escape_char (c : ascii) : string :=
  if Ascii.eqb c " " then "\040" else if Ascii.eqb c tab then "\011"
  else if Ascii.eqb c nl then "\012" else if Ascii.eqb c "\" then "\134" else String c "".
Fixpoint escape (s : string) : string :=
  match s with "" => "" | String c s => escape_char c +s+ escape s end.

Definition print_mount (k : kernel_mount) : string :=
  join " " ([km_id k; km_parent k; km_dev k; km_root k; escape (km_path k); km_opts k]
            ++ km_optional k ++ ["-"; km_fstype k; km_source k; km_super k]).
(** The file: a line per mount, each with its newline. *)
Definition print_mounts (l : list kernel_mount) : string :=
  fold_right (fun k s => print_mount k +s+ String nl s) "" l.

(** Words everywhere; a path free of the white space the kernel does not
    escape (it escapes space, tab and newline; Go's also has vertical tab,
    form feed, carriage return and the Unicode ones); no stray separator before
    the real one. *)
Record printable (k : kernel_mount) : Prop := Printable
  { pr_words : Forall word ([km_id k; km_parent k; km_dev k; km_root k; km_opts k]
                 ++ km_optional k ++ [km_fstype k; km_source k; km_super k]);
    pr_path : km_path k <> "" /\ has_space (escape (km_path k)) = false;
    pr_dash : Forall (fun w => w <> "-") (km_opts k :: km_optional k) }.

Lemma replacer_escape s : replacer mount_escapes 0 (escape s) = s.
Proof.
  induction s as [| c s IH]; [done |]. cbn [escape]. unfold escape_char.
  destruct (Ascii.eqb_spec c " ") as [-> |]; [cbn; by rewrite IH |].
  destruct (Ascii.eqb_spec c tab) as [-> |]; [cbn; by rewrite IH |].
  destruct (Ascii.eqb_spec c nl) as [-> |]; [cbn; by rewrite IH |].
  destruct (Ascii.eqb_spec c "\") as [-> | Hb]; [cbn; by rewrite IH |].
  cbn [String.append replacer first_match mount_escapes]. unfold has_prefix. cbn [cut_prefix].
  destruct (Ascii.eqb_spec "\" c) as [<- | _]; [done |]. by rewrite IH.
Qed.

Lemma unescape_escape s : unescapeMountField (escape s) = s.
Proof.
  unfold unescapeMountField. destruct (contains (escape s) "\") eqn:E; cbn [negb].
  - apply replacer_escape.
  - assert (Hm : mem_char "\" (escape s) = false).
    { unfold contains in E. destruct (mem_char "\" (escape s)) eqn:Em; [| done]. exfalso.
      revert E Em. generalize (escape s) as t. induction t as [| c t IH]; [done |].
      cbn [cut mem_char cut_prefix]. rewrite (Ascii.eqb_sym c).
      destruct (Ascii.eqb "\" c); [done |]. cbn [orb].
      destruct (cut "\" t) as [[] |]; [done |]. apply IH. }
    clear E. induction s as [| c s IH]; [done |]. cbn [escape] in *.
    rewrite mem_char_app in Hm. apply orb_false_iff in Hm as [Hc Hs]. rewrite (IH Hs).
    unfold escape_char in *.
    destruct (Ascii.eqb c " "); [done |]. destruct (Ascii.eqb c tab); [done |].
    destruct (Ascii.eqb c nl); [done |]. by destruct (Ascii.eqb c "\").
Qed.

Lemma escape_word s : s <> "" -> has_space (escape s) = false -> word (escape s).
Proof.
  intros Hne H. split; [| done]. destruct s as [| c s]; [done |]. cbn [escape]. unfold escape_char.
  by repeat (destruct (Ascii.eqb _ _); [done |]).
Qed.

Lemma fstype_dash l f rest :
  Forall (fun w => w <> "-") l -> fstype_after_dash (l ++ "-" :: f :: rest) = Some f.
Proof.
  induction 1 as [| w l Hw _ IH]; [done |]. cbn [app fstype_after_dash].
  destruct (l ++ "-" :: f :: rest) eqn:E; [by destruct l |].
  by destruct (decide (w = "-")).
Qed.

Lemma print_words k : printable k ->
  Forall word ([km_id k; km_parent k; km_dev k; km_root k; escape (km_path k); km_opts k]
            ++ km_optional k ++ ["-"; km_fstype k; km_source k; km_super k]).
Proof.
  intros [Hw [Hp Hp'] _]. pose proof (escape_word _ Hp Hp') as He.
  assert (word "-") by by split.
  cbn [app] in *. repeat first [rewrite List.Forall_cons_iff in Hw | rewrite List.Forall_app in Hw].
  repeat first [rewrite List.Forall_cons_iff | rewrite List.Forall_app]. intuition auto.
Qed.

Lemma parse_print_mount k :
  printable k ->
  parse_mount_line (print_mount k) = Some (km_path k, {| Dev := km_dev k; FSType := km_fstype k |}).
Proof.
  intros Hk. unfold parse_mount_line, print_mount. rewrite fields_join by (by apply print_words).
  pose proof (fstype_dash _ (km_fstype k) [km_source k; km_super k] (pr_dash _ Hk)) as E.
  cbn [app] in *. by rewrite E, unescape_escape.
Qed.

Lemma word_no_nl w : word w -> mem_char nl w = false.
Proof.
  intros [_ H%has_space_weaken]. induction w as [| c w IH]; [done |]. cbn in *.
  apply orb_false_iff in H as [Hc Hw]. rewrite (IH Hw), orb_false_r.
  unfold is_space, nl in *. by destruct (Ascii.eqb c "010"); [rewrite !orb_true_r in Hc |].
Qed.

Lemma join_sep_no_nl ws : Forall word ws -> mem_char nl (join " " ws) = false.
Proof.
  induction 1 as [| w ws Hw Hws IH]; [done |].
  destruct ws as [| w' ws]; [by apply word_no_nl |].
  change (join " " (w :: w' :: ws)) with (w +s+ String " " (join " " (w' :: ws))).
  rewrite mem_char_app, (word_no_nl _ Hw). cbn [orb mem_char].
  by change (Ascii.eqb " " nl) with false.
Qed.

Lemma split_print l : Forall printable l -> split nl (print_mounts l) = map print_mount l ++ [""].
Proof.
  induction 1 as [| k l Hk Hl IH]; [done |]. cbn [print_mounts fold_right map app]. fold (print_mounts l).
  rewrite split_app by (by apply join_sep_no_nl, print_words). by rewrite IH.
Qed.

(** The mounts of a kernel table at path [p], in its order. *)
Definition mounts_at (p : string) (l : list kernel_mount) : list HostMount :=
  map (fun k => {| Dev := km_dev k; FSType := km_fstype k |})
    (List.filter (fun k => bool_decide (km_path k = p)) l).

Lemma mounts_of_printed p l :
  Forall printable l -> mounts_of_lines p (map print_mount l ++ [""]) = mounts_at p l.
Proof.
  unfold mounts_of_lines, mounts_at. induction 1 as [| k l Hk Hl IH]; [done |].
  cbn [map app omap list_omap List.filter]. rewrite parse_print_mount by done. cbn match.
  destruct (decide (km_path k = p)) as [-> | Hne].
  - rewrite bool_decide_true by done. cbn [map]. f_equal. exact IH.
  - rewrite bool_decide_false by done. exact IH.
Qed.

Lemma parse_printed l p :
  Forall printable l ->
  parseMountStacks (print_mounts l) !! p = match mounts_at p l with [] => None | l => Some l end.
Proof. intros Hl. by rewrite parse_lookup, split_print, mounts_of_printed. Qed.

(** C34: the parser reads a mount table back exactly.  For a table of mountinfo
    lines as the kernel prints them, each with its newline, whose words and
    escaped paths hold no white space of Go's [strings.Fields] (a vertical tab,
    form feed, carriage return or a Unicode space, which the kernel leaves in a
    path, would split it: [odd_space_breaks_path]) and no word "-" among the
    options: each path (spaces, tabs, newlines and backslashes in it included)
    maps to all the mounts stacked there, in order, none merged or lost; the
    flattened view keeps the last one, the mount the kernel resolves.  In
    particular the reported depth counts buried mounts. *)
Theorem mount_table_roundtrip l p :
  Forall printable l ->
  let s := parseMountStacks (print_mounts l) in
  default [] (s !! p) = mounts_at p l
  /\ stack_depth s p = length (mounts_at p l)
  /\ flattenMountStacks s !! p
     = match List.rev (mounts_at p l) with m :: _ => Some (FSType m) | [] => None end.
Proof.
  intros Hl s. pose proof (parse_printed l p Hl) as E. fold s in E.
  unfold stack_depth, flattenMountStacks. rewrite lookup_fmap, E.
  destruct (mounts_at p l) as [| m ms] eqn:Em; [done |]. splits; [done | done |].
  cbn [fmap option_fmap option_map]. unfold topmost.
  destruct (List.rev (m :: ms)) as [| x xs] eqn:Er; [| done].
  by apply (f_equal (@length _)) in Er; rewrite length_rev in Er.
Qed.

Definition example_table : list kernel_mount :=
  [KMount "22" "1" "8:1" "/" "/" "rw" ["shared:1"] "ext4" "/dev/sda1" "rw";
   KMount "40" "22" "0:50" "/" "/stage v" "rw" [] "fuse.rclone" "r:" "rw";
   KMount "41" "40" "0:51" "/" "/stage v" "rw" ["shared:7"] "tmpfs" "none" "rw"].

Lemma example_printable : Forall printable example_table.
Proof. repeat constructor; try done; cbn; by intros [=]. Qed.

(** White space the kernel does not escape: the path is cut at it. *)
Example odd_space_breaks_path :
  let path := "/stage" +s+ String "194" (String "160" "v") in
  let s := parseMountStacks (print_mounts [KMount "22" "1" "8:1" "/" path "rw" [] "ext4" "/dev/sda1" "rw"]) in
  s !! path = None /\ s !! "/stage" = Some [{| Dev := "8:1"; FSType := "ext4" |}].
Proof. vm_compute. by split. Qed.

Lemma mount_table_roundtrip_witness :
  parseMountInfo (print_mounts example_table) !! "/stage v" = Some "tmpfs"
  /\ stack_depth (parseMountStacks (print_mounts example_table)) "/stage v" = 2%nat.
Proof.
  pose proof (mount_table_roundtrip example_table "/stage v" example_printable) as H.
  cbn zeta in H. destruct H as (_ & H2 & H3). split; [exact H3 | exact H2].
Defined.

(** ** The cache over time *)

Inductive mevent : Type :=
  | MBegin (t : Z) | MRead (t : Z) (m : option stacks) | MTimeout (t : Z) | MInvalidate (t : Z).
Definition mtime (e : mevent) : Z :=
  match e with MBegin t | MRead t _ | MTimeout t | MInvalidate t => t end.

(** One event: the new state and the answer given to a caller, if any. *)
Definition mstep (s : mount_cache) (e : mevent) : mount_cache * option (option stacks) :=
  match e with
  | MBegin t =>
      match hostMountStacks_begin t s with
      | (s', Answer r) => (s', Some r)
      | (s', ReadStarted) => (s', None)
      end
  | MRead t m => (hostMountStacks_read t m s, Some m)
  | MTimeout t => (s, Some (hostMountStacks_timeout t s))
  | MInvalidate t => (InvalidateHostMounts t s, None)
  end.

(** A run: events in time order.  [last] is the most recent completed read
    (its time and contents), kept on the side. *)
Inductive mtrace : mount_cache -> option (stacks * Z) -> Z -> Prop :=
  | mtrace_nil : mtrace empty_cache None 0
  | mtrace_step s last t e :
      mtrace s last t -> t <= mtime e ->
      (forall t m, e = MRead t m -> mc_inflight s = true) ->
      mtrace (mstep s e).1
        (match e with MRead t (Some m) => Some (m, t) | _ => last end) (mtime e).

(** The same, without [InvalidateHostMounts]. *)
Inductive mtrace_noinv : mount_cache -> option (stacks * Z) -> Z -> Prop :=
  | mtrace_noinv_nil : mtrace_noinv empty_cache None 0
  | mtrace_noinv_step s last t e :
      mtrace_noinv s last t -> t <= mtime e -> (forall t, e <> MInvalidate t) ->
      mtrace_noinv (mstep s e).1
        (match e with MRead t (Some m) => Some (m, t) | _ => last end) (mtime e).

Lemma begin_table t s : mc_table (hostMountStacks_begin t s).1 = mc_table s.
Proof.
  unfold hostMountStacks_begin. destruct (mc_table s) as [[m a] |] eqn:E.
  - destruct (_ <? _); [done |]. by destruct (mc_inflight s).
  - by destruct (mc_inflight s).
Qed.

Lemma begin_answer t s r :
  (hostMountStacks_begin t s).2 = Answer r ->
  r = cachedMountsLocked t s
  \/ exists m a, mc_table s = Some (m, a) /\ r = Some m /\ t - a < mountsCacheTTL.
Proof.
  unfold hostMountStacks_begin. destruct (mc_table s) as [[m a] |] eqn:E.
  - destruct (_ <? _) eqn:Hlt; cbn.
    + intros [= <-]. right. bools. by exists m, a.
    + destruct (mc_inflight s); cbn; [intros [= <-]; by left | done].
  - destruct (mc_inflight s); cbn; [intros [= <-]; by left | done].
Qed.

(** An answer served at [t] from a table read at [a]: younger than the limit. *)
Lemma mstep_answer s e m :
  (mstep s e).2 = Some (Some m) ->
  (exists a, mc_table s = Some (m, a) /\ mtime e - a < mountsMaxStale)
  \/ (exists t, e = MRead t (Some m)).
Proof.
  assert (Hc : forall t m, cachedMountsLocked t s = Some m ->
    exists a, mc_table s = Some (m, a) /\ t - a < mountsMaxStale).
  { intros t m'. unfold cachedMountsLocked. destruct (mc_table s) as [[m0 a] |]; [| done].
    destruct (_ <? _) eqn:E; [| done]. intros [= ->]. bools. by exists a. }
  destruct e as [t | t r | t | t]; cbn.
  - destruct (hostMountStacks_begin t s) as [s' o] eqn:E. destruct o as [r |]; [| done].
    intros [= ->]. destruct (begin_answer t s (Some m)) as [Hr | (m' & a & Hm & [= ->] & Hlt)].
    + by rewrite E.
    + left. by apply Hc.
    + left. exists a. split; [done |]. cbn [mtime]. unfold mountsCacheTTL, mountsMaxStale, second in *. lia.
  - intros [= ->]. right. by exists t.
  - intros [= Hr]. left. by apply Hc.
  - done.
Qed.

Lemma mtrace_noinv_table s last t : mtrace_noinv s last t -> mc_table s = last.
Proof.
  induction 1 as [| s last t e H IH Ht Hi]; [done |].
  destruct e as [t' | t' r | t' | t']; cbn.
  - pose proof (begin_table t' s) as Hb.
    destruct (hostMountStacks_begin t' s) as [s' []]; cbn in *; congruence.
  - destruct r; cbn; congruence.
  - done.
  - by destruct (Hi t').
Qed.

Lemma mtrace_contents s last t :
  mtrace s last t ->
  match mc_table s, last with
  | Some (m, _), Some (m', _) => m = m' | None, None => True | _, _ => False end.
Proof.
  induction 1 as [| s last t e H IH Ht Hi]; [done |].
  destruct e as [t' | t' r | t' | t']; cbn.
  - pose proof (begin_table t' s) as Hb.
    destruct (hostMountStacks_begin t' s) as [s' []]; cbn in *; by rewrite Hb.
  - by destruct r as [m |].
  - done.
  - unfold InvalidateHostMounts. destruct (mc_table s) as [[m a] |] eqn:E; cbn; [done |].
    by rewrite E.
Qed.

(** The answer to a query at [now], where the last read gave [last]. *)
Definition answer_at (now : Z) (last : option (stacks * Z)) : option stacks :=
  match last with Some (m, a) => if now - a <? mountsMaxStale then Some m else None | None => None end.

Lemma mstep_answer_at s e r :
  (mstep s e).2 = Some r -> (exists t, e = MRead t r) \/ r = answer_at (mtime e) (mc_table s).
Proof.
  destruct e as [t | t r' | t | t]; cbn.
  - destruct (hostMountStacks_begin t s) as [s' o] eqn:E. destruct o as [r' |]; [| done].
    intros [= ->]. right. destruct (begin_answer t s r) as [Hr | (m & a & Hm & -> & Hlt)]; [by rewrite E | done |].
    unfold answer_at. rewrite Hm, (proj2 (Z.ltb_lt _ _)); [done |]. unfold mountsCacheTTL, mountsMaxStale, second in *. lia.
  - intros [= ->]. left. by exists t.
  - intros [= <-]. by right.
  - done.
Qed.

(** C35: what a mount query answers with.  In every run of the cache, a table
    that is served is the content of the most recent completed read (never an
    older one, never one invented).  And in a run in which nothing called
    [InvalidateHostMounts], a query that does not wait for its own read to
    complete is answered with that table exactly if the read completed less
    than 90 s before, and with UNKNOWN otherwise: a reader that stops
    completing turns every such query UNKNOWN within 90 s.  (With
    [InvalidateHostMounts] that bound is lost: [invalidate_pins_stale_table].) *)
Theorem served_table_is_last_read s last t e :
  t <= mtime e ->
  (mtrace s last t -> forall m, (mstep s e).2 = Some (Some m) ->
     (exists a, last = Some (m, a)) \/ e = MRead (mtime e) (Some m))
  /\ (mtrace_noinv s last t -> forall r, (mstep s e).2 = Some r ->
     e = MRead (mtime e) r \/ r = answer_at (mtime e) last).
Proof.
  intros Ht. split.
  - intros Htr m Ha. pose proof (mtrace_contents _ _ _ Htr) as Hc.
    destruct (mstep_answer _ _ _ Ha) as [(a & E & Hlt) | [t' ->]]; [| by right].
    left. rewrite E in Hc. destruct last as [[m' a'] |]; [| done]. subst. by exists a'.
  - intros Htr r Ha. rewrite <- (mtrace_noinv_table _ _ _ Htr).
    destruct (mstep_answer_at _ _ _ Ha) as [[t' ->] | ->]; [by left | by right].
Qed.

(** A reader wedged after a first read, while a caller invalidates every
    minute. *)
Fixpoint wedged_state (n : nat) : mount_cache :=
  match n with
  | O => MCache (Some (∅, 0)) true (10 * second)
  | S n => InvalidateHostMounts (Z.of_nat (S n) * minute) (wedged_state n)
  end.

Lemma wedged_reachable n :
  mtrace (wedged_state n) (Some (∅, 0)) (if n is O then 10 * second else Z.of_nat n * minute).
Proof.
  induction n as [| n IH].
  - refine (mtrace_step _ _ _ (MBegin (10 * second)) (mtrace_step _ _ _ (MRead 0 (Some ∅))
      (mtrace_step _ _ _ (MBegin 0) mtrace_nil _ _) _ _) _ _); by try (intros ? ? [=]).
  - refine (mtrace_step _ _ _ (MInvalidate (Z.of_nat (S n) * minute)) IH _ _); [| by intros].
    destruct n; cbn [mtime]; unfold minute, second; lia.
Qed.

(** With [InvalidateHostMounts] the bound is lost: it sets the age of the
    cached table to 5 s whatever it was, so a caller that invalidates once a
    minute keeps a table read at time 0 trusted for ever while the reader is
    wedged. *)
Theorem invalidate_pins_stale_table n :
  (1 <= n)%nat ->
  mtrace (wedged_state n) (Some (∅, 0)) (Z.of_nat n * minute)
  /\ (mstep (wedged_state n) (MBegin (Z.of_nat n * minute + 30 * second))).2 = Some (Some ∅).
Proof.
  intros Hn. pose proof (wedged_reachable n) as Hr. destruct n as [| n]; [lia |].
  split; [exact Hr |].
  assert (Hw : wedged_state (S n)
     = MCache (Some (∅, Z.of_nat (S n) * minute - mountsCacheTTL)) true (10 * second)).
  { clear. induction n as [| n IH]; [done |]. cbn [wedged_state] in *. by rewrite IH. }
  rewrite Hw. cbn [mstep]. unfold hostMountStacks_begin. cbn [mc_table mc_inflight].
  replace (_ <? mountsCacheTTL) with false
    by (symmetry; apply Z.ltb_ge; unfold mountsCacheTTL, minute, second; lia).
  unfold cachedMountsLocked. cbn [mc_table].
  replace (_ <? mountsMaxStale) with true; [done |].
  symmetry; apply Z.ltb_lt; unfold mountsMaxStale, mountsCacheTTL, minute, second; lia.
Qed.

Lemma invalidate_pins_stale_table_witness :
  (mstep (wedged_state 600) (MBegin (600 * minute + 30 * second))).2 = Some (Some ∅).
Proof. refine (proj2 (invalidate_pins_stale_table 600 _)). lia. Defined.

(** A reader wedged since its first read, at 0: its table is served after a
    minute and no more after two. *)
Lemma served_table_is_last_read_witness :
  (exists a, Some ((∅ : stacks), 0) = Some (∅, a))
  /\ (mstep (MCache (Some (∅, 0)) false 0) (MTimeout minute)).2 = Some (answer_at minute (Some (∅, 0)))
  /\ (forall r, (mstep (MCache (Some (∅, 0)) false 0) (MTimeout (2 * minute))).2 = Some r -> r = None).
Proof.
  assert (H : mtrace_noinv (MCache (Some (∅, 0)) false 0) (Some (∅, 0)) 0).
  { refine (mtrace_noinv_step _ _ _ (MRead 0 (Some ∅))
      (mtrace_noinv_step _ _ _ (MBegin 0) mtrace_noinv_nil _ _) _ _); by try (intros ? [=]). }
  splits.
  - assert (Hle : Z.of_nat 10 * minute <= mtime (MTimeout (605 * second))) by (unfold minute, second; cbn; lia).
    destruct (proj1 (served_table_is_last_read (wedged_state 10) (Some (∅, 0)) _ _ Hle) (wedged_reachable 10) ∅)
      as [Ha | [=]]; [by vm_compute | exact Ha].
  - done.
  - assert (Hle : 0 <= mtime (MTimeout (2 * minute))) by (unfold minute, second; cbn; lia).
    intros r Hr. by destruct (proj2 (served_table_is_last_read _ (Some (∅, 0)) _ _ Hle) H r Hr) as [[=] | ->].
Defined.

End Mounts.
