(* ===== verification/VfsNames.v ===== *)
(** * VfsNames: VFS names and their generations (pkg/rclone)

    syncmanager.go's [vfsNamesFor], [volumeIDOfVFSName], [generationOfVFSName];
    vfscache.go's persisted volumeID -> vfsName map. *)

From Stdlib Require Import Ascii DecimalString.
From S2P Require Import Prelude GoStrings Effects Secrets.

Module VfsNames.

Definition VFSCacheBasePath := "/root/.cache/rclone".
Definition vfsNameMapFile := VFSCacheBasePath +s+ "/.vfs-names.json".
Definition maxVFSGenerations : Z := 16.

(** (vfsName, s3ConfigName, cryptConfigName). *)
Definition vfsNamesFor (volumeID : string) (generation : Z) : string * string * string :=
  let vfsName := if 0 <? generation then volumeID +s+ ".g" +s+ format_int generation
                 else volumeID in
  (vfsName, vfsName +s+ "-s3", vfsName).

Definition vfs_name (volumeID : string) (generation : Z) : string := (vfsNamesFor volumeID generation).1.1.

Definition volumeIDOfVFSName (vfsName : string) : string :=
  match cut_last ".g" vfsName with
  | None => vfsName
  | Some (v, suffix) =>
      if bool_decide (v = "") then vfsName
      else match parse_int suffix with None => vfsName | Some _ => v end
  end.

Definition generationOfVFSName (volumeID vfsName : string) : Z :=
  if bool_decide (vfsName = "") || bool_decide (vfsName = volumeID) then 0
  else match cut_prefix (volumeID +s+ ".g") vfsName with
       | None => 0
       | Some suffix =>
           match parse_int suffix with
           | None => 0
           | Some n => if n <? 0 then 0 else n
           end
       end.

(** ** The persisted map; its mutex makes each of these one step *)

Definition LoadVFSNameMap : prog (gmap string string) :=
  r <- perform (CReadNameMap vfsNameMapFile) ;;
  Ret match r with Ok (Some m) => m | Ok None => ∅ | Err _ => ∅ end.

Definition writeVFSNameMap (m : gmap string string) : prog unit :=
  perform (CWriteNameMap vfsNameMapFile m) ;;; Ret tt.

Definition SaveVFSName (volumeID vfsName : string) : prog unit :=
  m <- LoadVFSNameMap ;; writeVFSNameMap (<[volumeID := vfsName]> m).

Definition RemoveVFSName (volumeID : string) : prog unit :=
  m <- LoadVFSNameMap ;;
  match m !! volumeID with
  | None => Ret tt
  | Some _ => writeVFSNameMap (delete volumeID m)
  end.

Definition FSNameForVolume (volumeID : string) : prog string :=
  m <- LoadVFSNameMap ;;
  Ret (vfsNamesFor volumeID (generationOfVFSName volumeID (mget m volumeID))).2.

(** ** Lemmas *)

(** A volume ID no generation suffix can be read off; PV names, which carry no
    dot, are such. *)
Definition plain_id (v : string) : Prop := v <> "" /\ mem_char "." v = false.

Lemma format_pos_no_dot g : 0 < g -> mem_char "." (format_int g) = false.
Proof. intros Hg. apply all_digits_no_char; [done |]. by apply format_int_pos_digits. Qed.

Lemma volumeID_vfs_name v g :
  plain_id v -> 0 <= g -> in_int64 g -> volumeIDOfVFSName (vfs_name v g) = v.
Proof.
  intros [Hne Hdot] Hg Hr. unfold vfs_name, vfsNamesFor, volumeIDOfVFSName. cbn [fst].
  destruct (0 <? g) eqn:E; bools.
  - rewrite cut_last_app.
    + by rewrite bool_decide_false, parse_format_int.
    + change ("g" +s+ format_int g) with (String "g" (format_int g)).
      cbn [mem_char]. rewrite format_pos_no_dot by done. done.
  - by rewrite cut_last_no_char.
Qed.

(** The volume can be read off a VFS name, at any generation. *)
Lemma plain_names_differ v g w k : plain_id v -> plain_id w -> vfs_name v g = vfs_name w k -> v = w.
Proof.
  assert (Hcut : forall v g, plain_id v ->
    match cut ".g" (vfs_name v g) with Some (a, _) => a | None => vfs_name v g end = v).
  { intros u n [_ Hu]. unfold vfs_name, vfsNamesFor. cbn [fst]. destruct (0 <? n).
    - by rewrite (cut_first_char "." "g" u) by done.
    - by rewrite (cut_no_char "." "g" u). }
  intros Hv Hw E. by rewrite <- (Hcut v g Hv), E, Hcut.
Qed.
Lemma generation_vfs_name v g :
  0 <= g -> in_int64 g -> generationOfVFSName v (vfs_name v g) = g.
Proof.
  intros Hg Hr. unfold vfs_name, vfsNamesFor, generationOfVFSName. cbn [fst].
  destruct (0 <? g) eqn:E; bools.
  - rewrite bool_decide_false, bool_decide_false.
    + cbn [orb]. rewrite <- sapp_assoc, cut_prefix_app, parse_format_int by done.
      by destruct (Z.ltb_spec g 0); [lia |].
    + intros H. apply (f_equal String.length) in H. rewrite !slen_app in H. cbn in H. lia.
    + intros H. apply (f_equal String.length) in H. rewrite !slen_app in H. cbn in H. lia.
  - rewrite (bool_decide_true (v = v)) by done. rewrite orb_true_r. lia.
Qed.

(** VFS names can be read back, both ways: the volume of a name and the
    generation of a name are those it was built from; so no two volumes, and
    no two generations of one volume, ever share a VFS name, a cache directory
    or an rclone configuration. *)
Theorem vfs_names_roundtrip v g v' g' :
  plain_id v -> 0 <= g -> in_int64 g -> plain_id v' -> 0 <= g' -> in_int64 g' ->
  volumeIDOfVFSName (vfs_name v g) = v
  /\ generationOfVFSName v (vfs_name v g) = g
  /\ (vfs_name v g = vfs_name v' g' -> v = v' /\ g = g')
  /\ (vfs_name v g +s+ "-s3" <> vfs_name v' g' \/ exists w, vfs_name v' g' = w +s+ "-s3").
Proof.
  intros Hv Hg Hr Hv' Hg' Hr'. splits.
  - by apply volumeID_vfs_name.
  - by apply generation_vfs_name.
  - intros E.
    assert (Ev : v = v').
    { by rewrite <- (volumeID_vfs_name v g), E, volumeID_vfs_name. }
    subst v'. split; [done |].
    by rewrite <- (generation_vfs_name v g), E, generation_vfs_name.
  - destruct (decide (vfs_name v' g' = vfs_name v g +s+ "-s3")) as [E | Hne]; [right; eauto |].
    left. congruence.
Qed.

Lemma vfs_names_roundtrip_witness :
  volumeIDOfVFSName "pvc-1.g12" = "pvc-1" /\ generationOfVFSName "pvc-1" "pvc-1.g12" = 12.
Proof.
  destruct (vfs_names_roundtrip "pvc-1" 12 "pvc-1" 12) as (H1 & H2 & _);
    [by split | lia | by apply in_int64b_spec | by split | lia | by apply in_int64b_spec |].
  exact (conj H1 H2).
Defined.

(** The name map on disk.  Saving a name makes it the one every later
    lookup of that volume gives (when the write lands) and disturbs no other
    volume; removing it restores generation 0; a missing or unreadable map
    reads as generation 0 for every volume. *)
Theorem name_map_ops (f : forall c, reply c) v name :
  let loaded := eval f LoadVFSNameMap in
  (exists m' rd wr, fst (run (fun _ => f) (SaveVFSName v name) [])
       = [Ev (CWriteNameMap vfsNameMapFile m') wr; Ev (CReadNameMap vfsNameMapFile) rd]
     /\ mget m' v = name /\ forall w, w <> v -> m' !! w = loaded !! w)
  /\ (forall h, fst (run (fun _ => f) (RemoveVFSName v) []) = h ->
       forall m' r, Ev (CWriteNameMap vfsNameMapFile m') r ∈ h ->
       is_Some (loaded !! v) /\ m' = delete v loaded)
  /\ ((forall m, f (CReadNameMap vfsNameMapFile) <> Ok (Some m)) -> v <> "" ->
      eval f (FSNameForVolume v) = v).
Proof.
  cbn zeta. splits.
  - unfold SaveVFSName, writeVFSNameMap. rewrite run_bind. cbn [bind perform run fst].
    unfold LoadVFSNameMap. cbn [bind perform run eval fst snd].
    eexists _, _, _. split; [reflexivity |]. split.
    + unfold mget. by rewrite lookup_insert_eq.
    + intros w Hw. by rewrite lookup_insert_ne.
  - intros h. unfold RemoveVFSName, LoadVFSNameMap, writeVFSNameMap. cbn [bind perform run eval].
    destruct (f (CReadNameMap vfsNameMapFile)) as [[m |] | e] eqn:Ef; cbn [bind run].
    2,3: rewrite lookup_empty; cbn [run fst]; intros <- m' r Hin;
      apply list_elem_of_singleton in Hin; congruence.
    destruct (m !! v) as [x |] eqn:Em; cbn [bind perform run fst]; intros <- m' r Hin.
    + apply elem_of_cons in Hin as [E | Hin].
      * assert (m' = delete v m) as -> by congruence. by split; [eexists |].
      * apply list_elem_of_singleton in Hin. congruence.
    + apply list_elem_of_singleton in Hin. congruence.
  - intros Hno Hne. unfold FSNameForVolume, LoadVFSNameMap. cbn [bind perform eval].
    assert (Hz : mget ∅ v = "") by (unfold mget; by rewrite lookup_empty).
    destruct (f (CReadNameMap vfsNameMapFile)) as [[m |] | e] eqn:Ef;
      [by destruct (Hno m) | |]; by rewrite Hz.
Qed.

Lemma name_map_ops_witness :
  eval default_reply (FSNameForVolume "pvc-1") = "pvc-1".
Proof.
  refine (proj2 (proj2 (name_map_ops default_reply "pvc-1" "x")) _ _); done.
Defined.

End VfsNames.
