(* ===== verification/VfsCache.v ===== *)
(** * VfsCache: the on-disk VFS cache (pkg/rclone/cachecheck.go, vfscache.go)

    Evidence of unuploaded writes, the check of a cache before it is mounted,
    drain-pending markers and the reclaiming of orphaned cache directories. *)

From Stdlib Require Import Ascii.
From S2P Require Import Prelude GoStrings Effects VfsNames.
Import VfsNames.

Module VfsCache.

Definition drainPendingDir := VFSCacheBasePath +s+ "/.drain-pending".

(** ** Cache items (cachecheck.go) *)

(** [isCacheItemDirty]: metadata that cannot be read or decoded is dirty. *)
Definition isCacheItemDirty (metaPath : string) : prog bool :=
  r <- perform (CReadMeta metaPath) ;;
  Ret match r with
      | Err _ => true
      | Ok None => true
      | Ok (Some info) => m_Dirty info
      end.

Fixpoint range_past_end (rs : list (Z * Z)) (dataSize : Z) : option string :=
  match rs with
  | [] => None
  | (pos, size) :: rs =>
      if dataSize <? wrap64 (pos + size) then Some "cached range past data file size"
      else range_past_end rs dataSize
  end.

(** [corruptReason]: [None] is the code's "" (healthy). *)
Definition corruptReason (metaPath dataPath : string) : prog (option string) :=
  r <- perform (CReadMeta metaPath) ;;
  match r with
  | Err _ => Ret (Some "unreadable metadata")
  | Ok None => Ret (Some "unparseable metadata")
  | Ok (Some info) =>
      st <- perform (CStat dataPath) ;;
      Ret match st with
          | Ok st => range_past_end (m_Rs info) (st_size st)
          | Err _ =>
              match m_Rs info with
              | [] => None
              | _ => Some "metadata claims cached ranges but data file is missing"
              end
          end
  end.

(** [filepath.Rel(root, path)] for the paths a walk of [root] visits. *)
Definition rel_under (root path : string) : option string :=
  if decide (path = root) then Some "." else cut_prefix (root +s+ "/") path.

Definition quarantine_name (rel : string) (stamp : Z) (ext : string) : string :=
  path_base rel +s+ "." +s+ format_int stamp +s+ ext.

Definition quarantineCacheItem (base vfsName rel metaPath dataPath : string) : prog unit :=
  let qdir := path_join [base; "quarantine"; vfsName; path_dir rel] in
  r <- perform (CMkdirAll qdir) ;;
  match r with
  | Err _ => Ret tt
  | Ok _ =>
      now <- perform CNow ;;
      let stamp := now / second in
      perform (CRename dataPath (path_join [qdir; quarantine_name rel stamp ".data"])) ;;;
      perform (CRename metaPath (path_join [qdir; quarantine_name rel stamp ".meta"])) ;;;
      Ret tt
  end.

Definition validate_item (base vfsName metaRoot dataRoot metaPath : string) : prog unit :=
  match rel_under metaRoot metaPath with
  | None => Ret tt
  | Some rel =>
      let dataPath := path_join [dataRoot; rel] in
      reason <- corruptReason metaPath dataPath ;;
      match reason with
      | None => Ret tt
      | Some _ =>
          dirty <- isCacheItemDirty metaPath ;;
          if dirty then quarantineCacheItem base vfsName rel metaPath dataPath
          else
            perform (CRemove metaPath) ;;;
            perform (CRemove dataPath) ;;;
            Ret tt
      end
  end.

Definition validateVFSCacheAt (base vfsName : string) : prog unit :=
  let metaRoot := path_join [base; "vfsMeta"; vfsName] in
  let dataRoot := path_join [base; "vfs"; vfsName] in
  visits <- perform (CWalkDir metaRoot) ;;
  for_each visits (fun v =>
    match v with
    | VFile metaPath => validate_item base vfsName metaRoot dataRoot metaPath
    | VDir _ | VErr _ _ => Ret tt
    end).

Definition ValidateVFSCache (vfsName : string) : prog unit := validateVFSCacheAt VFSCacheBasePath vfsName.

(** ** Unuploaded data (vfscache.go) *)

(** The walk of [hasDirtyCacheItemsAt]: [Ok d] when it ended (at the end, or
    skipping the rest after a dirty item), [Err e] when an entry failed. *)
Fixpoint dirty_walk (visits : list visit) : prog (result bool errno) :=
  match visits with
  | [] => Ret (Ok false)
  | VErr _ e :: _ => Ret (Err e)
  | VDir _ :: visits => dirty_walk visits
  | VFile path :: visits =>
      d <- isCacheItemDirty path ;;
      if d then Ret (Ok true) else dirty_walk visits
  end.

Definition hasDirtyCacheItemsAt (base vfsName : string) : prog bool :=
  visits <- perform (CWalkDir (path_join [base; "vfsMeta"; vfsName])) ;;
  r <- dirty_walk visits ;;
  Ret match r with
      | Ok d => d
      | Err ENOENT => false
      | Err _ => true
      end.

Fixpoint any_dirty (base volumeID : string) (entries : list dirent) : prog bool :=
  match entries with
  | [] => Ret false
  | e :: entries =>
      if negb (de_isdir e) || negb (bool_decide (volumeIDOfVFSName (de_name e) = volumeID))
      then any_dirty base volumeID entries
      else
        d <- hasDirtyCacheItemsAt base (de_name e) ;;
        if d then Ret true else any_dirty base volumeID entries
  end.

Definition hasUnuploadedDataAt (base volumeID : string) : prog bool :=
  if bool_decide (volumeID = "") then Ret false
  else
    r <- perform (CReadDir (path_join [base; "vfsMeta"])) ;;
    match r with
    | Err ENOENT => Ret false
    | Err _ => Ret true
    | Ok entries => any_dirty base volumeID entries
    end.
Definition HasUnuploadedData (volumeID : string) : prog bool :=
  hasUnuploadedDataAt VFSCacheBasePath volumeID.

Fixpoint dirty_volumes (base : string) (seen : list string) (entries : list dirent)
    : prog (list string) :=
  match entries with
  | [] => Ret seen
  | e :: entries =>
      if negb (de_isdir e) then dirty_volumes base seen entries
      else
        let volumeID := volumeIDOfVFSName (de_name e) in
        if decide (volumeID ∈ seen) then dirty_volumes base seen entries
        else
          d <- hasDirtyCacheItemsAt base (de_name e) ;;
          if d then dirty_volumes base (seen ++ [volumeID]) entries
          else dirty_volumes base seen entries
  end.

Definition volumesWithUnuploadedDataAt (base : string) : prog (list string) :=
  r <- perform (CReadDir (path_join [base; "vfsMeta"])) ;;
  match r with
  | Err _ => Ret []
  | Ok entries => out <- dirty_volumes base [] entries ;; Ret (sort_strings out)
  end.
Definition VolumesWithUnuploadedData : prog (list string) :=
  volumesWithUnuploadedDataAt VFSCacheBasePath.

(** ** Drain markers *)

Definition SaveDrainPending (volumeID : string) : prog unit :=
  r <- perform (CMkdirAll drainPendingDir) ;;
  match r with
  | Err _ => Ret tt
  | Ok _ => perform (CWriteFile (path_join [drainPendingDir; volumeID]) "") ;;; Ret tt
  end.
Definition ClearDrainPending (volumeID : string) : prog unit :=
  perform (CRemove (path_join [drainPendingDir; volumeID])) ;;; Ret tt.
Definition ListDrainPending : prog (list string) :=
  r <- perform (CReadDir drainPendingDir) ;;
  Ret match r with
      | Err _ => []
      | Ok entries => map de_name (List.filter (fun e => negb (de_isdir e)) entries)
      end.

(** ** Reclaiming *)

Definition removeVFSCacheDirsAt (base vfsName : string) : prog unit :=
  perform (CRemoveAll (base +s+ "/vfs/" +s+ vfsName)) ;;;
  perform (CRemoveAll (base +s+ "/vfsMeta/" +s+ vfsName)) ;;;
  Ret tt.

Section reclaim.
(** The [isActive] of the caller, a closure over state of its own. *)
Context {S : Type} (isActive : string -> S -> prog (S * bool)).

Definition sweep_entry (base : string) (m : gmap string string) (e : dirent) (s : S) : prog S :=
  if negb (de_isdir e) || bool_decide (Exists (fun kv => kv.2 = de_name e) (map_to_list m))
  then Ret s
  else
    let vfsName := de_name e in
    let volumeID := volumeIDOfVFSName vfsName in
    let* (s, active) := isActive volumeID s ;;
    if active && bool_decide (vfsName = volumeID) then Ret s
    else
      d <- hasDirtyCacheItemsAt base vfsName ;;
      (if (d : bool) then Ret tt else removeVFSCacheDirsAt base vfsName) ;;;
      Ret s.

Fixpoint sweep_entries (base : string) (m : gmap string string) (entries : list dirent) (s : S) : prog S :=
  match entries with
  | [] => Ret s
  | e :: entries => s <- sweep_entry base m e s ;; sweep_entries base m entries s
  end.

Definition sweepUnmappedVFSCacheDirsAt (base : string) (m : gmap string string) (s : S) : prog S :=
  r <- perform (CReadDir (path_join [base; "vfs"])) ;;
  match r with
  | Err _ => Ret s
  | Ok entries => sweep_entries base m entries s
  end.

(** The loop over the persisted map; entries of inactive volumes go. *)
Fixpoint cleanup_entries (l : list (string * string)) (m : gmap string string) (changed : bool) (s : S)
    : prog (gmap string string * bool * S) :=
  match l with
  | [] => Ret (m, changed, s)
  | (volumeID, vfsName) :: l =>
      let* (s, active) := isActive volumeID s ;;
      if (active : bool) then cleanup_entries l m changed s
      else
        removeVFSCacheDirsAt VFSCacheBasePath vfsName ;;;
        cleanup_entries l (delete volumeID m) true s
  end.

Definition CleanupOrphanedVFSCacheDirs (s : S) : prog S :=
  m <- LoadVFSNameMap ;;
  let* (m, changed, s) := cleanup_entries (map_to_list m) m false s ;;
  (if (changed : bool) then writeVFSNameMap m else Ret tt) ;;;
  sweepUnmappedVFSCacheDirsAt VFSCacheBasePath m s.
End reclaim.

(** ** Readings of the scans *)

Section snapshot.
Context (f : forall c, reply c).

(** The metadata file [p], in the snapshot, is proof of an upload. *)
Definition item_clean (p : string) : Prop :=
  exists info, f (CReadMeta p) = Ok (Some info) /\ m_Dirty info = false.

Lemma eval_item_dirty p : eval f (isCacheItemDirty p) = false <-> item_clean p.
Proof.
  unfold isCacheItemDirty, item_clean. cbn [bind perform eval].
  destruct (f (CReadMeta p)) as [[info |] | e].
  - split; [by intros; exists info | by intros (i & [= ->] & ?)].
  - split; [done | by intros (i & [=] & _)].
  - split; [done | by intros (i & [=] & _)].
Qed.

(** What a walk shows before its first error. *)
Fixpoint before_error (visits : list visit) : list visit :=
  match visits with
  | [] => [] | VErr _ _ :: _ => [] | v :: visits => v :: before_error visits end.
Fixpoint first_error (visits : list visit) : option errno :=
  match visits with
  | [] => None | VErr _ e :: _ => Some e | _ :: visits => first_error visits end.

Lemma dirty_walk_eval visits :
  eval f (dirty_walk visits)
  = if existsb (fun v => match v with VFile p => eval f (isCacheItemDirty p) | _ => false end)
         (before_error visits)
    then Ok true
    else match first_error visits with Some e => Err e | None => Ok false end.
Proof.
  induction visits as [| v visits IH]; [done |]. destruct v as [p | p | p e]; cbn [dirty_walk].
  - exact IH.
  - rewrite eval_bind. cbn [before_error existsb first_error].
    destruct (eval f (isCacheItemDirty p)); [done | exact IH].
  - done.
Qed.

(** The cache tree of [vfsName] reads as holding nothing unuploaded. *)
Definition tree_clean (base vfsName : string) : Prop :=
  let visits := f (CWalkDir (path_join [base; "vfsMeta"; vfsName])) in
  (forall p, VFile p ∈ before_error visits -> item_clean p)
  /\ (first_error visits = None \/ first_error visits = Some ENOENT).

Lemma existsb_false {A} (g : A -> bool) l : existsb g l = false <-> forall x, x ∈ l -> g x = false.
Proof.
  induction l as [| x l IH]; cbn.
  - split; [by intros _ x ?%not_elem_of_nil | done].
  - rewrite orb_false_iff, IH. split.
    + intros [Hx Hl] y [-> | Hy]%elem_of_cons; auto.
    + intros H. split; [apply H; by left | intros y Hy; apply H; by right].
Qed.

Lemma eval_tree_dirty base vfsName :
  eval f (hasDirtyCacheItemsAt base vfsName) = false <-> tree_clean base vfsName.
Proof.
  unfold hasDirtyCacheItemsAt, tree_clean. cbn [bind perform eval]. rewrite eval_bind.
  set (visits := f _). rewrite dirty_walk_eval. cbn zeta.
  destruct (existsb _ (before_error visits)) eqn:E; cbn [eval].
  - split; [done |]. intros [Hc _]. exfalso.
    apply not_false_iff_true in E. apply E. apply existsb_false.
    intros [p | p | p e] Hv; [done | by apply eval_item_dirty, Hc | done].
  - rewrite existsb_false in E. split.
    + intros Hr. split.
      * intros p Hp. apply eval_item_dirty. exact (E _ Hp).
      * destruct (first_error visits) as [[] |]; auto; done.
    + intros [_ [-> | ->]]; done.
Qed.

Lemma any_dirty_eval base v entries :
  eval f (any_dirty base v entries) = false
  <-> forall e, e ∈ entries -> de_isdir e = true -> volumeIDOfVFSName (de_name e) = v ->
      tree_clean base (de_name e).
Proof.
  induction entries as [| e entries IH]; cbn [any_dirty].
  - split; [by intros _ e ?%not_elem_of_nil | done].
  - destruct (de_isdir e) eqn:Hd; cbn [negb orb].
    2: { rewrite IH. split; intros H e' He'; [| apply H; by right].
         apply elem_of_cons in He' as [-> | He']; [congruence | by apply H]. }
    case_bool_decide as Hv; cbn [negb].
    + rewrite eval_bind. destruct (eval f (hasDirtyCacheItemsAt base (de_name e))) eqn:Ed.
      * cbn [eval]. split; [done |]. intros H.
        assert (Hc : tree_clean base (de_name e)) by (apply H; [by left | done | done]).
        apply eval_tree_dirty in Hc. congruence.
      * rewrite IH. apply eval_tree_dirty in Ed. split; intros H e' He'.
        -- apply elem_of_cons in He' as [-> | He']; [done | by apply H].
        -- apply H. by right.
    + rewrite IH. split; intros H e' He'; [| apply H; by right].
      apply elem_of_cons in He' as [-> | He']; [done | by apply H].
Qed.
End snapshot.

(** C29: a volume reads as fully uploaded only on evidence.  [HasUnuploadedData]
    of a volume answers false if and only if the metadata tree does not exist,
    or it could be listed and each cache directory in it that is the volume's
    has only metadata files that decode and say clean (in the part of its walk
    before an ENOENT, and with no other error in the walk).  So a tree that
    cannot be listed is dirty, and so is a directory with a file or a text that
    cannot be read; and the cache directory of each generation of the volume is
    one of those looked at. *)
Theorem unuploaded_data_exact (f : forall c, reply c) base v :
  v <> "" ->
  (eval f (hasUnuploadedDataAt base v) = false
   <-> f (CReadDir (path_join [base; "vfsMeta"])) = Err ENOENT
       \/ exists entries, f (CReadDir (path_join [base; "vfsMeta"])) = Ok entries
          /\ forall e, e ∈ entries -> de_isdir e = true -> volumeIDOfVFSName (de_name e) = v ->
               tree_clean f base (de_name e))
  /\ (plain_id v -> forall g, 0 <= g -> in_int64 g -> volumeIDOfVFSName (vfs_name v g) = v).
Proof.
  intros Hv. split; [| intros; by apply volumeID_vfs_name].
  unfold hasUnuploadedDataAt. rewrite bool_decide_false by done. cbn [bind perform eval].
  destruct (f (CReadDir _)) as [entries | e].
  - rewrite any_dirty_eval. split; [intros H; right; by exists entries | intros [[=] | (es & [= <-] & H)]; done].
  - split; [intros He; left; by destruct e | intros [[= ->] | (es & [=] & _)]; done].
Qed.

(** A cache tree in which a directory disappears while it is walked. *)
Definition vanished_world (c : call) : reply c :=
  match c return reply c with
  | CReadDir "/c/vfsMeta" => Ok [DirEnt "pvc-1" true false false]
  | CWalkDir "/c/vfsMeta/pvc-1" =>
      [VDir "/c/vfsMeta/pvc-1"; VErr "/c/vfsMeta/pvc-1/a" ENOENT; VFile "/c/vfsMeta/pvc-1/b"]
  | CReadMeta "/c/vfsMeta/pvc-1/b" => Ok (Some (Meta 5 true []))
  | c => default_reply c
  end.

(** The same with a generation that is dirty. *)
Definition dirty_world (c : call) : reply c :=
  match c return reply c with
  | CReadDir "/c/vfsMeta" =>
      Ok [DirEnt "pvc-1" true false false; DirEnt "pvc-1.g2" true false false]
  | CWalkDir "/c/vfsMeta/pvc-1" => [VDir "/c/vfsMeta/pvc-1"]
  | CWalkDir "/c/vfsMeta/pvc-1.g2" => [VDir "/c/vfsMeta/pvc-1.g2"; VFile "/c/vfsMeta/pvc-1.g2/b"]
  | CReadMeta "/c/vfsMeta/pvc-1.g2/b" => Ok None
  | c => default_reply c
  end.

Lemma unuploaded_data_exact_witness :
  "pvc-1" <> "" /\ eval dirty_world (hasUnuploadedDataAt "/c" "pvc-1") = true
  /\ (eval dirty_world (hasUnuploadedDataAt "/c" "pvc-1") = false -> tree_clean dirty_world "/c" "pvc-1.g2").
Proof.
  split; [done |]. split; [reflexivity |]. intros H.
  apply (unuploaded_data_exact dirty_world "/c" "pvc-1") in H as [H | (es & H & Hc)]; [done | | done].
  injection H as <-. apply (Hc (DirEnt "pvc-1.g2" true false false)); [by right; left | done | reflexivity].
Defined.

(** The scan gives up on the whole tree at the first entry that vanished: an
    ENOENT met in the middle of the walk ends it with the answer "clean", and
    what comes after is not looked at, however dirty. *)
Theorem vanished_entry_hides_dirty (f : forall c, reply c) base vfsName clean_part p rest :
  f (CWalkDir (path_join [base; "vfsMeta"; vfsName])) = clean_part ++ VErr p ENOENT :: rest ->
  Forall (fun v => exists d, v = VDir d) clean_part ->
  eval f (hasDirtyCacheItemsAt base vfsName) = false.
Proof.
  intros Hw Hc. apply eval_tree_dirty. unfold tree_clean. rewrite Hw. cbn zeta. clear Hw.
  induction Hc as [| v l [d ->] Hl IH]; cbn [app before_error first_error].
  - split; [by intros q ?%not_elem_of_nil | by right].
  - destruct IH as [IH1 IH2]. split; [| done].
    intros q [[=] | Hq]%elem_of_cons. by apply IH1.
Qed.

Lemma vanished_entry_hides_dirty_witness :
  eval vanished_world (hasDirtyCacheItemsAt "/c" "pvc-1") = false
  /\ eval vanished_world (isCacheItemDirty "/c/vfsMeta/pvc-1/b") = true.
Proof.
  split; [| reflexivity].
  apply (vanished_entry_hides_dirty vanished_world "/c" "pvc-1" [VDir "/c/vfsMeta/pvc-1"]
    "/c/vfsMeta/pvc-1/a" [VFile "/c/vfsMeta/pvc-1/b"]); [reflexivity |].
  repeat constructor. by eexists.
Defined.

(** ** What is removed *)

(** In [h], the tree of [vfsName] was walked and every metadata file up to the
    end of the walk (or an ENOENT) was read and says clean. *)
Definition scanned_clean (base vfsName : string) (h : history) : Prop :=
  exists visits, Ev (CWalkDir (path_join [base; "vfsMeta"; vfsName])) visits ∈ h
    /\ (first_error visits = None \/ first_error visits = Some ENOENT)
    /\ forall p, VFile p ∈ before_error visits ->
         exists info, Ev (CReadMeta p) (Ok (Some info)) ∈ h /\ m_Dirty info = false.

Lemma isCacheItemDirty_spec p h :
  wpc looks_only (isCacheItemDirty p)
    (fun h' d => d = false -> exists info, Ev (CReadMeta p) (Ok (Some info)) ∈ h' /\ m_Dirty info = false) h.
Proof.
  unfold isCacheItemDirty. wp. destruct r as [[info |] | e]; [| done | done].
  intros Hd. exists info. split; [by left | done].
Qed.

Lemma dirty_walk_spec visits h :
  wpc looks_only (dirty_walk visits)
    (fun h' r => match r with
       | Ok false => first_error visits = None
       | Ok true => True
       | Err e => first_error visits = Some e end
       /\ (r <> Ok true -> forall p, VFile p ∈ before_error visits ->
           exists info, Ev (CReadMeta p) (Ok (Some info)) ∈ h' /\ m_Dirty info = false)) h.
Proof.
  revert h. induction visits as [| v visits IH]; intros h.
  - cbn. split; [done |]. by intros _ p ?%not_elem_of_nil.
  - destruct v as [p | p | p e]; cbn [dirty_walk before_error first_error].
    + eapply wpc_post; [apply IH |]. intros h' r [H1 H2]. split; [done |].
      intros Hr q [[=] | Hq]%elem_of_cons. by apply H2.
    + wp_step. eapply wpc_post; [apply isCacheItemDirty_spec |]. intros h1 d Hd.
      destruct d; [done |]. eapply wpc_post; [apply wpc_extends, IH |].
      intros h2 r (Hs & H1 & H2). split; [done |].
      intros Hr q [[= ->] | Hq]%elem_of_cons; [| by apply H2].
      destruct (Hd eq_refl) as (i & ? & ?). exists i. auto.
    + cbn. split; [done |]. by intros _ q ?%not_elem_of_nil.
Qed.

Lemma hasDirtyCacheItemsAt_spec base vfsName h :
  wpc looks_only (hasDirtyCacheItemsAt base vfsName)
    (fun h' d => d = false -> scanned_clean base vfsName h') h.
Proof.
  unfold hasDirtyCacheItemsAt. wp_step. apply wpc_perform; [done |]. intros visits.
  wp_step. eapply wpc_post; [apply wpc_extends, dirty_walk_spec |].
  intros h' r (Hs & H1 & H2). cbn [wpc]. intros Hd.
  exists visits. split; [apply Hs; by left |].
  destruct r as [[] | e]; [done | | destruct e; try done].
  all: split; [auto | by apply H2].
Qed.

Lemma corruptReason_looks a b h : wpc looks_only (corruptReason a b) (fun _ _ => True) h.
Proof. unfold corruptReason. by wp. Qed.

Definition validate_guard (base vfsName : string) (h : history) (c : call) : Prop :=
  match c with
  | CRemove p =>
      exists metaPath rel info,
        rel_under (path_join [base; "vfsMeta"; vfsName]) metaPath = Some rel
        /\ (p = metaPath \/ p = path_join [path_join [base; "vfs"; vfsName]; rel])
        /\ Ev (CReadMeta metaPath) (Ok (Some info)) ∈ h /\ m_Dirty info = false
  | CMkdirAll q => has_prefix (path_join [base; "quarantine"; vfsName]) q = true
      \/ exists rel, q = path_join [base; "quarantine"; vfsName; path_dir rel]
  | CRename _ d => exists rel stamp ext,
      d = path_join [path_join [base; "quarantine"; vfsName; path_dir rel];
                     quarantine_name rel stamp ext]
  | c => mutates c = false
  end.

Lemma looks_validate base vfsName h c : mutates c = false -> validate_guard base vfsName h c.
Proof. by destruct c. Qed.

(** [ValidateVFSCache] never loses a write: it deletes only the two files of
    an item whose metadata it read and found not dirty (the item downloads
    again from S3); everything else it changes is a rename into the
    quarantine directory. *)
Theorem validate_removes_only_clean env base vfsName :
  hist_ok (validate_guard base vfsName) (fst (run env (validateVFSCacheAt base vfsName) [])).
Proof.
  apply (wpc_run env _ _ (fun _ _ => True)); [| done].
  unfold validateVFSCacheAt. wp_step. apply wpc_perform; [done |]. intros visits.
  apply (wpc_for_each _ _ _ (fun _ => True)); [done |]. intros [p | p | p e] h _ _; [done | | done].
  unfold validate_item. destruct (rel_under _ p) as [rel |] eqn:Hrel; [| done].
  wp_step. eapply wpc_post; [apply wpc_looks; [apply corruptReason_looks | apply looks_validate] |].
  intros h1 reason _. destruct reason as [reason |]; [| done].
  wp_step. eapply wpc_post;
    [apply wpc_looks; [apply isCacheItemDirty_spec | apply looks_validate] |].
  intros h2 dirty Hd. destruct dirty.
  - unfold quarantineCacheItem. wp_step. apply wpc_perform; [right; by exists rel |].
    intros [[] | e]; [| done]. wp_step. apply wpc_perform; [done |]. intros now. cbn zeta.
    wp_step. apply wpc_perform; [by eexists _, _, _ |]. intros ?.
    wp_step. apply wpc_perform; [by eexists _, _, _ |]. by intros ?.
  - destruct (Hd eq_refl) as (info & Hin & Hc).
    wp_step. apply wpc_perform; [exists p, rel, info; auto |]. intros r.
    wp_step. apply wpc_perform; [| done]. exists p, rel, info. splits; auto. by right.
Qed.

Definition sweep_guard (base : string) (m : gmap string string) (h : history) (c : call) : Prop :=
  match c with
  | CRemoveAll p =>
      exists name, (p = base +s+ "/vfs/" +s+ name \/ p = base +s+ "/vfsMeta/" +s+ name)
        /\ scanned_clean base name h /\ forall v, m !! v <> Some name
  | c => mutates c = false
  end.

Lemma scanned_clean_mono base n h h' : h ⊆ h' -> scanned_clean base n h -> scanned_clean base n h'.
Proof.
  intros Hs (visits & Hin & He & Hc). exists visits. splits; [auto | done |].
  intros p Hp. destruct (Hc p Hp) as (i & ? & ?). exists i. auto.
Qed.

(** ** The callback of the collection

    [CleanupOrphanedVFSCacheDirs] is given an [isActive]; what it may delete
    is what that callback knows to be gone.  The interface is what a callback
    over state [S] promises: it only looks, and when it answers that a volume
    is not active it has seen why ([gone]), now or when it filled its state
    ([knows]). *)

Class ActivityOracle {S} (isActive : string -> S -> prog (S * bool)) : Type := Oracle
  { gone : string -> history -> Prop;
    knows : S -> history -> Prop;
    gone_mono : forall v h h', h ⊆ h' -> gone v h -> gone v h';
    knows_mono : forall s h h', h ⊆ h' -> knows s h -> knows s h';
    isActive_law : forall v s h, knows s h ->
      wpc looks_only (isActive v s)
        (fun h' r => h ⊆ h' /\ knows (fst r) h' /\ (snd r = false -> gone v h')) h }.

Section oracle.
Context {S : Type} (isActive : string -> S -> prog (S * bool)) {O : ActivityOracle isActive}.

Lemma sweep_entries_spec base m entries s h :
  knows s h -> wpc (sweep_guard base m) (sweep_entries isActive base m entries s) (fun _ _ => True) h.
Proof.
  intros Hk. assert (HL : forall h c, mutates c = false -> sweep_guard base m h c) by (by intros ? []).
  revert s h Hk. induction entries as [| e entries IH]; intros s h Hk; [done |]. cbn [sweep_entries].
  wp_step. eapply (wpc_post _ _ (fun h' s' => knows s' h')); [| intros h' s' Hs'; by apply IH].
  unfold sweep_entry. destruct (negb (de_isdir e) || _) eqn:Hm; [done |]. bools.
  wp_step. eapply wpc_post; [apply wpc_looks; [by apply isActive_law | done] |]. intros h1 [s1 active] (_ & Hk1 & _).
  cbn [fst snd] in *. destruct (active && _); [done |].
  wp_step. eapply wpc_post; [apply wpc_looks; [apply wpc_extends, hasDirtyCacheItemsAt_spec | done] |].
  intros h2 d [Hs2 Hd]. destruct d; [by eapply knows_mono |]. specialize (Hd eq_refl).
  assert (Hno : forall v, m !! v <> Some (de_name e)).
  { intros v Hv. match goal with H : ~ Exists _ _ |- _ => apply H end.
    apply Exists_exists. exists (v, de_name e).
    split; [by apply list_elem_of_In, elem_of_map_to_list | done]. }
  unfold removeVFSCacheDirsAt. do 2 wp_step. apply wpc_perform; [by exists (de_name e); auto |].
  intros r. wp_step. apply wpc_perform; [| intros r2; eapply knows_mono; [| exact Hk1]; sub]. exists (de_name e).
  splits; [by right | | done]. eapply scanned_clean_mono; [| done]. intros x. by right.
Qed.

(** A generation is removed when the name map gives it to a volume the
    callback knows to be gone, or when no volume maps to it and it is clean;
    the map loses the volumes that are gone. *)
Definition collect_guard (m : gmap string string) (h : history) (c : call) : Prop :=
  match c with
  | CRemoveAll p =>
      exists name, (p = VFSCacheBasePath +s+ "/vfs/" +s+ name \/ p = VFSCacheBasePath +s+ "/vfsMeta/" +s+ name)
      /\ ((exists v, m !! v = Some name /\ gone v h) \/ scanned_clean VFSCacheBasePath name h)
  | CWriteNameMap _ m' => forall v, m' !! v = m !! v \/ m' !! v = None /\ gone v h
  | c => mutates c = false
  end.

Lemma collect_looks m h c : mutates c = false -> collect_guard m h c.
Proof. by destruct c. Qed.

Lemma cleanup_entries_spec m0 l m changed s h :
  (forall v name, (v, name) ∈ l -> m0 !! v = Some name) -> knows s h ->
  (forall v, m !! v = m0 !! v \/ m !! v = None /\ gone v h) ->
  wpc (collect_guard m0) (cleanup_entries isActive l m changed s)
    (fun h' r => knows (snd r) h'
       /\ forall v, fst (fst r) !! v = m0 !! v \/ fst (fst r) !! v = None /\ gone v h') h.
Proof.
  revert m changed s h. induction l as [| [v name] l IH]; intros m changed s h Hl Hk Hm; cbn [cleanup_entries]; [by split |].
  wp_step. eapply wpc_post; [apply wpc_looks; [by apply isActive_law | apply collect_looks] |].
  intros h1 [s1 active] (A1 & Hk1 & Hact); cbn [fst snd] in *.
  assert (Htl : forall v name, (v, name) ∈ l -> m0 !! v = Some name) by (intros w n Hw; apply Hl; by right).
  assert (Hm1 : forall v, m !! v = m0 !! v \/ m !! v = None /\ gone v h1).
  { intros w. destruct (Hm w) as [| []]; [by left | right; split; [done | by eapply gone_mono]]. }
  destruct active; [by apply IH |]. specialize (Hact eq_refl).
  assert (Hg : forall h' p, h1 ⊆ h' -> p = VFSCacheBasePath +s+ "/vfs/" +s+ name \/ p = VFSCacheBasePath +s+ "/vfsMeta/" +s+ name ->
    collect_guard m0 h' (CRemoveAll p)).
  { intros h' p Hs Hp. exists name. split; [done |]. left. exists v. split; [apply Hl; by left | by eapply gone_mono]. }
  unfold removeVFSCacheDirsAt. do 2 wp_step. apply wpc_perform; [apply Hg; [done | by left] |]. intros r1.
  wp_step. apply wpc_perform; [apply Hg; [sub | by right] |]. intros r2. cbn [wpc].
  set (h2 := Ev _ r2 :: _). assert (H12 : h1 ⊆ h2) by (unfold h2; sub). apply IH; [done | by eapply knows_mono |].
  intros w. destruct (decide (w = v)) as [-> | Hne].
  - right. rewrite lookup_delete_eq. split; [done | by eapply gone_mono].
  - rewrite lookup_delete_ne by done. destruct (Hm1 w) as [| []]; [by left | right]. split; [done | by eapply gone_mono].
Qed.

Lemma collect_safe env s :
  knows s [] ->
  let m := snd (run env LoadVFSNameMap []) in
  hist_ok (collect_guard m) (fst (run env (CleanupOrphanedVFSCacheDirs isActive s) [])).
Proof.
  intros Hk. destruct (run env LoadVFSNameMap []) as [h0 m] eqn:E. cbn [snd]. cbn zeta.
  unfold CleanupOrphanedVFSCacheDirs. rewrite run_bind, E. cbn [fst snd].
  assert (H0 : hist_ok (collect_guard m) h0).
  { pose proof (wpc_run env (collect_guard m) LoadVFSNameMap (fun _ _ => True) []) as Hr. rewrite E in Hr. apply Hr; [| done].
    unfold LoadVFSNameMap. wp_step. by apply wpc_perform. }
  assert (Hk0 : knows s h0) by (eapply knows_mono; [| exact Hk]; by intros x ?%not_elem_of_nil).
  eapply wpc_run; [| exact H0]. instantiate (1 := fun _ _ => True). wp_step.
  eapply wpc_post; [apply (cleanup_entries_spec m (map_to_list m) m); [| done |] |].
  - intros v name Hv. by apply elem_of_map_to_list.
  - by left.
  - intros h1 [[m1 changed] s1] [Hk1 Hm]; cbn [fst snd] in *. wp_step.
    apply (wpc_post _ _ (fun h' _ => knows s1 h')).
    { destruct changed; [| done]. unfold writeVFSNameMap. wp_step. apply wpc_perform; [done |]. intros r.
      cbn [wpc]. eapply knows_mono; [| exact Hk1]. sub. }
    intros h2 u Hk2. unfold sweepUnmappedVFSCacheDirsAt. wp_step. apply wpc_perform; [done |].
    intros [entries | e]; [| done]. eapply wpc_mono; [apply sweep_entries_spec; eapply knows_mono; [| exact Hk2]; sub | | done].
    intros h' []; try done. intros (name & Hp & Hc & _). exists name. split; [exact Hp | by right].
Qed.

End oracle.
#[global] Arguments collect_guard {S isActive O} m h c.

(** The sweep of unmapped cache directories deletes a directory only after
    walking its metadata and finding every item clean, and never one the name
    map points at; so a write that exists only in an abandoned generation is
    kept. *)
Theorem sweep_removes_only_clean {S} (isActive : string -> S -> prog (S * bool)) {O : ActivityOracle isActive} env base m s :
  knows s [] ->
  hist_ok (sweep_guard base m) (fst (run env (sweepUnmappedVFSCacheDirsAt isActive base m s) [])).
Proof.
  intros Hk. apply (wpc_run env _ _ (fun _ _ => True)); [| done].
  unfold sweepUnmappedVFSCacheDirsAt. wp_step. apply wpc_perform; [done |].
  intros [entries | e]; [| done]. apply (sweep_entries_spec isActive (O := O)). eapply knows_mono; [| exact Hk]. by intros x ?%not_elem_of_nil.
Qed.

(** A callback that calls every volume gone. *)
#[local] Instance nothing_active : ActivityOracle (fun (_ : string) (s : unit) => Ret (s, false)).
Proof. refine (Oracle _ _ (fun _ _ => True) (fun _ _ => True) _ _ _); done. Defined.

Lemma sweep_removes_only_clean_witness :
  hist_ok (sweep_guard "/c" ∅)
    (fst (run (fun _ => dirty_world) (sweepUnmappedVFSCacheDirsAt (fun _ s => Ret (s, false)) "/c" ∅ tt) [])).
Proof. apply (sweep_removes_only_clean _ (O := nothing_active)). exact I. Defined.

End VfsCache.
