(* ===== verification/VfsSetup.v ===== *)
(** * VfsSetup: the encrypted cache volume (pkg/rclone/vfscache.go)

    [SetupVFSCache] and everything it calls: the LUKS volume rclone's cache
    lives on, its passphrase, its growth and the proof that it is mounted. *)

From Stdlib Require Import Ascii.
From S2P Require Import Prelude GoStrings Effects Luks Units VfsNames.
Import Luks Units VfsNames.

Module VfsSetup.

Definition VFSCacheMapperName := "luks-vfs-cache".
Definition VFSCacheBackingFile := "/var/lib/lukscrypt-vfs-cache/vfs-cache.luks".
Definition vfsCacheNodeIDFile := "/var/lib/lukscrypt-vfs-cache/.node-id".
Definition defaultVFSCacheSize : Z := 20 * 1024 * 1024 * 1024.

Definition vfsCachePassphrase (basePassphrase nodeID : string) : prog string :=
  recorded <- perform (CReadFile vfsCacheNodeIDFile) ;;
  Ret match recorded with
      | Ok txt =>
          let id := trim_space txt in
          if negb (bool_decide (id = "")) && negb (bool_decide (id = nodeID))
          then basePassphrase +s+ "-" +s+ id
          else basePassphrase +s+ "-" +s+ nodeID
      | Err _ => basePassphrase +s+ "-" +s+ nodeID
      end.

Definition recordVFSCacheNodeID (nodeID : string) : prog unit :=
  perform (CWriteFile vfsCacheNodeIDFile (nodeID +s+ String nl "")) ;;; Ret tt.

(** ** Commands *)

Definition setupLoopDevice (backingFile : string) : prog (result string gerr) :=
  try output <- cmd_output ["losetup"; "-f"; "--show"; backingFile] else (errorf_w "losetup failed") ;;
  Ret (Ok (trim_space output)).

Definition findLoopDevice (backingFile : string) : prog (result string gerr) :=
  try output <- cmd_output ["losetup"; "-j"; backingFile] else (fun e => e) ;;
  let line := trim_space output in
  if bool_decide (line = "") then Ret (Err (error_new "no loop device found"))
  else Ret (Ok (hd "" (split ":" line))).

Definition detachLoopDevice (loopDevice : string) : prog (result unit gerr) :=
  cmd_run ["losetup"; "-d"; loopDevice].
Definition formatExt4 (device : string) : prog (result unit gerr) :=
  cmd_run ["mkfs.ext4"; "-F"; device].

Definition mounted_line (mountPath line : string) : bool :=
  match fields line with
  | _ :: mp :: _ => bool_decide (mp = mountPath)
  | _ => false
  end.
Definition mountFilesystem (device mountPath : string) : prog (result unit gerr) :=
  data <- perform (CReadFile "/proc/mounts") ;;
  let txt := match data with Ok d => d | Err _ => "" end in
  if existsb (mounted_line mountPath) (split nl txt) then Ret (Ok tt)
  else cmd_run ["mount"; device; mountPath].
Definition unmountFilesystem (mountPath : string) : prog (result unit gerr) :=
  cmd_run ["umount"; mountPath].

Definition isVFSCacheMounted (mountPath : string) : prog bool :=
  r <- cmd_run ["mountpoint"; "-q"; mountPath] ;; Ret (is_ok r).

Definition drop_loop (backingFile : string) : prog unit :=
  r <- findLoopDevice backingFile ;;
  match r with
  | Ok loopDevice =>
      if bool_decide (loopDevice = "") then Ret tt else detachLoopDevice loopDevice ;;; Ret tt
  | Err _ => Ret tt
  end.

Definition cleanupStaleVFSCache (mountPath : string) : prog unit :=
  m <- isVFSCacheMounted mountPath ;;
  (if m then cmd_run ["umount"; "-l"; mountPath] ;;; Ret tt else Ret tt) ;;;
  st <- perform (CStat (GetMappedDevicePath VFSCacheMapperName)) ;;
  (if is_ok st then CloseLUKS VFSCacheMapperName ;;; Ret tt else Ret tt) ;;;
  st2 <- perform (CStat VFSCacheBackingFile) ;;
  if is_ok st2 then drop_loop VFSCacheBackingFile else Ret tt.

Definition verifyCacheEncryptedAt (path : string) : prog (result unit gerr) :=
  c <- perform (CStat path) ;;
  match c with
  | Err e => Ret (Err (errorf_w ("cannot stat the VFS cache dir " +s+ path) (errno_err e)))
  | Ok cache =>
      p <- perform (CStat (path_dir path)) ;;
      match p with
      | Err e => Ret (Err (errorf_w ("cannot stat " +s+ path_dir path) (errno_err e)))
      | Ok parent =>
          if st_dev cache =? st_dev parent
          then Ret (Err (error_new ("the encrypted VFS cache is NOT mounted at " +s+ path)))
          else Ret (Ok tt)
      end
  end.
Definition VerifyCacheEncrypted : prog (result unit gerr) := verifyCacheEncryptedAt VFSCacheBasePath.

Definition pinAndVerifyCacheDir (mountPath : string) : prog (result unit gerr) :=
  try _ <- perform (CSetCacheDir mountPath)
    else (errorf_w ("failed to pin rclone cache dir to " +s+ mountPath)) ;;
  got <- perform CGetCacheDir ;;
  if bool_decide (got = mountPath) then VerifyCacheEncrypted
  else Ret (Err (error_new ("rclone cache dir is " +s+ got))).

Definition resizeVFSCacheIfNeeded (loopDevice : string) (targetSize : Z) (passphrase : string)
    : prog (result unit gerr) :=
  st <- perform (CStat VFSCacheBackingFile) ;;
  match st with
  | Err e => Ret (Err (errorf_w "failed to stat VFS cache backing file" (errno_err e)))
  | Ok info =>
      if targetSize <=? st_size info then Ret (Ok tt)
      else
        t <- perform (CTruncate VFSCacheBackingFile targetSize) ;;
        match t with
        | Err e => Ret (Err (errorf_w "failed to expand VFS cache backing file" (errno_err e)))
        | Ok _ =>
            try _ <- cmd_run ["losetup"; "-c"; loopDevice] else (errorf_v "failed to refresh loop device") ;;
            try _ <- ResizeLUKS VFSCacheMapperName passphrase
              else (errorf_w "failed to resize LUKS VFS cache") ;;
            try _ <- cmd_run ["resize2fs"; GetMappedDevicePath VFSCacheMapperName]
              else (errorf_v "failed to resize VFS cache filesystem") ;;
            Ret (Ok tt)
        end
  end.

(** ** SetupVFSCache *)

Definition configuredSize (sizeStr : string) : Z :=
  if bool_decide (sizeStr = "") then defaultVFSCacheSize
  else match parseSizeToBytes sizeStr with
       | Ok parsed => if 0 <? parsed then parsed else defaultVFSCacheSize
       | Err _ => defaultVFSCacheSize
       end.

(** The branch that creates the volume. *)
Definition create_cache_volume (cacheSize : Z) (passphrase nodeID : string) : prog (result unit gerr) :=
  c <- perform (CCreate VFSCacheBackingFile) ;;
  match c with
  | Err e => Ret (Err (errorf_w "failed to create VFS cache backing file" (errno_err e)))
  | Ok _ =>
  t <- perform (CTruncate VFSCacheBackingFile cacheSize) ;;
  match t with
  | Err e =>
      perform (CRemove VFSCacheBackingFile) ;;;
      Ret (Err (errorf_w "failed to set VFS cache backing file size" (errno_err e)))
  | Ok _ =>
  l <- setupLoopDevice VFSCacheBackingFile ;;
  match l with
  | Err e =>
      perform (CRemove VFSCacheBackingFile) ;;; Ret (Err (errorf_w "failed to setup loop device" e))
  | Ok loopDevice =>
  r <- FormatAndOpenLUKS loopDevice VFSCacheMapperName passphrase ;;
  match r with
  | Err e =>
      detachLoopDevice loopDevice ;;; perform (CRemove VFSCacheBackingFile) ;;;
      Ret (Err (errorf_w "failed to format LUKS VFS cache" e))
  | Ok _ =>
  m <- formatExt4 (GetMappedDevicePath VFSCacheMapperName) ;;
  match m with
  | Err e =>
      CloseLUKS VFSCacheMapperName ;;; detachLoopDevice loopDevice ;;;
      perform (CRemove VFSCacheBackingFile) ;;;
      Ret (Err (errorf_w "failed to format VFS cache filesystem" e))
  | Ok _ => recordVFSCacheNodeID nodeID ;;; Ret (Ok tt)
  end end end end end.

(** The branch that opens an existing one. *)
Definition open_cache_volume (cacheSize : Z) (passphrase : string) : prog (result unit gerr) :=
  try loopDevice <- setupLoopDevice VFSCacheBackingFile else (errorf_w "failed to setup loop device") ;;
  r <- OpenLUKS loopDevice VFSCacheMapperName passphrase ;;
  match r with
  | Err e =>
      detachLoopDevice loopDevice ;;;
      Ret (Err (errorf_w ("failed to open the encrypted VFS cache at " +s+ VFSCacheBackingFile) e))
  | Ok _ => resizeVFSCacheIfNeeded loopDevice cacheSize passphrase ;;; Ret (Ok tt)
  end.

(** From "Clean up any stale state" on. *)
Definition setup_volume (cacheSize : Z) (passphrase nodeID mountPath : string) : prog (result string gerr) :=
  cleanupStaleVFSCache mountPath ;;;
  d1 <- perform (CMkdirAll (path_dir VFSCacheBackingFile)) ;;
  match d1 with
  | Err e => Ret (Err (errorf_w "failed to create VFS cache directory" (errno_err e)))
  | Ok _ =>
  d2 <- perform (CMkdirAll mountPath) ;;
  match d2 with
  | Err e => Ret (Err (errorf_w "failed to create VFS cache mount directory" (errno_err e)))
  | Ok _ =>
  st <- perform (CStat VFSCacheBackingFile) ;;
  try _ <- (match st with
            | Err ENOENT => create_cache_volume cacheSize passphrase nodeID
            | _ => open_cache_volume cacheSize passphrase
            end) else (fun e => e) ;;
  m <- mountFilesystem (GetMappedDevicePath VFSCacheMapperName) mountPath ;;
  match m with
  | Err e => CloseLUKS VFSCacheMapperName ;;; Ret (Err (errorf_w "failed to mount VFS cache filesystem" e))
  | Ok _ =>
      try _ <- pinAndVerifyCacheDir mountPath else (fun e => e) ;;
      Ret (Ok mountPath)
  end end end.

(** [SetupVFSCache]; the cache size it stores in [vfsCacheSize] is returned
    along. *)
Definition SetupVFSCache (sizeStr basePassphrase nodeID : string) : prog (Z * result string gerr) :=
  passphrase <- vfsCachePassphrase basePassphrase nodeID ;;
  let mountPath := VFSCacheBasePath in
  let cacheSize := configuredSize sizeStr in
  mounted <- isVFSCacheMounted mountPath ;;
  r <- (if mounted then
          st <- perform (CStat VFSCacheBackingFile) ;;
          if match st with Ok info => st_size info <? cacheSize | Err _ => false end then
            cleanupStaleVFSCache mountPath ;;;
            setup_volume cacheSize passphrase nodeID mountPath
          else
            try _ <- pinAndVerifyCacheDir mountPath else (fun e => e) ;;
            Ret (Ok mountPath)
        else setup_volume cacheSize passphrase nodeID mountPath) ;;
  Ret (cacheSize, r).

Definition TeardownVFSCache : prog (result unit gerr) :=
  unmountFilesystem VFSCacheBasePath ;;;
  CloseLUKS VFSCacheMapperName ;;;
  drop_loop VFSCacheBackingFile ;;;
  Ret (Ok tt).

(** ** Specifications *)

(** The cache path was pinned, read back, and found on a device of its own. *)
Definition verified_encrypted (h : history) : Prop :=
  Ev (CSetCacheDir VFSCacheBasePath) (Ok tt) ∈ h
  /\ Ev CGetCacheDir VFSCacheBasePath ∈ h
  /\ exists c p, Ev (CStat VFSCacheBasePath) (Ok c) ∈ h /\ Ev (CStat (path_dir VFSCacheBasePath)) (Ok p) ∈ h
       /\ st_dev c <> st_dev p.

Definition backing_absent (h : history) : Prop := Ev (CStat VFSCacheBackingFile) (Err ENOENT) ∈ h.

(** Commands that destroy what a device holds. *)
Definition destructive (argv : list string) : Prop :=
  match argv with
  | _ :: "luksFormat" :: _ => True
  | "mkfs.ext4" :: _ => True
  | _ => False
  end.

(** What [SetupVFSCache] may do: destroy only on proof that there was no
    backing file, and otherwise only let the file grow.  It does not call
    rclone. *)
Definition setup_guard (h : history) (c : call) : Prop :=
  match c with
  | CExec _ _ argv => destructive argv -> backing_absent h
  | CCreate p | CRemove p => backing_absent h
  | CTruncate p size =>
      p = VFSCacheBackingFile
      /\ (backing_absent h \/ exists st, Ev (CStat p) (Ok st) ∈ h /\ st_size st < size)
  | CRemoveAll _ | CRemoveAllB _ _ | CRename _ _ | CRpc _ _ _ | CListen _ _ | CServe => False
  | _ => True
  end.

(** Commands that are not destructive are always allowed. *)
Ltac setup_cmd :=
  first [ apply cmd_run_guard; by intros [] | apply cmd_output_guard; by intros [] ].

Lemma OpenLUKS_guard dev name pass h : wpc setup_guard (OpenLUKS dev name pass) (fun _ _ => True) h.
Proof. eapply wpc_post; [apply OpenLUKS_spec | done]. by intros h' c _ [-> | [-> | ->]]; try intros []. Qed.
Lemma CloseLUKS_guard name h : wpc setup_guard (CloseLUKS name) (fun _ _ => True) h.
Proof.
  unfold CloseLUKS. wp_step. eapply wpc_post; [by apply IsLUKSOpened_spec |]. intros h1 b _.
  destruct b; [| done]. cbn [negb]. wp_step.
  eapply wpc_post; [apply runCryptsetup_spec; by intros h' c _ [-> | ->] [] |].
  intros h2 [[] | e] _; done.
Qed.
Lemma ResizeLUKS_guard name pass h : wpc setup_guard (ResizeLUKS name pass) (fun _ _ => True) h.
Proof.
  unfold ResizeLUKS. wp_step. eapply wpc_post; [by apply IsLUKSOpened_spec |]. intros h1 b _.
  destruct b; [| done]. cbn [negb]. wp_step.
  eapply wpc_post; [apply runCryptsetup_spec; by intros h' c _ [-> | ->] [] |].
  intros h2 [[] | e] _; done.
Qed.
Lemma FormatAndOpenLUKS_guard dev name pass h :
  backing_absent h -> wpc setup_guard (FormatAndOpenLUKS dev name pass) (fun _ _ => True) h.
Proof.
  intros Ha. unfold FormatAndOpenLUKS, IsLUKSDevice. do 2 wp_step.
  eapply wpc_post; [apply runBounded_spec; by intros [] |]. intros h1 r [Hs _]. cbn [wpc].
  destruct (is_ok r); [apply OpenLUKS_guard |]. wp_step.
  eapply wpc_post.
  - apply runCryptsetup_spec. intros h' c Hs' [-> | ->]; [| by intros []]. intros _.
    by apply Hs', Hs.
  - intros h2 [[] | e] _; [apply OpenLUKS_guard | done].
Qed.

Lemma detach_guard d h : wpc setup_guard (detachLoopDevice d) (fun _ _ => True) h.
Proof. setup_cmd. Qed.
Lemma setupLoop_guard b h : wpc setup_guard (setupLoopDevice b) (fun _ _ => True) h.
Proof.
  unfold setupLoopDevice. wp_step. eapply wpc_post; [setup_cmd |]. by intros h' [] _.
Qed.
Lemma drop_loop_guard b h : wpc setup_guard (drop_loop b) (fun _ _ => True) h.
Proof.
  unfold drop_loop, findLoopDevice. do 2 wp_step. eapply wpc_post; [setup_cmd |].
  intros h1 [out | e] _; [| done]. cbn zeta. destruct (bool_decide _); [done |]. cbn [wpc].
  destruct (bool_decide _); [done |]. wp_step. eapply wpc_post; [apply detach_guard | done].
Qed.

Lemma cleanupStale_guard p h : wpc setup_guard (cleanupStaleVFSCache p) (fun _ _ => True) h.
Proof.
  unfold cleanupStaleVFSCache, isVFSCacheMounted. do 2 wp_step.
  eapply wpc_post; [setup_cmd |]. intros h1 r _. cbn [wpc]. wp_step.
  eapply (wpc_post _ _ (fun _ _ => True)).
  { destruct (is_ok r); [| done]. wp_step. eapply wpc_post; [setup_cmd | done]. }
  intros h2 _ _. wp_step. apply wpc_perform; [done |]. intros st. wp_step.
  eapply (wpc_post _ _ (fun _ _ => True)).
  { destruct (is_ok st); [| done]. wp_step. eapply wpc_post; [apply CloseLUKS_guard | done]. }
  intros h3 _ _. wp_step. apply wpc_perform; [done |]. intros st2.
  destruct (is_ok st2); [apply drop_loop_guard | done].
Qed.

Lemma pin_spec h :
  wpc setup_guard (pinAndVerifyCacheDir VFSCacheBasePath)
    (fun h' r => is_ok r = true -> verified_encrypted h') h.
Proof.
  unfold pinAndVerifyCacheDir. wp_step. apply wpc_perform; [done |]. intros [[] | e]; [| done].
  wp_step. apply wpc_perform; [done |]. intros got.
  case_bool_decide as Hg; [subst got | done].
  unfold VerifyCacheEncrypted, verifyCacheEncryptedAt. wp_step. apply wpc_perform; [done |].
  intros [c | e]; [| done]. wp_step. apply wpc_perform; [done |]. intros [p | e]; [| done].
  destruct (st_dev c =? st_dev p) eqn:E; [done |]. cbn. intros _. bools.
  split; [by do 3 right; left |]. split; [by do 2 right; left |].
  exists c, p. split; [by right; left |]. by split; [left |].
Qed.

Lemma resize_guard dev size pass h : wpc setup_guard (resizeVFSCacheIfNeeded dev size pass) (fun _ _ => True) h.
Proof.
  unfold resizeVFSCacheIfNeeded. wp_step. apply wpc_perform; [done |]. intros [info | e]; [| done].
  destruct (size <=? st_size info) eqn:E; [done |]. bools. wp_step. apply wpc_perform.
  { split; [done |]. right. exists info. split; [by left | done]. }
  intros [[] | e]; [| done]. wp_step. eapply wpc_post; [setup_cmd |]. intros h1 [[] | e] _; [| done].
  wp_step. eapply wpc_post; [apply ResizeLUKS_guard |]. intros h2 [[] | e] _; [| done].
  wp_step. eapply wpc_post; [setup_cmd |]. by intros h3 [[] | e] _.
Qed.

Lemma open_volume_guard size pass h : wpc setup_guard (open_cache_volume size pass) (fun _ _ => True) h.
Proof.
  unfold open_cache_volume. wp_step. eapply wpc_post; [apply setupLoop_guard |].
  intros h1 [dev | e] _; [| done]. wp_step. eapply wpc_post; [apply OpenLUKS_guard |].
  intros h2 [[] | e] _; wp_step.
  - eapply wpc_post; [apply resize_guard | done].
  - eapply wpc_post; [apply detach_guard | done].
Qed.

Lemma create_volume_guard size pass node h :
  backing_absent h -> wpc setup_guard (create_cache_volume size pass node) (fun _ _ => True) h.
Proof.
  intros Ha. unfold create_cache_volume. wp_step. apply wpc_perform; [done |].
  intros [[] | e]; [| done]. wp_step. apply wpc_perform; [split; [done | left; by right] |].
  assert (Hm : forall e h', h ⊆ h' -> backing_absent (e :: h')) by (intros e0 h' Hs; right; by apply Hs).
  intros [[] | e].
  2: { wp_step. apply wpc_perform; [by do 2 right | done]. }
  wp_step. eapply wpc_post; [apply wpc_extends, setupLoop_guard |]. intros h1 [dev | e] [Hs _].
  2: { wp_step. apply wpc_perform; [apply Hs; by do 2 right | done]. }
  assert (Ha1 : backing_absent h1) by (apply Hs; by do 2 right).
  wp_step. eapply wpc_post; [apply wpc_extends, FormatAndOpenLUKS_guard, Ha1 |].
  intros h2 [[] | e] [Hs2 _].
  2: { wp_step. eapply wpc_post; [apply wpc_extends, detach_guard |]. intros h3 _ [Hs3 _].
       wp_step. apply wpc_perform; [by apply Hs3, Hs2 | done]. }
  wp_step. unfold formatExt4. eapply wpc_post; [apply wpc_extends, cmd_run_guard |].
  { intros _. by apply Hs2. }
  intros h3 [[] | e] [Hs3 _].
  - unfold recordVFSCacheNodeID. do 2 wp_step. apply wpc_perform; done.
  - wp_step. eapply wpc_post; [apply wpc_extends, CloseLUKS_guard |]. intros h4 _ [Hs4 _].
    wp_step. eapply wpc_post; [apply wpc_extends, detach_guard |]. intros h5 _ [Hs5 _].
    wp_step. apply wpc_perform; [by apply Hs5, Hs4, Hs3, Hs2 | done].
Qed.

Lemma setup_volume_spec size pass node h :
  wpc setup_guard (setup_volume size pass node VFSCacheBasePath)
    (fun h' r => is_ok r = true -> verified_encrypted h') h.
Proof.
  unfold setup_volume. wp_step. eapply wpc_post; [apply cleanupStale_guard |]. intros h1 _ _.
  wp_step. apply wpc_perform; [done |]. intros [[] | e]; [| done].
  wp_step. apply wpc_perform; [done |]. intros [[] | e]; [| done].
  wp_step. apply wpc_perform; [done |]. intros st. wp_step.
  eapply (wpc_post _ _ (fun _ _ => True)).
  { destruct st as [st | []]; try apply open_volume_guard. apply create_volume_guard. by left. }
  intros h2 [[] | e] _; [| done]. wp_step.
  eapply (wpc_post _ _ (fun _ _ => True)).
  { unfold mountFilesystem. wp_step. apply wpc_perform; [done |]. intros data. cbn zeta.
    destruct (existsb _ _); [done | setup_cmd]. }
  intros h3 [[] | e] _.
  - wp_step. eapply wpc_post; [apply pin_spec |]. intros h4 [[] | e] Hv; [| done].
    cbn. intros _. by apply Hv.
  - wp_step. eapply wpc_post; [apply CloseLUKS_guard | done].
Qed.

Lemma SetupVFSCache_spec sizeStr basePassphrase nodeID h :
  wpc setup_guard (SetupVFSCache sizeStr basePassphrase nodeID)
    (fun h' r => is_ok (snd r) = true -> verified_encrypted h') h.
Proof.
  unfold SetupVFSCache, vfsCachePassphrase. do 2 wp_step. apply wpc_perform; [done |].
  intros rec. cbn [wpc]. unfold isVFSCacheMounted. do 2 wp_step.
  eapply wpc_post; [setup_cmd |]. intros h1 m _. cbn [wpc]. wp_step.
  eapply (wpc_post _ _ (fun h r => is_ok r = true -> verified_encrypted h)); [| done].
  destruct (is_ok m); [| apply setup_volume_spec].
  wp_step. apply wpc_perform; [done |]. intros st.
  destruct (match st with Ok info => _ | Err _ => _ end).
  - wp_step. eapply wpc_post; [apply cleanupStale_guard |]. intros h2 _ _. apply setup_volume_spec.
  - wp_step. eapply wpc_post; [apply pin_spec |]. intros h4 [[] | e] Hv; [| done].
    cbn. intros _. by apply Hv.
Qed.

(** C30: the encrypted cache.  Whatever the environment does, [SetupVFSCache]
    reports success only after rclone's cache directory was pinned to the
    volume, read back, and found on another device than its parent, so no
    cached file content goes to the node's disk in plaintext; and on the way
    it formats, creates or removes the backing file only on proof that there
    was none, and truncates an existing one only to a larger size. *)
Theorem SetupVFSCache_safe env sizeStr basePassphrase nodeID :
  let run' := run env (SetupVFSCache sizeStr basePassphrase nodeID) [] in
  hist_ok setup_guard (fst run')
  /\ (is_ok (snd (snd run')) = true -> verified_encrypted (fst run')).
Proof. apply (wpc_run env _ _ (fun h r => is_ok (snd r) = true -> verified_encrypted h)); [apply SetupVFSCache_spec | done]. Qed.

(** The cache survives a node rename: with the node ID of the format on
    record, the passphrase a restart derives is the one of the format,
    whatever the node is called now. *)
Theorem passphrase_survives_rename (f : forall c, reply c) base old new :
  old <> "" -> has_space old = false ->
  f (CReadFile vfsCacheNodeIDFile) = Ok (old +s+ String nl "") ->
  eval f (vfsCachePassphrase base new) = base +s+ "-" +s+ old.
Proof.
  intros Hne Hsp Hf. unfold vfsCachePassphrase. cbn [bind perform eval]. rewrite Hf.
  rewrite trim_space_line by done. rewrite (bool_decide_false (old = "")) by done. cbn [negb andb].
  case_bool_decide as E; [by subst | done].
Qed.

Definition renamed_world (c : call) : reply c :=
  match c return reply c with
  | CReadFile _ => Ok ("node-a" +s+ String nl "")
  | c => default_reply c
  end.
Lemma passphrase_survives_rename_witness :
  eval renamed_world (vfsCachePassphrase "pw" "node-b") = "pw-node-a".
Proof. by apply (passphrase_survives_rename renamed_world "pw" "node-a" "node-b"). Defined.

End VfsSetup.
