(* ===== verification/Session.v ===== *)
(** * Session: pkg/rclone/session.go

    Private mountpoints of rclone sessions, their shutdown through rclone's
    mount registry, and the bounded system calls everything here goes through. *)

From Stdlib Require Import Ascii.
From S2P Require Import Prelude GoStrings Effects Rpc.
Import Rpc.

Module Session.

Definition SessionMountBase := "/var/lib/lukscrypt-cache/sessions".
Definition bindTimeout : Z := 30 * second.

(** ** Bounded system calls *)

Definition syscallBounded (what : string) (r : bounded (result unit errno)) : result unit gerr :=
  match r with
  | Done (Ok _) => Ok tt
  | Done (Err e) => Err (errorf_w what (errno_err e))
  | Blocked => Err (error_new (what +s+ " blocked (the kernel mount lock is held)"))
  end.

Definition bindBounded (source target : string) : prog (result unit gerr) :=
  r <- perform (CBindB source target bindTimeout) ;;
  Ret (syscallBounded ("bind " +s+ source +s+ " to " +s+ target) r).

(** [unmountBounded(path, flags)]: [detach] is MNT_DETACH. *)
Definition unmountBounded (path : string) (detach : bool) : prog (result unit gerr) :=
  r <- perform (CUnmountB path detach bindTimeout) ;;
  Ret (syscallBounded ("unmount " +s+ path) r).

Definition mkdirAllBounded (path : string) (timeout : Z) : prog (result unit gerr) :=
  r <- perform (CMkdirAllB path timeout) ;;
  Ret match r with
      | Done (Ok _) => Ok tt
      | Done (Err e) => Err (errno_err e)
      | Blocked => Err (error_new ("mkdir " +s+ path +s+ " blocked"))
      end.

Definition readDirBounded (path : string) (timeout : Z) : prog (result unit gerr) :=
  r <- perform (CReadDirRawB path 1 timeout) ;;
  Ret match r with
      | Done (Ok _) => Ok tt
      | Done (Err e) => Err (errno_err e)
      | Blocked => Err (error_new ("reading " +s+ path +s+ " blocked (wedged FUSE)"))
      end.

(** Device of [path], and whether it differs from its parent's. *)
Definition mountedDevice (path : string) (timeout : Z) : prog (result (string * bool) gerr) :=
  r <- perform (CMountedDeviceB path timeout) ;;
  Ret match r with
      | Done (Ok d) => Ok d
      | Done (Err e) => Err (errno_err e)
      | Blocked => Err (error_new ("stat " +s+ path +s+ " blocked (wedged FUSE)"))
      end.

Definition removeSessionDir (path : string) : prog unit :=
  perform (CRemoveB path bindTimeout) ;;; Ret tt.

(** ** New session mountpoints *)

Definition session_parent (volumeID : string) : string := path_join [SessionMountBase; volumeID].

(** The loop tries a new nanosecond stamp each time Mkdir finds the name taken. *)
Fixpoint newSessionDir_loop (fuel : nat) (parent vfsName : string) : prog (result string gerr) :=
  match fuel with
  | O => perform (CDiverge "newSessionDir") ;;; Ret (Err (error_new "unreached"))
  | S fuel =>
      now <- perform CNow ;;
      let dir := path_join [parent; vfsName +s+ "@" +s+ format_int now] in
      r <- perform (CMkdir dir) ;;
      match r with
      | Ok _ => Ret (Ok dir)
      | Err EEXIST => newSessionDir_loop fuel parent vfsName
      | Err e => Ret (Err (errno_err e))
      end
  end.

Definition session_fuel : nat := 64.

Definition newSessionDir (volumeID vfsName : string) : prog (result string gerr) :=
  let parent := session_parent volumeID in
  try _ <- mkdirAllBounded parent bindTimeout else (fun e => e) ;;
  c <- perform (CChmod SessionMountBase) ;;
  match c with
  | Err e => Ret (Err (errno_err e))
  | Ok _ => newSessionDir_loop session_fuel parent vfsName
  end.

(** ** Live sessions *)

Definition sessionsOf (volumeID : string) (mountPoints : list string) : list string :=
  let prefix := session_parent volumeID +s+ "/" in
  sort_strings (List.filter (has_prefix prefix) mountPoints).

Definition mount_point_of (e : json) : option string :=
  match e with
  | JObj o => match field "MountPoint" o with Some (JStr s) => Some s | _ => None end
  | _ => None
  end.

(** [None]: rclone could not answer. *)
Definition liveSessions (volumeID : string) : prog (option (list string)) :=
  let* (res, err) := RPCWithTimeout "mount/listmounts" [] rpcListTimeout ;;
  Ret match err, res with
      | None, Some r =>
          match Output r with
          | None => None
          | Some o =>
              let entries := match field "mountPoints" o with Some (JArr l) => l | _ => [] end in
              Some (sessionsOf volumeID (omap mount_point_of entries))
          end
      | _, _ => None
      end.

(** [unmountSession]: whether rclone still had a record of it. *)
Definition unmountSession (path : string) : prog bool :=
  let* (_, err) := RPCWithTimeout "mount/unmount" [("mountPoint", PStr path)] rpcUnmountTimeout ;;
  found <- match err with
           | Some e =>
               unmountBounded path true ;;;
               Ret (negb (contains (e_text e) "mount not found"))
           | None => Ret true
           end ;;
  removeSessionDir path ;;;
  Ret found.

(** The sessions [ShutdownSessions] ends: the live ones, then those of [known]
    the list missed. *)
Fixpoint add_known (sessions known : list string) : list string :=
  match known with
  | [] => sessions
  | k :: known =>
      if negb (bool_decide (k = "")) && negb (bool_decide (k ∈ sessions))
      then add_known (sessions ++ [k]) known
      else add_known sessions known
  end.

Fixpoint end_sessions (l : list string) : prog Z :=
  match l with
  | [] => Ret 0
  | s :: l =>
      found <- unmountSession s ;;
      n <- end_sessions l ;;
      Ret (if found : bool then n + 1 else n)
  end.

Definition ShutdownSessions (volumeID : string) (known : list string) : prog Z :=
  live <- liveSessions volumeID ;;
  end_sessions (add_known (default [] live) known).

Definition sweep_session (parent : string) (live : list string) (e : dirent) : prog unit :=
  let path := path_join [parent; de_name e] in
  if decide (path ∈ live) then Ret tt
  else unmountBounded path true ;;; removeSessionDir path.

Definition SweepDeadSessions (volumeID : string) : prog unit :=
  l <- liveSessions volumeID ;;
  match l with
  | None => Ret tt
  | Some live =>
      let parent := session_parent volumeID in
      r <- perform (CReadDir parent) ;;
      match r with
      | Err _ => Ret tt
      | Ok entries =>
          for_each entries (sweep_session parent live) ;;;
          perform (CRemove parent) ;;; Ret tt
      end
  end.

Definition SessionVolumes : prog (list string) :=
  r <- perform (CReadDir SessionMountBase) ;;
  Ret match r with
      | Err _ => []
      | Ok entries => map de_name (List.filter de_isdir entries)
      end.

(** ** Lemmas *)

Lemma base_canonical : canonical SessionMountBase.
Proof. eexists. split; [| split; [reflexivity | reflexivity]]. done. Qed.

Lemma session_parent_eq v : is_name v -> session_parent v = SessionMountBase +s+ "/" +s+ v.
Proof. intros Hv. by apply path_join_name; [apply base_canonical |]. Qed.

(** [p] is a session mountpoint of volume [v]. *)
Definition session_of (v p : string) : Prop := has_prefix (session_parent v +s+ "/") p = true.

Lemma sessionsOf_elem v l p : p ∈ sessionsOf v l <-> p ∈ l /\ session_of v p.
Proof. unfold sessionsOf. by rewrite sort_strings_elem, elem_of_filter_bool. Qed.

Lemma RPC_guard (G : history -> call -> Prop) m params t h :
  G h (CRpc m params t) -> (forall h', G h' (CDiverge "redactBetween")) ->
  wpc G (RPCWithTimeout m params t) (fun _ _ => True) h.
Proof.
  intros HG HD. unfold RPCWithTimeout, callLibrclone. do 2 wp_step.
  apply wpc_perform; [done |]. intros [| st b]; cbn [wpc]; [done |].
  destruct (400 <=? st); [| done]. wp_step. unfold sanitize.
  destruct (sanitizeErrorMessage 1 _); [done |]. wp_step. by apply wpc_perform.
Qed.

Lemma liveSessions_spec (G : history -> call -> Prop) v h :
  (forall h', G h' (CRpc "mount/listmounts" [] rpcListTimeout)) ->
  (forall h', G h' (CDiverge "redactBetween")) ->
  wpc G (liveSessions v) (fun _ r => forall l p, r = Some l -> p ∈ l -> session_of v p) h.
Proof.
  intros HG HD. unfold liveSessions. wp_step. eapply wpc_post; [by apply RPC_guard |].
  intros h' [res err] _. cbn [wpc]. destruct err; [by intros ? ? [=] |].
  destruct res as [r |]; [| by intros ? ? [=]].
  destruct (Output r); [| by intros ? ? [=]]. intros l' p [= <-]. by intros [_ ?]%sessionsOf_elem.
Qed.

Lemma add_known_elem s k p : p ∈ add_known s k -> p ∈ s \/ p ∈ k.
Proof.
  revert s. induction k as [| x k IH]; intros s; cbn [add_known]; [by left |].
  destruct (_ && _).
  - intros [H | H]%IH; [| right; by right]. apply elem_of_app in H as [H | H]; [by left |].
    apply list_elem_of_singleton in H as ->. right. by left.
  - intros [H | H]%IH; [by left | right; by right].
Qed.

Lemma add_known_covers s k p : p ∈ s \/ p ∈ k -> p <> "" -> p ∈ add_known s k.
Proof.
  revert s. induction k as [| x k IH]; intros s H Hp; cbn [add_known].
  - destruct H as [H | H]; [done | by apply not_elem_of_nil in H].
  - destruct H as [H | H].
    + destruct (_ && _); apply IH; try done; [| by left].
      left. apply elem_of_app. by left.
    + apply elem_of_cons in H as [-> | H].
      * rewrite (bool_decide_false (x = "")) by done. cbn [negb andb].
        destruct (decide (x ∈ s)) as [Hx | Hx].
        -- rewrite bool_decide_true by done. cbn. apply IH; [by left | done].
        -- rewrite bool_decide_false by done. cbn. apply IH; [| done].
           left. apply elem_of_app. right. by left.
      * destruct (_ && _); apply IH; try done; by right.
Qed.

(** What ending sessions may touch: mountpoints satisfying [P]. *)
Definition ends_only (P : string -> Prop) (h : history) (c : call) : Prop :=
  match c with
  | CRpc m params _ => m = "mount/listmounts"
      \/ exists p, m = "mount/unmount" /\ params = [("mountPoint", PStr p)] /\ P p
  | CUnmountB p lazy _ => P p /\ lazy = true
  | CRemoveB p _ => P p
  | CDiverge w => w = "redactBetween"
  | c => mutates c = false
  end.

Lemma unmountSession_spec P p h : P p -> wpc (ends_only P) (unmountSession p) (fun _ _ => True) h.
Proof.
  intros Hp. unfold unmountSession. wp_step. eapply wpc_post; [apply RPC_guard; [right; by eexists | done] |].
  intros h1 [res err] _. wp_step. eapply (wpc_post _ _ (fun _ _ => True)).
  - destruct err; [| done]. unfold unmountBounded. do 2 wp_step. by apply wpc_perform.
  - intros h2 b _. unfold removeSessionDir. do 2 wp_step. by apply wpc_perform.
Qed.

Lemma end_sessions_spec P l h :
  (forall p, p ∈ l -> P p) -> wpc (ends_only P) (end_sessions l) (fun _ _ => True) h.
Proof.
  revert h. induction l as [| p l IH]; intros h HP; [done |]. cbn [end_sessions]. wp_step.
  eapply wpc_post; [apply unmountSession_spec, HP; by left |]. intros h1 b _. wp_step.
  eapply wpc_post; [apply IH; intros q Hq; apply HP; by right |]. done.
Qed.

(** What a shutdown of volume [v] may touch. *)
Definition own_session (v : string) (known : list string) (p : string) : Prop :=
  session_of v p \/ p ∈ known.

Lemma ShutdownSessions_spec v known h :
  wpc (ends_only (own_session v known)) (ShutdownSessions v known) (fun _ _ => True) h.
Proof.
  unfold ShutdownSessions. wp_step. eapply wpc_post; [apply liveSessions_spec; [by left | done] |].
  intros h1 live Hl. apply end_sessions_spec. intros p [H | H]%add_known_elem; [| by right].
  left. destruct live as [l |]; [by eapply Hl | by apply not_elem_of_nil in H].
Qed.

(** Every session of volume [v] was asked to end: rclone was asked for its
    mounts, and those of the volume it named (none, if it could not say), as
    well as those the caller knew, were asked to be unmounted. *)
Definition reply_sessions (v : string) (r : rpc_reply) : list string :=
  match r with
  | RpcDone st body =>
      if 400 <=? st then []
      else match body_output body with
           | Some o => sessionsOf v (omap mount_point_of (match field "mountPoints" o with Some (JArr l) => l | _ => [] end))
           | None => []
           end
  | RpcTimedOut => []
  end.
Definition session_asked (p : string) (h : history) : Prop :=
  exists r, Ev (CRpc "mount/unmount" [("mountPoint", PStr p)] rpcUnmountTimeout) r ∈ h.
Definition sessions_ended (v : string) (known : list string) (h : history) : Prop :=
  exists r, Ev (CRpc "mount/listmounts" [] rpcListTimeout) r ∈ h
    /\ forall p, p ∈ reply_sessions v r \/ p ∈ known -> p <> "" -> session_asked p h.

Lemma sessions_ended_evidence v known : evidence (sessions_ended v known).
Proof.
  intros h h' Hs (r & Hr & H). exists r. split; [auto |]. intros p Hp Hne.
  destruct (H p Hp Hne) as [x Hx]. exists x. auto.
Qed.

Lemma unmountSession_asks p h : wpc anything (unmountSession p) (fun h' _ => h ⊆ h' /\ session_asked p h') h.
Proof.
  unfold unmountSession, RPCWithTimeout, callLibrclone. cbn [bind perform wpc]. split; [done |]. intros r.
  eapply wpc_post; [exact (wpc_extends _ _ _ _ (wpc_trivial _ _)) |]. intros h' b [Hs _]. split; [sub |]. exists r. apply Hs. by left.
Qed.

Lemma end_sessions_asks l h :
  wpc anything (end_sessions l) (fun h' _ => h ⊆ h' /\ forall p, p ∈ l -> session_asked p h') h.
Proof.
  revert h. induction l as [| p l IH]; intros h; cbn [end_sessions].
  { split; [done |]. by intros p ?%not_elem_of_nil. }
  wp_step. eapply wpc_post; [apply unmountSession_asks |]. intros h1 b [H1 [r Hr]]. wp_step.
  eapply wpc_post; [apply IH |]. intros h2 n [H2 H]. split; [sub |].
  intros q [-> | Hq]%elem_of_cons; [| by apply H]. exists r. by apply H2.
Qed.

Lemma ShutdownSessions_ends v known h :
  wpc anything (ShutdownSessions v known) (fun h' _ => sessions_ended v known h') h.
Proof.
  unfold ShutdownSessions. wp_step.
  eapply (wpc_post _ _ (fun h' live => exists r, Ev (CRpc "mount/listmounts" [] rpcListTimeout) r ∈ h'
    /\ default [] live = reply_sessions v r)).
  { unfold liveSessions, RPCWithTimeout, callLibrclone. cbn [bind perform wpc]. split; [done |].
    intros [| st body]; cbn [bind wpc]; [exists RpcTimedOut; split; [by left | done] |].
    destruct (400 <=? st) eqn:E; cbn [wpc bind].
    - do 2 wp_step. eapply wpc_post; [exact (wpc_extends _ _ _ _ (wpc_trivial _ _)) |]. intros h' t [Hs _]. cbn [wpc].
      exists (RpcDone st body). split; [apply Hs; by left |]. cbn. by rewrite E.
    - exists (RpcDone st body). split; [by left |]. cbn. rewrite E. by destruct (body_output body). }
  intros h1 live (r & Hr & E). eapply wpc_post; [apply end_sessions_asks |]. intros h2 n [Hs H].
  exists r. split; [auto |]. intros p Hp Hne. apply H, add_known_covers; [by rewrite E | done].
Qed.

(** Ending the sessions of one volume cannot reach another volume's: every
    unmount (through rclone's registry or lazily in the kernel) and every
    removal, which is never recursive, is of a mountpoint below the volume's
    own session directory or of one the caller named; and no mountpoint lies
    below two volumes' session directories. *)
Theorem shutdown_reaches_own_sessions env v w known p :
  is_name v -> is_name w ->
  hist_ok (ends_only (own_session v known)) (fst (run env (ShutdownSessions v known) []))
  /\ (session_of v p -> session_of w p -> v = w).
Proof.
  intros Hv Hw. split.
  - apply (wpc_run env _ _ (fun _ _ => True)); [apply ShutdownSessions_spec | done].
  - unfold session_of. rewrite !session_parent_eq, !sapp_assoc by done. by apply sibling_prefix.
Qed.

Lemma shutdown_reaches_own_sessions_witness :
  hist_ok (ends_only (own_session "pvc-1" ["/x"])) (fst (run quiet_env (ShutdownSessions "pvc-1" ["/x"]) [])).
Proof.
  apply (shutdown_reaches_own_sessions quiet_env "pvc-1" "pvc-2" ["/x"] ""); by repeat split.
Defined.

Definition swept (v : string) (live : list string) (h : history) (c : call) : Prop :=
  match c with
  | CUnmountB p lazy _ => (exists e : dirent, p = path_join [session_parent v; de_name e]) /\ (p ∉ live) /\ lazy = true
  | CRemoveB p _ => (exists e : dirent, p = path_join [session_parent v; de_name e]) /\ p ∉ live
  | CRemove p => p = session_parent v
  | c => mutates c = false
  end.

(** What a sweep of volume [v] may touch, knowing from rclone that exactly
    [live] are alive. *)
Definition sweep_guard (v : string) (h : history) (c : call) : Prop :=
  match c with
  | CRpc m _ _ => m = "mount/listmounts"
  | CDiverge _ => True
  | CUnmountB _ _ _ | CRemoveB _ _ | CRemove _ =>
      exists st body live, Ev (CRpc "mount/listmounts" [] rpcListTimeout) (RpcDone st body) ∈ h
        /\ st < 400 /\ swept v live h c
        /\ (forall f l, body_output body = Some f -> field "mountPoints" f = Some (JArr l) ->
             live = sessionsOf v (omap mount_point_of l))
  | c => mutates c = false
  end.

Lemma liveSessions_listed (G : history -> call -> Prop) v h :
  (forall h', G h' (CRpc "mount/listmounts" [] rpcListTimeout)) ->
  (forall h', G h' (CDiverge "redactBetween")) ->
  wpc G (liveSessions v) (fun h' r => forall live, r = Some live ->
    exists st body, Ev (CRpc "mount/listmounts" [] rpcListTimeout) (RpcDone st body) ∈ h' /\ st < 400
      /\ (forall f l, body_output body = Some f -> field "mountPoints" f = Some (JArr l) ->
             live = sessionsOf v (omap mount_point_of l))) h.
Proof.
  intros HG HD. unfold liveSessions, RPCWithTimeout, callLibrclone. do 3 wp_step.
  apply wpc_perform; [done |]. intros [| st b]; cbn [wpc]; [by intros ? [=] |].
  destruct (400 <=? st) eqn:E.
  - wp_step. unfold sanitize. destruct (sanitizeErrorMessage 1 _); cbn [wpc]; [by intros ? [=] |].
    wp_step. apply wpc_perform; [done |]. intros r. by intros ? [=].
  - cbn [wpc Output]. bools. intros live Hl. exists st, b. split; [by left |]. split; [lia |].
    intros f l Hf Hm. rewrite Hf, Hm in Hl. congruence.
Qed.

(** The sweep after a driver restart detaches only entries of the volume's
    own session directory that rclone, in the same sweep, did not list as
    live; when rclone cannot answer it touches nothing. *)
Theorem sweep_spares_live_sessions env v :
  hist_ok (sweep_guard v) (fst (run env (SweepDeadSessions v) [])).
Proof.
  apply (wpc_run env _ _ (fun _ _ => True)); [| done].
  unfold SweepDeadSessions. wp_step. eapply wpc_post; [by apply liveSessions_listed |].
  intros h1 [live |] Hl; [| done]. destruct (Hl live eq_refl) as (st & body & Hin & Hst & Hb). clear Hl.
  cbn zeta. wp_step. apply wpc_perform; [done |]. intros [entries | e]; [| done].
  assert (HG : forall h c, h1 ⊆ h -> swept v live h c ->
    sweep_guard v h c).
  { intros h c Hs Hc. destruct c; try done; exists st, body, live; auto. }
  wp_step. eapply wpc_post; [apply (wpc_for_each _ _ _ (fun h => h1 ⊆ h)) |].
  - intros x Hx. by right.
  - intros e h _ Hs. unfold sweep_session. destruct (decide _) as [| Hn]; [done |].
    unfold unmountBounded, removeSessionDir. do 2 wp_step. apply wpc_perform.
    { apply HG; [done |]. split; [by exists e | done]. }
    intros r. cbn [wpc]. wp_step. apply wpc_perform.
    { apply HG; [intros x Hx; right; by apply Hs | split; [by exists e | done]]. }
    intros r2 x Hx. do 2 right. by apply Hs.
  - intros h u Hs. wp_step. apply wpc_perform; [| done]. by apply HG.
Qed.

End Session.
