(* ===== verification/MountManager.v ===== *)
(** * MountManager: pkg/rclone/syncmanager.go

    One volume's rclone mount: its names, the mount and its exposure at the
    staging path, the drain of the write-back queue and the unmount.  A
    manager is a record; the methods that assign its fields return the new
    one.  The two package variables a mount reads are [globals]. *)

From Stdlib Require Import Ascii.
From S2P Require Import Prelude GoStrings Effects Units Secrets Rpc RcloneConfig Mounts VfsNames.
From S2P Require Import VfsCache VfsSetup Session Luks.
Import Units Rpc Mounts VfsNames VfsCache Session.
Import (hints) Luks.

Module MountManager.

(** ** Configuration *)

Record VFSCacheConfig : Set := MkVFS
  { CacheMode : string; CacheMaxAge : string; CacheMaxSize : string; CachePollInterval : string;
    WriteBack : string; DirCacheTime : string; AttrTimeout : string; ChunkStreams : string }.

Definition DefaultVFSCacheConfig : VFSCacheConfig := MkVFS "full" "4h" "5G" "1m" "3s" "1h" "1h" "".

(** [vfsCacheSize] and [mountGeneration]. *)
Record globals : Set := MkGlobals { vfsCacheSize : Z; mountGeneration : Z }.

Record MountManager : Set := MM
  { s3Config : RcloneConfig.S3Config; cryptConfig : RcloneConfig.CryptConfig;
    vfsConfig : VFSCacheConfig; volumeID : string; mountPoint : string; sessionPath : string;
    s3BasePath : string; mounted : bool; vfsName : string; s3ConfigName : string;
    cryptConfigName : string; uid : option Z; gid : option Z; generation : Z;
    monitoring : bool (* stopCacheMon made and not closed *) }.

Definition set_names (mm : MountManager) (g : Z) : MountManager :=
  let '(v, s, c) := vfsNamesFor (volumeID mm) g in
  MM (s3Config mm) (cryptConfig mm) (vfsConfig mm) (volumeID mm) (mountPoint mm) (sessionPath mm)
     (s3BasePath mm) (mounted mm) v s c (uid mm) (gid mm) g (monitoring mm).
Definition set_session (mm : MountManager) (s : string) : MountManager :=
  MM (s3Config mm) (cryptConfig mm) (vfsConfig mm) (volumeID mm) (mountPoint mm) s
     (s3BasePath mm) (mounted mm) (vfsName mm) (s3ConfigName mm) (cryptConfigName mm)
     (uid mm) (gid mm) (generation mm) (monitoring mm).
Definition set_mounted (mm : MountManager) (b : bool) : MountManager :=
  MM (s3Config mm) (cryptConfig mm) (vfsConfig mm) (volumeID mm) (mountPoint mm) (sessionPath mm)
     (s3BasePath mm) b (vfsName mm) (s3ConfigName mm) (cryptConfigName mm)
     (uid mm) (gid mm) (generation mm) (monitoring mm).
Definition set_monitoring (mm : MountManager) (b : bool) : MountManager :=
  MM (s3Config mm) (cryptConfig mm) (vfsConfig mm) (volumeID mm) (mountPoint mm) (sessionPath mm)
     (s3BasePath mm) (mounted mm) (vfsName mm) (s3ConfigName mm) (cryptConfigName mm)
     (uid mm) (gid mm) (generation mm) b.

Definition StopCacheMonitor (mm : MountManager) : MountManager := set_monitoring mm false.

Definition s3BasePathOf (volumeID s3PathPrefix : string) : string :=
  if bool_decide (s3PathPrefix = "") then "volumes/" +s+ volumeID +s+ "/files"
  else s3PathPrefix +s+ "/volumes/" +s+ volumeID +s+ "/files".

Definition NewMountManager (s3Config : RcloneConfig.S3Config) (volumeID mountPoint : string)
    (vfsConfig : option VFSCacheConfig) (s3PathPrefix luksPassphrase : string) (fsGroup : option Z)
    : prog MountManager :=
  let vfsConfig := default DefaultVFSCacheConfig vfsConfig in
  let salt := if bool_decide (s3PathPrefix = "") then volumeID else s3PathPrefix in
  m <- LoadVFSNameMap ;;
  let generation := generationOfVFSName volumeID (mget m volumeID) in
  let '(v, s, c) := vfsNamesFor volumeID generation in
  Ret (MM s3Config (RcloneConfig.DeriveRcloneCryptConfig luksPassphrase salt) vfsConfig volumeID
         mountPoint "" (s3BasePathOf volumeID s3PathPrefix) false v s c fsGroup fsGroup generation false).

(** ** The VFS registry *)

(** The names of a vfs/list reply: the text before ":". *)
Definition vfs_listed_name (n : json) : option string :=
  match n with JStr s => match cut ":" s with Some (name, _) => Some name | None => None end | _ => None end.

Definition count_names (l : list json) : gmap string nat :=
  fold_left (fun m n => match vfs_listed_name n with
                        | Some name => <[name := S (default 0%nat (m !! name))]> m
                        | None => m end) l ∅.

Definition RegisteredVFSNames : prog (option (gmap string nat)) :=
  let* (res, err) := RPCWithTimeout "vfs/list" [] rpcListTimeout ;;
  Ret match err, res with
      | None, Some r =>
          match Output r with
          | Some o => match field "vfses" o with Some (JArr names) => Some (count_names names) | _ => None end
          | None => None
          end
      | _, _ => None
      end.

Definition countRegisteredVFS (mm : MountManager) : prog (option nat) :=
  counts <- RegisteredVFSNames ;;
  Ret match counts with Some c => Some (default 0%nat (c !! cryptConfigName mm)) | None => None end.

Definition bumpGeneration (mm : MountManager) : MountManager := set_names mm (generation mm + 1).

(** The loop of [ensureExclusiveVFSName]; [fuel] bounds its rounds. *)
Fixpoint ensure_loop (fuel : nat) (bumps : Z) (mm : MountManager) : prog (MountManager * result unit gerr) :=
  match fuel with
  | O => perform (CDiverge "ensureExclusiveVFSName") ;;; Ret (mm, Ok tt)
  | S fuel =>
      c <- countRegisteredVFS mm ;;
      match c with
      | Some O => Ret (mm, Ok tt)
      | None =>
          if 0 <? bumps then Ret (mm, Ok tt)
          else ensure_loop fuel (bumps + 1) (bumpGeneration mm)
      | Some _ =>
          ended <- ShutdownSessions (volumeID mm) [] ;;
          free <- (if 0 <? ended then
                     perform (CSleep (500 * ms)) ;;;
                     c2 <- countRegisteredVFS mm ;;
                     Ret match c2 with Some (S _) => false | _ => true end
                   else Ret false) ;;
          if (free : bool) then Ret (mm, Ok tt)
          else if maxVFSGenerations <=? bumps then
            Ret (mm, Err (error_new "VFS instances still registered; refusing to mount a second one"))
          else ensure_loop fuel (bumps + 1) (bumpGeneration mm)
      end
  end.

Definition ensure_fuel : nat := 18.
Definition ensureExclusiveVFSName (mm : MountManager) : prog (MountManager * result unit gerr) :=
  ensure_loop ensure_fuel 0 mm.

(** ** Mount state *)

Definition isMountPoint (mm : MountManager) : prog bool := IsHostMountPoint (mountPoint mm).
Definition IsMounted (mm : MountManager) : prog bool :=
  if mounted mm then isMountPoint mm else Ret false.

Definition hasDirtyCacheOnDisk (mm : MountManager) : prog bool :=
  if bool_decide (vfsName mm = "") then Ret false
  else hasDirtyCacheItemsAt VFSCacheBasePath (vfsName mm).

Definition cache_dir (mm : MountManager) : string := VFSCacheBasePath +s+ "/vfs/" +s+ vfsName mm.
Definition meta_dir (mm : MountManager) : string := VFSCacheBasePath +s+ "/vfsMeta/" +s+ vfsName mm.

Definition hasStaleVFSCache (mm : MountManager) : prog bool :=
  if bool_decide (vfsName mm = "") then Ret false
  else
    a <- perform (CStat (cache_dir mm)) ;;
    b <- perform (CStat (meta_dir mm)) ;;
    Ret (is_ok a || is_ok b).

Definition isNoVFSError (e : gerr) : bool := contains (e_text e) "no VFS found".
Definition isAmbiguousVFSError (e : gerr) : bool := contains (e_text e) "more than one VFS active".

(** ** The write-back queue *)

(** [diskCache] of a vfs/stats reply, and its two counters. *)
Definition disk_cache (r : option RPCResult) : option (list (string * json)) :=
  match r with
  | Some r => match Output r with
              | Some o => match field "diskCache" o with Some (JObj dc) => Some dc | _ => None end
              | None => None end
  | None => None
  end.
Definition num_field (k : string) (o : list (string * json)) : option Z :=
  match field k o with Some (JNum n) => Some n | _ => None end.
(** (uploadsInProgress, uploadsQueued), 0 where missing. *)
Definition queue_of (dc : list (string * json)) : Z * Z :=
  (default 0 (num_field "uploadsInProgress" dc), default 0 (num_field "uploadsQueued" dc)).

Definition fs_param (mm : MountManager) : list (string * pval) := [("fs", PStr (cryptConfigName mm +s+ ":"))].

Definition pollInterval : Z := 2 * second.

(** The polling loop.  Logging, and the clock readings it makes, are left out. *)
Fixpoint wait_loop (fuel : nat) (mm : MountManager) (deadline : Z) : prog bool :=
  match fuel with
  | O => perform (CDiverge "waitForPendingUploads") ;;; Ret false
  | S fuel =>
      now <- perform CNow ;;
      if deadline <=? now then Ret false
      else
        gone <- (if bool_decide (sessionPath mm = "") then mp <- isMountPoint mm ;; Ret (negb mp)
                 else Ret false) ;;
        if (gone : bool) then Ret false
        else
          now2 <- perform CNow ;;
          let budget := Z.min rpcStatsTimeout (deadline - now2) in
          if budget <=? 0 then Ret false
          else
            let* (result, err) := RPCWithTimeout "vfs/stats" (fs_param mm) budget ;;
            match err with
            | Some e =>
                if isNoVFSError e then Ret false
                else if isAmbiguousVFSError e then Ret false
                else perform (CSleep pollInterval) ;;; wait_loop fuel mm deadline
            | None =>
                let '(inProgress, queued) := match disk_cache result with
                                             | Some dc => queue_of dc | None => (0, 0) end in
                if (inProgress =? 0) && (queued =? 0) then Ret true
                else perform (CSleep pollInterval) ;;; wait_loop fuel mm deadline
            end
  end.

Definition writeBackWait (mm : MountManager) : Z :=
  (if bool_decide (WriteBack (vfsConfig mm) = "") then 5
   else match parseDurationToNs (WriteBack (vfsConfig mm)) with Ok ns => Z.quot ns 1000000000 | Err _ => 5 end)
  + 2.

(** One round per poll interval of the budget, and one to spare. *)
Definition wait_fuel (maxWait : Z) : nat := S (S (Z.to_nat (maxWait / pollInterval))).

Definition waitForPendingUploads (mm : MountManager) (maxWait : Z) : prog bool :=
  if maxWait <=? 0 then Ret false
  else
    now <- perform CNow ;;
    let deadline := now + maxWait in
    let flush := Z.min (wrap64 (writeBackWait mm * second)) maxWait in
    perform (CSleep flush) ;;;
    wait_loop (wait_fuel maxWait) mm deadline.

Definition IsUploadQueueEmpty (mm : MountManager) : prog bool :=
  mp <- isMountPoint mm ;;
  if negb mp then d <- hasDirtyCacheOnDisk mm ;; Ret (negb d)
  else
    let* (result, err) := RPCWithTimeout "vfs/stats" (fs_param mm) rpcStatsProbeTimeout ;;
    match err with
    | Some e =>
        if isNoVFSError e || isAmbiguousVFSError e
        then d <- hasDirtyCacheOnDisk mm ;; Ret (negb d)
        else Ret false
    | None =>
        Ret match disk_cache result with
            | Some dc => let '(p, q) := queue_of dc in (p =? 0) && (q =? 0)
            | None => false
            end
    end.

Definition uploadQueueConfirmedEmpty (mm : MountManager) : prog bool :=
  mp <- isMountPoint mm ;;
  if negb mp then Ret false
  else
    let* (result, err) := RPCWithTimeout "vfs/stats" (fs_param mm) rpcStatsTimeout ;;
    Ret match err with
        | Some _ => false
        | None =>
            match disk_cache result with
            | None => false
            | Some dc =>
                match num_field "uploadsInProgress" dc, num_field "uploadsQueued" dc with
                | Some p, Some q => (p =? 0) && (q =? 0)
                | _, _ => false
                end
            end
        end.

(** ** Unmount *)

Definition maxDrainWait : Z := 6 * hour.
Definition ShortDrainWait : Z := 60 * second.
Definition maxStagingUnwind : nat := 10.

Fixpoint unbind_loop (n : nat) (path : string) : prog unit :=
  match n with
  | O => Ret tt
  | S n =>
      r <- unmountBounded path false ;;
      match r with
      | Ok _ => unbind_loop n path
      | Err e =>
          if errors_is e (SErrno EINVAL) || errors_is e (SErrno ENOENT) then Ret tt
          else
            r2 <- unmountBounded path true ;;
            match r2 with Ok _ => unbind_loop n path | Err _ => Ret tt end
      end
  end.
Definition unbindStaging (mm : MountManager) : prog unit :=
  unbind_loop maxStagingUnwind (mountPoint mm) ;;; perform CInvalidateMounts.

Definition cleanupVFSCacheDir (mm : MountManager) : prog unit :=
  if bool_decide (vfsName mm = "") then Ret tt
  else
    perform (CRemoveAll (cache_dir mm)) ;;;
    perform (CRemoveAll (meta_dir mm)) ;;;
    RemoveVFSName (volumeID mm).

Definition unmount (mm : MountManager) (drainBudget : Z) : prog (MountManager * bool) :=
  skip <- (if mounted mm then Ret false else mp <- isMountPoint mm ;; Ret (negb mp)) ;;
  if (skip : bool) then
    d <- hasDirtyCacheOnDisk mm ;; Ret (mm, negb d)
  else
    let mm := StopCacheMonitor mm in
    drained <- waitForPendingUploads mm drainBudget ;;
    unbindStaging mm ;;;
    ShutdownSessions (volumeID mm) [sessionPath mm] ;;;
    let mm := set_session mm "" in
    RcloneConfig.DeleteNamedConfigs [cryptConfigName mm; s3ConfigName mm] ;;;
    drained <- (if (drained : bool) then d <- hasDirtyCacheOnDisk mm ;; Ret (negb d) else Ret false) ;;
    (if (drained : bool) then cleanupVFSCacheDir mm else Ret tt) ;;;
    Ret (set_mounted mm false, drained).

Definition Unmount (mm : MountManager) := unmount mm maxDrainWait.
Definition UnmountWithin (mm : MountManager) (budget : Z) := unmount mm budget.

(** ** Exposure at the staging path *)

Definition mountReadyTimeout : Z := 20 * second.

Definition mountUsable (mm : MountManager) (dev : string) : prog (result unit gerr) :=
  s <- HostMountStacksOK ;;
  match s with
  | None => Ret (Err (error_new "host mount table is unreadable"))
  | Some stacks =>
      match List.rev (default [] (stacks !! mountPoint mm)) with
      | [] => Ret (Err (error_new "no FUSE mount in the host namespace"))
      | top :: _ =>
          if negb (contains (FSType top) "fuse") then Ret (Err (error_new "no FUSE mount in the host namespace"))
          else if negb (bool_decide (Dev top = dev)) then Ret (Err (error_new "the host resolves another device"))
          else readDirBounded (mountPoint mm) (5 * second)
      end
  end.

(** The loops below poll every 500 ms for at most 20 s. *)
Definition ready_fuel : nat := 42.

Fixpoint expose_loop (fuel : nat) (mm : MountManager) (dev : string) (deadline : Z) : prog (result unit gerr) :=
  match fuel with
  | O => perform (CDiverge "expose") ;;; Ret (Err (error_new "unreached"))
  | S fuel =>
      now <- perform CNow ;;
      if deadline <=? now then Ret (Err (error_new "FUSE mount not ready"))
      else
        perform CInvalidateMounts ;;;
        r <- mountUsable mm dev ;;
        match r with
        | Ok _ => Ret (Ok tt)
        | Err _ => perform (CSleep (500 * ms)) ;;; expose_loop fuel mm dev deadline
        end
  end.

Definition expose (mm : MountManager) (dev : string) (deadline : Z) : prog (result unit gerr) :=
  try _ <- bindBounded (sessionPath mm) (mountPoint mm) else (errorf_w "failed to expose the session") ;;
  expose_loop ready_fuel mm dev deadline.

Fixpoint ready_loop (fuel : nat) (mm : MountManager) (deadline : Z) : prog (result unit gerr) :=
  match fuel with
  | O => perform (CDiverge "waitForMountReady") ;;; Ret (Err (error_new "unreached"))
  | S fuel =>
      now <- perform CNow ;;
      if deadline <=? now then Ret (Err (error_new "session not mounted"))
      else
        d <- mountedDevice (sessionPath mm) (5 * second) ;;
        match d with
        | Ok (dev, true) => expose mm dev deadline
        | _ => perform (CSleep (500 * ms)) ;;; ready_loop fuel mm deadline
        end
  end.

Definition waitForMountReady (mm : MountManager) : prog (result unit gerr) :=
  now <- perform CNow ;; ready_loop ready_fuel mm (now + mountReadyTimeout).

Definition Reexpose (mm : MountManager) : prog (result unit gerr) :=
  d <- mountedDevice (sessionPath mm) (5 * second) ;;
  match d with
  | Ok (dev, true) =>
      unbindStaging mm ;;;
      now <- perform CNow ;;
      r <- expose mm dev (now + mountReadyTimeout) ;;
      match r with
      | Ok _ => Ret (Ok tt)
      | Err e => unbindStaging mm ;;; Ret (Err e)
      end
  | _ => Ret (Err (error_new ("session " +s+ sessionPath mm +s+ " is not mounted")))
  end.

Definition SessionServing (mm : MountManager) : prog bool :=
  if bool_decide (sessionPath mm = "") then Ret false
  else
    live <- liveSessions (volumeID mm) ;;
    match live with
    | None => Ret false
    | Some l =>
        if negb (bool_decide (sessionPath mm ∈ l)) then Ret false
        else
          c <- countRegisteredVFS mm ;;
          match c with
          | Some 1%nat =>
              d <- mountedDevice (sessionPath mm) (5 * second) ;;
              match d with
              | Ok (_, true) => r <- readDirBounded (sessionPath mm) (5 * second) ;; Ret (is_ok r)
              | _ => Ret false
              end
          | _ => Ret false
          end
    end.

(** ** Mount *)

Definition max_uint32 : Z := 2 ^ 32 - 1.

Definition id_opt (key : string) (id : option Z) : list (string * pval) :=
  match id with
  | Some id => if (0 <=? id) && (id <=? max_uint32) then [(key, PInt id)] else []
  | None => []
  end.

Definition parsed_opt (key s : string) (parse : string -> result Z gerr) : list (string * pval) :=
  if bool_decide (s = "") then []
  else match parse s with Ok n => [(key, PInt n)] | Err _ => [] end.

Definition cache_mode_opt (s : string) : list (string * pval) :=
  if decide (s = "off") then [("CacheMode", PInt 0)]
  else if decide (s = "minimal") then [("CacheMode", PInt 1)]
  else if decide (s = "writes") then [("CacheMode", PInt 2)]
  else if decide (s = "full") then [("CacheMode", PInt 3)] else [].

Definition chunk_streams_opt (s : string) : list (string * pval) :=
  if bool_decide (s = "") then []
  else match parse_int s with
       | Some n => if 0 <=? n then [("ChunkStreams", PInt n)] else []
       | None => []
       end.

Definition poll_ns (c : VFSCacheConfig) : Z :=
  if bool_decide (CachePollInterval c = "") then 60 * second
  else match parseDurationToNs (CachePollInterval c) with Ok ns => ns | Err _ => 60 * second end.

(** [buildVFSOpt], with the increment of [mountGeneration]. *)
Definition buildVFSOpt (g : globals) (mm : MountManager) : globals * list (string * pval) :=
  let c := vfsConfig mm in
  let gen := wrap64 (mountGeneration g + 1) in
  (MkGlobals (vfsCacheSize g) gen,
   [("ReadChunkSize", PInt 33554432); ("ReadChunkSizeLimit", PInt (-1)); ("BufferSize", PInt 8388608);
    ("Links", PBool true); ("DiskSpaceTotalSize", PInt (vfsCacheSize g))]
   ++ cache_mode_opt (CacheMode c)
   ++ parsed_opt "CacheMaxAge" (CacheMaxAge c) parseDurationToNs
   ++ parsed_opt "CacheMaxSize" (CacheMaxSize c) parseSizeToBytes
   ++ parsed_opt "WriteBack" (WriteBack c) parseDurationToNs
   ++ chunk_streams_opt (ChunkStreams c)
   ++ [("CachePollInterval", PInt (wrap64 (poll_ns c + gen)))]).

Definition defaultCacheNs : Z := 3600000000000.
Definition mount_opt (mm : MountManager) : list (string * pval) :=
  [("AllowOther", PBool true); ("AllowNonEmpty", PBool true);
   ("DirCacheTime", PInt (durationOrDefault (DirCacheTime (vfsConfig mm)) defaultCacheNs));
   ("AttrTimeout", PInt (durationOrDefault (AttrTimeout (vfsConfig mm)) defaultCacheNs))].

Definition s3RemotePath (mm : MountManager) : string :=
  s3ConfigName mm +s+ ":" +s+ RcloneConfig.Bucket (s3Config mm) +s+ "/" +s+ s3BasePath mm.

(** It only warns: what it counts is not modelled, the call is. *)
Definition warnOnDuplicateVFS (mm : MountManager) : prog unit :=
  RPCWithTimeout "vfs/list" [] rpcListTimeout ;;; Ret tt.

(** Every descriptor of /dev/fuse is marked close-on-exec, so that no child
    process keeps a connection open. *)
Definition setFuseFdsCloexec : prog unit :=
  r <- perform (CReadDir "/proc/self/fd") ;;
  match r with
  | Err _ => Ret tt
  | Ok entries =>
      for_each entries (fun e =>
        target <- perform (CReadlink ("/proc/self/fd/" +s+ de_name e)) ;;
        match target with
        | Err _ => Ret tt
        | Ok target =>
            if negb (bool_decide (target = "/dev/fuse")) then Ret tt
            else match parse_int (de_name e) with
                 | None => Ret tt
                 | Some fd => perform (CSetCloexec fd) ;;; Ret tt
                 end
        end)
  end.

(** From "Ensure mount point exists" on.  The goroutines started at the end are
    left out: the ticks of [cacheMonitor] and [dirCacheWarmer], and [refreshVFS]
    where a stale cache is found. *)
Definition mount_session (g : globals) (mm : MountManager)
    : prog (globals * MountManager * result unit gerr) :=
  mk <- mkdirAllBounded (mountPoint mm) (30 * second) ;;
  match mk with
  | Err e => Ret (g, mm, Err (errorf_w "failed to create mount point" e))
  | Ok _ =>
  SweepDeadSessions (volumeID mm) ;;;
  sd <- newSessionDir (volumeID mm) (vfsName mm) ;;
  match sd with
  | Err e => Ret (g, mm, Err (errorf_w "failed to create session mountpoint" e))
  | Ok session =>
  c1 <- RcloneConfig.CreateNamedS3Config (s3ConfigName mm) (s3Config mm) ;;
  match c1 with
  | Err e => removeSessionDir session ;;; Ret (g, mm, Err (errorf_w "failed to create S3 config" e))
  | Ok _ =>
  c2 <- RcloneConfig.CreateNamedCryptConfig (cryptConfigName mm) (s3RemotePath mm) (cryptConfig mm) ;;
  match c2 with
  | Err e =>
      RcloneConfig.DeleteNamedConfigs [s3ConfigName mm] ;;; removeSessionDir session ;;;
      Ret (g, mm, Err (errorf_w "failed to create crypt config" e))
  | Ok _ =>
  let '(g, vfsOpt) := buildVFSOpt g mm in
  let vfsOpt := vfsOpt ++ id_opt "UID" (uid mm) ++ id_opt "GID" (gid mm) in
  let params := [("fs", PStr (cryptConfigName mm +s+ ":")); ("mountPoint", PStr session);
                 ("mountOpt", PMap (mount_opt mm)); ("vfsOpt", PMap vfsOpt)] in
  let* (_, err) := RPCWithTimeout "mount/mount" params rpcMountTimeout ;;
  match err with
  | Some e =>
      RcloneConfig.DeleteNamedConfigs [cryptConfigName mm; s3ConfigName mm] ;;;
      if IsRPCTimeout e then Ret (g, mm, Err (errorf_w "mount did not complete" e))
      else removeSessionDir session ;;; Ret (g, mm, Err (errorf_w "failed to mount" e))
  | None =>
  let mm := set_session mm session in
  setFuseFdsCloexec ;;;
  SaveVFSName (volumeID mm) (vfsName mm) ;;;
  warnOnDuplicateVFS mm ;;;
  rdy <- waitForMountReady mm ;;
  match rdy with
  | Err e =>
      unbindStaging mm ;;; unmountSession session ;;;
      RcloneConfig.DeleteNamedConfigs [cryptConfigName mm; s3ConfigName mm] ;;;
      Ret (g, mm, Err (errorf_w "mount did not become usable" e))
  | Ok _ => hasStaleVFSCache mm ;;; Ret (g, set_monitoring (set_mounted mm true) true, Ok tt)
  end end end end end end.

Definition Mount (g : globals) (mm : MountManager) : prog (globals * MountManager * result unit gerr) :=
  already <- IsMounted mm ;;
  if (already : bool) then Ret (g, mm, Ok tt)
  else
    stale <- isMountPoint mm ;;
    mm <- (if (stale : bool) then r <- unmount mm ShortDrainWait ;; Ret (fst r) else Ret mm) ;;
    let* (mm, r) := ensureExclusiveVFSName mm ;;
    match r with
    | Err e => Ret (g, mm, Err e)
    | Ok _ =>
        ValidateVFSCache (vfsName mm) ;;;
        mount_session g mm
    end.

(** ** Directory cache *)

Definition refreshTree (mm : MountManager) : prog unit :=
  RPCWithTimeout "vfs/refresh"
    [("fs", PStr (cryptConfigName mm +s+ ":")); ("dir", PStr ""); ("recursive", PStr "true")]
    rpcRefreshTimeout ;;; Ret tt.
Definition refreshVFS (mm : MountManager) : prog unit :=
  RPCWithTimeout "vfs/forget" (fs_param mm) rpcRefreshTimeout ;;; refreshTree mm.

(** [dirCacheTime * 0.8], exact on the multiples of 5 ns below 2^53 ns that
    [parseDurationToNs] gives; 0 means nothing to keep warm. *)
Definition dirCacheWarmInterval (mm : MountManager) : Z :=
  let s := DirCacheTime (vfsConfig mm) in
  if bool_decide (s = "") then Z.max (hour * 4 / 5) minute
  else match parseDurationToNs s with
       | Ok ns => if ns <=? 0 then 0 else Z.max (ns * 4 / 5) minute
       | Err _ => 0
       end.

(** One tick of [dirCacheWarmer]. *)
Definition dirCacheWarmer_tick (mm : MountManager) : prog unit :=
  m <- IsMounted mm ;; if (m : bool) then refreshTree mm else Ret tt.

(** ** Specifications *)

Lemma RPC_spec (G : history -> call -> Prop) m params t h :
  G h (CRpc m params t) -> (forall h', G h' (CDiverge "redactBetween")) ->
  wpc G (RPCWithTimeout m params t)
    (fun h' r => snd r = None -> exists st body,
       Ev (CRpc m params t) (RpcDone st body) ∈ h' /\ st < 400
       /\ fst r = Some (MkRPCResult (body_output body) st)) h.
Proof.
  intros HG HD. unfold RPCWithTimeout, callLibrclone. do 2 wp_step.
  apply wpc_perform; [done |]. intros [| st b]; cbn [wpc]; [done |].
  destruct (400 <=? st) eqn:E.
  - wp_step. unfold sanitize. destruct (sanitizeErrorMessage 1 _); cbn; [done |].
    split; [done |]. done.
  - cbn [wpc snd fst]. bools. intros _. exists st, b. split; [by left |]. split; [lia | done].
Qed.

(** A vfs/stats call of this mount was answered, and showed nothing pending;
    [strict]: the answer had a disk cache section. *)
Definition queue_seen_empty (strict : bool) (mm : MountManager) (h : history) : Prop :=
  exists b st body, Ev (CRpc "vfs/stats" (fs_param mm) b) (RpcDone st body) ∈ h /\ st < 400
    /\ match disk_cache (Some (MkRPCResult (body_output body) st)) with
       | Some dc => queue_of dc = (0, 0)
       | None => strict = false
       end.

Lemma queue_seen_mono s mm h h' : h ⊆ h' -> queue_seen_empty s mm h -> queue_seen_empty s mm h'.
Proof. intros Hs (b & st & body & Hin & H). exists b, st, body. auto. Qed.

Lemma pair_zero (p : Z * Z) : (let '(a, b) := p in (a =? 0) && (b =? 0)) = true -> p = (0, 0).
Proof. destruct p as [a b]. intros H. bools. by subst. Qed.

(** Guards of the drain: it only asks. *)
Definition asks_only (h : history) (c : call) : Prop :=
  match c with
  | CRpc m _ _ => m = "vfs/stats"
  | CDiverge _ => True
  | c => mutates c = false
  end.

Lemma isMountPoint_asks mm h : wpc asks_only (isMountPoint mm) (fun _ _ => True) h.
Proof. unfold isMountPoint, IsHostMountPoint, HostMounts, HostMountsOK, HostMountStacksOK. by wp. Qed.

Lemma wait_loop_spec fuel mm deadline h :
  wpc asks_only (wait_loop fuel mm deadline) (fun h' b => b = true -> queue_seen_empty false mm h') h.
Proof.
  revert h. induction fuel as [| fuel IH]; intros h.
  { cbn [wait_loop]. wp_step. by apply wpc_perform. }
  cbn [wait_loop]. wp_step. apply wpc_perform; [done |]. intros now.
  destruct (deadline <=? now); [done |]. wp_step.
  eapply (wpc_post _ _ (fun _ _ => True)).
  { destruct (bool_decide _); [| done]. wp_step. eapply wpc_post; [apply isMountPoint_asks | done]. }
  intros h1 gone _. destruct gone; [done |]. wp_step. apply wpc_perform; [done |]. intros now2.
  cbn zeta. destruct (_ <=? 0); [done |]. wp_step.
  eapply wpc_post; [by apply RPC_spec |]. intros h2 [res err] Hr.
  destruct err as [e |].
  - destruct (isNoVFSError e); [done |]. destruct (isAmbiguousVFSError e); [done |].
    wp_step. apply wpc_perform; [done |]. intros ?. apply IH.
  - destruct (Hr eq_refl) as (st & body & Hin & Hst & E). cbn in E. subst res.
    destruct (disk_cache (Some (MkRPCResult (body_output body) st))) as [dc |] eqn:Edc.
    + destruct (queue_of dc) as [ip q] eqn:Eq. destruct ((ip =? 0) && (q =? 0)) eqn:E0.
      * cbn. intros _. eexists _, st, body. split; [exact Hin |]. split; [done |].
        rewrite Edc, Eq. by apply (pair_zero (ip, q)).
      * wp_step. apply wpc_perform; [done |]. intros ?. apply IH.
    + cbn. intros _. eexists _, st, body. split; [exact Hin |]. split; [done |]. by rewrite Edc.
Qed.

Lemma waitForPendingUploads_spec mm w h :
  wpc asks_only (waitForPendingUploads mm w) (fun h' b => b = true -> queue_seen_empty false mm h') h.
Proof.
  unfold waitForPendingUploads. destruct (w <=? 0); [done |].
  wp_step. apply wpc_perform; [done |]. intros now. cbn zeta.
  wp_step. apply wpc_perform; [done |]. intros ?. apply wait_loop_spec.
Qed.

(** What the cache of this mount is, as evidence. *)
Definition disk_clean (mm : MountManager) (h : history) : Prop :=
  vfsName mm = "" \/ scanned_clean VFSCacheBasePath (vfsName mm) h.

Lemma hasDirtyCacheOnDisk_spec mm h :
  wpc looks_only (hasDirtyCacheOnDisk mm) (fun h' d => d = false -> disk_clean mm h') h.
Proof.
  unfold hasDirtyCacheOnDisk. case_bool_decide as E; [by left |].
  eapply wpc_post; [apply hasDirtyCacheItemsAt_spec |]. intros h' d Hd Hf. right. auto.
Qed.

(** The mount was asked to go: an unmount of the staging path, and of every
    session of the volume. *)
Definition torn_down (mm : MountManager) (h : history) : Prop :=
  (exists b r, Ev (CUnmountB (mountPoint mm) false b) r ∈ h)
  /\ sessions_ended (volumeID mm) [sessionPath mm] h.

Lemma torn_down_evidence mm : evidence (torn_down mm).
Proof.
  intros h h' Hs [(b & r & Hr) H]. split; [exists b, r; auto |]. by eapply sessions_ended_evidence.
Qed.
Lemma queue_seen_evidence strict mm : evidence (queue_seen_empty strict mm).
Proof. intros h h'. apply queue_seen_mono. Qed.
Lemma disk_clean_evidence mm : evidence (disk_clean mm).
Proof. intros h h' Hs [H | H]; [by left | right]. by eapply scanned_clean_mono. Qed.

(** Nothing was seen mounted at [p], which an unreadable table does not show
    either. *)
Definition not_seen_mounted (p : string) (h : history) : Prop :=
  exists t, Ev CHostMounts t ∈ h /\ forall s, t = Some s -> table_mounted s p = false.
Lemma not_seen_mounted_evidence p : evidence (not_seen_mounted p).
Proof. intros h h' Hs (t & Ht & H). exists t. auto. Qed.

(** The double evidence on which a cache is deleted, in its order. *)
Definition upload_evidence (mm : MountManager) : list (history -> Prop) :=
  [queue_seen_empty false mm; torn_down mm; scanned_clean VFSCacheBasePath (vfsName mm)].

(** [unmount] deletes only this mount's cache, on that evidence. *)
Definition unmount_guard (mm : MountManager) (h : history) (c : call) : Prop :=
  match c with
  | CRemoveAll p => (p = cache_dir mm \/ p = meta_dir mm) /\ ordered (upload_evidence mm) h
  | CRpc m params _ =>
      m = "vfs/stats" \/ m = "mount/listmounts" \/ m = "config/delete"
      \/ exists p, m = "mount/unmount" /\ params = [("mountPoint", PStr p)]
           /\ own_session (volumeID mm) [sessionPath mm] p
  | CUnmountB p _ _ => p = mountPoint mm \/ own_session (volumeID mm) [sessionPath mm] p
  | CRemoveB p _ => own_session (volumeID mm) [sessionPath mm] p
  | CWriteNameMap _ _ | CDiverge _ => True
  | c => mutates c = false
  end.

Lemma unmount_asks mm h c : asks_only h c -> unmount_guard mm h c.
Proof. destruct c; cbn; try done. by intros ->; left. Qed.
Lemma unmount_looks mm h c : mutates c = false -> unmount_guard mm h c.
Proof. by destruct c. Qed.
Lemma unmount_ends mm h c : ends_only (own_session (volumeID mm) [sessionPath mm]) h c -> unmount_guard mm h c.
Proof.
  destruct c; cbn; try done.
  - intros [H _]. by right.
  - intros [-> | H]; [by right; left | by right; right; right].
Qed.

Lemma unbind_loop_spec mm n h : wpc (unmount_guard mm) (unbind_loop n (mountPoint mm)) (fun _ _ => True) h.
Proof.
  revert h. induction n as [| n IH]; intros h; [done |]. cbn [unbind_loop]. unfold unmountBounded.
  do 2 wp_step. apply wpc_perform; [by left |]. intros r. cbn [wpc].
  destruct (syscallBounded _ r) as [[] | e]; [apply IH |].
  destruct (_ || _); [done |]. do 2 wp_step. apply wpc_perform; [by left |]. intros r2. cbn [wpc].
  destruct (syscallBounded _ r2); [apply IH | done].
Qed.

Lemma DeleteNamedConfigs_spec (G : history -> call -> Prop) names h :
  (forall h' m, G h' (CRpc "config/delete" m RPCDefaultTimeout)) ->
  (forall h', G h' (CDiverge "redactBetween")) ->
  wpc G (RcloneConfig.DeleteNamedConfigs names) (fun _ _ => True) h.
Proof.
  intros HG HD. apply (wpc_for_each _ _ _ (fun _ => True)); [done |]. intros n h' _ _.
  wp_step. eapply wpc_post; [apply RPC_guard; auto | done].
Qed.

Lemma RemoveVFSName_spec mm v h : wpc (unmount_guard mm) (RemoveVFSName v) (fun _ _ => True) h.
Proof. unfold RemoveVFSName, LoadVFSNameMap, writeVFSNameMap. by wp. Qed.

Lemma cleanupVFSCacheDir_spec mm h :
  ordered [queue_seen_empty false mm; torn_down mm; disk_clean mm] h ->
  wpc (unmount_guard mm) (cleanupVFSCacheDir mm) (fun _ _ => True) h.
Proof.
  intros H. unfold cleanupVFSCacheDir. case_bool_decide as Hn; [done |].
  assert (He : ordered (upload_evidence mm) h).
  { eapply ordered_mono, H. do 2 (constructor; [done |]). constructor; [| constructor]. by intros h' [Hd | Hd]. }
  wp_step. apply wpc_perform; [by split; [left |] |]. intros r. wp_step. apply wpc_perform.
  - split; [by right |]. exact (ordered_later _ [_] _ He).
  - intros r2. apply RemoveVFSName_spec.
Qed.

(** What a successful drain rests on: the mount was not there and its cache was
    found clean; or its queue was seen empty, then it was taken down, and then
    its cache was found clean. *)
Definition drained_after (mm : MountManager) (h : history) : Prop :=
  (mounted mm = false /\ ordered [not_seen_mounted (mountPoint mm); disk_clean mm] h)
  \/ ordered [queue_seen_empty false mm; torn_down mm; disk_clean mm] h.
Lemma drained_after_suffix mm h h' : h `suffix_of` h' -> drained_after mm h -> drained_after mm h'.
Proof. intros Hs [[Hm H] | H]; [left; split; [done |] | right]; by eapply ordered_suffix. Qed.

Lemma isMountPoint_sees mm h :
  wpc anything (isMountPoint mm) (fun h' b => b = false -> not_seen_mounted (mountPoint mm) h') h.
Proof.
  unfold isMountPoint, IsHostMountPoint, HostMounts, HostMountsOK, HostMountStacksOK. cbn [bind perform wpc]. split; [done |].
  intros t. cbn. intros Hb. exists t. split; [by left |]. intros s ->. cbn in Hb. apply bool_decide_eq_false in Hb.
  apply bool_decide_eq_false. intros Hs. apply Hb. unfold flattenMountStacks. by rewrite lookup_fmap, fmap_is_Some.
Qed.

Lemma unbindStaging_asks mm h :
  wpc anything (unbindStaging mm) (fun h' _ => exists b r, Ev (CUnmountB (mountPoint mm) false b) r ∈ h') h.
Proof.
  unfold unbindStaging, maxStagingUnwind. cbn [unbind_loop]. unfold unmountBounded at 1. cbn [bind perform wpc]. split; [done |].
  intros r. eapply wpc_post; [exact (wpc_extends _ _ _ _ (wpc_trivial _ _)) |]. intros h' u [Hs _].
  exists bindTimeout, r. apply Hs. by left.
Qed.

Lemma unmount_spec mm budget h :
  wpc (unmount_guard mm) (unmount mm budget) (fun h' r => snd r = true -> drained_after mm h') h.
Proof.
  unfold unmount. wp_step. eapply (wpc_post _ _ (fun h' skip => (skip : bool) = true ->
    mounted mm = false /\ ordered [not_seen_mounted (mountPoint mm)] h')).
  { destruct (mounted mm); [done |]. wp_step.
    eapply wpc_post; [apply wpc_conj; [eapply wpc_mono; [apply isMountPoint_asks | apply unmount_asks | done] | apply isMountPoint_sees] |].
    intros h' mp [_ H]. cbn [wpc]. intros Hn%negb_true_iff. split; [done |]. by apply ordered_one, H. }
  intros h1 skip Hskip. destruct skip.
  { destruct (Hskip eq_refl) as [Hm Ho]. wp_step. eapply wpc_post; [apply wpc_stretch;
      [apply wpc_looks; [apply hasDirtyCacheOnDisk_spec | apply unmount_looks] | eapply wpc_any, hasDirtyCacheOnDisk_spec] |].
    intros h2 d [_ (l & -> & Hd)]. cbn. intros Hn%negb_true_iff. left. split; [done |].
    exact (ordered_then [_] _ _ _ (evidence_persists _ (disk_clean_evidence mm)) Ho (Hd Hn)). }
  clear Hskip. cbn zeta. wp_step. eapply wpc_post; [apply wpc_extends; eapply wpc_mono;
    [apply (waitForPendingUploads_spec (StopCacheMonitor mm)) | apply unmount_asks | exact (fun _ _ H => H)] |].
  intros h2 drained [_ Hq]. wp_step.
  eapply wpc_post; [apply (wpc_stretch _ _ (fun _ _ => True)); [| apply (unbindStaging_asks mm)] |].
  { unfold unbindStaging. wp_step. eapply wpc_post; [apply (unbind_loop_spec mm) |]. intros h3 u _.
    by apply wpc_perform. }
  intros h3 u [_ (l3 & -> & Hu)]. clear u. wp_step.
  eapply wpc_post; [apply wpc_stretch; [eapply wpc_mono; [apply ShutdownSessions_spec | apply unmount_ends | exact (fun _ _ H => H)] |
    apply (ShutdownSessions_ends (volumeID mm) [sessionPath mm])] |].
  intros h4 n [_ (l4 & -> & He)]. cbn zeta. wp_step.
  eapply wpc_post; [apply wpc_stretch; [apply DeleteNamedConfigs_spec; [by right; right; left | done] | apply (wpc_trivial _ [])] |].
  intros h5 u [_ (l5 & -> & _)]. clear u. wp_step.
  assert (Ho : drained = true -> ordered [queue_seen_empty false mm; torn_down mm] (l5 ++ l4 ++ l3 ++ h2)).
  { intros Hd. apply ordered_later. rewrite app_assoc. apply (ordered_then [_]); [apply evidence_persists, torn_down_evidence | |].
    - apply ordered_one. exact (Hq Hd).
    - split; [destruct Hu as (b & r & Hu); exists b, r; apply elem_of_app; by right |].
      eapply sessions_ended_evidence, He. intros x Hx. apply elem_of_app. by left. }
  clear Hq Hu He. revert Ho. generalize (l5 ++ l4 ++ l3 ++ h2) as h6. clear h2 l3 l4 l5. intros h6 Ho.
  eapply (wpc_post _ _ (fun h' d => d = true -> ordered [queue_seen_empty false mm; torn_down mm; disk_clean mm] h')).
  { destruct drained; [| done]. wp_step.
    eapply wpc_post; [apply wpc_stretch; [apply wpc_looks;
      [apply (hasDirtyCacheOnDisk_spec (set_session (StopCacheMonitor mm) "")) | apply unmount_looks] |
      eapply wpc_any, (hasDirtyCacheOnDisk_spec (set_session (StopCacheMonitor mm) ""))] |].
    intros h7 d [_ (l & -> & Hd)]. cbn [wpc]. intros Hn%negb_true_iff.
    exact (ordered_then [_; _] _ _ _ (evidence_persists _ (disk_clean_evidence mm)) (Ho eq_refl) (Hd Hn)). }
  intros h7 d Hd. wp_step.
  eapply (wpc_post _ _ (fun h' _ => d = true -> ordered [queue_seen_empty false mm; torn_down mm; disk_clean mm] h')).
  { destruct d; [| done]. specialize (Hd eq_refl).
    eapply wpc_post; [apply wpc_stretch; [by apply (cleanupVFSCacheDir_spec mm) | apply (wpc_trivial _ [])] |].
    intros h8 u [_ (l & -> & _)] _. by apply ordered_later. }
  intros h8 u Hd8. cbn. intros E. right. by apply Hd8.
Qed.


(** ** What the node server relies on

    The node server knows a mount by what its unmounting reports.  The
    interface is that report's meaning: [true] is said only of a mount whose
    cache is then known to hold nothing unuploaded. *)

Class Detaches (detach : MountManager -> Z -> prog (MountManager * bool)) : Type := Detach
  { detached : MountManager -> history -> Prop;
    detached_later : forall mm h h', h `suffix_of` h' -> detached mm h -> detached mm h';
    detach_law : forall mm budget h,
      wpc anything (detach mm budget) (fun h' r => snd r = true -> detached mm h') h }.

#[export] Instance unmount_detaches : Detaches unmount.
Proof.
  refine (Detach _ drained_after drained_after_suffix _). intros mm budget h.
  eapply wpc_mono; [apply unmount_spec | done | done].
Defined.

(** ** Evidence of an empty queue *)

Lemma IsUploadQueueEmpty_spec mm h :
  wpc asks_only (IsUploadQueueEmpty mm)
    (fun h' b => b = true -> queue_seen_empty true mm h' \/ disk_clean mm h') h.
Proof.
  assert (HL : forall h c, mutates c = false -> asks_only h c) by (by intros ? []).
  assert (Hdisk : forall h, wpc asks_only (bind (hasDirtyCacheOnDisk mm) (fun d => Ret (negb d)))
    (fun h' b => b = true -> queue_seen_empty true mm h' \/ disk_clean mm h') h).
  { intros h0. wp_step. eapply wpc_post; [apply wpc_looks; [apply hasDirtyCacheOnDisk_spec | apply HL] |].
    intros h' d Hd. cbn. intros Hn%negb_true_iff. right. auto. }
  unfold IsUploadQueueEmpty. wp_step. eapply wpc_post; [apply isMountPoint_asks |].
  intros h1 mp _. destruct mp; cbn [negb]; [| apply Hdisk].
  wp_step. eapply wpc_post; [by apply RPC_spec |]. intros h2 [res err] Hr.
  destruct err as [e |]; [by destruct (_ || _); [apply Hdisk |] |].
  destruct (Hr eq_refl) as (st & body & Hin & Hst & E). cbn in E. subst res. cbn [wpc].
  destruct (disk_cache _) as [dc |] eqn:Edc; [| done]. intros H0%pair_zero. left.
  exists rpcStatsProbeTimeout, st, body. rewrite Edc. auto.
Qed.

Lemma uploadQueueConfirmedEmpty_spec mm h :
  wpc asks_only (uploadQueueConfirmedEmpty mm) (fun h' b => b = true -> queue_seen_empty true mm h') h.
Proof.
  unfold uploadQueueConfirmedEmpty. wp_step. eapply wpc_post; [apply isMountPoint_asks |].
  intros h1 mp _. destruct mp; cbn [negb]; [| done].
  wp_step. eapply wpc_post; [by apply RPC_spec |]. intros h2 [res err] Hr.
  destruct err as [e |]; [done |].
  destruct (Hr eq_refl) as (st & body & Hin & Hst & E). cbn in E. subst res. cbn [wpc].
  destruct (disk_cache _) as [dc |] eqn:Edc; [| done].
  destruct (num_field "uploadsInProgress" dc) as [p |] eqn:Ep; [| done].
  destruct (num_field "uploadsQueued" dc) as [q |] eqn:Eq; [| done]. intros H. bools. subst.
  exists rpcStatsTimeout, st, body. rewrite Edc. split; [done |]. split; [done |].
  unfold queue_of. by rewrite Ep, Eq.
Qed.

(** "nothing left to upload" always rests on evidence: the single poll says
    so only on an answer that shows an empty disk cache, or on a walk of the
    cache that found it clean; the eviction gate only on such an answer; the
    drain only on an answer without pending uploads.  An RPC error, a timeout,
    a missing VFS or a duplicated one is never read as an empty queue. *)
Theorem empty_queue_needs_evidence env mm budget :
  (let '(h, b) := run env (IsUploadQueueEmpty mm) [] in
     b = true -> queue_seen_empty true mm h \/ disk_clean mm h)
  /\ (let '(h, b) := run env (uploadQueueConfirmedEmpty mm) [] in b = true -> queue_seen_empty true mm h)
  /\ (let '(h, b) := run env (waitForPendingUploads mm budget) [] in b = true -> queue_seen_empty false mm h).
Proof.
  splits.
  - pose proof (wpc_run env _ _ _ _ (IsUploadQueueEmpty_spec mm []) I) as [_ H].
    by destruct (run env (IsUploadQueueEmpty mm) []).
  - pose proof (wpc_run env _ _ _ _ (uploadQueueConfirmedEmpty_spec mm []) I) as [_ H].
    by destruct (run env (uploadQueueConfirmedEmpty mm) []).
  - pose proof (wpc_run env _ _ _ _ (waitForPendingUploads_spec mm budget []) I) as [_ H].
    by destruct (run env (waitForPendingUploads mm budget) []).
Qed.

(** The drain is laxer than the other two: a vfs/stats answer without a disk
    cache section, which tells nothing about uploads, is taken for a confirmed
    empty queue by [waitForPendingUploads], and for "not empty" by
    [IsUploadQueueEmpty] and [uploadQueueConfirmedEmpty]. *)
Theorem missing_disk_cache_reads_as_drained (f : forall c, reply c) mm budget m hm o :
  0 < budget -> sessionPath mm <> "" -> f CNow = 0 ->
  f CHostMounts = Some hm -> hm !! mountPoint mm = Some m ->
  (forall b, f (CRpc "vfs/stats" (fs_param mm) b) = RpcDone 200 (BodyJson o)) ->
  field "diskCache" o = None ->
  eval f (waitForPendingUploads mm budget) = true
  /\ eval f (IsUploadQueueEmpty mm) = false /\ eval f (uploadQueueConfirmedEmpty mm) = false.
Proof.
  intros Hb Hs Hn Hm Hmp Hr Hd.
  assert (Hdc : disk_cache (Some (MkRPCResult (Some o) 200)) = None) by (cbn; by rewrite Hd).
  assert (Hmount : eval f (isMountPoint mm) = true).
  { unfold isMountPoint, IsHostMountPoint, HostMounts, HostMountsOK, HostMountStacksOK.
    cbn [bind perform eval]. rewrite Hm. apply bool_decide_eq_true.
    change (is_Some (flattenMountStacks hm !! mountPoint mm)). unfold flattenMountStacks.
    rewrite lookup_fmap, Hmp. by eexists. }
  assert (Hrpc : forall b, eval f (RPCWithTimeout "vfs/stats" (fs_param mm) b)
                           = (Some (MkRPCResult (Some o) 200), None)).
  { intros b. unfold RPCWithTimeout, callLibrclone. cbn [bind perform eval]. by rewrite Hr. }
  splits.
  - unfold waitForPendingUploads. destruct (budget <=? 0) eqn:E; bools; [lia |].
    cbn [bind perform eval]. rewrite Hn. unfold wait_fuel. cbn [wait_loop bind perform eval]. rewrite Hn.
    destruct (0 + budget <=? 0) eqn:E2; bools; [lia |].
    rewrite bool_decide_false by done. cbn [bind eval]. rewrite Hn. cbn zeta.
    destruct (Z.min rpcStatsTimeout (0 + budget - 0) <=? 0) eqn:E3; bools;
      [unfold rpcStatsTimeout, minute, second in E3; lia |].
    rewrite eval_bind, Hrpc. cbn match. by rewrite Hdc.
  - unfold IsUploadQueueEmpty. rewrite eval_bind, Hmount. cbn [negb].
    rewrite eval_bind, Hrpc. cbn match. by rewrite Hdc.
  - unfold uploadQueueConfirmedEmpty. rewrite eval_bind, Hmount. cbn [negb].
    rewrite eval_bind, Hrpc. cbn match. cbn [eval]. by rewrite Hdc.
Qed.

Definition example_mm : MountManager :=
  MM (RcloneConfig.MkS3Config "eu" "" "AK" "SK" "bucket" false "") (RcloneConfig.MkCrypt "pw" "pw-pvc-1")
     DefaultVFSCacheConfig "pvc-1" "/stage" "/sessions/pvc-1/pvc-1@1" (s3BasePathOf "pvc-1" "") true
     "pvc-1" "pvc-1-s3" "pvc-1" None None 0 true.
Definition no_disk_cache_world (c : call) : reply c :=
  match c return reply c with
  | CHostMounts => Some {["/stage" := [{| Dev := "0:50"; FSType := "fuse.rclone" |}]]}
  | CRpc _ _ _ => RpcDone 200 (BodyJson [("fs", JStr "pvc-1:")])
  | c => default_reply c
  end.

Lemma missing_disk_cache_reads_as_drained_witness :
  eval no_disk_cache_world (waitForPendingUploads example_mm (60 * second)) = true.
Proof.
  refine (proj1 (missing_disk_cache_reads_as_drained no_disk_cache_world example_mm (60 * second)
    [{| Dev := "0:50"; FSType := "fuse.rclone" |}] _ [("fs", JStr "pvc-1:")] _ _ _ _ _ _ _));
    try reflexivity; try done.
Defined.

(** ** The VFS name a mount uses *)

Definition listed_names (r : rpc_reply) : option (list json) :=
  match r with
  | RpcDone st body =>
      if 400 <=? st then None
      else match body_output body with
           | Some o => match field "vfses" o with Some (JArr names) => Some names | _ => None end
           | None => None
           end
  | RpcTimedOut => None
  end.

(** In [h], vfs/list answered without the name [n]. *)
Definition name_free (n : string) (h : history) : Prop :=
  exists r names, Ev (CRpc "vfs/list" [] rpcListTimeout) r ∈ h
    /\ listed_names r = Some names /\ default 0%nat (count_names names !! n) = 0%nat.
(** In [h], a vfs/list call got no usable answer. *)
Definition list_unanswered (h : history) : Prop :=
  exists r, Ev (CRpc "vfs/list" [] rpcListTimeout) r ∈ h /\ listed_names r = None.

(** No loop but the redaction's runs out. *)
Definition no_spin (h : history) (c : call) : Prop :=
  match c with CDiverge w => w = "redactBetween" | _ => True end.

Lemma RegisteredVFSNames_spec h :
  wpc no_spin RegisteredVFSNames
    (fun h' r => match r with
       | Some counts => exists rep names, Ev (CRpc "vfs/list" [] rpcListTimeout) rep ∈ h'
           /\ listed_names rep = Some names /\ counts = count_names names
       | None => list_unanswered h' end) h.
Proof.
  unfold RegisteredVFSNames, RPCWithTimeout, callLibrclone. do 3 wp_step.
  apply wpc_perform; [done |]. intros rep. cbn [wpc].
  assert (Hin : forall h', h' = Ev (CRpc "vfs/list" [] rpcListTimeout) rep :: h ->
    Ev (CRpc "vfs/list" [] rpcListTimeout) rep ∈ h') by (intros ? ->; by left).
  destruct rep as [| st b]; cbn [wpc].
  { exists RpcTimedOut. split; [by left | done]. }
  destruct (400 <=? st) eqn:E.
  - wp_step. unfold sanitize.
    assert (Hl : listed_names (RpcDone st b) = None) by (cbn; by rewrite E).
    destruct (sanitizeErrorMessage 1 _); cbn.
    + exists (RpcDone st b). split; [by left | done].
    + split; [done |]. intros ?. exists (RpcDone st b). split; [by right; left | done].
  - cbn [wpc Output]. destruct (body_output b) as [o |] eqn:Eo.
    2: { exists (RpcDone st b). split; [by left |]. cbn. by rewrite E, Eo. }
    destruct (field "vfses" o) as [[| | | | names |] |] eqn:Ef;
      try (exists (RpcDone st b); split; [by left |]; cbn; by rewrite E, Eo, Ef).
    exists (RpcDone st b), names. split; [by left |]. cbn. by rewrite E, Eo, Ef.
Qed.

Lemma countRegisteredVFS_spec mm h :
  wpc no_spin (countRegisteredVFS mm)
    (fun h' r => match r with
       | Some O => name_free (cryptConfigName mm) h' | Some _ => True
       | None => list_unanswered h' end) h.
Proof.
  unfold countRegisteredVFS. wp_step. eapply wpc_post; [apply RegisteredVFSNames_spec |].
  intros h' [counts |]; cbn [wpc]; [| done]. intros (rep & names & Hin & Hl & ->).
  destruct (default _ _) eqn:E; [| done]. exists rep, names. auto.
Qed.

Lemma ends_no_spin P h c : ends_only P h c -> no_spin h c.
Proof. by destruct c. Qed.

(** What [ensureExclusiveVFSName] ends with, [n] bumps still allowed. *)
Definition exclusive_post (mm : MountManager) (n : Z) (h : history) (r : MountManager * result unit gerr) : Prop :=
  exists k : nat, Z.of_nat k <= n /\ fst r = Nat.iter k bumpGeneration mm
    /\ match snd r with
       | Ok _ => name_free (cryptConfigName (fst r)) h \/ list_unanswered h
       | Err _ => Z.of_nat k = n
       end.

Lemma iter_inside {A} (f : A -> A) k x : Nat.iter k f (f x) = Nat.iter (S k) f x.
Proof. induction k as [| k IH]; [done |]. exact (f_equal f IH). Qed.

Lemma exclusive_bump mm n h r :
  exclusive_post (bumpGeneration mm) (n - 1) h r -> exclusive_post mm n h r.
Proof.
  intros (k & Hk & Hr & Hs). exists (S k). split; [lia |]. split; [by rewrite Hr, iter_inside |].
  destruct (snd r); [done | lia].
Qed.

Lemma ensure_loop_spec fuel bumps mm h :
  0 <= bumps <= maxVFSGenerations -> Z.of_nat fuel = 18 - bumps ->
  wpc no_spin (ensure_loop fuel bumps mm) (exclusive_post mm (maxVFSGenerations - bumps)) h.
Proof.
  revert bumps mm h. induction fuel as [| fuel IH]; intros bumps mm h Hb Hf;
    unfold maxVFSGenerations in *; [lia |].
  assert (Hrec : bumps < 16 -> forall h, wpc no_spin (ensure_loop fuel (bumps + 1) (bumpGeneration mm))
    (exclusive_post mm (16 - bumps)) h).
  { intros Hlt h'. eapply wpc_post; [apply IH; lia |]. intros h'' r Hr. apply exclusive_bump.
    by replace (16 - bumps - 1) with (16 - (bumps + 1)) by lia. }
  assert (Hstay : forall h' e, (is_ok e = true -> name_free (cryptConfigName mm) h' \/ list_unanswered h') ->
     (is_ok e = false -> bumps = 16) -> exclusive_post mm (16 - bumps) h' (mm, e)).
  { intros h' e H1 H2. exists 0%nat. splits; [lia | done |]. destruct e; cbn in *; [auto | rewrite H2; done]. }
  cbn [ensure_loop]. wp_step. eapply wpc_post; [apply countRegisteredVFS_spec |].
  intros h1 [[| c] |] Hc.
  - cbn. apply Hstay; [by left | done].
  - wp_step. eapply wpc_mono; [apply ShutdownSessions_spec | apply ends_no_spin |].
    intros h2 ended _. wp_step.
    eapply (wpc_post _ _ (fun h' b => b = true -> name_free (cryptConfigName mm) h' \/ list_unanswered h')).
    { destruct (0 <? ended); [| done]. wp_step. apply wpc_perform; [done |]. intros ?. wp_step.
      eapply wpc_post; [apply countRegisteredVFS_spec |]. intros h3 [[| c3] |] Hc3; cbn; auto; done. }
    intros h3 free Hfree. destruct free; [apply Hstay; [auto | done] |].
    destruct (maxVFSGenerations <=? bumps) eqn:E; unfold maxVFSGenerations in E; bools.
    + apply Hstay; [done |]. intros _. lia.
    + apply Hrec. lia.
  - destruct (0 <? bumps) eqn:E; bools; [apply Hstay; auto; done | apply Hrec; lia].
Qed.

(** Choosing a VFS name ends, and ends well.  Whatever vfs/list and the
    unmounts answer, at most 16 fresh generations are tried (the loop of the
    model never runs out of its 18 rounds); when it succeeds the name it
    settles on was listed as free, or the registry could not be read; it
    refuses only after all 16 bumps, the name still being taken. *)
Theorem vfs_name_choice_ends env mm :
  let run' := run env (ensureExclusiveVFSName mm) [] in
  hist_ok no_spin (fst run') /\ exclusive_post mm maxVFSGenerations (fst run') (snd run').
Proof.
  apply wpc_run; [| done].
  apply (wpc_post _ _ (exclusive_post mm (maxVFSGenerations - 0))); [| by rewrite Z.sub_0_r].
  apply ensure_loop_spec; [unfold maxVFSGenerations; lia | done].
Qed.

(** ** Where the data goes *)

(** What [DeleteVolume] purges is exactly the directory the mount's data
    lives under: the mount's base path is "files" inside the purged directory
    of the same volume and prefix, in the same bucket; and under one prefix
    the directories of two volumes are not nested. *)
Theorem purge_covers_mounted_data (config : RcloneConfig.S3Config) v w prefix remote :
  RcloneConfig.BuildS3RemoteString config (RcloneConfig.volumePath v prefix) = Ok remote ->
  s3BasePathOf v prefix = RcloneConfig.volumePath v prefix +s+ "/files"
  /\ (exists head, remote = head +s+ RcloneConfig.Bucket config +s+ "/" +s+ RcloneConfig.volumePath v prefix)
  /\ (is_name v -> is_name w ->
      has_prefix (RcloneConfig.volumePath v prefix +s+ "/") (s3BasePathOf w prefix) = true -> v = w).
Proof.
  intros Hr. unfold s3BasePathOf, RcloneConfig.volumePath in *. splits.
  - case_bool_decide; by rewrite !sapp_assoc.
  - unfold RcloneConfig.BuildS3RemoteString in Hr.
    destruct (bool_decide (RcloneConfig.Bucket config = "")); [done |].
    destruct (bool_decide (RcloneConfig.Region config = "")); [done |]. cbn zeta in Hr.
    set (path := if bool_decide (prefix = "") then _ else _) in *.
    assert (Hne : path <> "").
    { clear Hr. subst path. case_bool_decide; intros E; [by cbn in E |]. destruct prefix; [done | by cbn in E]. }
    clearbody path. rewrite bool_decide_false in Hr by done.
    apply Ok_inj in Hr. rewrite <- Hr.
    eexists (":s3," +s+ join "," (RcloneConfig.remote_parts config) +s+ ":"). by rewrite !sapp_assoc.
  - intros Hv Hw Hp.
    assert (Hsib : forall b, has_prefix (b +s+ "/" +s+ v +s+ "/") (b +s+ "/" +s+ w +s+ "/files") = true -> v = w).
    { intros b Hb. refine (sibling_prefix b v w _ Hv Hw Hb _). apply has_prefix_true.
      exists "files". by rewrite !sapp_assoc. }
    case_bool_decide.
    + apply (Hsib "volumes"). rewrite sapp_assoc in Hp. exact Hp.
    + apply (Hsib (prefix +s+ "/volumes")). rewrite !sapp_assoc in Hp |- *. exact Hp.
Qed.

Lemma purge_covers_mounted_data_witness :
  s3BasePathOf "pvc-1" "team" = "team/volumes/pvc-1" +s+ "/files".
Proof.
  refine (proj1 (purge_covers_mounted_data (RcloneConfig.MkS3Config "eu" "" "AK" "SK" "bucket" false "")
    "pvc-1" "pvc-2" "team" _ _)). reflexivity.
Defined.

(** Two mounts made by one process never carry the same VFS options (within
    2^64 mounts), so rclone never reuses a leaked VFS for a new mount: every
    [buildVFSOpt] steps the counter, and options built at different counter
    values differ. *)
Theorem mount_options_never_repeat g g' mm mm' :
  vfsConfig mm = vfsConfig mm' ->
  0 <= mountGeneration g < 2 ^ 63 - 1 -> 0 <= mountGeneration g' < 2 ^ 63 - 1 ->
  mountGeneration (fst (buildVFSOpt g mm)) = mountGeneration g + 1
  /\ (mountGeneration g <> mountGeneration g' -> snd (buildVFSOpt g mm) <> snd (buildVFSOpt g' mm')).
Proof.
  intros Hc Hg Hg'. unfold buildVFSOpt. cbn [fst snd mountGeneration]. split.
  - apply wrap64_id. unfold in_int64. lia.
  - intros Hne E. rewrite !app_assoc in E. apply app_inj_tail in E as [_ [= E]]. rewrite Hc in E.
    rewrite !(wrap64_id (_ + 1)) in E by (unfold in_int64; lia).
    unfold wrap64 in E. clear -E Hne Hg Hg'.
    set (p := poll_ns (vfsConfig mm')) in *.
    assert (Em : (p + (mountGeneration g + 1) + 2 ^ 63) `mod` 2 ^ 64
                 = (p + (mountGeneration g' + 1) + 2 ^ 63) `mod` 2 ^ 64) by lia.
    clear E. apply Hne.
    pose proof (Z.div_mod (p + (mountGeneration g + 1) + 2 ^ 63) (2 ^ 64) ltac:(lia)).
    pose proof (Z.div_mod (p + (mountGeneration g' + 1) + 2 ^ 63) (2 ^ 64) ltac:(lia)).
    assert ((p + (mountGeneration g + 1) + 2 ^ 63) / 2 ^ 64 = (p + (mountGeneration g' + 1) + 2 ^ 63) / 2 ^ 64)
      by nia. nia.
Qed.

Lemma mount_options_never_repeat_witness :
  snd (buildVFSOpt (MkGlobals 100 4) example_mm) <> snd (buildVFSOpt (MkGlobals 100 7) example_mm).
Proof.
  refine (proj2 (mount_options_never_repeat (MkGlobals 100 4) (MkGlobals 100 7) example_mm example_mm
    eq_refl _ _) _); cbn; lia.
Defined.

End MountManager.
