(* ===== verification/Polling.v ===== *)
(** * Polling: the waits of a mount end (pkg/rclone/syncmanager.go)

    [waitForPendingUploads], [waitForMountReady] and [Reexpose] poll until a
    deadline.  Their translations run on fuel and perform [CDiverge] when it
    runs out; under a clock that moves at least as much as the process sleeps,
    the fuel given never runs out, so each of them returns. *)

From S2P Require Import Prelude GoStrings Effects Units Rpc Luks Mounts VfsNames VfsCache Session MountManager.
Import Rpc Luks Mounts VfsNames Session MountManager.

#[local] Open Scope Z_scope.

Module Polling.

Section clock.
(** No reading is before [t0]. *)
Context (t0 : Z).

(** A lower bound of the next reading of the clock. *)
Fixpoint earliest (h : history) : Z :=
  match h with
  | [] => t0
  | Ev CNow r :: _ => r
  | Ev (CSleep d) _ :: h => earliest h + Z.max 0 d
  | _ :: h => earliest h
  end.
Fixpoint honest (h : history) : Prop :=
  match h with
  | [] => True
  | Ev CNow r :: h => earliest h <= r /\ honest h
  | _ :: h => honest h
  end.

(** The clock of [env] moves at least as much as the process sleeps. *)
Definition honest_clock (env : environment) : Prop := forall h, earliest h <= env h CNow.

(** The points that are not reached while the clock is honest. *)
Definition stuck_polling (c : call) : Prop :=
  c = CDiverge "waitForPendingUploads" \/ c = CDiverge "waitForMountReady" \/ c = CDiverge "expose".
Definition polls (h : history) (c : call) : Prop := stuck_polling c -> ~ honest h.
Definition never_stuck (c : call) : Prop := ~ stuck_polling c.

Lemma honest_cons e h : honest (e :: h) -> honest h.
Proof. destruct e as [[] r]; cbn; tauto. Qed.
Lemma earliest_cons e h : honest (e :: h) -> earliest h <= earliest (e :: h).
Proof. destruct e as [[] r]; cbn; lia. Qed.

(** Time passes. *)
Lemma wpc_time {A} G (p : prog A) Q h :
  wpc G p Q h -> wpc G p (fun h' a => (honest h' -> honest h /\ earliest h <= earliest h') /\ Q h' a) h.
Proof.
  revert h. induction p as [a | c k IH]; cbn [wpc]; intros h Hp; [split; [by split |]; done |].
  destruct Hp as [Hc Hk]. split; [done |]. intros r. eapply wpc_post; [apply IH, Hk |].
  intros h' a [Ht Hq]. split; [| done]. intros Hh. destruct (Ht Hh) as [H1 H2].
  split; [by eapply honest_cons | pose proof (earliest_cons _ _ H1); lia].
Qed.

Lemma never_polls {A} (p : prog A) h : only never_stuck p -> wpc polls p (fun _ _ => True) h.
Proof.
  intros Ho. eapply wpc_mono; [by apply wpc_only, wpc_trivial | | done]. intros h' c [_ Hc] Hs. by destruct (Hc Hs).
Qed.
Lemma polls_time {A} (p : prog A) h :
  only never_stuck p -> wpc polls p (fun h' _ => honest h' -> honest h /\ earliest h <= earliest h') h.
Proof. intros Ho. eapply wpc_post; [by apply wpc_time, never_polls |]. by intros h' a []. Qed.

Ltac never := only_with ltac:(intros [[=] | [[=] | [=]]]).

Lemma RPC_never m params t : only never_stuck (RPCWithTimeout m params t).
Proof. unfold RPCWithTimeout, callLibrclone, sanitize. never. Qed.
Lemma isMountPoint_never mm : only never_stuck (isMountPoint mm).
Proof. unfold isMountPoint, IsHostMountPoint, HostMounts, HostMountsOK, HostMountStacksOK. never. Qed.
Lemma usable_never mm dev : only never_stuck (mountUsable mm dev).
Proof. unfold mountUsable, HostMountStacksOK, readDirBounded. never. Qed.
Lemma bind_never a b : only never_stuck (bindBounded a b).
Proof. unfold bindBounded. never. Qed.
Lemma device_never p t : only never_stuck (mountedDevice p t).
Proof. unfold mountedDevice. never. Qed.
Lemma unbind_never mm : only never_stuck (unbindStaging mm).
Proof.
  unfold unbindStaging. apply only_bind; [| never]. induction maxStagingUnwind as [| n IH]; cbn [unbind_loop]; unfold unmountBounded; never.
Qed.

(** ** The loops *)

(** Rounds that fit before the deadline, each at least [period] long. *)
Definition enough (fuel : nat) (period deadline : Z) (h : history) : Prop :=
  honest h -> (1 <= fuel)%nat /\ deadline <= earliest h + (Z.of_nat fuel - 1) * period.

Lemma enough_later fuel period deadline h h' :
  (honest h' -> honest h /\ earliest h + period <= earliest h') ->
  enough (S fuel) period deadline h -> (honest h' -> earliest h < deadline) -> enough fuel period deadline h'.
Proof.
  intros Ht He Hd Hh. destruct (Ht Hh) as [H1 H2], (He H1) as [_ H3]. specialize (Hd Hh).
  destruct fuel as [| fuel]; nia.
Qed.

Lemma wait_loop_ends fuel mm deadline h :
  enough fuel pollInterval deadline h -> wpc polls (wait_loop fuel mm deadline) (fun _ _ => True) h.
Proof.
  revert h. induction fuel as [| fuel IH]; intros h He; cbn [wait_loop].
  { wp_step. apply wpc_perform; [| done]. intros _ Hh. destruct (He Hh). lia. }
  wp_step. apply wpc_perform; [by intros [|[]] |]. intros now. destruct (deadline <=? now) eqn:Ed; [done |]. bools.
  wp_step. eapply wpc_post.
  { apply polls_time. pose proof (isMountPoint_never mm). never. }
  intros h1 gone H1. destruct gone; [done |]. wp_step. apply wpc_perform; [by intros [|[]] |]. intros now2. cbn zeta.
  destruct (_ <=? 0); [done |]. wp_step. eapply wpc_post; [apply polls_time, RPC_never |]. intros h2 [res err] H2.
  assert (Hnext : forall u, wpc polls (wait_loop fuel mm deadline) (fun _ _ => True) (Ev (CSleep pollInterval) u :: h2)).
  { intros u. apply IH. eapply enough_later; [| exact He |]; intros Hh; cbn [honest earliest] in Hh |- *.
    - destruct (H2 Hh) as [[Hn2 H1'] Hle2]. destruct (H1 H1') as [[Hn Hh0] Hle1]. cbn [earliest] in *. split; [done |].
      change (Z.max 0 pollInterval) with pollInterval. lia.
    - destruct (H2 Hh) as [[Hn2 H1'] _]. destruct (H1 H1') as [[Hn _] _]. lia. }
  destruct err as [e |].
  - destruct (isNoVFSError e); [done |]. destruct (isAmbiguousVFSError e); [done |].
    wp_step. by apply wpc_perform; [intros [|[]] |].
  - destruct (match disk_cache res with Some dc => _ | None => _ end) as [p q].
    destruct (_ && _); [done |]. wp_step. by apply wpc_perform; [intros [|[]] |].
Qed.

Lemma expose_loop_ends fuel mm dev deadline h :
  enough fuel (500 * ms) deadline h -> wpc polls (expose_loop fuel mm dev deadline) (fun _ _ => True) h.
Proof.
  revert h. induction fuel as [| fuel IH]; intros h He; cbn [expose_loop].
  { wp_step. apply wpc_perform; [| done]. intros _ Hh. destruct (He Hh). lia. }
  wp_step. apply wpc_perform; [by intros [|[]] |]. intros now. destruct (deadline <=? now) eqn:Ed; [done |]. bools.
  wp_step. apply wpc_perform; [by intros [|[]] |]. intros u0. wp_step.
  eapply wpc_post; [apply polls_time, usable_never |]. intros h1 [u | e] H1; [done |].
  wp_step. apply wpc_perform; [by intros [|[]] |]. intros u. apply IH.
  eapply enough_later; [| exact He |]; intros Hh; cbn [honest earliest] in Hh |- *; destruct (H1 Hh) as [[Hn Hh0] Hle].
  - cbn [earliest] in *. split; [done |]. change (Z.max 0 (500 * ms)) with (500 * ms). lia.
  - lia.
Qed.

Lemma expose_ends mm dev deadline h :
  (honest h -> deadline <= earliest h + 41 * (500 * ms)) -> wpc polls (expose mm dev deadline) (fun _ _ => True) h.
Proof.
  intros Hd. unfold expose. wp_step. eapply wpc_post; [apply polls_time, bind_never |].
  intros h1 [[] | e] H1; [| done]. apply expose_loop_ends. intros Hh. destruct (H1 Hh) as [Hh0 Hle]. specialize (Hd Hh0).
  unfold ready_fuel. change (Z.of_nat 42 - 1) with 41. split; [lia | lia].
Qed.

Lemma ready_loop_ends fuel mm deadline h :
  (fuel <= 42)%nat -> enough fuel (500 * ms) deadline h -> wpc polls (ready_loop fuel mm deadline) (fun _ _ => True) h.
Proof.
  revert h. induction fuel as [| fuel IH]; intros h Hf He; cbn [ready_loop].
  { wp_step. apply wpc_perform; [| done]. intros _ Hh. destruct (He Hh). lia. }
  wp_step. apply wpc_perform; [by intros [|[]] |]. intros now. destruct (deadline <=? now) eqn:Ed; [done |]. bools.
  wp_step. eapply wpc_post; [apply polls_time, device_never |]. intros h1 d H1.
  assert (Hnext : forall u, wpc polls (ready_loop fuel mm deadline) (fun _ _ => True) (Ev (CSleep (500 * ms)) u :: h1)).
  { intros u. apply IH; [lia |]. eapply enough_later; [| exact He |]; intros Hh; cbn [honest earliest] in Hh |- *;
      destruct (H1 Hh) as [[Hn Hh0] Hle].
    - cbn [earliest] in *. split; [done |]. change (Z.max 0 (500 * ms)) with (500 * ms). lia.
    - lia. }
  destruct d as [[dev []] | e].
  - apply expose_ends. intros Hh. destruct (H1 Hh) as [[Hn Hh0] Hle]. destruct (He Hh0) as [_ Hd]. cbn [earliest] in *.
    assert ((Z.of_nat (S fuel) - 1) * (500 * ms) <= 41 * (500 * ms)) by (apply Z.mul_le_mono_nonneg_r; [done | lia]). lia.
  - wp_step. by apply wpc_perform; [intros [|[]] |].
  - wp_step. by apply wpc_perform; [intros [|[]] |].
Qed.

Lemma waitForMountReady_ends mm h : wpc polls (waitForMountReady mm) (fun _ _ => True) h.
Proof.
  unfold waitForMountReady. wp_step. apply wpc_perform; [by intros [|[]] |]. intros now.
  apply ready_loop_ends; [done |]. intros _. split; [unfold ready_fuel; lia |]. cbn [earliest].
  unfold mountReadyTimeout, ready_fuel, ms, second. lia.
Qed.

Lemma Reexpose_ends mm h : wpc polls (Reexpose mm) (fun _ _ => True) h.
Proof.
  unfold Reexpose. wp_step. eapply wpc_post; [apply polls_time, device_never |]. intros h1 [[dev []] | e] _; try done.
  wp_step. eapply wpc_post; [apply polls_time, unbind_never |]. intros h2 u _. wp_step.
  apply wpc_perform; [by intros [|[]] |]. intros now. wp_step. eapply wpc_post; [apply expose_ends |].
  - intros _. cbn [earliest]. unfold mountReadyTimeout, ms, second. lia.
  - intros h3 [u3 | e3] _; [done |]. wp_step. by eapply wpc_post; [apply polls_time, unbind_never |].
Qed.

Lemma waitForPendingUploads_ends mm maxWait h : wpc polls (waitForPendingUploads mm maxWait) (fun _ _ => True) h.
Proof.
  unfold waitForPendingUploads. destruct (maxWait <=? 0) eqn:Em; [done |]. bools.
  wp_step. apply wpc_perform; [by intros [|[]] |]. intros now. cbn zeta. wp_step.
  apply wpc_perform; [by intros [|[]] |]. intros u. apply wait_loop_ends. intros _.
  cbn [earliest]. unfold wait_fuel. split; [lia |]. rewrite !Nat2Z.inj_succ, Z2Nat.id by (apply Z.div_pos; [lia | done]).
  pose proof (Z.div_mod maxWait pollInterval ltac:(done)). pose proof (Z.mod_pos_bound maxWait pollInterval ltac:(done)).
  unfold pollInterval, second in *. lia.
Qed.

Lemma run_honest {A} env (p : prog A) h : honest_clock env -> honest h -> honest (fst (run env p h)).
Proof.
  intros He. revert h. induction p as [a | c k IH]; cbn; intros h Hh; [done |]. apply IH.
  destruct c; cbn [honest]; try done; (split; [apply He | done]).
Qed.
Lemma never_reached {A} env (p : prog A) :
  honest_clock env -> wpc polls p (fun _ _ => True) [] -> hist_ok (fun _ => never_stuck) (fst (run env p [])).
Proof.
  intros He Hp. pose proof (run_honest env p [] He I) as Hh. destruct (wpc_run env _ p _ [] Hp I) as [Hok _].
  induction (fst (run env p [])) as [| [c r] h IH]; [done |]. cbn in Hok. destruct Hok as [Hc Hok].
  apply honest_cons in Hh as Hh'. split; [| by apply IH]. intros Hs. by apply (Hc Hs).
Qed.
End clock.

(** C19: every wait of a mount ends.  Under a clock that never goes back and moves
    at least as much as the process sleeps, the upload drain (polled every 2 s
    within its budget, 6 h at most), the wait for a new mount to become ready
    and the re-exposure of a session (every 500 ms, 20 s) all return: the fuel
    of their loops, one round per poll period of the budget and two to spare,
    never runs out, whatever else the host answers. *)
Theorem polling_ends t0 env mm maxWait :
  honest_clock t0 env ->
  hist_ok (fun _ => never_stuck) (fst (run env (waitForPendingUploads mm maxWait) []))
  /\ hist_ok (fun _ => never_stuck) (fst (run env (waitForMountReady mm) []))
  /\ hist_ok (fun _ => never_stuck) (fst (run env (Reexpose mm) [])).
Proof.
  intros He. splits; (apply (never_reached t0); [done |]);
    [apply waitForPendingUploads_ends | apply waitForMountReady_ends | apply Reexpose_ends].
Qed.

(** A clock that moves by exactly what is slept, and an rclone that always has
    one upload in progress. *)
Definition slow_world : environment := fun h => override_env (fun h c =>
  match c with
  | CNow => Some (earliest 0 h)
  | CRpc "vfs/stats" _ _ => Some (RpcDone 200 (BodyJson [("diskCache", JObj [("uploadsInProgress", JNum 1)])]))
  | _ => None
  end) h.
Definition session_mm : MountManager := set_session example_mm "/var/lib/lukscrypt-cache/sessions/pvc-1/s".

Lemma polling_ends_witness :
  hist_ok (fun _ => never_stuck) (fst (run slow_world (waitForPendingUploads session_mm ShortDrainWait) []))
  /\ existsb (fun e => match e with Ev (CDiverge _) _ => true | _ => false end)
       (fst (run slow_world (waitForPendingUploads session_mm ShortDrainWait) [])) = false
  /\ snd (run slow_world (waitForPendingUploads session_mm ShortDrainWait) []) = false.
Proof.
  split; [| split; vm_compute; reflexivity].
  refine (proj1 (polling_ends 0 slow_world session_mm ShortDrainWait _)). intros h. unfold slow_world, override_env. lia.
Defined.

End Polling.
