(* ===== verification/Eviction.v ===== *)
(** * Eviction: the cache monitor (pkg/rclone/syncmanager.go)

    [evictCacheIfNeeded] and what it calls: the gates, the collection of the
    cache files, the scan for open descriptors, the removal loop and the
    vfs/forget calls for what was removed. *)

From Stdlib Require Import Ascii.
From S2P Require Import Prelude GoStrings Effects Units Rpc VfsNames VfsCache Session MountManager.
Import Units Rpc VfsNames VfsCache Session MountManager.

Module Eviction.

Record cachedFile : Set := CFile { cf_path : string; cf_size : Z; cf_modTime : Z }.

Definition list_nonempty (k : string) (o : list (string * json)) : bool :=
  match field k o with Some (JArr (_ :: _)) => true | _ => false end.

Definition hasActiveTransfers : prog bool :=
  let* (result, err) := RPCWithTimeout "core/stats" [] rpcStatsTimeout ;;
  Ret match err with
      | Some _ => true
      | None =>
          match result with
          | None => false
          | Some r => match Output r with
                      | None => false
                      | Some o => list_nonempty "transferring" o || list_nonempty "checking" o
                      end
          end
      end.

(** Whether [cacheFSFreeFraction] is below 0.10; [None]: undetermined. *)
Definition cache_fs_low : prog bool :=
  r <- perform (CStatfs VFSCacheBasePath) ;;
  Ret match r with
      | Err _ => false
      | Ok st => negb (f_blocks st =? 0) && (10 * f_bavail st <? f_blocks st)
      end.

(** The walk that collects the files. *)
Fixpoint collect (visits : list visit) : prog (list cachedFile) :=
  match visits with
  | [] => Ret []
  | VFile path :: visits =>
      info <- perform (CInfo path) ;;
      rest <- collect visits ;;
      Ret match info with Ok (size, mtime) => CFile path size mtime :: rest | Err _ => rest end
  | _ :: visits => collect visits
  end.

Definition total_size (files : list cachedFile) : Z := foldr (fun f n => cf_size f + n) 0 files.

(** ** Open files *)

Fixpoint open_links (fdDir realRoot : string) (entries : list dirent) : prog (list string) :=
  match entries with
  | [] => Ret []
  | e :: entries =>
      t <- perform (CReadlink (path_join [fdDir; de_name e])) ;;
      rest <- open_links fdDir realRoot entries ;;
      Ret match t with
          | Ok target => if has_prefix realRoot target then target :: rest else rest
          | Err _ => rest
          end
  end.

Fixpoint open_dirs (realRoot : string) (fdDirs : list string) : prog (list string) :=
  match fdDirs with
  | [] => Ret []
  | d :: fdDirs =>
      r <- perform (CReadDir d) ;;
      here <- match r with Ok entries => open_links d realRoot entries | Err _ => Ret [] end ;;
      rest <- open_dirs realRoot fdDirs ;;
      Ret (here ++ rest)
  end.

(** [openFilesUnder]; its ok flag is false only for a malformed glob pattern,
    and this one is a constant. *)
Definition openFilesUnder (root : string) : prog (list string * string) :=
  er <- perform (CEvalSymlinks root) ;;
  let realRoot := match er with Ok r => r | Err _ => root end in
  fdDirs <- perform CGlobFds ;;
  open <- open_dirs realRoot fdDirs ;;
  Ret (open, realRoot).

Definition resolveUnder (root realRoot path : string) : string :=
  if decide (root = realRoot) then path
  else match rel_under root path with
       | None => path
       | Some rel => path_join [realRoot; rel]
       end.

(** ** The removal loop *)

Definition older (a b : cachedFile) : Prop := cf_modTime a <= cf_modTime b.
#[export] Instance older_dec : RelDecision older.
Proof. intros a b. unfold Decision, older. apply Z_le_dec. Defined.

Fixpoint evict_loop (cacheDir realRoot : string) (open : list string) (maxBytes : Z)
    (files : list cachedFile) (totalSize : Z) (evicted : list string) : prog (Z * list string) :=
  match files with
  | [] => Ret (totalSize, evicted)
  | f :: files =>
      if totalSize <=? maxBytes then Ret (totalSize, evicted)
      else if decide (resolveUnder cacheDir realRoot (cf_path f) ∈ open)
      then evict_loop cacheDir realRoot open maxBytes files totalSize evicted
      else
        r <- perform (CRemove (cf_path f)) ;;
        match r with
        | Err _ => evict_loop cacheDir realRoot open maxBytes files totalSize evicted
        | Ok _ => evict_loop cacheDir realRoot open maxBytes files (totalSize - cf_size f)
                    (evicted ++ [cf_path f])
        end
  end.

(** ** Forgetting *)

Definition perCall : nat := 500.

Definition file_key (n : nat) : string :=
  if (n =? 0)%nat then "file" else "file" +s+ format_int (Z.of_nat n + 1).

(** The parameters of the calls, in order: [cur] the current call's files. *)
Fixpoint forget_chunks (rels : list string) (cur : list (string * pval)) : list (list (string * pval)) :=
  match rels with
  | [] => match cur with [] => [] | _ => [cur] end
  | r :: rels =>
      let cur := cur ++ [(file_key (length cur), PStr r)] in
      if (perCall <=? length cur)%nat then cur :: forget_chunks rels []
      else forget_chunks rels cur
  end.

(** The relative paths of what was evicted; those above the root are dropped. *)
Definition forgettable (cacheDir : string) (paths : list string) : list string :=
  omap (fun p => match rel_under cacheDir p with
                 | Some rel => if has_prefix ".." rel then None else Some rel
                 | None => None end) paths.

Definition forgetCachePaths (mm : MountManager) (cacheDir : string) (paths : list string) : prog unit :=
  for_each (forget_chunks (forgettable cacheDir paths) [])
    (fun files => RPCWithTimeout "vfs/forget" (fs_param mm ++ files) rpcRefreshTimeout ;;; Ret tt).

(** ** The pass *)

Definition evictCacheIfNeeded (mm : MountManager) (cacheDir : string) (maxBytes : Z) : prog unit :=
  busy <- hasActiveTransfers ;;
  if (busy : bool) then Ret tt
  else
    empty <- uploadQueueConfirmedEmpty mm ;;
    if negb empty then Ret tt
    else
      visits <- perform (CWalkDir cacheDir) ;;
      files <- collect visits ;;
      let totalSize := total_size files in
      low <- cache_fs_low ;;
      let shed := Z.quot (totalSize * 7) 10 in
      let maxBytes := if (low : bool) && (shed <? maxBytes) then shed else maxBytes in
      if totalSize <=? maxBytes then Ret tt
      else
        let* (open, realRoot) := openFilesUnder cacheDir ;;
        let* (_, evicted) := evict_loop cacheDir realRoot open maxBytes (merge_sort older files) totalSize [] ;;
        forgetCachePaths mm cacheDir evicted.

(** [cacheMonitor]: the limit and the period it runs with, if it runs. *)
Definition cacheMonitor (mm : MountManager) : option (Z * Z) :=
  if bool_decide (vfsName mm = "") then None
  else if bool_decide (CacheMaxSize (vfsConfig mm) = "") then None
  else match parseSizeToBytes (CacheMaxSize (vfsConfig mm)) with
       | Err _ => None
       | Ok parsed =>
           if parsed <=? 0 then None
           else
             let s := CachePollInterval (vfsConfig mm) in
             let poll := if bool_decide (s = "") then minute
                         else match parseDurationToNs s with
                              | Ok ns => if 0 <? ns then ns else minute
                              | Err _ => minute end in
             Some (parsed, poll)
       end.
Definition cacheMonitor_tick (mm : MountManager) : prog unit :=
  match cacheMonitor mm with
  | Some (maxBytes, _) => evictCacheIfNeeded mm (cache_dir mm) maxBytes
  | None => Ret tt
  end.

(** ** Specifications

    A pass in a world that does not change while it runs. *)

Section pass.
Context (f : forall c, reply c) (mm : MountManager) (cacheDir : string).

(** Some process holds [target] open, and the scan of [root] can see it. *)
Definition held_open (root target : string) : Prop :=
  exists d entries e, d ∈ f CGlobFds /\ f (CReadDir d) = Ok entries /\ e ∈ entries
    /\ f (CReadlink (path_join [d; de_name e])) = Ok target /\ has_prefix root target = true.

Definition real_root : string := match f (CEvalSymlinks cacheDir) with Ok r => r | Err _ => cacheDir end.

Lemma eval_open_links d root entries target :
  target ∈ eval f (open_links d root entries)
  <-> exists e, e ∈ entries /\ f (CReadlink (path_join [d; de_name e])) = Ok target
        /\ has_prefix root target = true.
Proof.
  induction entries as [| e entries IH]; cbn [open_links].
  { cbn. split; [by intros ?%not_elem_of_nil | by intros (e & ?%not_elem_of_nil & _)]. }
  cbn [bind perform eval]. rewrite eval_bind. cbn [eval].
  destruct (f (CReadlink _)) as [t | er] eqn:Et.
  - destruct (has_prefix root t) eqn:Ep.
    + rewrite elem_of_cons, IH. split.
      * intros [-> | (x & ? & ?)]; [exists e; auto using list_elem_of_here | exists x; split; [by right | done]].
      * intros (x & [-> | Hx]%elem_of_cons & H1 & H2); [left; congruence | right; by exists x].
    + rewrite IH. split.
      * intros (x & ? & ?). exists x. split; [by right | done].
      * intros (x & [-> | Hx]%elem_of_cons & H1 & H2); [congruence | by exists x].
  - rewrite IH. split.
    + intros (x & ? & ?). exists x. split; [by right | done].
    + intros (x & [-> | Hx]%elem_of_cons & H1 & H2); [congruence | by exists x].
Qed.

Lemma eval_open_dirs root dirs target :
  target ∈ eval f (open_dirs root dirs)
  <-> exists d entries e, d ∈ dirs /\ f (CReadDir d) = Ok entries /\ e ∈ entries
        /\ f (CReadlink (path_join [d; de_name e])) = Ok target /\ has_prefix root target = true.
Proof.
  induction dirs as [| d dirs IH]; cbn [open_dirs].
  { cbn. split; [by intros ?%not_elem_of_nil | by intros (d & es & e & ?%not_elem_of_nil & _)]. }
  cbn [bind perform eval]. rewrite !eval_bind. cbn [eval]. rewrite elem_of_app, IH. split.
  - intros [Hl | (d' & es & e & ? & ?)]; [| exists d', es, e; split; [by right | done]].
    destruct (f (CReadDir d)) as [es | er] eqn:Ed; [| by apply not_elem_of_nil in Hl].
    apply eval_open_links in Hl as (e & ? & ?). exists d, es, e. split; [by left | auto].
  - intros (d' & es & e & [-> | Hd]%elem_of_cons & H1 & H2); [left | right; by exists d', es, e].
    rewrite H1. apply eval_open_links. by exists e.
Qed.

Lemma eval_openFilesUnder :
  exists open, eval f (openFilesUnder cacheDir) = (open, real_root)
    /\ forall target, target ∈ open <-> held_open real_root target.
Proof.
  unfold openFilesUnder, real_root. cbn [bind perform eval]. cbn zeta. rewrite eval_bind. cbn [eval].
  eexists. split; [reflexivity |]. intros target. apply eval_open_dirs.
Qed.

Lemma eval_collect visits c : c ∈ eval f (collect visits) -> VFile (cf_path c) ∈ visits
  /\ f (CInfo (cf_path c)) = Ok (cf_size c, cf_modTime c).
Proof.
  induction visits as [| v visits IH]; cbn [collect]; [by intros ?%not_elem_of_nil |].
  destruct v as [p | p | p e].
  1,3: intros [H1 H2]%IH; split; [by right | done].
  cbn [bind perform eval]. rewrite eval_bind. cbn [eval].
  destruct (f (CInfo p)) as [[size mtime] | e] eqn:Ei.
  - intros [-> | [H1 H2]%IH]%elem_of_cons; [split; [by left | done] | split; [by right | done]].
  - intros [H1 H2]%IH. split; [by right | done].
Qed.

(** What the loop does, in the order of the files: it stops as soon as the
    total is within the limit; a file it passes over is open or could not be
    removed. *)
Lemma evict_loop_result root open maxBytes files total evicted :
  exists gone kept rest,
    eval f (evict_loop cacheDir root open maxBytes files total evicted)
      = (total - total_size gone, evicted ++ map cf_path gone)
    /\ Permutation files (gone ++ kept ++ rest)
    /\ (forall c, c ∈ gone -> f (CRemove (cf_path c)) = Ok tt
          /\ resolveUnder cacheDir root (cf_path c) ∉ open)
    /\ (forall c, c ∈ kept -> resolveUnder cacheDir root (cf_path c) ∈ open
          \/ f (CRemove (cf_path c)) <> Ok tt)
    /\ (total - total_size gone <= maxBytes \/ rest = []).
Proof.
  revert total evicted. induction files as [| c files IH]; intros total evicted; cbn [evict_loop].
  { exists [], [], []. cbn. rewrite app_nil_r, Z.sub_0_r. splits; auto;
      by intros ? ?%not_elem_of_nil. }
  destruct (total <=? maxBytes) eqn:E; bools.
  { exists [], [], (c :: files). cbn. rewrite app_nil_r, Z.sub_0_r.
    splits; auto; by intros ? ?%not_elem_of_nil. }
  destruct (decide _) as [Ho | Ho].
  { destruct (IH total evicted) as (g & k & r & H1 & H2 & H3 & H4 & H5).
    exists g, (c :: k), r. splits; auto.
    - rewrite H2. apply (Permutation_middle g (k ++ r)).
    - intros x [-> | Hx]%elem_of_cons; [by left | auto]. }
  cbn [bind perform eval]. destruct (f (CRemove (cf_path c))) as [[] | er] eqn:Er.
  - destruct (IH (total - cf_size c) (evicted ++ [cf_path c])) as (g & k & r & H1 & H2 & H3 & H4 & H5).
    exists (c :: g), k, r. cbn [map total_size foldr]. fold (total_size g). splits; auto.
    + rewrite H1, <- app_assoc. f_equal. lia.
    + cbn. by rewrite H2.
    + intros x [-> | Hx]%elem_of_cons; [done | auto].
    + destruct H5; [left; lia | by right].
  - destruct (IH total evicted) as (g & k & r & H1 & H2 & H3 & H4 & H5).
    exists g, (c :: k), r. splits; auto.
    + rewrite H2. apply (Permutation_middle g (k ++ r)).
    + intros x [-> | Hx]%elem_of_cons; [right; congruence | auto].
Qed.

(** vfs/stats of this mount was answered, with a disk cache in which both
    counters are there and zero. *)
Definition stats_idle : Prop :=
  exists b st body o dc, f (CRpc "vfs/stats" (fs_param mm) b) = RpcDone st body /\ st < 400
    /\ body_output body = Some o /\ field "diskCache" o = Some (JObj dc)
    /\ field "uploadsInProgress" dc = Some (JNum 0) /\ field "uploadsQueued" dc = Some (JNum 0).
(** core/stats was answered, and lists nothing as being transferred or checked. *)
Definition no_transfers : Prop :=
  exists b st body, f (CRpc "core/stats" [] b) = RpcDone st body /\ st < 400
    /\ forall o k x l, body_output body = Some o -> k ∈ ["transferring"; "checking"] -> field k o <> Some (JArr (x :: l)).

Lemma eval_RPC m params t :
  snd (eval f (RPCWithTimeout m params t)) = None ->
  exists st body, f (CRpc m params t) = RpcDone st body /\ st < 400
    /\ fst (eval f (RPCWithTimeout m params t)) = Some (MkRPCResult (body_output body) st).
Proof.
  unfold RPCWithTimeout, callLibrclone. rewrite !eval_bind. cbn [bind perform eval].
  destruct (f (CRpc m params t)) as [| st body]; [done |]. destruct (400 <=? st) eqn:E; bools.
  - by rewrite eval_bind.
  - cbn. intros _. exists st, body. split; [done |]. split; [lia | done].
Qed.

Lemma confirmed_idle : eval f (uploadQueueConfirmedEmpty mm) = true -> stats_idle.
Proof.
  unfold uploadQueueConfirmedEmpty. rewrite eval_bind. destruct (negb _); [done |]. rewrite eval_bind.
  pose proof (eval_RPC "vfs/stats" (fs_param mm) rpcStatsTimeout) as Hr.
  destruct (eval f (RPCWithTimeout _ _ _)) as [res [e |]]; [done |].
  destruct (Hr eq_refl) as (st & body & Hf & Hst & [= ->]). cbn [eval disk_cache Output].
  destruct (body_output body) as [o |] eqn:Eo; [| done].
  destruct (field "diskCache" o) as [[| | | | | dc] |] eqn:Ed; try done. unfold num_field.
  destruct (field "uploadsInProgress" dc) as [[] |] eqn:E1; try done.
  destruct (field "uploadsQueued" dc) as [[] |] eqn:E2; try done.
  intros Hq. bools. subst. exists rpcStatsTimeout, st, body, o, dc. splits; auto.
Qed.
Lemma inactive_idle : eval f hasActiveTransfers = false -> no_transfers.
Proof.
  unfold hasActiveTransfers. rewrite eval_bind. pose proof (eval_RPC "core/stats" [] rpcStatsTimeout) as Hr.
  destruct (eval f (RPCWithTimeout _ _ _)) as [res [e |]]; [done |].
  destruct (Hr eq_refl) as (st & body & Hf & Hst & [= ->]). cbn [eval Output]. intros Hl.
  exists rpcStatsTimeout, st, body. split; [done |]. split; [done |]. intros o k x l Ho Hk Hfield. rewrite Ho in Hl.
  apply orb_false_iff in Hl as [H1 H2]. unfold list_nonempty in H1, H2.
  apply elem_of_cons in Hk as [-> | ->%list_elem_of_singleton]; [by rewrite Hfield in H1 | by rewrite Hfield in H2].
Qed.

Definition evict_call (c : call) : Prop :=
  match c with
  | CRemove p => VFile p ∈ f (CWalkDir cacheDir)
      /\ stats_idle /\ no_transfers
      /\ ~ held_open real_root (resolveUnder cacheDir real_root p)
  | CRpc m _ _ => m = "core/stats" \/ m = "vfs/stats" \/ m = "vfs/forget"
  | CDiverge _ => True
  | c => mutates c = false
  end.

Lemma sok_looks {A} (p : prog A) h Q : wpc looks_only p Q h -> sok f evict_call p.
Proof.
  intros H. eapply sok_wpc. eapply wpc_looks; [exact H |]. intros h' c Hc. by destruct c.
Qed.
Lemma sok_rpc m params t :
  m = "core/stats" \/ m = "vfs/stats" \/ m = "vfs/forget" -> sok f evict_call (RPCWithTimeout m params t).
Proof. intros Hm. eapply sok_wpc with (h := []), (RPC_guard (fun _ => evict_call)); by intros. Qed.
Lemma sok_asks {A} (p : prog A) h Q : wpc asks_only p Q h -> sok f evict_call p.
Proof.
  intros H. eapply sok_wpc, (wpc_mono _ (fun _ => evict_call)); [exact H | | done].
  intros h' c Hc. destruct c; try done. cbn in *. auto.
Qed.

Lemma sok_evict_loop open maxBytes files total evicted :
  (forall c, c ∈ files -> VFile (cf_path c) ∈ f (CWalkDir cacheDir)) ->
  (forall t, t ∈ open <-> held_open real_root t) ->
  stats_idle -> no_transfers ->
  sok f evict_call (evict_loop cacheDir real_root open maxBytes files total evicted).
Proof.
  intros Hf Ho He Ha. revert total evicted. induction files as [| c files IH]; intros total evicted; [done |].
  cbn [evict_loop]. destruct (total <=? maxBytes); [done |].
  assert (Hf' : forall c, c ∈ files -> VFile (cf_path c) ∈ f (CWalkDir cacheDir)) by (intros; apply Hf; by right).
  destruct (decide _) as [| Hn]; [by apply IH |]. apply sok_bind. cbn. split.
  - split; [| done]. split; [apply Hf; by left |]. by rewrite <- Ho.
  - destruct (f (CRemove _)); by apply IH.
Qed.

Lemma sok_open_links d root entries : sok f evict_call (open_links d root entries).
Proof.
  induction entries as [| e entries IH]; [done |]. cbn [open_links].
  apply sok_bind. split; [done |]. apply sok_bind. done.
Qed.
Lemma sok_openFilesUnder : sok f evict_call (openFilesUnder cacheDir).
Proof.
  unfold openFilesUnder. apply sok_bind. split; [done |]. cbn zeta. apply sok_bind. split; [done |].
  apply sok_bind. split; [| done].
  generalize (eval f (perform CGlobFds)) as dirs. intros dirs.
  induction dirs as [| d dirs IH]; [done |]. cbn [open_dirs].
  apply sok_bind. split; [done |]. apply sok_bind. split; [| by apply sok_bind].
  rewrite eval_perform. destruct (f (CReadDir d)); [apply sok_open_links | done].
Qed.

Lemma sok_collect visits : sok f evict_call (collect visits).
Proof.
  induction visits as [| [p | p | p e] visits IH]; cbn [collect]; try done.
  apply sok_bind. split; [done |]. by apply sok_bind.
Qed.

Lemma sok_forget paths : sok f evict_call (forgetCachePaths mm cacheDir paths).
Proof.
  unfold forgetCachePaths. apply sok_for_each. intros c _. apply sok_bind.
  split; [apply sok_rpc; auto | done].
Qed.

Lemma sok_evict maxBytes : sok f evict_call (evictCacheIfNeeded mm cacheDir maxBytes).
Proof.
  unfold evictCacheIfNeeded. apply sok_bind. split.
  { unfold hasActiveTransfers. apply sok_bind. split; [apply sok_rpc; auto |].
    by destruct (eval f _) as [? ?]. }
  destruct (eval f hasActiveTransfers) eqn:Ha; [done |]. apply sok_bind.
  split; [eapply (sok_asks _ []), uploadQueueConfirmedEmpty_spec |].
  destruct (eval f (uploadQueueConfirmedEmpty mm)) eqn:He; cbn [negb]; [| done].
  apply sok_bind. split; [done |]. apply sok_bind. split; [apply sok_collect |]. cbn zeta.
  apply sok_bind. split; [done |]. destruct (_ <=? _); [done |].
  apply sok_bind. split; [apply sok_openFilesUnder |].
  destruct eval_openFilesUnder as (open & -> & Ho). apply sok_bind. split.
  - apply sok_evict_loop; [| done | by apply confirmed_idle | by apply inactive_idle]. intros c Hc.
    rewrite merge_sort_Permutation in Hc. by apply eval_collect in Hc as [? _].
  - destruct (eval f (evict_loop _ _ _ _ _ _ _)). apply sok_forget.
Qed.
End pass.

(** C28: an eviction pass never deletes a write or pulls a file from under a
    reader.  In a world that holds still for the pass, whatever it answers:
    every file removed was listed in the volume's own cache directory, is held
    open by no process whose descriptors can be read (through symlinks too), and
    is removed only when vfs/stats was answered with a disk cache that has both
    its upload counters, at zero, and core/stats was answered with nothing in
    its lists of transfers and of checks. *)
Theorem eviction_removes_only_idle_files (f : forall c, reply c) mm cacheDir maxBytes p r :
  Ev (CRemove p) r ∈ fst (run (fun _ => f) (evictCacheIfNeeded mm cacheDir maxBytes) []) ->
  VFile p ∈ f (CWalkDir cacheDir)
  /\ ~ held_open f (real_root f cacheDir) (resolveUnder cacheDir (real_root f cacheDir) p)
  /\ stats_idle f mm /\ no_transfers f.
Proof.
  intros Hin. eapply sok_run in Hin; [| apply (sok_evict f mm cacheDir maxBytes)].
  destruct Hin as [Hin | (? & ? & ? & ?)]; [by apply not_elem_of_nil in Hin | done].
Qed.

(** A cache of two files, the older one open. *)
Definition evict_world (c : call) : reply c :=
  match c return reply c with
  | CHostMounts => Some {["/stage" := [{| Dev := "0:50"; FSType := "fuse.rclone" |}]]}
  | CRpc "core/stats" _ _ => RpcDone 200 (BodyJson [])
  | CRpc "vfs/stats" _ _ => RpcDone 200 (BodyJson [("diskCache",
      JObj [("uploadsInProgress", JNum 0); ("uploadsQueued", JNum 0)])])
  | CWalkDir "/c" => [VDir "/c"; VFile "/c/a"; VFile "/c/b"; VFile "/c/d"]
  | CInfo "/c/a" => Ok (10, 1) | CInfo "/c/b" => Ok (10, 2) | CInfo "/c/d" => Ok (10, 3)
  | CGlobFds => ["/proc/7/fd"]
  | CReadDir "/proc/7/fd" => Ok [DirEnt "3" false false false]
  | CReadlink "/proc/7/fd/3" => Ok "/c/a"
  | c => default_reply c
  end.

Lemma eviction_removes_only_idle_files_witness :
  Ev (CRemove "/c/b") (Ok tt)
    ∈ fst (run (fun _ => evict_world) (evictCacheIfNeeded example_mm "/c" 20) [])
  /\ ~ held_open evict_world "/c" "/c/b".
Proof.
  assert (H : Ev (CRemove "/c/b") (Ok tt)
    ∈ fst (run (fun _ => evict_world) (evictCacheIfNeeded example_mm "/c" 20) [])).
  { vm_compute. repeat first [by left | right]. }
  split; [exact H |].
  exact (proj1 (proj2 (eviction_removes_only_idle_files _ _ _ _ _ _ H))).
Defined.

(** The eviction loop, exactly.  Of the files in the order given (the pass
    sorts them oldest first) it removes some and passes over some (each open,
    or not removable); the total it reports is the old one less the sizes of
    exactly the files removed; and it stops either within the limit or when
    every file was tried.  It never removes a file once the total is within
    the limit. *)
Theorem evict_loop_exact f cacheDir root open maxBytes files total evicted :
  exists gone kept rest,
    eval f (evict_loop cacheDir root open maxBytes files total evicted)
      = (total - total_size gone, evicted ++ map cf_path gone)
    /\ Permutation files (gone ++ kept ++ rest)
    /\ (forall c, c ∈ gone -> f (CRemove (cf_path c)) = Ok tt
          /\ resolveUnder cacheDir root (cf_path c) ∉ open)
    /\ (forall c, c ∈ kept -> resolveUnder cacheDir root (cf_path c) ∈ open
          \/ f (CRemove (cf_path c)) <> Ok tt)
    /\ (total - total_size gone <= maxBytes \/ rest = []).
Proof. apply evict_loop_result. Qed.

(** ** Forgetting *)

Definition chunk_values (c : list (string * pval)) : list pval := map snd c.

Lemma forget_chunks_values rels cur :
  (length cur < perCall)%nat ->
  concat (map chunk_values (forget_chunks rels cur)) = chunk_values cur ++ map PStr rels
  /\ Forall (fun c => (1 <= length c <= perCall)%nat) (forget_chunks rels cur).
Proof.
  revert cur. induction rels as [| r rels IH]; intros cur Hc; cbn [forget_chunks].
  - destruct cur as [| x cur]; cbn [map concat]; [done |]. rewrite !app_nil_r. split; [done |].
    constructor; [| done]. cbn in *. lia.
  - set (cur' := cur ++ [_]).
    assert (Hl : length cur' = S (length cur)) by (subst cur'; rewrite length_app; cbn; lia).
    assert (Hv : chunk_values cur' = chunk_values cur ++ [PStr r]).
    { subst cur'. unfold chunk_values. by rewrite map_app. }
    destruct (perCall <=? length cur')%nat eqn:E.
    + apply Nat.leb_le in E. destruct (IH []) as [H1 H2]; [unfold perCall; cbn; lia |].
      cbn [map concat]. rewrite H1, Hv. split; [by rewrite <- app_assoc |].
      constructor; [| done]. lia.
    + apply Nat.leb_gt in E. destruct (IH cur') as [H1 H2]; [done |].
      rewrite H1, Hv. split; [by rewrite <- app_assoc | done].
Qed.

(** After an eviction rclone is told of exactly what was evicted: the files
    of the vfs/forget calls, taken together, are the evicted paths relative
    to the cache directory, each once and in order, in calls of at most 500
    and none empty. *)
Theorem forget_covers_evicted cacheDir paths :
  let calls := forget_chunks (forgettable cacheDir paths) [] in
  concat (map chunk_values calls) = map PStr (forgettable cacheDir paths)
  /\ Forall (fun c => (1 <= length c <= perCall)%nat) calls.
Proof. apply (forget_chunks_values _ []). unfold perCall. cbn. lia. Qed.

End Eviction.
