(* ===== verification/Csi.v ===== *)
(** * Csi: the CSI messages the driver reads, and driver.go's constants

    Requests and responses as records of the fields used.  A getter on a nil
    message gives the zero value, as in Go. *)

From S2P Require Import Prelude GoStrings Effects Secrets.

Module Csi.

(** ** driver.go *)

Definition DriverName := "lukscryptwalker.csi.k8s.io".
Definition TopologyKeyNode := "topology." +s+ DriverName +s+ "/node".
Definition PinnedNodeParam := DriverName +s+ "/node".
Definition controllerSocketDir := "/var/lib/csi/sockets/pluginproxy/".
Definition IsNodeMode (endpoint : string) : bool := negb (contains endpoint controllerSocketDir).

Definition StorageBackendParam := "storage-backend".
Definition S3PathPrefixParam := "s3-path-prefix".

(** ** Messages *)

Inductive access_mode : Set :=
  | SINGLE_NODE_WRITER | SINGLE_NODE_READER_ONLY | OTHER_MODE (n : Z).
#[global] Instance access_mode_eq_dec : EqDecision access_mode.
Proof. solve_decision. Defined.

Record mount_volume : Set := MountVolume
  { fs_type : string; mount_flags : list string; volume_mount_group : string }.
(** [vc_mount = None]: not the mount access type. *)
Record capability : Set := Capability
  { vc_mount : option mount_volume; vc_mode : access_mode }.

Record capacity_range : Set := CapacityRange { required_bytes : Z; limit_bytes : Z }.

(** Required bytes, or the limit where they are 0. *)
Definition requested (r : capacity_range) : Z :=
  if required_bytes r =? 0 then limit_bytes r else required_bytes r.

Abbreviation segments := (gmap string string).
Record topology_requirement : Type := Topology
  { requisite : list segments; preferred : list segments }.

Record create_request : Type := CreateReq
  { cr_name : string; cr_caps : option (list capability); cr_capacity : option capacity_range;
    cr_parameters : gmap string string; cr_topology : topology_requirement }.
Record volume : Type := Volume
  { v_id : string; v_capacity : Z; v_context : gmap string string; v_topology : list segments }.

Record stage_request : Type := StageReq
  { st_volume : string; st_staging : string; st_cap : option capability;
    st_context : gmap string string }.
Record publish_request : Type := PublishReq
  { pb_volume : string; pb_staging : string; pb_target : string; pb_cap : option capability;
    pb_readonly : bool; pb_context : gmap string string }.
Record expand_request : Type := ExpandReq
  { ex_volume : string; ex_path : string; ex_capacity : option capacity_range }.

Definition missing (what : string) : status := Status InvalidArgument (what +s+ " missing in request").

End Csi.
