(* ===== verification/Endpoint.v ===== *)
(** * Endpoint: the CSI endpoint and the server on it (pkg/driver/driver.go)

    What the driver reads of its endpoint's URL, the socket it serves on, and
    the one its registration check dials. *)

From Stdlib Require Import Ascii.
From S2P Require Import Prelude GoStrings Effects Csi.
Import Csi.

Module Endpoint.

(** ** net/url

    The fields of [url.URL] the driver reads. *)
Record url : Set := Url { u_scheme : string; u_host : string; u_path : string }.

Definition is_letter (c : ascii) : bool :=
  let n := N_of_ascii c in ((65 <=? n) && (n <=? 90) || (97 <=? n) && (n <=? 122))%N.
(** The characters that stand for themselves in every part of a URL. *)
Definition is_plain (c : ascii) : bool :=
  is_letter c || is_digit c || mem_char c "-._~/".
Definition plain (s : string) : bool := negb (string_exists (fun c => negb (is_plain c)) s).
Definition is_scheme (s : string) : bool :=
  match s with
  | String c s' => is_letter c && negb (string_exists (fun c => negb (is_letter c || is_digit c || mem_char c "+-.")) s')
  | EmptyString => false
  end.

Section endpoint.
(** [url.Parse] outside the form scheme://authority/path of plain characters. *)
Context (parse_other : string -> option url).

Definition url_parse (s : string) : option url :=
  match cut "://" s with
  | Some (scheme, rest) =>
      if is_scheme scheme && plain rest then
        Some match cut "/" rest with
             | Some (host, path) => Url (to_lower scheme) host ("/" +s+ path)
             | None => Url (to_lower scheme) rest ""
             end
      else parse_other s
  | None => parse_other s
  end.

(** ** The server *)

(** [filepath.FromSlash] does nothing on Linux. *)
Definition socket_of (u : url) : string :=
  if bool_decide (u_host u = "") then u_path u else path_join [u_host u; u_path u].

(** "" where the endpoint does not parse. *)
Definition endpointAddr (endpoint : string) : string :=
  match url_parse endpoint with None => "" | Some u => socket_of u end.

(** How [Run] ends badly. *)
Inductive run_error : Set := BadEndpoint | SocketInUse (e : errno) | CannotListen (e : errno) | ServeFailed (e : errno).

(** [net.Listen] and [Serve]: until the context is cancelled or the server
    fails; the handlers of the three services run meanwhile. *)
Definition serve (network addr : string) : prog (result unit run_error) :=
  listener <- perform (CListen network addr) ;;
  match listener with
  | Err e => Ret (Err (CannotListen e))
  | Ok _ =>
      ended <- perform CServe ;;
      Ret match ended with
          | None | Some (Ok _) => Ok tt
          | Some (Err e) => Err (ServeFailed e)
          end
  end.

Definition Run (endpoint : string) : prog (result unit run_error) :=
  match url_parse endpoint with
  | None => Ret (Err BadEndpoint)
  | Some u =>
      removed <- perform (CRemove (socket_of u)) ;;
      match removed with
      | Err e => if bool_decide (e = ENOENT) then serve (u_scheme u) (socket_of u) else Ret (Err (SocketInUse e))
      | Ok _ => serve (u_scheme u) (socket_of u)
      end
  end.

(** ** What they agree on *)

(** A socket given by its absolute path is that path. *)
Theorem unix_endpoint_path path :
  plain path = true -> has_prefix "/" path = true -> endpointAddr ("unix://" +s+ path) = path.
Proof.
  intros Hp Ha. unfold endpointAddr, url_parse.
  replace (cut "://" ("unix://" +s+ path)) with (Some ("unix", path)) by done.
  rewrite Hp. destruct path as [| c path]; [done |].
  unfold has_prefix in Ha. cbn [cut_prefix] in Ha. destruct (Ascii.eqb "/" c) eqn:E; [| done].
  apply Ascii.eqb_eq in E as <-. done.
Qed.

(** The server listens on the socket the registration check dials, after it
    cleared that path and nothing else; it serves only once it listens, and an
    endpoint that does not parse is never listened on, so that the check's
    "" means no socket. *)
Theorem listens_where_it_dials endpoint h :
  let addr := endpointAddr endpoint in
  wpc (fun h c => match c with
         | CRemove p => p = addr
         | CListen _ a => a = addr /\ exists r, head h = Some (Ev (CRemove addr) r) /\ (r = Ok tt \/ r = Err ENOENT)
         | CServe => exists n, head h = Some (Ev (CListen n addr) (Ok tt))
         | _ => False
         end)
    (Run endpoint)
    (fun h' r => match r with
       | Err BadEndpoint => addr = "" /\ h' = h
       | Ok _ | Err (ServeFailed _) => exists n, Ev (CListen n addr) (Ok tt) ∈ h'
       | _ => True
       end) h.
Proof.
  unfold Run, endpointAddr. destruct (url_parse endpoint) as [u |]; [| by cbn].
  assert (Hserve : forall r, r = Ok tt \/ r = Err ENOENT -> forall G : history -> call -> Prop,
    G (Ev (CRemove (socket_of u)) r :: h) (CListen (u_scheme u) (socket_of u)) ->
    G (Ev (CListen (u_scheme u) (socket_of u)) (Ok tt) :: Ev (CRemove (socket_of u)) r :: h) CServe ->
    wpc G (serve (u_scheme u) (socket_of u))
      (fun h' x => match x with
         | Err BadEndpoint => socket_of u = "" /\ h' = h
         | Ok _ | Err (ServeFailed _) => exists n, Ev (CListen n (socket_of u)) (Ok tt) ∈ h'
         | _ => True end) (Ev (CRemove (socket_of u)) r :: h)).
  { intros r Hr G H1 H2. split; [done |]. intros [[] | e]; [| done]. split; [done |].
    intros [[[] | e] |]; cbn; eexists; right; left. }
  split; [done |]. intros [[] | e]; cbn [bind perform].
  - apply Hserve; eauto.
  - case_bool_decide as E; [| done]. subst e. apply Hserve; eauto.
Qed.

End endpoint.

(** The endpoints of the chart. *)
Example chart_endpoints parse_other :
  endpointAddr parse_other "unix:///csi/csi.sock" = "/csi/csi.sock"
  /\ IsNodeMode "unix:///csi/csi.sock" = true
  /\ endpointAddr parse_other "unix:///var/lib/csi/sockets/pluginproxy/csi.sock" = "/var/lib/csi/sockets/pluginproxy/csi.sock"
  /\ IsNodeMode "unix:///var/lib/csi/sockets/pluginproxy/csi.sock" = false
  /\ endpointAddr parse_other "unix://csi/csi.sock" = "csi/csi.sock".
Proof. repeat split. Qed.

End Endpoint.
