(* ===== verification/Controller.v ===== *)
(** * Controller: pkg/driver/controller.go and k8s.go

    The controller service: it answers from the request, the PVs, the
    StorageClasses and the purge of a volume's objects. *)

From S2P Require Import Prelude GoStrings Effects Secrets Rpc RcloneConfig Csi.
Import Csi.

Module K8s.

Section client.
(** Whether [clientset] is non-nil. *)
Context (clientset : bool).

Definition getPVByVolumeID (volumeID : string) : prog (result pv gerr) :=
  if negb clientset then Ret (Err (error_new "kubernetes clientset not available"))
  else
    r <- perform CListPVs ;;
    Ret match r with
        | Err e => Err (Secrets.k8s_err "failed to list PVs" e)
        | Ok l =>
            match List.find (fun p => match pv_csi p with
                                      | Some c => bool_decide (csi_handle c = volumeID)
                                      | None => false end) l with
            | Some p => Ok p
            | None => Err (error_new ("PV with volumeID " +s+ volumeID +s+ " not found"))
            end
        end.

Definition getStorageClassParameters (name : string) : prog (result (gmap string string) gerr) :=
  if negb clientset then Ret (Err (error_new "kubernetes clientset not available"))
  else if bool_decide (name = "") then Ret (Err (error_new "StorageClass name is empty"))
  else
    r <- perform (CGetStorageClass name) ;;
    Ret match r with Ok m => Ok m | Err e => Err (Secrets.k8s_err "failed to get StorageClass" e) end.

(** The two servers' [GetStorageClassParametersByVolumeID] are the same text. *)
Definition GetStorageClassParametersByVolumeID (volumeID : string)
    : prog (result (gmap string string) gerr) :=
  try p <- getPVByVolumeID volumeID else (errorf_w "failed to get PV for volume") ;;
  if bool_decide (pv_storage_class p = "")
  then Ret (Err (error_new ("PV " +s+ volumeID +s+ " has no StorageClass")))
  else
    try m <- getStorageClassParameters (pv_storage_class p)
      else (errorf_w "failed to get StorageClass parameters") ;;
    Ret (Ok m).

Definition GetS3PathPrefixByVolumeID (volumeID : string) : prog (result string gerr) :=
  try m <- GetStorageClassParametersByVolumeID volumeID else (fun e => e) ;;
  Ret (Ok (mget m S3PathPrefixParam)).
End client.

End K8s.

Module Controller.
Import K8s.

Definition defaultCapacity : Z := 1 * 1024 * 1024 * 1024.

Definition known_fs_types : list string := [""; "ext2"; "ext3"; "ext4"; "xfs"].

Fixpoint validateVolumeCapabilities (caps : list capability) : option gerr :=
  match caps with
  | [] => None
  | c :: caps =>
      match vc_mount c with
      | None => Some (error_new "only mount access type is supported")
      | Some m =>
          if negb (bool_decide (vc_mode c = SINGLE_NODE_WRITER))
             && negb (bool_decide (vc_mode c = SINGLE_NODE_READER_ONLY))
          then Some (error_new "unsupported access mode")
          else if negb (bool_decide (fs_type m ∈ known_fs_types))
          then Some (error_new ("unsupported filesystem type: " +s+ fs_type m))
          else validateVolumeCapabilities caps
      end
  end.

Definition capacityOf (r : option capacity_range) : Z :=
  match r with
  | None => defaultCapacity
  | Some r => if requested r =? 0 then defaultCapacity else requested r
  end.

(** The first node named, preferred before requisite. *)
Definition pickTopologyNode (req : topology_requirement) : string :=
  default "" (head (List.filter (fun n => negb (bool_decide (n = "")))
    (map (fun s => mget s TopologyKeyNode) (preferred req ++ requisite req)))).

Definition CreateVolume (req : create_request) : result volume status :=
  if bool_decide (cr_name req = "") then Err (missing "Name")
  else match cr_caps req with
  | None => Err (missing "Volume capabilities")
  | Some caps =>
      match validateVolumeCapabilities caps with
      | Some e => Err (status_errorf InvalidArgument "Invalid volume capabilities" e)
      | None =>
          let capacityBytes := capacityOf (cr_capacity req) in
          let volumeContext := cr_parameters req ∪ {["capacity" := format_int capacityBytes]} in
          if bool_decide (mget (cr_parameters req) StorageBackendParam = "s3") then
            Ok (Volume (cr_name req) capacityBytes volumeContext [])
          else
            let node := pickTopologyNode (cr_topology req) in
            if bool_decide (node = "")
            then Err (Status FailedPrecondition "no topology segment: a local volume cannot be pinned to a node")
            else Ok (Volume (cr_name req) capacityBytes (<[PinnedNodeParam := node]> volumeContext)
                       [{[TopologyKeyNode := node]}])
      end
  end.

(** A nil map and an empty one are both [len(reqSecrets) == 0]. *)
Definition DeleteVolume (clientset : bool) (volumeID : string) (reqSecrets : gmap string string)
    : prog (result unit status) :=
  if bool_decide (volumeID = "") then Ret (Err (missing "Volume ID"))
  else if bool_decide (reqSecrets = ∅) then Ret (Ok tt)
  else
    match Secrets.S3ConfigFromSecrets (Some reqSecrets) with
    | None => Ret (Ok tt)
    | Some s3Creds =>
        p <- GetS3PathPrefixByVolumeID clientset volumeID ;;
        match p with
        | Err e => Ret (Err (status_errorf Unavailable "cannot determine S3 path prefix" e))
        | Ok s3PathPrefix =>
            let s3Config := RcloneConfig.MkS3Config (Secrets.cr_Region s3Creds) (Secrets.cr_Endpoint s3Creds)
              (Secrets.cr_AccessKeyID s3Creds) (Secrets.cr_SecretAccessKey s3Creds)
              (Secrets.cr_Bucket s3Creds) false "" in
            r <- RcloneConfig.DeleteVolumeData s3Config volumeID s3PathPrefix ;;
            Ret match r with
                | Ok _ => Ok tt
                | Err e => Err (status_errorf Internal "failed to delete S3 data" e)
                end
        end
    end.

Inductive controller_rpc : Set := CREATE_DELETE_VOLUME | CONTROLLER_EXPAND_VOLUME.
Definition ControllerGetCapabilities : list controller_rpc := [CREATE_DELETE_VOLUME; CONTROLLER_EXPAND_VOLUME].

(** Confirmed, or the message why not. *)
Definition ValidateVolumeCapabilities (volumeID : string) (caps : option (list capability))
    : result (option string) status :=
  if bool_decide (volumeID = "") then Err (missing "Volume ID")
  else match caps with
       | None => Err (missing "Volume capabilities")
       | Some caps => match validateVolumeCapabilities caps with
                      | Some e => Ok (Some (e_text e))
                      | None => Ok None end
       end.

(** (capacity, node expansion required). *)
Definition ControllerExpandVolume (volumeID : string) (r : option capacity_range) : result (Z * bool) status :=
  if bool_decide (volumeID = "") then Err (missing "Volume ID")
  else match r with
       | None => Err (missing "Capacity range")
       | Some r => if requested r =? 0 then Err (Status InvalidArgument "Required bytes missing in capacity range")
                   else Ok (requested r, true)
       end.

(** The rest of the service. *)
Definition unimplemented (rpc : string) : status := Status Unimplemented (rpc +s+ " is not implemented").
Definition ControllerPublishVolume : result unit status := Err (unimplemented "ControllerPublishVolume").
Definition ControllerUnpublishVolume : result unit status := Err (unimplemented "ControllerUnpublishVolume").
Definition ListVolumes : result unit status := Err (unimplemented "ListVolumes").
Definition GetCapacity : result unit status := Err (unimplemented "GetCapacity").
Definition CreateSnapshot : result unit status := Err (unimplemented "CreateSnapshot").
Definition DeleteSnapshot : result unit status := Err (unimplemented "DeleteSnapshot").
Definition ListSnapshots : result unit status := Err (unimplemented "ListSnapshots").
Definition ControllerGetVolume : result unit status := Err (unimplemented "ControllerGetVolume").

(** ** Lemmas *)

Lemma validate_caps caps :
  validateVolumeCapabilities caps = None <->
  forall c, c ∈ caps -> exists m, vc_mount c = Some m /\ fs_type m ∈ known_fs_types
    /\ (vc_mode c = SINGLE_NODE_WRITER \/ vc_mode c = SINGLE_NODE_READER_ONLY).
Proof.
  induction caps as [| c caps IH]; cbn [validateVolumeCapabilities].
  { split; [by intros _ c ?%not_elem_of_nil | done]. }
  destruct (vc_mount c) as [m |] eqn:Em.
  2: { split; [done |]. intros Hq. destruct (Hq c) as (m & ? & _); [by left | congruence]. }
  destruct (negb (bool_decide (vc_mode c = SINGLE_NODE_WRITER)) && _) eqn:Emode; bools.
  { split; [done |]. intros Hq. destruct (Hq c) as (m' & _ & _ & [|]); [by left | done | done]. }
  destruct (negb (bool_decide (fs_type m ∈ _))) eqn:Efs; bools.
  { split; [done |]. intros Hq. destruct (Hq c) as (m' & ? & ? & _); [by left | congruence]. }
  rewrite IH. split.
  - intros Hq c' [-> | Hc']%elem_of_cons; [| by apply Hq]. exists m. splits; try done.
    destruct (decide (vc_mode c = SINGLE_NODE_WRITER)) as [| Hn]; [by left |]. right.
    rewrite bool_decide_false in Emode by done. cbn in Emode. by bools.
  - intros Hq c' Hc'. apply Hq. by right.
Qed.

Lemma CreateVolume_local req v :
  CreateVolume req = Ok v -> mget (cr_parameters req) StorageBackendParam <> "s3" ->
  exists node caps, node <> "" /\ cr_caps req = Some caps /\ validateVolumeCapabilities caps = None /\ cr_name req <> ""
  /\ v = Volume (cr_name req) (capacityOf (cr_capacity req))
          (<[PinnedNodeParam := node]> (cr_parameters req ∪ {["capacity" := format_int (capacityOf (cr_capacity req))]}))
          [{[TopologyKeyNode := node]}].
Proof.
  unfold CreateVolume. case_bool_decide as Hn; [done |].
  destruct (cr_caps req) as [caps |]; [| done].
  destruct (validateVolumeCapabilities caps) eqn:Ev; [done |]. cbn zeta. intros Hv Hs3.
  rewrite (bool_decide_eq_false_2 _ Hs3) in Hv. case_bool_decide as Hnode; [done |]. injection Hv as <-.
  by exists (pickTopologyNode (cr_topology req)), caps.
Qed.

(** [node] is what the first segment of [l] that names a node names. *)
Definition first_node (l : list (gmap string string)) (node : string) : Prop :=
  exists before s after, l = before ++ s :: after /\ s !! TopologyKeyNode = Some node /\ node <> ""
    /\ forall s', s' ∈ before -> mget s' TopologyKeyNode = "".

Lemma pickTopologyNode_first t :
  pickTopologyNode t <> "" -> first_node (preferred t ++ requisite t) (pickTopologyNode t).
Proof.
  unfold pickTopologyNode. induction (preferred t ++ requisite t) as [| s l IH]; [done |]. cbn [map List.filter].
  case_bool_decide as Hs; cbn [negb].
  - intros Hn. destruct (IH Hn) as (before & s1 & after & -> & H1 & H2 & H3). exists (s :: before), s1, after.
    split; [done |]. split; [done |]. split; [done |]. intros s' [-> | Hin]%elem_of_cons; [done | by apply H3].
  - intros _. cbn [list.head default]. exists [], s, l. split; [done |]. split; [| split; [done | by intros s' ?%not_elem_of_nil]].
    unfold mget in *. destruct (s !! TopologyKeyNode); [done | by destruct Hs].
Qed.

(** C33: which volume [CreateVolume] creates.  It succeeds only for a named
    volume whose capabilities are all mounts, single-node, of a known
    filesystem.  If the parameters ask for S3, the volume has no topology and
    no pin but one that was among the parameters; otherwise it is pinned to one
    node, that of the first segment that names one, the preferred segments
    before the requisite ones: the node is recorded in its context, where no
    StorageClass parameter can change it, and is its only topology.  All other
    parameters are kept as given, and so is the capacity unless a parameter
    overrides it. *)
Theorem CreateVolume_correct req v :
  CreateVolume req = Ok v ->
  v_id v = cr_name req /\ cr_name req <> ""
  /\ (exists caps, cr_caps req = Some caps /\ forall c, c ∈ caps ->
        exists m, vc_mount c = Some m /\ fs_type m ∈ known_fs_types
          /\ (vc_mode c = SINGLE_NODE_WRITER \/ vc_mode c = SINGLE_NODE_READER_ONLY))
  /\ (forall k, k <> PinnedNodeParam -> k <> "capacity" -> v_context v !! k = cr_parameters req !! k)
  /\ (cr_parameters req !! "capacity" = None -> v_context v !! "capacity" = Some (format_int (v_capacity v)))
  /\ if bool_decide (cr_parameters req !! StorageBackendParam = Some "s3")
     then v_topology v = [] /\ v_context v !! PinnedNodeParam = cr_parameters req !! PinnedNodeParam
     else exists node, first_node (preferred (cr_topology req) ++ requisite (cr_topology req)) node
          /\ v_context v !! PinnedNodeParam = Some node /\ v_topology v = [{[TopologyKeyNode := node]}].
Proof.
  unfold CreateVolume. case_bool_decide as Hn; [done |].
  destruct (cr_caps req) as [caps |]; [| done].
  destruct (validateVolumeCapabilities caps) eqn:Ev; [done |]. rewrite validate_caps in Ev. cbn zeta.
  set (ctx := cr_parameters req ∪ _).
  assert (Hctx : forall k, k <> "capacity" -> ctx !! k = cr_parameters req !! k).
  { intros k Hk. subst ctx. rewrite lookup_union, lookup_singleton_ne by done. by destruct (_ !! k). }
  assert (Hcap : cr_parameters req !! "capacity" = None ->
                 ctx !! "capacity" = Some (format_int (capacityOf (cr_capacity req)))).
  { intros H. subst ctx. by rewrite lookup_union, H, lookup_singleton_eq. }
  assert (Hs : mget (cr_parameters req) StorageBackendParam = "s3" <-> cr_parameters req !! StorageBackendParam = Some "s3").
  { unfold mget. destruct (cr_parameters req !! StorageBackendParam); cbn; naive_solver congruence. }
  case_bool_decide as Hs3.
  - intros [= <-]. cbn [v_id v_context v_topology v_capacity].
    rewrite (bool_decide_eq_true_2 (_ = Some "s3")) by by apply Hs. splits; eauto.
  - case_bool_decide as Hnode; [done |]. intros [= <-]. cbn [v_id v_context v_topology v_capacity].
    rewrite (bool_decide_eq_false_2 (_ = Some "s3")) by tauto. splits; eauto.
    + intros k Hk Hk'. rewrite lookup_insert_ne by congruence. auto.
    + intros H. rewrite lookup_insert_ne by done. auto.
    + eexists. split; [by apply pickTopologyNode_first |]. by rewrite lookup_insert_eq.
Qed.

Definition local_request : create_request :=
  CreateReq "pvc-1" (Some [Capability (Some (MountVolume "ext4" [] "")) SINGLE_NODE_WRITER])
    (Some (CapacityRange 2048 0)) {[PinnedNodeParam := "evil"]}
    (Topology [{[TopologyKeyNode := "node-b"]}] [{[TopologyKeyNode := "node-a"]}]).
Definition local_volume : volume :=
  Volume "pvc-1" 2048 (<[PinnedNodeParam := "node-a"]> {["capacity" := "2048"]})
    [{[TopologyKeyNode := "node-a"]}].

Lemma CreateVolume_correct_witness :
  CreateVolume local_request = Ok local_volume
  /\ exists node, node <> "" /\ v_context local_volume !! PinnedNodeParam = Some node.
Proof.
  assert (H : CreateVolume local_request = Ok local_volume) by by vm_compute.
  split; [exact H |].
  destruct (CreateVolume_correct _ _ H) as (_ & _ & _ & _ & _ & Hv).
  rewrite bool_decide_eq_false_2 in Hv by by vm_compute.
  destruct Hv as (node & (_ & _ & _ & _ & _ & Hn & _) & Hp & _). by exists node.
Defined.

(** No S3 data is purged at a guessed place: [DeleteVolume] asks for a purge
    only with the bucket and keys of the request's secrets, and only after the
    volume's PV and StorageClass were read and gave the path prefix; when they
    cannot be read it answers Unavailable, so the caller retries. *)
Theorem DeleteVolume_targets (f : forall c, reply c) clientset volumeID reqSecrets creds :
  volumeID <> "" -> Secrets.S3ConfigFromSecrets (Some reqSecrets) = Some creds ->
  match eval f (GetS3PathPrefixByVolumeID clientset volumeID) with
  | Err _ =>
      exists st, eval f (DeleteVolume clientset volumeID reqSecrets) = Err st /\ st_code st = Unavailable
      /\ sok f (fun c => mutates c = false) (DeleteVolume clientset volumeID reqSecrets)
  | Ok prefix =>
      sok f (fun c => match c with
        | CRpc m params _ => m = "operations/purge" /\ exists remote,
            RcloneConfig.BuildS3RemoteString
              (RcloneConfig.MkS3Config (Secrets.cr_Region creds) (Secrets.cr_Endpoint creds)
                 (Secrets.cr_AccessKeyID creds) (Secrets.cr_SecretAccessKey creds) (Secrets.cr_Bucket creds) false "")
              (RcloneConfig.volumePath volumeID prefix) = Ok remote
            /\ params = [("fs", PStr remote); ("remote", PStr "")]
        | CDiverge _ => True
        | c => mutates c = false end)
      (DeleteVolume clientset volumeID reqSecrets)
  end.
Proof.
  intros Hv Hs. unfold DeleteVolume. rewrite bool_decide_false by done.
  rewrite bool_decide_false.
  2: { intros ->. by vm_compute in Hs. }
  rewrite Hs.
  assert (Hlook : sok f (fun c => mutates c = false) (GetS3PathPrefixByVolumeID clientset volumeID)).
  { eapply sok_wpc with (h := []) (Q := fun _ _ => True).
    unfold GetS3PathPrefixByVolumeID, GetStorageClassParametersByVolumeID, getPVByVolumeID,
      getStorageClassParameters. by wp. }
  destruct (eval f (GetS3PathPrefixByVolumeID clientset volumeID)) as [prefix | e] eqn:E.
  - apply sok_bind. split.
    { eapply sok_mono; [exact Hlook |]. by intros []. }
    rewrite E. unfold RcloneConfig.DeleteVolumeData. apply sok_bind.
    destruct (RcloneConfig.BuildS3RemoteString _ _) as [remote | e'] eqn:Eb; [| done]. split; [| done].
    apply sok_bind. split; [| by repeat case_match].
    unfold Rpc.RPCWithTimeout, Rpc.callLibrclone. apply sok_bind. split.
    + cbn. split; [split; [done | by exists remote] | done].
    + match goal with |- sok _ _ (match ?x with _ => _ end) => destruct x as [[body st] | e2] end; [| done].
      destruct (400 <=? st); [| done]. apply sok_bind. split; [| done].
      unfold Rpc.sanitize. by destruct (Rpc.sanitizeErrorMessage 1 _).
  - rewrite eval_bind, E. cbn [eval]. eexists. split; [done |]. split; [done |].
    apply sok_bind. split; [exact Hlook |]. by rewrite E.
Qed.

Definition s3_secrets : gmap string string :=
  {["s3-bucket" := "b"; "s3-region" := "eu"; "s3-access-key-id" := "AK"; "s3-secret-access-key" := "SK"]}.

Lemma DeleteVolume_targets_witness :
  exists st, eval default_reply (DeleteVolume true "pvc-1" s3_secrets) = Err st /\ st_code st = Unavailable.
Proof.
  pose proof (DeleteVolume_targets default_reply true "pvc-1" s3_secrets
    (Secrets.Creds "b" "eu" "" "AK" "SK") ltac:(done) ltac:(by vm_compute)) as H.
  destruct (eval default_reply (GetS3PathPrefixByVolumeID true "pvc-1")) eqn:E; [by vm_compute in E |].
  destruct H as (st & H1 & H2 & _). by exists st.
Defined.

End Controller.
