(* ===== verification/NodeMounts.v ===== *)
(** * NodeMounts: the node's mounts and loop devices

    The helpers of pkg/driver the node service is built from: bounded commands
    and unmounting (node_s3.go), the mount queries and bind mounts of node.go,
    and the losetup and findmnt readers of utils.go. *)

From Stdlib Require Import Ascii.
From S2P Require Import Prelude GoStrings Effects Luks Mounts.
Import Luks Mounts.

Module NodeMounts.

(** ** Bounded commands (node_s3.go)

    The output of a command that failed or was killed is dropped: no caller
    reads it. *)

Definition runCmdBoundedOutput (timeout : Z) (argv : list string) : prog (result string gerr) :=
  r <- perform (CExec (Some timeout) "" argv) ;;
  Ret match r with
      | XExit 0 out _ => Ok out
      | XExit c _ _ => Err (exit_error c)
      | XStartErr e => Err (errno_err e)
      | XTimeout => Err (error_new (hd "" argv +s+ " timed out"))
      end.
Definition runCmdBounded (timeout : Z) (argv : list string) : prog (result unit gerr) :=
  r <- runCmdBoundedOutput timeout argv ;; Ret match r with Ok _ => Ok tt | Err e => Err e end.

(** The host mount namespace. *)
Definition host_cmd (argv : list string) : list string := ["nsenter"; "-t"; "1"; "-m"] ++ argv.
Definition host_cmd_u (argv : list string) : list string := ["nsenter"; "-t"; "1"; "-m"; "-u"] ++ argv.

(** ** Unmounting (node_s3.go, node.go) *)

Definition unmountHostOnce (path : string) (tryNormal : bool) : prog (result unit gerr) :=
  done <- (if tryNormal then
             r <- runCmdBounded (30 * second) (host_cmd ["umount"; path]) ;; Ret (is_ok r)
           else Ret false) ;;
  if (done : bool) then Ret (Ok tt)
  else
    try _ <- runCmdBounded (30 * second) (host_cmd ["umount"; "-l"; path])
      else (errorf_w ("umount -l " +s+ path +s+ " in the host namespace")) ;;
    Ret (Ok tt).

Definition maxMountStackUnwind : nat := 10.

(** The rounds left, and whether this is the first ([i == 0]). *)
Fixpoint unmount_stack_loop (n : nat) (first : bool) (path : string) : prog (result unit gerr) :=
  match n with
  | O =>
      d <- HostMountDepth path ;;
      Ret (Err (error_new (path +s+ " still carries " +s+ format_int (Z.of_nat (default 0%nat d))
                           +s+ " stacked mount(s) after 10 unmounts")))
  | S n =>
      d <- HostMountDepth path ;;
      match d with
      | None => Ret (Err (error_new ("host mount table unreadable; cannot confirm " +s+ path +s+ " is unmounted")))
      | Some O => Ret (Ok tt)
      | Some (S _) =>
          try _ <- unmountHostOnce path first else (fun e => e) ;;
          perform CInvalidateMounts ;;;
          unmount_stack_loop n false path
      end
  end.
Definition unmountHostStack (path : string) : prog (result unit gerr) :=
  unmount_stack_loop maxMountStackUnwind true path.

Definition unmountPath (targetPath : string) : prog (result unit gerr) :=
  d <- HostMountDepth targetPath ;;
  match d with
  | None => unmountHostOnce targetPath true ;;; Ret (Ok tt)
  | Some O => Ret (Ok tt)
  | Some (S _) =>
      try _ <- unmountHostStack targetPath else (errorf_w ("failed to unmount " +s+ targetPath)) ;;
      Ret (Ok tt)
  end.

(** ** Mount queries and bind mounts (node.go) *)

Definition isMountPoint (path : string) : prog bool := IsHostMountPoint path.

Definition isMountedFrom (path device : string) : prog bool :=
  r <- cmd_output ["findmnt"; "-n"; "-o"; "SOURCE"; path] ;;
  Ret match r with Ok out => bool_decide (trim_space out = device) | Err _ => false end.

Definition bindMount (sourcePath targetPath : string) (readonly : bool) : prog (result unit gerr) :=
  try _ <- runCmdBounded (60 * second) (host_cmd_u ["mkdir"; "-p"; targetPath])
    else (errorf_v "failed to create target directory in host namespace") ;;
  try _ <- runCmdBounded (60 * second) (host_cmd_u ["mount"; "--bind"; sourcePath; targetPath])
    else (errorf_v ("failed to nsenter bind mount " +s+ sourcePath +s+ " to " +s+ targetPath)) ;;
  if readonly then
    try _ <- runCmdBounded (60 * second) ["mount"; "-o"; "remount,ro"; targetPath]
      else (errorf_v "failed to remount as readonly") ;;
    Ret (Ok tt)
  else Ret (Ok tt).

(** ** Loop devices and mounts of a device (utils.go) *)

Definition parse_losetup_line (line : string) : option string :=
  match cut ":" (trim_space line) with
  | Some (dev, _) => if has_prefix "/dev/" dev then Some dev else None
  | None => None
  end.
Definition parseLosetupJ (out : string) : list string := omap parse_losetup_line (split nl out).

Definition loopDevicesFor (backingFile : string) : prog (list string) :=
  r <- runCmdBoundedOutput (30 * second) ["losetup"; "-j"; backingFile] ;;
  Ret match r with Ok out => parseLosetupJ out | Err _ => [] end.

Definition detachLoopDevicesFor (backingFile : string) : prog unit :=
  devs <- loopDevicesFor backingFile ;;
  for_each devs (fun dev => runCmdBounded (30 * second) ["losetup"; "-d"; dev] ;;; Ret tt).

Definition target_escapes : list (string * string) :=
  [("\x20", " "); ("\040", " "); ("\011", String tab ""); ("\012", String nl ""); ("\134", "\")].
Definition unescapeMountTarget (s : string) : string :=
  if negb (contains s "\") then s else replacer target_escapes 0 s.

(** Longest first; Go's sort leaves the order of equals open, this one keeps it. *)
Definition longer (a b : string) : Prop := (String.length b <= String.length a)%nat.
#[global] Instance longer_dec : RelDecision longer.
Proof. unfold longer. intros a b. apply _. Defined.

Definition parseFindmntTargets (out : string) : list string :=
  merge_sort longer
    (map unescapeMountTarget
       (List.filter (fun t => negb (bool_decide (t = ""))) (map trim_space (split nl out)))).

Definition mountsBackedBy (device : string) : prog (list string) :=
  r <- runCmdBoundedOutput (30 * second)
         (host_cmd ["findmnt"; "-rn"; "-o"; "TARGET"; "-S"; device]) ;;
  Ret match r with Ok out => parseFindmntTargets out | Err _ => [] end.

(** [releaseVolumeMounts] (node.go). *)
Definition releaseVolumeMounts (volumeID : string) : prog unit :=
  targets <- mountsBackedBy (GetMappedDevicePath (GenerateMapperName volumeID)) ;;
  for_each targets (fun target =>
    runCmdBounded (30 * second) (host_cmd ["umount"; "-l"; target]) ;;; Ret tt).

(** ** What a history says of a path *)

(** The last thing that happened is a read of the mount table that shows
    nothing mounted at [path]. *)
Definition seen_unmounted (path : string) (h : history) : Prop :=
  exists s h', h = Ev CHostMounts (Some s) :: h' /\ stack_depth s path = 0%nat.

(** Only unmounts of [path], in the host namespace. *)
Definition unmounts_only (path : string) (h : history) (c : call) : Prop :=
  match c with
  | CExec b i argv => b = Some (30 * second) /\ i = ""
      /\ (argv = host_cmd ["umount"; path] \/ argv = host_cmd ["umount"; "-l"; path])
  | c => mutates c = false
  end.

Lemma runCmd_guard (G : history -> call -> Prop) t argv h :
  G h (CExec (Some t) "" argv) ->
  wpc G (runCmdBounded t argv) (fun h' _ => h ⊆ h') h.
Proof.
  intros HG. unfold runCmdBounded, runCmdBoundedOutput. do 2 wp_step.
  apply wpc_perform; [done |]. intros r. cbn. intros e He. by right.
Qed.

Lemma unmountHostOnce_guard (G : history -> call -> Prop) path b h :
  (forall h c, unmounts_only path h c -> G h c) ->
  wpc G (unmountHostOnce path b) (fun h' _ => h ⊆ h') h.
Proof.
  intros HG. unfold unmountHostOnce. wp_step.
  apply (wpc_post _ _ (fun h' _ => h ⊆ h')).
  { destruct b; [| cbn; sub]. wp_step. eapply wpc_post; [apply runCmd_guard, HG; cbn; tauto |]. done. }
  intros h1 [] Hs; cbn [wpc]; [exact Hs |]. wp_step.
  eapply wpc_post; [apply runCmd_guard, HG; cbn; tauto |].
  intros h2 [[] | e] Hs2; cbn; sub.
Qed.

Lemma unmount_stack_spec (G : history -> call -> Prop) path n first h :
  (forall h c, unmounts_only path h c -> G h c) ->
  wpc G (unmount_stack_loop n first path)
    (fun h' r => h ⊆ h' /\ (is_ok r = true -> seen_unmounted path h')) h.
Proof.
  intros HG. revert first h. induction n as [| n IH]; intros first h; cbn.
  - split; [by apply HG |]. intros [s |]; cbn; (split; [sub | done]).
  - split; [by apply HG |]. intros [s |]; cbn; [| by split; [sub |]].
    destruct (stack_depth s path) eqn:Hd.
    { cbn. split; [sub |]. intros _. by exists s, h. }
    apply wpc_bind. eapply wpc_post; [by apply unmountHostOnce_guard |].
    intros h1 [[] | e] Hs; cbn.
    2: { split; [sub | done]. }
    split; [by apply HG |]. intros u. eapply wpc_post; [apply IH |].
    intros h2 r [Hs2 Hr]. split; [sub | done].
Qed.

Lemma unmountPath_spec (G : history -> call -> Prop) path h :
  (forall h c, unmounts_only path h c -> G h c) ->
  wpc G (unmountPath path)
    (fun h' r => h ⊆ h' /\ (is_ok r = true -> seen_unmounted path h' \/ Ev CHostMounts None ∈ h')) h.
Proof.
  intros HG. unfold unmountPath, HostMountDepth, HostMountStacksOK. do 2 wp_step.
  apply wpc_perform; [by apply HG |]. intros [s |]; cbn [wpc].
  - destruct (stack_depth s path) eqn:Hd.
    + cbn. split; [sub |]. intros _. left. by exists s, h.
    + wp_step. eapply wpc_post; [by apply unmount_stack_spec |].
      intros h1 [[] | e] [Hs Hr]; cbn; (split; [sub |]).
      * intros _. left. by apply Hr.
      * done.
  - wp_step. eapply wpc_post; [by apply unmountHostOnce_guard |].
    intros h1 r Hs. cbn. split; [sub |].
    intros _. right. apply Hs. by left.
Qed.

(** An unmount that reports success left nothing mounted.  Whatever the
    commands and the mount table answer, [unmountHostStack] runs only unmounts
    of its own path in the host namespace, and returns success only when the
    last thing it did was to read a table with no mount left at the path, not
    even a buried one; [unmountPath] also reports success, on purpose, when
    the table was unreadable. *)
Theorem unmounted_means_gone env path :
  (let '(h, r) := run env (unmountHostStack path) [] in
     hist_ok (unmounts_only path) h /\ (is_ok r = true -> seen_unmounted path h))
  /\ (let '(h, r) := run env (unmountPath path) [] in
     hist_ok (unmounts_only path) h
     /\ (is_ok r = true -> seen_unmounted path h \/ Ev CHostMounts None ∈ h)).
Proof.
  split.
  - destruct (run env _ []) as [h r] eqn:E.
    pose proof (wpc_run env (unmounts_only path) (unmountHostStack path) _ []
                  (unmount_stack_spec _ path _ true [] (fun _ _ H => H)) I) as [Hh [_ Hr]].
    by rewrite E in Hh, Hr.
  - destruct (run env _ []) as [h r] eqn:E.
    pose proof (wpc_run env (unmounts_only path) (unmountPath path) _ []
                  (unmountPath_spec _ path [] (fun _ _ H => H)) I) as [Hh [_ Hr]].
    by rewrite E in Hh, Hr.
Qed.

(** ** Order of release *)

#[global] Instance longer_total : Total longer.
Proof. intros a b. unfold longer. lia. Qed.
#[global] Instance longer_trans : Transitive longer.
Proof. intros a b c. unfold longer. lia. Qed.

(** What a deleted volume left mounted is released inside out: of two
    mountpoints findmnt reported, one inside the other, the inner is always
    unmounted first; and every mountpoint reported is in the list, once per
    line. *)
Theorem deepest_mount_first out i j a b rest :
  parseFindmntTargets out !! i = Some a -> parseFindmntTargets out !! j = Some b ->
  a = b +s+ "/" +s+ rest -> (i < j)%nat
  /\ Permutation (parseFindmntTargets out)
       (map unescapeMountTarget
         (List.filter (fun t => negb (bool_decide (t = ""))) (map trim_space (split nl out)))).
Proof.
  intros Hi Hj ->. split; [| apply merge_sort_Permutation].
  pose proof (StronglySorted_merge_sort longer
    (map unescapeMountTarget (List.filter (fun t => negb (bool_decide (t = ""))) (map trim_space (split nl out)))))
    as Hs.
  fold (parseFindmntTargets out) in Hs. revert i j Hi Hj.
  induction Hs as [| x l Hs IH Hx]; intros i j Hi Hj; [done |].
  destruct i as [| i], j as [| j]; cbn in Hi, Hj.
  - rewrite Hi in Hj. injection Hj as Hj. apply (f_equal String.length) in Hj.
    rewrite !slen_app in Hj. cbn in Hj. lia.
  - lia.
  - injection Hj as ->. rewrite Forall_lookup in Hx. specialize (Hx _ _ Hi).
    unfold longer in Hx. rewrite !slen_app in Hx. cbn in Hx. lia.
  - specialize (IH _ _ Hi Hj). lia.
Qed.

Lemma deepest_mount_first_witness :
  parseFindmntTargets ("/var/a" +s+ String nl "" +s+ "/var/a/b\x20c" +s+ String nl "")
    = ["/var/a/b c"; "/var/a"] /\ (0 < 1)%nat.
Proof.
  split; [reflexivity |].
  exact (proj1 (deepest_mount_first ("/var/a" +s+ String nl "" +s+ "/var/a/b\x20c" +s+ String nl "")
                  0 1 "/var/a/b c" "/var/a" "b c" eq_refl eq_refl eq_refl)).
Defined.

(** The losetup reader on the output utils.go documents. *)
Example losetup_line :
  parseLosetupJ "/dev/loop3: [64769]:1234 (/path/to/backing.img (deleted))" = ["/dev/loop3"].
Proof. reflexivity. Qed.

(** A stack of exactly ten mounts is fully unmounted and still reported as an
    error: the depth is read again only to word the error. *)
Definition layers (n : nat) : stacks :=
  if decide (n = 0%nat) then ∅ else {["/p" := repeat {| Dev := "0:50"; FSType := "fuse" |} n]}.
Definition layers_env : environment := override_env (fun h c =>
  match c with
  | CHostMounts =>
      Some (Some (layers (10 - length (List.filter (fun e => match e with
        Ev (CExec _ _ _) _ => true | _ => false end) h))))
  | _ => None
  end).
Example ten_layers_reported_as_failure :
  match run layers_env (unmountHostStack "/p") [] with
  | (Ev CHostMounts (Some s) :: _, r) => stack_depth s "/p" = 0%nat /\ is_ok r = false
  | _ => False
  end.
Proof. vm_compute. by split. Qed.

End NodeMounts.
