(* ===== verification/NodeLuks.v ===== *)
(** * NodeLuks: LUKS volumes on a node (pkg/driver/node_luks.go and utils.go)

    The backing file of a local volume, its staging, its expansion, and the
    restore and clean-up of its stack of layers: backing file, loop device,
    LUKS mapping, filesystem, mount. *)

From Stdlib Require Import Ascii.
From S2P Require Import Prelude GoStrings Effects Secrets Luks Mounts Csi Controller NodeMounts.
Import Secrets Luks Mounts Csi K8s NodeMounts.

Module NodeLuks.

Definition DefaultLocalPath := "/opt/local-path-provisioner".
Definition FsModeParam := "fs-mode".
Definition defaultFsMode := "0750".

(** ** Backing files (utils.go) *)

(** [CombinedOutput]: stdout and stderr, here one after the other. *)
Definition cmd_combined (argv : list string) : prog (string * result unit gerr) :=
  r <- perform (CExec None "" argv) ;;
  Ret match r with
      | XExit 0 out err => (out +s+ err, Ok tt)
      | XExit c out err => (out +s+ err, Err (exit_error c))
      | XStartErr e => ("", Err (errno_err e))
      | XTimeout => ("", Err (error_new "killed"))
      end.

Definition with_output (e : gerr) (out : string) : gerr :=
  error_new (e_text e +s+ ": " +s+ trim_space out).

Definition ensureFreeSpace (dir : string) (needBytes : Z) : prog (result unit gerr) :=
  r <- perform (CStatfs dir) ;;
  Ret match r with
      | Err e => Err (errorf_v ("statfs " +s+ dir) (errno_err e))
      | Ok st =>
          if wrap64 (f_bavail st * f_bsize st) <? needBytes
          then Err (error_new (dir +s+ " has " +s+ format_int (wrap64 (f_bavail st * f_bsize st))
                               +s+ " bytes free, need " +s+ format_int needBytes))
          else Ok tt
      end.

Definition ExpandBackingFile (filePath : string) (newSizeBytes : Z) : prog (result unit gerr) :=
  fi <- perform (CStat filePath) ;;
  if match fi with Ok st => newSizeBytes <=? st_size st | Err _ => false end then Ret (Ok tt)
  else
    let* (_, r) := cmd_combined ["fallocate"; "-l"; format_int newSizeBytes; filePath] ;;
    match r with
    | Ok _ => Ret (Ok tt)
    | Err _ =>
        fi2 <- perform (CStat filePath) ;;
        let current := match fi2 with Ok st => st_size st | Err _ => 0 end in
        try _ <- (if 0 <? wrap64 (newSizeBytes - current)
                  then ensureFreeSpace (path_dir filePath) (wrap64 (newSizeBytes - current))
                  else Ret (Ok tt))
          else (errorf_v "refusing sparse expand of backing file") ;;
        let* (out, r2) := cmd_combined ["truncate"; "-s"; format_int newSizeBytes; filePath] ;;
        Ret match r2 with
            | Ok _ => Ok tt
            | Err e => Err (errorf_v "failed to expand backing file with both fallocate and truncate"
                              (with_output e out))
            end
    end.

Definition CreateBackingFile (filePath size : string) : prog (result unit gerr) :=
  let* (_, r) := cmd_combined ["fallocate"; "-l"; size; filePath] ;;
  try _ <- match r with
           | Ok _ => Ret (Ok tt)
           | Err _ =>
               try _ <- match parse_int (trim_space size) with
                        | Some sizeBytes => ensureFreeSpace (path_dir filePath) sizeBytes
                        | None => Ret (Ok tt)
                        end
                 else (errorf_v "refusing to create sparse backing file") ;;
               let* (out, r2) := cmd_combined ["truncate"; "-s"; size; filePath] ;;
               Ret match r2 with
                   | Ok _ => Ok tt
                   | Err e => Err (errorf_v "failed to create backing file with truncate" (with_output e out))
                   end
           end
    else (fun e => e) ;;
  st <- perform (CStat filePath) ;;
  Ret match st with
      | Ok _ => Ok tt
      | Err e => Err (errorf_v "failed to stat created backing file" (errno_err e))
      end.

Definition GenerateBackingFilePath (localPath volumeID : string) : string :=
  path_join [localPath; "luks-" +s+ volumeID +s+ ".img"].

Definition local_root : prog string :=
  env <- perform (CGetenv "CSI_LOCAL_PATH") ;;
  Ret (if bool_decide (env = "") then DefaultLocalPath else env).
Definition GetLocalPath (volumeID : string) : prog string :=
  root <- local_root ;; Ret (path_join [root; volumeID]).

Section node.
(** The node server's [driver.nodeID], and whether its [clientset] is set. *)
Context (nodeID : string) (clientset : bool).

(** ** Permissions (node.go) *)

Definition extractFsGroupFromPod (ctx : gmap string string) : prog (option Z) :=
  if negb clientset then Ret None
  else
    let podName := mget ctx "csi.storage.k8s.io/pod.name" in
    let podNamespace := mget ctx "csi.storage.k8s.io/pod.namespace" in
    if bool_decide (podName = "") || bool_decide (podNamespace = "") then Ret None
    else
      r <- perform (CGetPod podNamespace podName) ;;
      Ret match r with Ok p => pod_fsgroup p | Err _ => None end.

Definition extractFsGroup (ctx : gmap string string) (cap : option capability) : prog (option Z) :=
  match (match ctx !! "fsGroup" with Some s => parse_int s | None => None end) with
  | Some g => Ret (Some g)
  | None =>
      let group := match cap with
                   | Some c => match vc_mount c with Some m => volume_mount_group m | None => "" end
                   | None => ""
                   end in
      match (if bool_decide (group = "") then None else parse_int group) with
      | Some g => Ret (Some g)
      | None => extractFsGroupFromPod ctx
      end
  end.

Definition is_octal (c : ascii) : bool :=
  let n := N_of_ascii c in ((48 <=? n) && (n <=? 55))%N.
Definition isValidOctalMode (s : string) : bool :=
  (3 <=? Z.of_nat (String.length s)) && (Z.of_nat (String.length s) <=? 4)
  && negb (string_exists (fun c => negb (is_octal c)) s).
Definition extractFsMode (ctx : gmap string string) : string :=
  let mode := mget ctx FsModeParam in
  if bool_decide (mode = "") then defaultFsMode
  else if isValidOctalMode mode then mode else defaultFsMode.

Definition applyFsGroupPermissions (targetPath : string) (fsGroup : Z) (mode : string)
    : prog (result unit gerr) :=
  let mode := if bool_decide (mode = "") then defaultFsMode else mode in
  let owner := format_int fsGroup +s+ ":" +s+ format_int fsGroup in
  let* (out, r) := cmd_combined (host_cmd_u ["chown"; "-R"; owner; targetPath]) ;;
  match r with
  | Err e => Ret (Err (errorf_v "failed to recursively apply fsGroup with nsenter" (with_output e out)))
  | Ok _ =>
      let* (out2, r2) := cmd_combined (host_cmd_u ["chmod"; "-R"; mode; targetPath]) ;;
      Ret match r2 with
          | Err e => Err (errorf_v "failed to recursively chmod with nsenter" (with_output e out2))
          | Ok _ => Ok tt
          end
  end.

(** ** Filesystems *)

Definition only_mount : gerr := error_new "only mount access type is supported".
Definition fs_or_ext4 (m : mount_volume) : string :=
  if bool_decide (fs_type m = "") then "ext4" else fs_type m.

Definition mkfs_argv (fsType devicePath : string) : option (list string) :=
  if bool_decide (fsType = "ext4") then Some ["mkfs.ext4"; "-F"; "-e"; "remount-ro"; devicePath]
  else if bool_decide (fsType = "ext3") then Some ["mkfs.ext3"; "-F"; "-e"; "remount-ro"; devicePath]
  else if bool_decide (fsType = "xfs") then Some ["mkfs.xfs"; "-f"; devicePath]
  else None.

Definition formatDevice (devicePath : string) (cap : capability) : prog (result unit gerr) :=
  match vc_mount cap with
  | None => Ret (Err only_mount)
  | Some m =>
      let fsType := fs_or_ext4 m in
      formatted <- cmd_run ["blkid"; devicePath] ;;
      if is_ok formatted then Ret (Ok tt)
      else match mkfs_argv fsType devicePath with
      | None => Ret (Err (error_new ("unsupported filesystem type: " +s+ fsType)))
      | Some argv =>
          let* (out, r) := cmd_combined argv ;;
          Ret match r with
              | Err e => Err (errorf_v ("failed to format device " +s+ devicePath) (with_output e out))
              | Ok _ => Ok tt
              end
      end
  end.

Definition mount_argv (m : mount_volume) (devicePath targetPath : string) : list string :=
  ["mount"; "-t"; fs_or_ext4 m]
    ++ (if bool_decide (mount_flags m = []) then [] else ["-o"; join "," (mount_flags m)])
    ++ [devicePath; targetPath].

(** The first half of [mountDevice]: [Ok true] means already mounted. *)
Definition clear_target (devicePath targetPath : string) : prog (result bool gerr) :=
  mounted <- isMountPoint targetPath ;;
  if negb mounted then Ret (Ok false)
  else
    ours <- isMountedFrom targetPath devicePath ;;
    if (ours : bool) then Ret (Ok true)
    else
      try _ <- unmountPath targetPath
        else (errorf_v ("failed to unmount stale mount at " +s+ targetPath)) ;;
      Ret (Ok false).

Definition mountDevice (devicePath targetPath : string) (cap : capability) : prog (result unit gerr) :=
  match vc_mount cap with
  | None => Ret (Err only_mount)
  | Some m =>
      try already <- clear_target devicePath targetPath else (fun e => e) ;;
      if (already : bool) then Ret (Ok tt)
      else
        mk <- perform (CMkdirAll targetPath) ;;
        match mk with
        | Err e => Ret (Err (errorf_v "failed to create target directory" (errno_err e)))
        | Ok _ =>
            let* (out, r) := cmd_combined (mount_argv m devicePath targetPath) ;;
            Ret match r with
                | Err e => Err (errorf_v ("failed to mount device " +s+ devicePath +s+ " to " +s+ targetPath)
                                  (with_output e out))
                | Ok _ => Ok tt
                end
        end
  end.

Definition resize_argv (fsType devicePath volumePath : string) : option (list string) :=
  if bool_decide (fsType ∈ ["ext2"; "ext3"; "ext4"]) then Some ["resize2fs"; devicePath]
  else if bool_decide (fsType = "xfs") then Some ["xfs_growfs"; volumePath]
  else None.

Definition resizeFilesystem (devicePath volumePath : string) : prog (result unit gerr) :=
  try output <- cmd_output ["blkid"; "-s"; "TYPE"; "-o"; "value"; devicePath]
    else (errorf_v ("failed to detect filesystem type on " +s+ devicePath)) ;;
  let fsType := trim_space output in
  if bool_decide (fsType = "") then Ret (Err (error_new ("no filesystem found on device " +s+ devicePath)))
  else match resize_argv fsType devicePath volumePath with
  | None => Ret (Err (error_new ("unsupported filesystem type for resize: " +s+ fsType)))
  | Some argv =>
      let* (out, r) := cmd_combined argv ;;
      Ret match r with
          | Ok _ => Ok tt
          | Err e =>
              if contains (trim_space out) "Permission denied to resize filesystem"
              then Err (error_new ("kernel refused online resize of " +s+ devicePath
                          +s+ " (filesystem has recorded errors); unmount and run 'e2fsck -f' offline, then retry: "
                          +s+ trim_space out))
              else Err (errorf_v ("failed to resize " +s+ fsType +s+ " filesystem on " +s+ devicePath)
                          (with_output e out))
          end
  end.

(** ** Loop devices *)

Definition refreshLoopDevice (backingFile : string) : prog (result unit gerr) :=
  try output <- cmd_output ["losetup"; "-j"; backingFile]
    else (errorf_v ("failed to find loop device for " +s+ backingFile)) ;;
  let outputStr := trim_space output in
  if bool_decide (outputStr = "")
  then Ret (Err (error_new ("no loop device found for backing file " +s+ backingFile)))
  else match List.find (fun line => contains line ":") (split nl outputStr) with
  | None => Ret (Err (error_new ("could not parse loop device from output: " +s+ outputStr)))
  | Some line =>
      let loopDevice := trim_space (hd "" (split ":" line)) in
      try _ <- cmd_run ["losetup"; "-c"; loopDevice]
        else (errorf_v ("failed to refresh loop device " +s+ loopDevice)) ;;
      Ret (Ok tt)
  end.

(** ** Backing file of a staged volume *)

Definition minSize : Z := 16 * 1024 * 1024.

Definition ensureBackingFileExists (req : stage_request) (backingFile : string)
    : prog (result unit gerr) :=
  let capacityStr := let c := mget (st_context req) "capacity" in
                     if bool_decide (c = "") then "1073741824" else c in
  fi <- perform (CStat backingFile) ;;
  match fi with
  | Err ENOENT =>
      let pinned := mget (st_context req) PinnedNodeParam in
      if negb (bool_decide (pinned = "")) && negb (bool_decide (pinned = nodeID)) then
        Ret (Err (error_new ("backing file " +s+ backingFile +s+ " is missing and volume is pinned to node "
                    +s+ pinned +s+ ", not " +s+ nodeID +s+ ": refusing to create an empty container")))
      else
        try _ <- CreateBackingFile backingFile capacityStr
          else (errorf_v "failed to create backing file") ;;
        Ret (Ok tt)
  | Err e => Ret (Err (errorf_v "failed to stat backing file" (errno_err e)))
  | Ok st =>
      if st_size st <? minSize then
        rm <- perform (CRemove backingFile) ;;
        match rm with
        | Err e => Ret (Err (errorf_v "failed to remove undersized backing file" (errno_err e)))
        | Ok _ =>
            try _ <- CreateBackingFile backingFile capacityStr
              else (errorf_v "failed to recreate backing file") ;;
            Ret (Ok tt)
        end
      else Ret (Ok tt)
  end.

(** ** Passphrases *)

Definition passphrase_of (params : SecretParams) : prog (result string gerr) :=
  try vs <- FetchVolumeSecrets clientset params else (errorf_w "failed to fetch secrets") ;;
  Ret (if bool_decide (Passphrase vs = "")
       then Err (error_new "LUKS passphrase not found in secrets") else Ok (Passphrase vs)).

Definition getPassphraseForRestore (volumeID : string) (ctx : gmap string string)
    : prog (result string gerr) :=
  try p <- getPVByVolumeID clientset volumeID
    else (errorf_v ("failed to get PV for volume " +s+ volumeID)) ;;
  try scParams <- getStorageClassParameters clientset (pv_storage_class p)
    else (errorf_v "failed to get StorageClass parameters") ;;
  passphrase_of (ExtractSecretParams (Some scParams) ctx).
Definition getPassphraseFromRequest (req : stage_request) : prog (result string gerr) :=
  getPassphraseForRestore (st_volume req) (st_context req).
Definition getPassphraseForExpansion (scParams : gmap string string) : prog (result string gerr) :=
  passphrase_of (ExtractSecretParams (Some scParams) ∅).

(** ** Staging *)

Record StagingParameters : Type := StagingParams
  { sp_volumeID : string; sp_stagingTargetPath : string; sp_localPath : string;
    sp_backingFile : string; sp_passphrase : string; sp_mapperName : string;
    sp_mappedDevice : string; sp_fsGroup : option Z; sp_fsMode : string;
    sp_volumeCapability : capability }.

Definition setupLUKSDevice (params : StagingParameters) : prog (result unit gerr) :=
  FormatAndOpenLUKS (sp_backingFile params) (sp_mapperName params) (sp_passphrase params).

Definition mountAndConfigureVolume (params : StagingParameters) : prog (result unit gerr) :=
  try _ <- formatDevice (sp_mappedDevice params) (sp_volumeCapability params)
    else (errorf_v "failed to format device") ;;
  try _ <- mountDevice (sp_mappedDevice params) (sp_stagingTargetPath params) (sp_volumeCapability params)
    else (errorf_v "failed to mount device") ;;
  match sp_fsGroup params with
  | None => Ret (Ok tt)
  | Some g =>
      try _ <- applyFsGroupPermissions (sp_stagingTargetPath params) g (sp_fsMode params)
        else (errorf_v "failed to apply fsGroup permissions to staging path") ;;
      Ret (Ok tt)
  end.

Definition isVolumeStaged (volumeID stagingTargetPath : string) : prog bool :=
  let mapperName := GenerateMapperName volumeID in
  opened <- IsLUKSOpened mapperName ;;
  if negb opened then Ret false
  else
    mounted <- isMountPoint stagingTargetPath ;;
    if negb mounted then Ret false
    else isMountedFrom stagingTargetPath (GetMappedDevicePath mapperName).

(** The two syncs before the unmount; their outcome is ignored. *)
Definition sync_staging (stagingTargetPath : string) : prog unit :=
  r <- cmd_run ["sync"; "-f"; stagingTargetPath] ;;
  if is_ok r then Ret tt else cmd_run ["sync"] ;;; Ret tt.

Definition unmount_staging (stagingTargetPath : string) : prog (result unit gerr) :=
  if bool_decide (stagingTargetPath = "") then Ret (Ok tt)
  else
    mounted <- isMountPoint stagingTargetPath ;;
    if negb mounted then Ret (Ok tt)
    else
      sync_staging stagingTargetPath ;;;
      try _ <- unmountPath stagingTargetPath
        else (errorf_w ("failed to unmount staging path " +s+ stagingTargetPath +s+ "; not closing LUKS")) ;;
      Ret (Ok tt).

Definition cleanupVolumeStaging (volumeID stagingTargetPath : string) : prog (result unit gerr) :=
  try _ <- unmount_staging stagingTargetPath else (fun e => e) ;;
  try _ <- CloseLUKS (GenerateMapperName volumeID) else (errorf_v "failed to close LUKS device") ;;
  localPath <- GetLocalPath volumeID ;;
  detachLoopDevicesFor (GenerateBackingFilePath localPath volumeID) ;;;
  if bool_decide (stagingTargetPath = "") then Ret (Ok tt)
  else perform (CRemoveAll stagingTargetPath) ;;; Ret (Ok tt).

(** ** Restoring after a reboot *)

Definition ext4_capability : capability := Capability (Some (MountVolume "ext4" [] "")) (OTHER_MODE 0).

Definition restoreLUKSDeviceAndMount (volumeID backingFile stagingTargetPath passphrase : string)
    (ctx : gmap string string) : prog (result unit gerr) :=
  let mapperName := GenerateMapperName volumeID in
  try _ <- OpenLUKS backingFile mapperName passphrase else (errorf_v "failed to open LUKS device") ;;
  m <- mountDevice (GetMappedDevicePath mapperName) stagingTargetPath ext4_capability ;;
  match m with
  | Err e => CloseLUKS mapperName ;;; Ret (Err (errorf_v "failed to mount device" e))
  | Ok _ =>
      fsGroup <- extractFsGroup ctx None ;;
      match fsGroup with
      | None => Ret (Ok tt)
      | Some g =>
          try _ <- applyFsGroupPermissions stagingTargetPath g (extractFsMode ctx)
            else (errorf_v "failed to apply fsGroup permissions during restore") ;;
          Ret (Ok tt)
      end
  end.

Definition restoreLUKSVolumeStaging (volumeID stagingTargetPath : string) (ctx : gmap string string)
    : prog (result unit gerr) :=
  localPath <- GetLocalPath volumeID ;;
  let backingFile := GenerateBackingFilePath localPath volumeID in
  st <- perform (CStat backingFile) ;;
  match st with
  | Err ENOENT => Ret (Err (error_new ("backing file " +s+ backingFile +s+ " does not exist")))
  | _ =>
      try passphrase <- getPassphraseForRestore volumeID ctx else (errorf_v "failed to get passphrase") ;;
      try _ <- restoreLUKSDeviceAndMount volumeID backingFile stagingTargetPath passphrase ctx
        else (errorf_v "failed to restore LUKS device and mount") ;;
      Ret (Ok tt)
  end.

(** ** Expansion *)

Record ExpansionParameters : Type := ExpansionParams
  { xp_volumeID : string; xp_volumePath : string; xp_requestedBytes : Z; xp_backingFile : string;
    xp_mapperName : string; xp_mappedDevice : string; xp_scParams : gmap string string }.

Definition validateAndPrepareExpansionRequest (req : expand_request)
    : prog (result ExpansionParameters status) :=
  if bool_decide (ex_volume req = "") then Ret (Err (missing "Volume ID"))
  else if bool_decide (ex_path req = "") then Ret (Err (missing "Volume path"))
  else match ex_capacity req with
  | None => Ret (Err (missing "Capacity range"))
  | Some range =>
      let volumeID := ex_volume req in
      try scParams <- GetStorageClassParametersByVolumeID clientset volumeID
        else (status_errorf FailedPrecondition
                ("StorageClass parameters for volumeID " +s+ volumeID +s+ " not found")) ;;
      localPath <- GetLocalPath volumeID ;;
      let mapperName := GenerateMapperName volumeID in
      opened <- IsLUKSOpened mapperName ;;
      Ret (if (opened : bool) then
             Ok (ExpansionParams volumeID (ex_path req) (requested range)
                   (GenerateBackingFilePath localPath volumeID) mapperName
                   (GetMappedDevicePath mapperName) scParams)
           else Err (Status FailedPrecondition ("LUKS device " +s+ mapperName +s+ " is not opened")))
  end.

Definition luksHeaderSlack : Z := 64 * 2 ^ 20.

Definition performVolumeExpansion (params : ExpansionParameters) : prog (result unit status) :=
  try _ <- ExpandBackingFile (xp_backingFile params) (xp_requestedBytes params)
    else (status_errorf Internal "Failed to expand backing file") ;;
  try _ <- refreshLoopDevice (xp_backingFile params)
    else (status_errorf Internal "Failed to refresh loop device") ;;
  try passphrase <- getPassphraseForExpansion (xp_scParams params)
    else (status_errorf Internal "Failed to get passphrase for LUKS resize") ;;
  try _ <- ResizeLUKS (xp_mapperName params) passphrase
    else (status_errorf Internal "Failed to resize LUKS device") ;;
  try mappedSize <- GetLUKSDeviceSize (xp_mappedDevice params)
    else (status_errorf Internal "Failed to verify mapped device size after LUKS resize") ;;
  if mappedSize <? wrap64 (xp_requestedBytes params - luksHeaderSlack) then
    Ret (Err (Status Internal ("Mapped device " +s+ xp_mappedDevice params +s+ " is "
      +s+ format_int mappedSize +s+ " bytes after resize: an underlying layer did not grow")))
  else
    try _ <- resizeFilesystem (xp_mappedDevice params) (xp_volumePath params)
      else (status_errorf Internal "Failed to resize filesystem") ;;
    Ret (Ok tt).

(** [NodeExpandVolume] (node.go): the new capacity. *)
Definition NodeExpandVolume (req : expand_request) : prog (result Z status) :=
  try params <- validateAndPrepareExpansionRequest req else (fun e => e) ;;
  try _ <- performVolumeExpansion params else (fun e => e) ;;
  Ret (Ok (xp_requestedBytes params)).

End node.

(** ** What the histories of an expansion say *)

(** [out]: command [argv] exited with status 0 and printed [out]. *)
Definition printed (argv : list string) (out : string) (h : history) : Prop :=
  exists b i err, Ev (CExec b i argv) (XExit 0 out err) ∈ h.

(** The backing file holds the requested size: it did already, or one of the
    two tools that size it succeeded. *)
Definition backing_grown (file : string) (bytes : Z) (h : history) : Prop :=
  (exists st, Ev (CStat file) (Ok st) ∈ h /\ bytes <= st_size st)
  \/ exec_ok ["fallocate"; "-l"; format_int bytes; file] h
  \/ exec_ok ["truncate"; "-s"; format_int bytes; file] h.

(** The file's filesystem was seen to have [need] bytes available. *)
Definition room_seen (file : string) (need : Z) (h : history) : Prop :=
  exists st, Ev (CStatfs (path_dir file)) (Ok st) ∈ h /\ need <= wrap64 (f_bavail st * f_bsize st).

(** A size the file was reported to have, 0 if it could not be read. *)
Definition size_seen (file : string) (current : Z) (h : history) : Prop :=
  (exists st, Ev (CStat file) (Ok st) ∈ h /\ st_size st = current)
  \/ (current = 0 /\ exists e, Ev (CStat file) (Err e) ∈ h).

(** The loop device named first in what losetup printed. *)
Definition loop_of (out : string) : option string :=
  option_map (fun line => trim_space (hd "" (split ":" line)))
    (List.find (fun line => contains line ":") (split nl (trim_space out))).
Definition loop_refreshed (file : string) (h : history) : Prop :=
  exists out dev, loop_of out = Some dev
    /\ ordered [printed ["losetup"; "-j"; file] out; exec_ok ["losetup"; "-c"; dev]] h.

Definition mapping_resized (p : ExpansionParameters) : history -> Prop :=
  exec_ok [CryptsetupCmd; "resize"; xp_mapperName p].

(** The mapped device was measured at the requested size less at most the LUKS
    header. *)
Definition mapper_measured (p : ExpansionParameters) (h : history) : Prop :=
  exists out size, printed ["blockdev"; "--getsize64"; xp_mappedDevice p] out h
    /\ parse_int (trim_space out) = Some size
    /\ wrap64 (xp_requestedBytes p - luksHeaderSlack) <= size.

Definition fs_grown (p : ExpansionParameters) (h : history) : Prop :=
  exists argv fsType, resize_argv fsType (xp_mappedDevice p) (xp_volumePath p) = Some argv /\ exec_ok argv h.

(** The layers of a volume, grown one after the other. *)
Definition layers_grown (p : ExpansionParameters) : list (history -> Prop) :=
  [backing_grown (xp_backingFile p) (xp_requestedBytes p); loop_refreshed (xp_backingFile p);
   mapping_resized p; mapper_measured p; fs_grown p].

(** The commands of an expansion, each with what must have happened before, in
    that order. *)
Inductive expand_cmd (p : ExpansionParameters) (h : history) : list string -> Prop :=
  | xc_look argv :
      argv ∈ [["losetup"; "-j"; xp_backingFile p]; ["blockdev"; "--getsize64"; xp_mappedDevice p];
              ["blkid"; "-s"; "TYPE"; "-o"; "value"; xp_mappedDevice p];
              ["dmsetup"; "udevcomplete_all"; "-y"]] ->
      expand_cmd p h argv
  | xc_fallocate :
      expand_cmd p h ["fallocate"; "-l"; format_int (xp_requestedBytes p); xp_backingFile p]
  | xc_truncate current :
      size_seen (xp_backingFile p) current h ->
      (wrap64 (xp_requestedBytes p - current) <= 0
       \/ room_seen (xp_backingFile p) (wrap64 (xp_requestedBytes p - current)) h) ->
      expand_cmd p h ["truncate"; "-s"; format_int (xp_requestedBytes p); xp_backingFile p]
  | xc_loop out dev :
      loop_of out = Some dev ->
      ordered (take 1 (layers_grown p) ++ [printed ["losetup"; "-j"; xp_backingFile p] out]) h ->
      expand_cmd p h ["losetup"; "-c"; dev]
  | xc_resize :
      ordered (take 2 (layers_grown p)) h ->
      expand_cmd p h [CryptsetupCmd; "resize"; xp_mapperName p]
  | xc_fs argv fsType :
      resize_argv fsType (xp_mappedDevice p) (xp_volumePath p) = Some argv ->
      ordered (take 4 (layers_grown p)) h ->
      expand_cmd p h argv.
Definition expand_guard (p : ExpansionParameters) (h : history) (c : call) : Prop :=
  match c with CExec _ _ argv => expand_cmd p h argv | c => mutates c = false end.

#[local] Arguments cmd_output : simpl never.
#[local] Arguments cmd_run : simpl never.
#[local] Arguments cmd_combined : simpl never.

Lemma cmd_output_spec (G : history -> call -> Prop) argv h :
  G h (CExec None "" argv) ->
  wpc G (cmd_output argv)
    (fun h' r => h ⊆ h' /\ match r with Ok out => printed argv out h' | Err _ => True end) h.
Proof.
  intros HG. unfold cmd_output. wp_step. apply wpc_perform; [done |].
  intros [e | [| c | c] out err |]; cbn; (split; [sub |]); try done.
  exists None, "", err. by left.
Qed.
Lemma printed_ok argv out h : printed argv out h -> exec_ok argv h.
Proof. intros (b & i & err & H). by exists b, i, out, err. Qed.
Lemma printed_mono argv out h h' : h ⊆ h' -> printed argv out h -> printed argv out h'.
Proof. intros Hs (b & i & err & H). exists b, i, err. auto. Qed.
Lemma backing_grown_mono f n h h' : h ⊆ h' -> backing_grown f n h -> backing_grown f n h'.
Proof.
  intros Hs [(st & H & Hn) | [H | H]]; [left; exists st; auto | right; left | right; right];
    by eapply exec_ok_mono.
Qed.
Lemma cmd_run_spec (G : history -> call -> Prop) argv h :
  G h (CExec None "" argv) ->
  wpc G (cmd_run argv)
    (fun h' r => h ⊆ h' /\ match r with Ok _ => exec_ok argv h' | Err _ => True end) h.
Proof.
  intros HG. unfold cmd_run. wp_step. eapply wpc_post; [by apply cmd_output_spec |].
  intros h1 [out | e] [Hs Ho]; cbn; split; try done. by eapply printed_ok.
Qed.
Lemma cmd_combined_spec (G : history -> call -> Prop) argv h :
  G h (CExec None "" argv) ->
  wpc G (cmd_combined argv)
    (fun h' r => h ⊆ h' /\ match r.2 with Ok _ => exec_ok argv h' | Err _ => True end) h.
Proof.
  intros HG. unfold cmd_combined. wp_step. apply wpc_perform; [done |].
  intros [e | [| c | c] out err |]; cbn; (split; [sub |]); try done.
  exists None, "", out, err. by left.
Qed.
#[export] Hint Resolve printed_mono backing_grown_mono printed_ok : go.

Lemma ensureFreeSpace_spec (G : history -> call -> Prop) file need h :
  G h (CStatfs (path_dir file)) ->
  wpc G (ensureFreeSpace (path_dir file) need)
    (fun h' r => h ⊆ h' /\ match r with Ok _ => room_seen file need h' | Err _ => True end) h.
Proof.
  intros HG. unfold ensureFreeSpace. wp_step. apply wpc_perform; [done |].
  intros [st | e]; cbn; [| split; [sub | done]].
  destruct (_ <? need) eqn:E; cbn; (split; [sub |]); [done |]. bools.
  exists st. split; [by left | done].
Qed.

Lemma ExpandBackingFile_spec p h :
  wpc (expand_guard p) (ExpandBackingFile (xp_backingFile p) (xp_requestedBytes p))
    (fun h' r => h ⊆ h' /\ match r with
       Ok _ => backing_grown (xp_backingFile p) (xp_requestedBytes p) h' | Err _ => True end) h.
Proof.
  unfold ExpandBackingFile. wp_step. apply wpc_perform; [done |]. intros fi.
  destruct (match fi with Ok st => _ | Err _ => _ end) eqn:E.
  { destruct fi as [st |]; [| done]. bools. cbn. split; [sub |]. left. exists st. split; [by left | done]. }
  wp_step. eapply wpc_post; [apply cmd_combined_spec, xc_fallocate |].
  intros h1 [out [[] | e]] [Hs Hr]; cbn in Hr |- *.
  { split; [sub |]. by right; left. }
  split; [done |]. intros fi2. apply wpc_bind.
  set (current := match fi2 with Ok st => st_size st | Err _ => 0 end).
  assert (Hc : size_seen (xp_backingFile p) current (Ev (CStat (xp_backingFile p)) fi2 :: h1)).
  { subst current. destruct fi2 as [st | e2]; [left; exists st | right; split; [done | exists e2]];
      try split; try done; by left. }
  eapply (wpc_post _ _ (fun h' r => Ev (CStat (xp_backingFile p)) fi2 :: h1 ⊆ h' /\ match r with
    | Ok _ => wrap64 (xp_requestedBytes p - current) <= 0
              \/ room_seen (xp_backingFile p) (wrap64 (xp_requestedBytes p - current)) h'
    | Err _ => True end)).
  { destruct (0 <? _) eqn:E2; bools; [| cbn; split; [sub | by left]].
    eapply wpc_post; [by apply ensureFreeSpace_spec |].
    intros h2 [[] | e2] [Hs2 Hr2]; (split; [sub | by auto]). }
  intros h2 [[] | e2] [Hs2 Hroom]; cbn; [| split; [sub | done]].
  apply wpc_bind. eapply wpc_post; [apply cmd_combined_spec; apply (xc_truncate _ _ current) |].
  - destruct Hc as [(st & Hin & Hst) | (Hz & e3 & Hin)]; [left; exists st | right; split; [done |]; exists e3]; auto.
  - done.
  - intros h3 [out3 [[] | e3]] [Hs3 Hr3]; cbn in Hr3 |- *; (split; [sub |]); [by right; right | done].
Qed.

(** The later steps, each on its own. *)
Definition runs (allowed : history -> list string -> Prop) (h : history) (c : call) : Prop :=
  match c with CExec _ _ argv => allowed h argv | c => mutates c = false end.

Lemma refresh_spec file :
  wpc (runs (fun h argv => argv = ["losetup"; "-j"; file]
         \/ exists out dev, loop_of out = Some dev /\ printed ["losetup"; "-j"; file] out h /\ argv = ["losetup"; "-c"; dev]))
    (refreshLoopDevice file) (fun h r => is_ok r = true -> loop_refreshed file h) [].
Proof.
  unfold refreshLoopDevice. wp_step. eapply wpc_post; [apply cmd_output_spec; by left |].
  intros h1 [out | e] [_ Hp]; cbn; [| done]. case_bool_decide; [done |].
  destruct (List.find _ _) as [line |] eqn:El; [| done]. wp_step.
  assert (Hl : loop_of out = Some (trim_space (hd "" (split ":" line)))) by (unfold loop_of; by rewrite El).
  eapply wpc_post; [eapply (wpc_frame (runs (fun _ argv => argv = ["losetup"; "-c"; trim_space (hd "" (split ":" line))]))); [by apply cmd_run_spec |] |].
  - intros l c Hc. destruct c; cbn in Hc |- *; try done. right. exists out, (trim_space (hd "" (split ":" line))).
    split; [done |]. split; [| done]. eapply printed_mono, Hp. intros x Hx. apply elem_of_app. by right.
  - intros h2 [[] | e2] (l & -> & _ & Hr); cbn; [| done]. intros _. exists out, (trim_space (hd "" (split ":" line))).
    split; [done |]. apply (ordered_then [_]); [apply evidence_persists; intros h h'; by apply exec_ok_mono | by apply ordered_one | done].
Qed.

Lemma resizeFilesystem_spec p :
  wpc (runs (fun h argv => argv = ["blkid"; "-s"; "TYPE"; "-o"; "value"; xp_mappedDevice p]
         \/ exists fsType, resize_argv fsType (xp_mappedDevice p) (xp_volumePath p) = Some argv))
    (resizeFilesystem (xp_mappedDevice p) (xp_volumePath p)) (fun h r => is_ok r = true -> fs_grown p h) [].
Proof.
  unfold resizeFilesystem. wp_step. eapply wpc_post; [apply cmd_output_spec; by left |].
  intros h1 [out | e] [Hs _]; cbn; [| done]. case_bool_decide; [done |].
  destruct (resize_argv _ _ _) as [argv |] eqn:Ha; [| done]. wp_step.
  eapply wpc_post; [apply cmd_combined_spec; right; by eexists |].
  intros h2 [o [[] | e2]] [Hs2 Hr]; cbn in Hr |- *; [by intros _; exists argv; eauto |]. by destruct (contains _ _).
Qed.

Lemma FetchVolumeSecrets_looks clientset params h :
  wpc looks_only (FetchVolumeSecrets clientset params) (fun _ _ => True) h.
Proof.
  unfold FetchVolumeSecrets, fetchPassphrase, fetchS3Config. repeat (wp_step || case_goal); done.
Qed.
Lemma passphrase_of_looks clientset params h :
  wpc looks_only (passphrase_of clientset params) (fun _ _ => True) h.
Proof.
  unfold passphrase_of. wp_step. eapply wpc_post; [apply FetchVolumeSecrets_looks |].
  intros h1 [vs | e] _; cbn; done.
Qed.

Lemma ResizeLUKS_spec p pass :
  wpc (runs (fun _ argv => argv = [CryptsetupCmd; "resize"; xp_mapperName p] \/ argv = ["dmsetup"; "udevcomplete_all"; "-y"]))
    (ResizeLUKS (xp_mapperName p) pass) (fun h r => is_ok r = true -> mapping_resized p h) [].
Proof.
  unfold ResizeLUKS. wp_step.
  eapply wpc_post; [by apply IsLUKSOpened_spec |]. intros h1 [] [Hs _]; cbn [negb]; [| done].
  wp_step. eapply wpc_post; [apply runCryptsetup_spec |].
  - intros h2 c _ [-> | ->]; [by left | by right].
  - intros h2 [[] | e] [Hs2 Hr]; cbn; [by intros _ | done].
Qed.

Lemma GetLUKSDeviceSize_spec p :
  wpc (runs (fun _ argv => argv = ["blockdev"; "--getsize64"; xp_mappedDevice p]))
    (GetLUKSDeviceSize (xp_mappedDevice p))
    (fun h r => forall size, r = Ok size -> wrap64 (xp_requestedBytes p - luksHeaderSlack) <= size -> mapper_measured p h) [].
Proof.
  unfold GetLUKSDeviceSize. wp_step. eapply wpc_post; [by apply cmd_output_spec |].
  intros h1 [out | e] [Hs Ho]; cbn; [| done].
  destruct (parse_int _) eqn:E; [| done]. intros size [= <-] Hle. by eexists _, _.
Qed.

Lemma exec_ok_evidence argv : evidence (exec_ok argv).
Proof. intros h h'. apply exec_ok_mono. Qed.
Lemma printed_evidence argv out : evidence (printed argv out).
Proof. intros h h'. apply printed_mono. Qed.
Lemma loop_refreshed_persists file : persists (loop_refreshed file).
Proof.
  intros l h (out & dev & Hl & H). exists out, dev. split; [done |].
  by apply ordered_persists; [apply evidence_persists, printed_evidence |].
Qed.
Lemma mapper_measured_evidence p : evidence (mapper_measured p).
Proof. intros h h' Hs (out & size & Hp & H). exists out, size. split; [by eapply printed_mono | done]. Qed.
Lemma fs_grown_evidence p : evidence (fs_grown p).
Proof. intros h h' Hs (argv & t & Ha & H). exists argv, t. split; [done | by eapply exec_ok_mono]. Qed.

(** C22: an expansion grows the layers bottom-up.  Whatever the commands answer,
    [performVolumeExpansion] refreshes a loop device only after the backing file
    had the requested size and losetup then named that device for the file,
    resizes the LUKS mapping only after that refresh succeeded, and grows the
    filesystem only after the mapped device was measured, after the resize, at
    the requested size less at most 64 MiB (the LUKS header's allowance); and it
    succeeds only if these five steps succeeded in this order.  The backing file
    is sized by fallocate, and by a sparse truncate only when its filesystem was
    seen to have room for the growth beyond the size last seen. *)
Theorem expansion_grows_bottom_up env clientset p :
  let '(h, r) := run env (performVolumeExpansion clientset p) [] in
  hist_ok (expand_guard p) h /\ (is_ok r = true -> ordered (layers_grown p) h).
Proof.
  rewrite (surjective_pairing (run env _ _)).
  apply (wpc_run env _ _ (fun h r => is_ok r = true -> ordered (layers_grown p) h)); [| done].
  unfold performVolumeExpansion. wp_step. eapply wpc_post; [apply ExpandBackingFile_spec |].
  intros h1 [[] | e] [_ Hg]; [| done]. wp_step.
  assert (H1 : ordered (take 1 (layers_grown p)) h1) by by apply ordered_one.
  eapply wpc_post; [eapply wpc_frame; [apply refresh_spec |] |].
  { intros l c Hc. destruct c; cbn in Hc |- *; try done.
    destruct Hc as [-> | (out & dev & Hl & Hp & ->)]; [apply xc_look; by left |]. apply (xc_loop _ _ out dev); [done |].
    by apply ordered_then; [apply evidence_persists, printed_evidence | |]. }
  intros h2 [[] | e] (l2 & -> & H2); [| done].
  assert (Ho2 : ordered (take 2 (layers_grown p)) (l2 ++ h1)).
  { apply (ordered_then (take 1 (layers_grown p))); [apply loop_refreshed_persists | done | by apply H2]. }
  clear H1 H2 Hg. revert Ho2. generalize (l2 ++ h1) as h3. clear l2 h1. intros h3 Ho3. wp_step.
  eapply wpc_post; [eapply (wpc_frame looks_only); [apply passphrase_of_looks | intros l c Hc; by destruct c] |].
  intros h4 [pass | e] (l4 & -> & _); [| done]. apply (ordered_later _ l4) in Ho3. revert Ho3. generalize (l4 ++ h3) as h5. clear l4 h3.
  intros h5 Ho5. wp_step. eapply wpc_post; [eapply wpc_frame; [apply ResizeLUKS_spec |] |].
  { intros l c Hc. destruct c; cbn in Hc |- *; try done.
    destruct Hc as [-> | ->]; [apply xc_resize; by apply ordered_later | apply xc_look; by do 3 right; left]. }
  intros h6 [[] | e] (l6 & -> & H6); [| done].
  assert (Ho6 : ordered (take 3 (layers_grown p)) (l6 ++ h5)).
  { apply (ordered_then (take 2 (layers_grown p))); [apply evidence_persists, exec_ok_evidence | done | by apply H6]. }
  wp_step. eapply wpc_post; [eapply wpc_frame; [apply GetLUKSDeviceSize_spec |] |].
  { intros l c Hc. destruct c; cbn in Hc |- *; try done. subst. apply xc_look. by right; left. }
  intros h7 [size | e] (l7 & -> & H7); [| done]. destruct (size <? _) eqn:E; [done |]. bools. wp_step.
  assert (Ho7 : ordered (take 4 (layers_grown p)) (l7 ++ l6 ++ h5)).
  { apply (ordered_then (take 3 (layers_grown p))); [apply evidence_persists, mapper_measured_evidence | done | by eapply H7]. }
  eapply wpc_post; [eapply wpc_frame; [apply resizeFilesystem_spec |] |].
  { intros l c Hc. destruct c; cbn in Hc |- *; try done.
    destruct Hc as [-> | (t & Ht)]; [apply xc_look; by do 2 right; left | eapply xc_fs; [exact Ht | by apply ordered_later]]. }
  intros h8 [[] | e] (l8 & -> & H8); cbn; [| done]. intros _.
  apply (ordered_then (take 4 (layers_grown p))); [apply evidence_persists, fs_grown_evidence | done | by apply H8].
Qed.

(** ** Creating a backing file *)

(** What [CreateBackingFile] may run: fallocate, then, only when the size is
    not a plain number or the room for it was seen, the sparse truncate. *)
Definition create_guard (file size : string) (h : history) (c : call) : Prop :=
  match c with
  | CExec _ _ argv =>
      argv = ["fallocate"; "-l"; size; file]
      \/ (argv = ["truncate"; "-s"; size; file]
          /\ forall n, parse_int (trim_space size) = Some n -> room_seen file n h)
  | c => mutates c = false
  end.

Lemma CreateBackingFile_spec (G : history -> call -> Prop) file size h :
  (forall h' c, h ⊆ h' -> create_guard file size h' c -> G h' c) ->
  wpc G (CreateBackingFile file size)
    (fun h' r => h ⊆ h' /\ (is_ok r = true -> exists st, Ev (CStat file) (Ok st) ∈ h')) h.
Proof.
  intros HG. unfold CreateBackingFile. wp_step.
  eapply wpc_post; [apply cmd_combined_spec, HG; [done | by left] |].
  intros h1 [out r] [Hs Hr]. wp_step.
  apply (wpc_post _ _ (fun h' r => h ⊆ h')).
  2: { intros h2 [[] | e] Hs2; cbn; [| by split]. split; [apply HG; [sub | done] |].
       intros [st | e]; cbn; (split; [sub |]); [intros _; exists st; by left | done]. }
  destruct r as [[] | e]; [done |]. wp_step.
  eapply (wpc_post _ _ (fun h' r => h ⊆ h' /\ match r with
    Ok _ => forall n, parse_int (trim_space size) = Some n -> room_seen file n h' | Err _ => True end)).
  { destruct (parse_int _) as [n |] eqn:E.
    - eapply wpc_post; [apply ensureFreeSpace_spec, HG; [sub | done] |].
      intros h2 [[] | e2] [Hs2 Hr2]; (split; [sub |]); [| done]. by intros ? [= <-].
    - by split. }
  intros h2 [[] | e2] [Hs2 Hroom]; cbn [wpc]; [| sub]. wp_step.
  eapply wpc_post; [apply cmd_combined_spec, HG; [sub | right; by split] |].
  intros h3 [out3 [[] | e3]] [Hs3 _]; cbn; sub.
Qed.

(** What [ensureBackingFileExists] may do to the file: remove it only after
    seeing it smaller than a LUKS header, create it only after seeing it
    absent, on a node that may, or after that removal. *)
Definition backing_guard (nodeID : string) (req : stage_request) (file : string)
    (h : history) (c : call) : Prop :=
  match c with
  | CRemove p => p = file /\ exists st, Ev (CStat file) (Ok st) ∈ h /\ st_size st < minSize
  | CExec _ _ argv =>
      (exists size, argv = ["fallocate"; "-l"; size; file]
         \/ (argv = ["truncate"; "-s"; size; file]
             /\ forall n, parse_int (trim_space size) = Some n -> room_seen file n h))
      /\ (Ev (CRemove file) (Ok tt) ∈ h
          \/ (Ev (CStat file) (Err ENOENT) ∈ h
              /\ (mget (st_context req) PinnedNodeParam = "" \/ mget (st_context req) PinnedNodeParam = nodeID)))
  | c => mutates c = false
  end.

Lemma backing_of_create nodeID req file size h0 h c :
  (Ev (CRemove file) (Ok tt) ∈ h0
   \/ (Ev (CStat file) (Err ENOENT) ∈ h0
       /\ (mget (st_context req) PinnedNodeParam = "" \/ mget (st_context req) PinnedNodeParam = nodeID))) ->
  h0 ⊆ h -> create_guard file size h c -> backing_guard nodeID req file h c.
Proof.
  intros H0 Hs Hc. destruct c; cbn in Hc |- *; try done.
  split; [by exists size |]. destruct H0 as [H0 | [H0 Hp]]; [left | right]; auto.
Qed.


Definition pinned_request : stage_request :=
  StageReq "pvc-1" "/stage" None {[PinnedNodeParam := "node-a"]}.


(** The pin is not looked at when the file exists but is undersized: on a
    node the volume is not pinned to, such a file is removed and an empty
    container is created in its place, which is what the pin is there to
    refuse. *)
Theorem undersized_file_ignores_pin (f : forall c, reply c) nodeID req file st st' :
  mget (st_context req) PinnedNodeParam <> "" -> mget (st_context req) PinnedNodeParam <> nodeID ->
  f (CStat file) = Ok st -> st_size st < minSize -> f (CRemove file) = Ok tt ->
  let size := if bool_decide (mget (st_context req) "capacity" = "") then "1073741824"
              else mget (st_context req) "capacity" in
  f (CExec None "" ["fallocate"; "-l"; size; file]) = XExit 0 "" st' ->
  let '(h, r) := run (fun _ => f) (ensureBackingFileExists nodeID req file) [] in
  r = Ok tt /\ Ev (CRemove file) (Ok tt) ∈ h /\ exec_ok ["fallocate"; "-l"; size; file] h.
Proof.
  intros _ _ Hst Hsz Hrm size Hfa. unfold ensureBackingFileExists, CreateBackingFile, cmd_combined.
  cbn -[minSize]. rewrite Hst. apply Z.ltb_lt in Hsz. rewrite Hsz. cbn. rewrite Hrm. cbn.
  fold size. rewrite Hfa. cbn. rewrite Hst. cbn. split; [done |]. split.
  - right. right. by left.
  - exists None, "", "", st'. right. by left.
Qed.

Definition undersized_world : forall c, reply c := fun c =>
  match c return reply c with
  | CStat _ => Ok (FStat 4096 false 1)
  | c => default_reply c
  end.
Lemma undersized_file_ignores_pin_witness :
  snd (run (fun _ => undersized_world) (ensureBackingFileExists "node-b" pinned_request "/v/luks-pvc-1.img") []) = Ok tt.
Proof.
  exact (proj1 (undersized_file_ignores_pin undersized_world "node-b" pinned_request "/v/luks-pvc-1.img"
    (FStat 4096 false 1) "" ltac:(discriminate) ltac:(discriminate) eq_refl eq_refl eq_refl eq_refl)).
Defined.

(** ** Taking the layers down *)

Lemma flatten_unmounted s path : flattenMountStacks s !! path = None -> stack_depth s path = 0%nat.
Proof.
  unfold flattenMountStacks, stack_depth. rewrite lookup_fmap. by destruct (s !! path).
Qed.

(** The mount table was seen with nothing at [path], or could not be read. *)
Definition gone_or_unknown (path : string) (h : history) : Prop :=
  (exists s, Ev CHostMounts (Some s) ∈ h /\ stack_depth s path = 0%nat) \/ Ev CHostMounts None ∈ h.

Lemma gone_or_unknown_mono path h h' : h ⊆ h' -> gone_or_unknown path h -> gone_or_unknown path h'.
Proof. intros Hs [(s & H & Hd) | H]; [left; exists s | right]; auto. Qed.

(** The mapping of the volume is gone: it was not there, or was closed. *)
Definition mapping_gone (volumeID : string) (h : history) : Prop :=
  stat_failed (GetMappedDevicePath (GenerateMapperName volumeID)) h
  \/ exec_ok [CryptsetupCmd; "luksClose"; GenerateMapperName volumeID] h.

(** [file] is the volume's backing file, below the root the environment names. *)
Definition backing_of (volumeID file : string) (h : history) : Prop :=
  exists env, Ev (CGetenv "CSI_LOCAL_PATH") env ∈ h
    /\ file = GenerateBackingFilePath (path_join [if bool_decide (env = "") then DefaultLocalPath else env; volumeID]) volumeID.
Definition loops_listed (volumeID : string) (h : history) : Prop :=
  exists file b i r, backing_of volumeID file h /\ Ev (CExec b i ["losetup"; "-j"; file]) r ∈ h.

(** The layers of a volume, from the top; without a staging path there is no
    first one. *)
Definition layers_down (volumeID staging : string) : list (history -> Prop) :=
  [(fun h => staging = "" \/ gone_or_unknown staging h); mapping_gone volumeID; loops_listed volumeID].

(** The calls of [cleanupVolumeStaging], each with what must have been seen. *)
Definition cleanup_guard (volumeID staging : string) (h : history) (c : call) : Prop :=
  match c with
  | CExec _ _ argv =>
      argv ∈ [["sync"; "-f"; staging]; ["sync"]; host_cmd ["umount"; staging]; host_cmd ["umount"; "-l"; staging]]
      \/ (argv ∈ [[CryptsetupCmd; "luksClose"; GenerateMapperName volumeID]; ["dmsetup"; "udevcomplete_all"; "-y"]]
          /\ ordered (take 1 (layers_down volumeID staging)) h)
      \/ (exists file, argv = ["losetup"; "-j"; file] /\ backing_of volumeID file h
          /\ ordered (take 2 (layers_down volumeID staging)) h)
      \/ (exists file d out, argv = ["losetup"; "-d"; d] /\ backing_of volumeID file h /\ d ∈ parseLosetupJ out
          /\ ordered (take 2 (layers_down volumeID staging) ++ [printed ["losetup"; "-j"; file] out]) h)
  | CRemoveAll p => p = staging /\ p <> "" /\ ordered (layers_down volumeID staging) h
  | c => mutates c = false
  end.

Definition unmounts_of (p : string) : list (list string) :=
  [["sync"; "-f"; p]; ["sync"]; host_cmd ["umount"; p]; host_cmd ["umount"; "-l"; p]].

Lemma unmount_staging_spec p :
  wpc (runs (fun _ argv => argv ∈ unmounts_of p)) (unmount_staging p)
    (fun h r => is_ok r = true -> p = "" \/ gone_or_unknown p h) [].
Proof.
  unfold unmount_staging. case_bool_decide as Hp; [cbn; by left |].
  unfold isMountPoint, IsHostMountPoint, HostMounts, HostMountsOK, HostMountStacksOK.
  do 4 wp_step. apply wpc_perform; [done |]. intros t. cbn [wpc].
  destruct (negb _) eqn:E.
  { cbn. intros _. right. bools. destruct t as [s |]; cbn in E.
    - left. exists s. split; [by left |]. apply flatten_unmounted.
      destruct (flattenMountStacks s !! p) eqn:El; [| done]. exfalso. apply E. by eexists.
    - right. by left. }
  wp_step. eapply (wpc_post _ _ (fun _ _ => True)).
  { unfold sync_staging. wp_step. eapply wpc_post; [by apply cmd_run_spec; left |].
    intros h1 r _. destruct (is_ok r); [done |]. wp_step.
    eapply wpc_post; [apply cmd_run_spec; right; by left | done]. }
  intros h1 [] _. wp_step. eapply wpc_post; [apply (unmountPath_spec (runs (fun _ argv => argv ∈ unmounts_of p))) |].
  { intros h2 c. destruct c; cbn; try tauto; try congruence.
    intros (_ & _ & [-> | ->]); [do 2 right; by left | do 3 right; by left]. }
  intros h2 [[] | e] [Hs2 Hr]; cbn; [| done].
  intros _. right. destruct (Hr eq_refl) as [(s & h' & -> & Hd) | Hn]; [left | by right].
  exists s. split; [by left | done].
Qed.

Lemma CloseLUKS_spec v :
  wpc (runs (fun _ argv => argv ∈ [[CryptsetupCmd; "luksClose"; GenerateMapperName v]; ["dmsetup"; "udevcomplete_all"; "-y"]]))
    (CloseLUKS (GenerateMapperName v)) (fun h r => is_ok r = true -> mapping_gone v h) [].
Proof.
  unfold CloseLUKS. wp_step. eapply wpc_post; [by apply IsLUKSOpened_spec |].
  intros h1 [] [Hs Hb]; cbn [negb]; [| cbn; by left].
  wp_step. eapply wpc_post; [apply runCryptsetup_spec |].
  - intros h2 c Hs2 [-> | ->]; [by left | by right; left].
  - intros h2 [[] | e] [Hs2 Hr]; cbn; [by right | done].
Qed.

Lemma detach_spec file :
  wpc (runs (fun h argv => argv = ["losetup"; "-j"; file]
        \/ exists d out, argv = ["losetup"; "-d"; d] /\ d ∈ parseLosetupJ out /\ printed ["losetup"; "-j"; file] out h))
    (detachLoopDevicesFor file) (fun h _ => exists b i r, Ev (CExec b i ["losetup"; "-j"; file]) r ∈ h) [].
Proof.
  unfold detachLoopDevicesFor, loopDevicesFor, runCmdBoundedOutput. cbn [bind perform wpc]. split; [by left |].
  intros r. set (h1 := [Ev _ _]). eapply (wpc_post _ _ (fun h' _ => h1 ⊆ h')).
  2: { intros h2 [] Hs. exists (Some (30 * second)), "", r. apply Hs. by left. }
  destruct r as [e | [| c | c] out err |]; cbn [wpc bind for_each]; try done. apply wpc_for_each; [done |].
  intros d h' Hd Hs. wp_step. eapply wpc_post; [apply runCmd_guard; right |].
  - exists d, out. split; [done |]. split; [done |]. exists (Some (30 * second)), "", err. apply Hs. by left.
  - intros h2 r2 Hs2. cbn. sub.
Qed.

Lemma gone_or_unknown_evidence p : evidence (gone_or_unknown p).
Proof. intros h h'. apply gone_or_unknown_mono. Qed.
Lemma mapping_gone_evidence v : evidence (mapping_gone v).
Proof. intros h h' Hs [(e & H) | H]; [left; exists e; auto | right; by eapply exec_ok_mono]. Qed.
Lemma backing_of_evidence v file : evidence (backing_of v file).
Proof. intros h h' Hs (env & He & ->). exists env. auto. Qed.
Lemma loops_listed_evidence v : evidence (loops_listed v).
Proof. intros h h' Hs (file & b & i & r & Hb & Hr). exists file, b, i, r. split; [by eapply backing_of_evidence | auto]. Qed.

Lemma cleanupVolumeStaging_spec volumeID staging :
  wpc (cleanup_guard volumeID staging) (cleanupVolumeStaging volumeID staging)
    (fun h r => is_ok r = true -> ordered (layers_down volumeID staging) h) [].
Proof.
  unfold cleanupVolumeStaging. wp_step. eapply wpc_post.
  { eapply wpc_mono; [apply unmount_staging_spec | | exact (fun _ _ H => H)]. intros h c Hc. destruct c; cbn [runs cleanup_guard] in Hc |- *; try done. by left. }
  intros h1 [[] | e] Hg; [| done]. assert (H1 : ordered (take 1 (layers_down volumeID staging)) h1) by by apply ordered_one, Hg.
  clear Hg. wp_step. eapply wpc_post; [eapply wpc_frame; [apply CloseLUKS_spec |] |].
  { intros l c Hc. destruct c; cbn [runs cleanup_guard] in Hc |- *; try done. right. left. split; [done |]. by apply ordered_later. }
  intros h2 [[] | e] (l2 & -> & Hc); [| done].
  assert (H2 : ordered (take 2 (layers_down volumeID staging)) (l2 ++ h1)).
  { apply (ordered_then (take 1 (layers_down volumeID staging))); [apply evidence_persists, mapping_gone_evidence | done | by apply Hc]. }
  clear Hc. unfold GetLocalPath, local_root. do 3 wp_step. apply wpc_perform; [done |]. intros root. cbn [wpc]. wp_step.
  set (file := GenerateBackingFilePath _ _).
  assert (Hb : backing_of volumeID file [Ev (CGetenv "CSI_LOCAL_PATH") root]) by (exists root; split; [by left | done]).
  change (Ev (CGetenv "CSI_LOCAL_PATH") root :: l2 ++ h1) with ([Ev (CGetenv "CSI_LOCAL_PATH") root] ++ l2 ++ h1).
  eapply wpc_post; [eapply wpc_frame; [apply (detach_spec file) |] |].
  { intros l c Hc. destruct c; cbn [runs cleanup_guard] in Hc |- *; try done. do 2 right.
    assert (Hb' : backing_of volumeID file (l ++ [Ev (CGetenv "CSI_LOCAL_PATH") root] ++ l2 ++ h1)).
    { eapply backing_of_evidence, Hb. intros x Hx. rewrite !elem_of_app. auto. }
    destruct Hc as [-> | (d & out & -> & Hd & Hp)]; [left; exists file | right; exists file, d, out];
      (split; [done |]; split; [done |]).
    - rewrite app_assoc. by apply ordered_later.
    - split; [done |]. apply ordered_then; [apply evidence_persists, printed_evidence | | done]. exact (ordered_later _ [_] _ H2). }
  intros h3 [] (l3 & -> & (b & i & r & Hr)). rewrite app_assoc.
  assert (H3 : ordered (layers_down volumeID staging) ((l3 ++ [Ev (CGetenv "CSI_LOCAL_PATH") root]) ++ l2 ++ h1)).
  { apply (ordered_then (take 2 (layers_down volumeID staging))); [apply evidence_persists, loops_listed_evidence | done |].
    exists file, b, i, r. split; [| apply elem_of_app; by left]. eapply backing_of_evidence, Hb. intros x Hx. apply elem_of_app. by right. }
  case_bool_decide as Hp; [by intros _ |]. wp_step. apply wpc_perform; [by split |]. intros r2. intros _. exact (ordered_later _ [_] _ H3).
Qed.


(** "unknown" is taken for "not mounted": when the mount table cannot be
    read and no LUKS mapping exists (an S3 volume, or one already closed),
    [cleanupVolumeStaging] runs no unmount at all, deletes the staging
    directory recursively, through whatever is still mounted on it, and
    reports success. *)
Theorem unknown_table_deletes_staging (f : forall c, reply c) volumeID staging e :
  staging <> "" -> f CHostMounts = None ->
  f (CStat (GetMappedDevicePath (GenerateMapperName volumeID))) = Err e ->
  (forall file, f (CExec (Some (30 * second)) "" ["losetup"; "-j"; file]) = XExit 0 "" "") ->
  let '(h, r) := run (fun _ => f) (cleanupVolumeStaging volumeID staging) [] in
  r = Ok tt /\ Ev (CRemoveAll staging) (f (CRemoveAll staging)) ∈ h
  /\ hist_ok (fun _ c => forall b i l, c <> CExec b i (host_cmd ("umount" :: l))) h.
Proof.
  intros Hp Ht Hst Hl. unfold cleanupVolumeStaging, unmount_staging. rewrite bool_decide_eq_false_2 by done.
  unfold isMountPoint, IsHostMountPoint, HostMounts, HostMountsOK, HostMountStacksOK.
  cbn [bind perform run fmap option_fmap option_map default]. rewrite Ht. cbn [fmap option_fmap option_map default].
  rewrite bool_decide_eq_false_2 by (rewrite lookup_empty; apply is_Some_None). cbn [negb bind run].
  unfold CloseLUKS, IsLUKSOpened. cbn [bind perform run].
  unfold GetMappedDevicePath in Hst. rewrite Hst. cbn [is_ok negb bind run].
  unfold GetLocalPath, local_root. cbn [bind perform run].
  unfold detachLoopDevicesFor, loopDevicesFor, runCmdBoundedOutput. cbn [bind perform run].
  rewrite Hl. cbn [bind run parseLosetupJ split omap list_omap parse_losetup_line trim_space for_each].
  cbn -[path_join]. split; [done |]. split; [by left |]. by repeat split.
Qed.

Definition unreadable_table_world : forall c, reply c := default_reply.
Lemma unknown_table_deletes_staging_witness :
  snd (run (fun _ => unreadable_table_world) (cleanupVolumeStaging "pvc-1" "/stage") []) = Ok tt.
Proof.
  exact (proj1 (unknown_table_deletes_staging unreadable_table_world "pvc-1" "/stage" ENOENT
    ltac:(discriminate) eq_refl eq_refl (fun _ => eq_refl))).
Defined.

End NodeLuks.
