(* ===== verification/NodeState.v ===== *)
(** * NodeState: what the node server keeps in memory

    The fields of [NodeServer] and [S3SyncManager] (pkg/driver/node.go,
    node_s3.go) that change at run time, as one record, and the state-passing
    programs over it.  The mutexes that protect the maps are left out: a
    handler's steps are the sequence written here, run without interruption;
    what [lockVolume] and the other mutexes make of handlers that run at once
    is shown in Interleave.  A goroutine a handler starts is a
    [task]: recorded when it is started, run to its end later (see Drain). *)

From S2P Require Import Prelude GoStrings Effects MountManager.
Import MountManager.

Module NodeState.

(** A drain goroutine of [cleanupS3Sync], or one of [resumeStrandedDrain]. *)
Inductive task : Type :=
  | DrainTask (volumeID : string)
  | ResumeTask (volumeID stagingTargetPath : string) (volumeContext : gmap string string).
Definition task_volume (t : task) : string :=
  match t with DrainTask v => v | ResumeTask v _ _ => v end.

Record reconcileAttempt : Set := Attempt { ra_count : Z; ra_last : Z }.

(** [S3SyncManager]. *)
Record S3SyncManager : Type := S3Sync
  { mountManagers : gmap string MountManager; volumesInSetup : gset string;
    backgroundDrains : gset string; pendingDrains : gset string; tasks : list task }.

(** The retry and back-off bookkeeping of the checker. *)
Record checker : Type := Checker
  { strandedRetry : gmap string Z; zombieVFSStrikes : gmap string Z;
    reconcileAttempts : gmap string reconcileAttempt; consumerRestartTimes : gmap string Z;
    vfsProbesInFlight : gmap string Z }.

Record node : Type := Node
  { s3SyncMgr : S3SyncManager; chk : checker; mountedAt : gmap string Z;
    kubeletRootCache : option string; lastNodeGetInfo : Z; rclone_globals : globals;
    regUnhealthy : bool }.

(** ** State-passing programs *)

Definition M (A : Type) : Type := node -> prog (node * A).
Definition ret {A} (a : A) : M A := fun s => Ret (s, a).
Definition mbind {A B} (m : M A) (f : A -> M B) : M B := fun s => bind (m s) (fun r => f (snd r) (fst r)).
Definition lift {A} (p : prog A) : M A := fun s => bind p (fun a => Ret (s, a)).
Definition ask (c : call) : M (reply c) := lift (perform c).
Definition gets {A} (f : node -> A) : M A := fun s => Ret (s, f s).
Definition modify (f : node -> node) : M unit := fun s => Ret (f s, tt).
Fixpoint mfor_each {A} (l : list A) (body : A -> M unit) : M unit :=
  match l with
  | [] => ret tt
  | x :: l => mbind (body x) (fun _ => mfor_each l body)
  end.

Declare Scope node_scope.
Delimit Scope node_scope with node.
Notation "x <~ m ;; k" := (mbind m (fun x => k))
  (at level 100, m at next level, right associativity) : node_scope.
Notation "m ;~ k" := (mbind m (fun _ => k))
  (at level 100, right associativity) : node_scope.
(** [if err := m; err != nil { return Err (w err) }], else bind the value. *)
Notation "'attempt' x <~ m 'else' w ;; k" :=
  (mbind m (fun r => match r with Ok x => k | Err e => ret (Err (w e)) end))
  (at level 100, x name, m at next level, w at level 0, right associativity) : node_scope.
#[global] Open Scope node_scope.

(** ** Field updates *)

Definition on_s3 (f : S3SyncManager -> S3SyncManager) (s : node) : node :=
  Node (f (s3SyncMgr s)) (chk s) (mountedAt s) (kubeletRootCache s) (lastNodeGetInfo s) (rclone_globals s) (regUnhealthy s).
Definition on_chk (f : checker -> checker) (s : node) : node :=
  Node (s3SyncMgr s) (f (chk s)) (mountedAt s) (kubeletRootCache s) (lastNodeGetInfo s) (rclone_globals s) (regUnhealthy s).
Definition on_mountedAt (f : gmap string Z -> gmap string Z) (s : node) : node :=
  Node (s3SyncMgr s) (chk s) (f (mountedAt s)) (kubeletRootCache s) (lastNodeGetInfo s) (rclone_globals s) (regUnhealthy s).
Definition set_root (r : string) (s : node) : node :=
  Node (s3SyncMgr s) (chk s) (mountedAt s) (Some r) (lastNodeGetInfo s) (rclone_globals s) (regUnhealthy s).
Definition set_lastNodeGetInfo (t : Z) (s : node) : node :=
  Node (s3SyncMgr s) (chk s) (mountedAt s) (kubeletRootCache s) t (rclone_globals s) (regUnhealthy s).
Definition set_globals (g : globals) (s : node) : node :=
  Node (s3SyncMgr s) (chk s) (mountedAt s) (kubeletRootCache s) (lastNodeGetInfo s) g (regUnhealthy s).

Definition set_regUnhealthy (b : bool) (s : node) : node :=
  Node (s3SyncMgr s) (chk s) (mountedAt s) (kubeletRootCache s) (lastNodeGetInfo s) (rclone_globals s) b.

Definition on_managers (f : gmap string MountManager -> gmap string MountManager) : node -> node :=
  on_s3 (fun m => S3Sync (f (mountManagers m)) (volumesInSetup m) (backgroundDrains m) (pendingDrains m) (tasks m)).
Definition on_setup (f : gset string -> gset string) : node -> node :=
  on_s3 (fun m => S3Sync (mountManagers m) (f (volumesInSetup m)) (backgroundDrains m) (pendingDrains m) (tasks m)).
Definition on_drains (f : gset string -> gset string) : node -> node :=
  on_s3 (fun m => S3Sync (mountManagers m) (volumesInSetup m) (f (backgroundDrains m)) (pendingDrains m) (tasks m)).
Definition on_pending (f : gset string -> gset string) : node -> node :=
  on_s3 (fun m => S3Sync (mountManagers m) (volumesInSetup m) (backgroundDrains m) (f (pendingDrains m)) (tasks m)).
Definition on_tasks (f : list task -> list task) : node -> node :=
  on_s3 (fun m => S3Sync (mountManagers m) (volumesInSetup m) (backgroundDrains m) (pendingDrains m) (f (tasks m))).

Definition on_strandedRetry (f : gmap string Z -> gmap string Z) : node -> node :=
  on_chk (fun c => Checker (f (strandedRetry c)) (zombieVFSStrikes c) (reconcileAttempts c)
                     (consumerRestartTimes c) (vfsProbesInFlight c)).
Definition on_strikes (f : gmap string Z -> gmap string Z) : node -> node :=
  on_chk (fun c => Checker (strandedRetry c) (f (zombieVFSStrikes c)) (reconcileAttempts c)
                     (consumerRestartTimes c) (vfsProbesInFlight c)).
Definition on_attempts (f : gmap string reconcileAttempt -> gmap string reconcileAttempt) : node -> node :=
  on_chk (fun c => Checker (strandedRetry c) (zombieVFSStrikes c) (f (reconcileAttempts c))
                     (consumerRestartTimes c) (vfsProbesInFlight c)).
Definition on_restarts (f : gmap string Z -> gmap string Z) : node -> node :=
  on_chk (fun c => Checker (strandedRetry c) (zombieVFSStrikes c) (reconcileAttempts c)
                     (f (consumerRestartTimes c)) (vfsProbesInFlight c)).
Definition on_probes (f : gmap string Z -> gmap string Z) : node -> node :=
  on_chk (fun c => Checker (strandedRetry c) (zombieVFSStrikes c) (reconcileAttempts c)
                     (consumerRestartTimes c) (f (vfsProbesInFlight c))).

(** ** Proof rules *)

Lemma wpm_bind {A B} G (m : M A) (f : A -> M B) s Q h :
  wpc G (m s) (fun h' r => wpc G (f (snd r) (fst r)) Q h') h -> wpc G (mbind m f s) Q h.
Proof. apply wpc_bind. Qed.
Lemma wpm_lift {A} G (p : prog A) s (Q : history -> node * A -> Prop) h :
  wpc G p (fun h' a => Q h' (s, a)) h -> wpc G (lift p s) Q h.
Proof. intros H. unfold lift. apply wpc_bind. exact H. Qed.
Lemma wpm_ask G c s (Q : history -> node * reply c -> Prop) h :
  G h c -> (forall r, Q (Ev c r :: h) (s, r)) -> wpc G (ask c s) Q h.
Proof. intros HG HQ. apply wpm_lift, wpc_perform; auto. Qed.
Lemma wpm_modify G f s (Q : history -> node * unit -> Prop) h :
  Q h (f s, tt) -> wpc G (modify f s) Q h.
Proof. done. Qed.
Lemma wpm_gets {A} G (f : node -> A) s (Q : history -> node * A -> Prop) h :
  Q h (s, f s) -> wpc G (gets f s) Q h.
Proof. done. Qed.
Lemma wpm_for_each {A} G (l : list A) body (I : history -> node -> Prop) s h :
  I h s ->
  (forall x s h, x ∈ l -> I h s -> wpc G (body x s) (fun h' r => I h' (fst r)) h) ->
  wpc G (mfor_each l body s) (fun h' r => I h' (fst r)) h.
Proof.
  revert s h. induction l as [| x l IH]; intros s h HI Hb; [done |].
  cbn. apply wpm_bind. eapply wpc_post; [apply Hb; [by left | done] |].
  intros h' [s' u] HI'. apply IH; [done |]. intros y s'' h'' Hy. apply Hb. by right.
Qed.

(** What a part of the program does may be forgotten, save that the history
    grew and, for a lifted program, that the state is the same. *)
Lemma wpm_skip {A B} (m : M A) (f : A -> M B) s Q h :
  (forall h' s' a, h ⊆ h' -> wpc anything (f a s') Q h') -> wpc anything (mbind m f s) Q h.
Proof.
  intros H. apply wpm_bind. eapply wpc_post; [apply wpc_extends, wpc_trivial |].
  intros h' [s' a] [Hs _]. by apply H.
Qed.
Lemma wpm_skip_lift {A B} (p : prog A) (f : A -> M B) s Q h :
  (forall h' a, h ⊆ h' -> wpc anything (f a s) Q h') -> wpc anything (mbind (lift p) f s) Q h.
Proof.
  intros H. apply wpm_bind, wpm_lift. eapply wpc_post; [apply wpc_extends, wpc_trivial |].
  intros h' a [Hs _]. by apply H.
Qed.

(** [m] leaves a part of the state alone. *)
Definition keeps {X A} (part : node -> X) (m : M A) : Prop :=
  forall s h, wpc anything (m s) (fun _ r => part (fst r) = part s) h.

Lemma keeps_lift {X A} (part : node -> X) (p : prog A) : keeps part (lift p).
Proof. intros s h. apply wpm_lift. eapply wpc_post; [apply wpc_trivial |]. done. Qed.
Lemma keeps_ask {X} (part : node -> X) c : keeps part (ask c).
Proof. apply keeps_lift. Qed.
Lemma keeps_ret {X A} (part : node -> X) (a : A) : keeps part (ret a).
Proof. done. Qed.
Lemma keeps_gets {X A} (part : node -> X) (f : node -> A) : keeps part (gets f).
Proof. done. Qed.
Lemma keeps_modify {X} (part : node -> X) f : (forall s, part (f s) = part s) -> keeps part (modify f).
Proof. intros H s h. apply wpm_modify, H. Qed.
Lemma keeps_bind {X A B} (part : node -> X) (m : M A) (f : A -> M B) :
  keeps part m -> (forall a, keeps part (f a)) -> keeps part (mbind m f).
Proof.
  intros Hm Hf s h. apply wpm_bind. eapply wpc_post; [apply Hm |].
  intros h' [s' a] Hs. eapply wpc_post; [apply Hf |]. intros h'' r ->. exact Hs.
Qed.
Create HintDb keeps discriminated.
#[export] Hint Resolve keeps_lift keeps_ask keeps_ret keeps_gets : keeps.
#[export] Hint Extern 2 (keeps _ (modify _)) => apply keeps_modify; by intros : keeps.
Lemma keeps_for_each {X A} (part : node -> X) (l : list A) body :
  (forall x, keeps part (body x)) -> keeps part (mfor_each l body).
Proof.
  intros Hb. induction l as [| x l IH]; cbn [mfor_each]; [apply keeps_ret |]. by apply keeps_bind.
Qed.

Ltac keeps := repeat first [ solve [auto 2 with keeps] | apply keeps_bind | apply keeps_for_each | progress cbn zeta
  | match goal with |- forall _, _ => intros ? | |- keeps _ (match ?x with _ => _ end) => destruct x end ].

(** Whatever the state, [m] makes only some calls. *)
Definition monly {A} (P : call -> Prop) (m : M A) : Prop := forall s, only P (m s).

Lemma monly_bind {A B} P (m : M A) (f : A -> M B) : monly P m -> (forall a, monly P (f a)) -> monly P (mbind m f).
Proof. intros Hm Hf s. apply only_bind; [apply Hm | intros [s' a]; apply Hf]. Qed.
Lemma monly_lift {A} P (p : prog A) : only P p -> monly P (lift p).
Proof. intros Hp s. by apply only_bind. Qed.
Lemma monly_ask (P : call -> Prop) c : P c -> monly P (ask c).
Proof. intros Hc. by apply monly_lift, only_perform. Qed.
Lemma monly_ret {A} P (a : A) : monly P (ret a).
Proof. done. Qed.
Lemma monly_gets {A} P (f : node -> A) : monly P (gets f).
Proof. done. Qed.
Lemma monly_modify P f : monly P (modify f).
Proof. done. Qed.
#[export] Hint Resolve monly_ret monly_gets monly_modify monly_lift monly_ask : only.
Ltac monly_with tac := repeat first
  [ solve [auto 3 with only] | apply monly_bind | progress cbn zeta
  | match goal with
    | |- forall _, _ => intros ?
    | |- monly _ (lift _) => apply monly_lift; only_with tac
    | |- monly _ (ask _) => apply monly_ask; tac
    | |- monly _ (match ?x with _ => _ end) => destruct x
    end ].

#[global] Arguments mbind : simpl never.
#[global] Arguments lift : simpl never.
#[global] Arguments ask : simpl never.
#[global] Arguments gets : simpl never.
#[global] Arguments modify : simpl never.

(** [m] preserves an invariant of the state. *)
Definition preserves (I : node -> Prop) {A} (m : M A) : Prop :=
  forall s h, I s -> wpc anything (m s) (fun _ r => I (fst r)) h.

Lemma preserves_keeps {X A} (part : node -> X) (I : node -> Prop) (m : M A) :
  (forall s s', part s' = part s -> I s -> I s') -> keeps part m -> preserves I m.
Proof. intros HI Hm s h Hs. eapply wpc_post; [apply Hm |]. intros h' r E. exact (HI _ _ E Hs). Qed.
Lemma keeps_preserves {X A} (part : node -> X) (m : M A) :
  (forall x, preserves (fun s => part s = x) m) -> keeps part m.
Proof. intros H s h. by apply (H (part s)). Qed.
Lemma preserves_lift I {A} (p : prog A) : preserves I (lift p).
Proof. intros s h Hs. apply wpm_lift. eapply wpc_post; [apply wpc_trivial |]. done. Qed.
Lemma preserves_ask I c : preserves I (ask c).
Proof. apply preserves_lift. Qed.
Lemma preserves_ret I {A} (a : A) : preserves I (ret a).
Proof. by intros s h Hs. Qed.
Lemma preserves_gets I {A} (f : node -> A) : preserves I (gets f).
Proof. by intros s h Hs. Qed.
Lemma preserves_modify (I : node -> Prop) f : (forall s, I s -> I (f s)) -> preserves I (modify f).
Proof. intros H s h Hs. by apply wpm_modify, H. Qed.
Lemma preserves_bind I {A B} (m : M A) (f : A -> M B) :
  preserves I m -> (forall a, preserves I (f a)) -> preserves I (mbind m f).
Proof.
  intros Hm Hf s h Hs. apply wpm_bind. eapply wpc_post; [by apply Hm |]. intros h' [s' a] Hs'. by apply Hf.
Qed.
Lemma preserves_for_each I {A} (l : list A) body :
  (forall x, preserves I (body x)) -> preserves I (mfor_each l body).
Proof.
  intros Hb. induction l as [| x l IH]; cbn [mfor_each]; [apply preserves_ret |]. by apply preserves_bind.
Qed.
Lemma preserves_and (I J : node -> Prop) {A} (m : M A) :
  preserves I m -> preserves J m -> preserves (fun s => I s /\ J s) m.
Proof. intros HI HJ s h [Hi Hj]. apply wpc_conj; [by apply HI | by apply HJ]. Qed.
Create HintDb preserves discriminated.
#[export] Hint Resolve preserves_lift preserves_ask preserves_ret preserves_gets : preserves.
Ltac preserves := repeat first [ solve [auto 2 with preserves] | apply preserves_bind | apply preserves_for_each | progress cbn zeta
  | match goal with |- forall _, _ => intros ? | |- preserves _ (match ?x with _ => _ end) => destruct x end ].

(** One step through a state-passing program. *)
Ltac wm_step :=
  lazymatch goal with
  | |- wpc _ (mbind _ _ _) _ _ => apply wpm_bind
  | |- wpc _ (lift _ _) _ _ => apply wpm_lift
  | |- wpc _ (ask _ _) _ _ => apply wpm_ask; [try done | intros ?]
  | |- wpc _ (modify _ _) _ _ => apply wpm_modify
  | |- wpc _ (gets _ _) _ _ => apply wpm_gets
  | |- wpc _ (ret _ _) _ _ => unfold ret; cbn [wpc]
  | |- wpc _ ((match ?x with _ => _ end) _) _ _ => destruct x eqn:?
  | |- _ => wp_step
  end; cbn [fst snd negb]; cbn iota beta.
Ltac wm := repeat wm_step.

End NodeState.
