(* ===== verification/Drain.v ===== *)
(** * Drain: S3 volumes on a node (pkg/driver/node_s3.go)

    The mount of an S3 volume, its staging and its clean-up, the background
    drains that upload what is left in the cache, and the gate
    [NodeUnstageVolume] goes through. *)

From S2P Require Import Prelude GoStrings Effects Secrets RcloneConfig Mounts VfsNames VfsCache.
From S2P Require Import Session MountManager Luks Csi Controller NodeMounts NodeLuks NodeState.
Import Secrets Mounts VfsNames VfsCache MountManager Csi K8s NodeLuks NodeState.
Import (hints) Luks.

Module Drain.

(** ** Constants *)

Definition VFSCacheModeParam := "rclone-vfs-cache-mode".
Definition VFSCacheMaxAgeParam := "rclone-vfs-cache-max-age".
Definition VFSCacheMaxSizeParam := "rclone-vfs-cache-max-size".
Definition VFSCachePollIntervalParam := "rclone-vfs-cache-poll-interval".
Definition VFSWriteBackParam := "rclone-vfs-write-back".
Definition DirCacheTimeParam := "rclone-dir-cache-time".
Definition AttrTimeoutParam := "rclone-attr-timeout".
Definition ChunkStreamsParam := "rclone-vfs-read-chunk-streams".
Definition ForceUnstageAnnotation := "lukscryptwalker.io/force-unstage".
Definition drainMountBase := "/var/lib/lukscrypt-cache/drain".

(** ** Configuration of a mount *)

Definition isS3Backend (ctx : gmap string string) : bool :=
  match ctx !! StorageBackendParam with Some b => bool_decide (b = "s3") | None => false end.

(** A parameter of the context where it is present and not empty. *)
Definition override (ctx : gmap string string) (key dflt : string) : string :=
  match ctx !! key with Some v => if bool_decide (v = "") then dflt else v | None => dflt end.

Definition getVFSCacheConfig (ctx : gmap string string) : VFSCacheConfig :=
  let config := DefaultVFSCacheConfig in
  MkVFS (override ctx VFSCacheModeParam (CacheMode config))
        (override ctx VFSCacheMaxAgeParam (CacheMaxAge config))
        (override ctx VFSCacheMaxSizeParam (CacheMaxSize config))
        (override ctx VFSCachePollIntervalParam (CachePollInterval config))
        (override ctx VFSWriteBackParam (WriteBack config))
        (override ctx DirCacheTimeParam (DirCacheTime config))
        (override ctx AttrTimeoutParam (AttrTimeout config))
        (override ctx ChunkStreamsParam (ChunkStreams config)).

Definition getS3ConfigFromSecrets (vs : VolumeSecrets) : RcloneConfig.S3Config :=
  RcloneConfig.MkS3Config (S3Region vs) (S3Endpoint vs) (S3AccessKeyID vs) (S3SecretAccessKey vs)
    (S3Bucket vs) (S3ForcePathStyle vs) "".

Section node.
(** [driver.nodeID], and whether [clientset] (hence [recorder]) is set. *)
Context (nodeID : string) (clientset : bool).

(** ** The drain slots *)

Definition loadPendingDrains : M unit :=
  ids <~ lift ListDrainPending ;;
  modify (on_pending (fun p => list_to_set ids ∪ p)).

Definition isBackgroundDraining (v : string) : M bool :=
  gets (fun s => bool_decide (v ∈ backgroundDrains (s3SyncMgr s))).
Definition hasPendingDrain (v : string) : M bool :=
  gets (fun s => bool_decide (v ∈ pendingDrains (s3SyncMgr s))).

Definition startBackgroundDrain (v : string) : M bool :=
  running <~ isBackgroundDraining v ;;
  if (running : bool) then ret false
  else
    modify (on_drains (fun d => {[v]} ∪ d)) ;~
    lift (SaveDrainPending v) ;~
    ret true.

Definition finishBackgroundDrain (v : string) (drained : bool) : M unit :=
  modify (on_drains (fun d => d ∖ {[v]})) ;~
  if drained then
    modify (on_pending (fun p => p ∖ {[v]})) ;~
    lift (ClearDrainPending v)
  else
    modify (on_pending (fun p => {[v]} ∪ p)) ;~
    lift (SaveDrainPending v).

Definition markVolumeSetupInProgress (v : string) : M unit := modify (on_setup (fun d => {[v]} ∪ d)).
Definition markVolumeSetupComplete (v : string) : M unit := modify (on_setup (fun d => d ∖ {[v]})).
Definition isVolumeSetupInProgress (v : string) : M bool :=
  gets (fun s => bool_decide (v ∈ volumesInSetup (s3SyncMgr s))).

Definition lookup_manager (v : string) : M (option MountManager) :=
  gets (fun s => mountManagers (s3SyncMgr s) !! v).

(** ** Mounting *)

(** What [mountS3Volume] reads from the cluster: the S3 configuration and the
    passphrase. *)
Definition volume_secrets (v : string) (ctx : gmap string string) : prog (result (VolumeSecrets) gerr) :=
  try p <- getPVByVolumeID clientset v else (errorf_v ("failed to get PV for volume " +s+ v)) ;;
  try scParams <- getStorageClassParameters clientset (pv_storage_class p)
    else (errorf_v "failed to get StorageClass parameters") ;;
  try vs <- FetchVolumeSecrets clientset (ExtractSecretParams (Some scParams) ctx)
    else (errorf_v "failed to fetch secrets") ;;
  Ret (if bool_decide (S3Bucket vs = "") then Err (error_new "S3 bucket not found in secrets")
       else if bool_decide (Passphrase vs = "") then Err (error_new "LUKS passphrase not found in secrets")
       else Ok vs).

(** The monitor of a manager that is replaced is stopped; it is part of the
    manager and goes with it. *)
Definition mountS3Volume (v stagingPath : string) (ctx : gmap string string) (fsGroup : option Z)
    : M (result unit gerr) :=
  attempt vs <~ lift (volume_secrets v ctx) else (fun e => e) ;;
  mm <~ lift (NewMountManager (getS3ConfigFromSecrets vs) v stagingPath
                (Some (getVFSCacheConfig ctx)) (mget ctx S3PathPrefixParam) (Passphrase vs) fsGroup) ;;
  g <~ gets rclone_globals ;;
  r <~ lift (Mount g mm) ;;
  let '(g', mm', res) := r in
  modify (set_globals g') ;~
  match res with
  | Err e => ret (Err (errorf_w "failed to mount S3 volume" e))
  | Ok _ => modify (on_managers (insert v mm')) ;~ ret (Ok tt)
  end.

Definition reexposeLiveSession (v stagingPath : string) : M bool :=
  mm <~ lookup_manager v ;;
  match mm with
  | None => ret false
  | Some mm =>
      if negb (bool_decide (mountPoint mm = stagingPath)) then ret false
      else
        serving <~ lift (SessionServing mm) ;;
        if negb serving then ret false
        else
          r <~ lift (Reexpose mm) ;;
          match r with
          | Err _ => ret false
          | Ok _ =>
              now <~ ask CNow ;;
              modify (on_mountedAt (insert v now)) ;~
              ret true
          end
  end.

(** ** Reporting *)

Definition pvcRef (v : string) : prog (option event_ref) :=
  if negb clientset then Ret None
  else
    r <- getPVByVolumeID clientset v ;;
    Ret match r with
        | Ok p => match pv_claim p with Some (n, c) => Some (PVCRef n c) | None => None end
        | Err _ => None
        end.
(** The body of [reportUnuploadedData] and of the event of
    [forceCleanupS3Sync], when [recorder] is set. *)
Definition report (v reason : string) : prog unit :=
  if negb clientset then Ret tt
  else
    ref <- pvcRef v ;;
    perform (CEvent (default NodeRef ref) reason) ;;; Ret tt.
Definition reportUnuploadedData (v : string) : prog unit := report v "UnuploadedData".

(** ** The drain goroutines *)

Definition drain_task (v : string) : M unit :=
  mm <~ lookup_manager v ;;
  match mm with
  | None => finishBackgroundDrain v false
  | Some mm =>
      r <~ lift (Unmount mm) ;;
      let drained := snd r in
      modify (on_managers (delete v)) ;~
      (if (drained : bool) then ret tt else lift (reportUnuploadedData v)) ;~
      finishBackgroundDrain v drained
  end.

Definition resume_task (v staging : string) (ctx : gmap string string) : M unit :=
  r <~ mountS3Volume v staging ctx None ;;
  match r with
  | Err _ => finishBackgroundDrain v false
  | Ok _ =>
      mm <~ lookup_manager v ;;
      match mm with
      | None => finishBackgroundDrain v false
      | Some mm =>
          r <~ lift (Unmount mm) ;;
          let drained := snd r in
          modify (on_managers (delete v)) ;~
          (if (drained : bool) then ret tt else lift (reportUnuploadedData v)) ;~
          (if has_prefix (drainMountBase +s+ "/") staging
           then ask (CRemove staging) ;~ ret tt else ret tt) ;~
          finishBackgroundDrain v drained
      end
  end.

Definition run_task (t : task) : M unit :=
  match t with
  | DrainTask v => drain_task v
  | ResumeTask v staging ctx => resume_task v staging ctx
  end.

(** The goroutine holding a volume's slot runs to its end. *)
Definition drain_of (v : string) (l : list task) : option task :=
  List.find (fun t => bool_decide (task_volume t = v)) l.
Definition finish_task (t : task) : M unit :=
  run_task t ;~
  modify (on_tasks (List.filter (fun u => negb (bool_decide (task_volume u = task_volume t))))).
Definition run_drain (v : string) : M unit :=
  t <~ gets (fun s => drain_of v (tasks (s3SyncMgr s))) ;;
  match t with None => ret tt | Some t => finish_task t end.

(** The wait ends when the drain did (it then ran to its end), or on time-out. *)
Definition waitForBackgroundDrain (v : string) (timeout : Z) : M bool :=
  running <~ isBackgroundDraining v ;;
  if negb running then ret true
  else
    ended <~ ask (CAwaitDrain v timeout) ;;
    if (ended : bool) then run_drain v ;~ ret true else ret false.

(** ** Staging *)

Definition setupS3Sync (v stagingPath : string) (ctx : gmap string string) (fsGroup : option Z)
    : M (result unit gerr) :=
  waited <~ waitForBackgroundDrain v (45 * second) ;;
  if negb waited then
    ret (Err (error_new ("volume " +s+ v +s+ ": background drain still in progress, retry later")))
  else
    pending <~ hasPendingDrain v ;;
    (if (pending : bool) then
       modify (on_pending (fun p => p ∖ {[v]})) ;~ lift (ClearDrainPending v)
     else ret tt) ;~
    live <~ reexposeLiveSession v stagingPath ;;
    if (live : bool) then ret (Ok tt)
    else
      attempt _ <~ mountS3Volume v stagingPath ctx fsGroup else (fun e => e) ;;
      now <~ ask CNow ;;
      modify (on_mountedAt (insert v now)) ;~
      ret (Ok tt).

Definition setupS3Volume (v stagingTargetPath : string) (ctx : gmap string string) (fsGroup : option Z)
    : M (result unit gerr) :=
  mk <~ ask (CMkdirAll stagingTargetPath) ;;
  match mk with
  | Err e => ret (Err (errorf_v "failed to create staging directory" (errno_err e)))
  | Ok _ =>
      attempt _ <~ setupS3Sync v stagingTargetPath ctx fsGroup else (errorf_v "failed to setup S3 sync") ;;
      ret (Ok tt)
  end.

Definition restoreS3VolumeStaging (v stagingTargetPath : string) (ctx : gmap string string)
    (cap : option capability) : M (result unit gerr) :=
  mk <~ ask (CMkdirAll stagingTargetPath) ;;
  match mk with
  | Err e => ret (Err (errorf_v "failed to create staging directory" (errno_err e)))
  | Ok _ =>
      fsGroup <~ lift (extractFsGroup clientset ctx cap) ;;
      attempt _ <~ setupS3Sync v stagingTargetPath ctx fsGroup
        else (errorf_v "failed to setup S3 sync during restore") ;;
      ret (Ok tt)
  end.

(** ** Clean-up *)

Definition ErrUnuploadedData (detail : string) : gerr :=
  GErr ("volume still holds writes that have not reached S3: " +s+ detail) [SUnuploadedData].

Definition forceUnstageRequested (v : string) : prog bool :=
  if negb clientset then Ret false
  else
    r <- getPVByVolumeID clientset v ;;
    match r with
    | Err _ => Ret false
    | Ok p =>
        if bool_decide (mget (pv_annotations p) ForceUnstageAnnotation = "true") then Ret true
        else match pv_claim p with
        | None => Ret false
        | Some (n, c) =>
            q <- perform (CGetPVC n c) ;;
            Ret match q with
                | Ok q => bool_decide (mget (pvc_annotations q) ForceUnstageAnnotation = "true")
                | Err _ => false
                end
        end
    end.

Definition forceCleanupS3Sync (v : string) : M (result unit gerr) :=
  lift (report v "ForcedUnstageWithUnuploadedData") ;~
  mm <~ lookup_manager v ;;
  modify (on_managers (delete v)) ;~
  match mm with
  | None => ret (Ok tt)
  | Some mm => lift (UnmountWithin mm ShortDrainWait) ;~ ret (Ok tt)
  end.

Definition getS3VolumeContext (v : string) : prog (option (gmap string string)) :=
  if negb clientset then Ret None
  else
    r <- perform (CGetPV v) ;;
    Ret match r with
        | Ok p => match pv_csi p with
                  | Some c => if bool_decide (csi_driver c = DriverName) then
                                match csi_attributes c with
                                | Some ctx => if isS3Backend ctx then Some ctx else None
                                | None => None
                                end
                              else None
                  | None => None
                  end
        | Err _ => None
        end.

Definition spawn (t : task) : M unit := modify (on_tasks (fun l => l ++ [t])).

Definition resumeStrandedDrain (v staging : string) : M unit :=
  if bool_decide (staging = "") then ret tt
  else
    ctx <~ lift (getS3VolumeContext v) ;;
    match ctx with
    | None => ret tt
    | Some ctx =>
        mine <~ startBackgroundDrain v ;;
        if negb mine then ret tt
        else
          lift (reportUnuploadedData v) ;~
          spawn (ResumeTask v staging ctx)
    end.

Definition cleanupS3Sync (v staging : string) : M (result unit gerr) :=
  draining <~ isBackgroundDraining v ;;
  forced <~ lift (busy <- (if (draining : bool) then Ret true else HasUnuploadedData v) ;;
                  if (busy : bool) then forceUnstageRequested v else Ret false) ;;
  if (forced : bool) then forceCleanupS3Sync v
  else if (draining : bool) then
    ret (Err (ErrUnuploadedData ("upload still draining on node " +s+ nodeID)))
  else
    mm <~ lookup_manager v ;;
    match mm with
    | None =>
        dirty <~ (if bool_decide (staging = "") then ret false else lift (HasUnuploadedData v)) ;;
        if negb dirty then ret (Ok tt)
        else
          resumeStrandedDrain v staging ;~
          ret (Err (ErrUnuploadedData ("resuming upload from the VFS cache on node " +s+ nodeID)))
    | Some mm =>
        empty <~ lift (IsUploadQueueEmpty mm) ;;
        if (empty : bool) then
          r <~ lift (UnmountWithin mm ShortDrainWait) ;;
          modify (on_managers (delete v)) ;~
          if negb (snd r) && negb (bool_decide (staging = "")) then
            resumeStrandedDrain v staging ;~
            ret (Err (ErrUnuploadedData ("unconfirmed upload on node " +s+ nodeID)))
          else ret (Ok tt)
        else
          startBackgroundDrain v ;~
          spawn (DrainTask v) ;~
          ret (Err (ErrUnuploadedData ("draining " +s+ v)))
    end.

End node.

(** ** Evidence *)

(** Every cache directory of volume [v], whatever its generation, was walked
    and found without an unuploaded item, or there is no cache at all. *)
Definition volume_clean (v : string) (h : history) : Prop :=
  v = "" \/ Ev (CReadDir (path_join [VFSCacheBasePath; "vfsMeta"])) (Err ENOENT) ∈ h
  \/ exists entries, Ev (CReadDir (path_join [VFSCacheBasePath; "vfsMeta"])) (Ok entries) ∈ h
       /\ forall e, e ∈ entries -> de_isdir e = true -> volumeIDOfVFSName (de_name e) = v ->
            scanned_clean VFSCacheBasePath (de_name e) h.

(** The operator's annotation was read, on the PV or on its claim. *)
Definition force_seen (h : history) : Prop :=
  (exists l p, Ev CListPVs (Ok l) ∈ h /\ p ∈ l /\ pv_annotations p !! ForceUnstageAnnotation = Some "true")
  \/ (exists n c q, Ev (CGetPVC n c) (Ok q) ∈ h /\ pvc_annotations q !! ForceUnstageAnnotation = Some "true").

Lemma any_dirty_spec base v entries h :
  wpc looks_only (any_dirty base v entries)
    (fun h' d => h ⊆ h' /\ (d = false -> forall e, e ∈ entries -> de_isdir e = true ->
       volumeIDOfVFSName (de_name e) = v -> scanned_clean base (de_name e) h')) h.
Proof.
  revert h. induction entries as [| e entries IH]; intros h; cbn [any_dirty].
  { cbn. split; [sub |]. by intros _ e ?%not_elem_of_nil. }
  destruct (negb (de_isdir e) || _) eqn:E.
  - eapply wpc_post; [apply IH |]. intros h' d [Hs H]. split; [done |].
    intros Hd e' [-> | Hin]%elem_of_cons Hdir Hv; [| by apply H].
    rewrite Hdir in E. cbn in E. bools. by destruct E.
  - wp_step. eapply wpc_post; [apply wpc_extends, hasDirtyCacheItemsAt_spec |]. intros h1 d [Hs1 Hd].
    destruct d; [done |]. eapply wpc_post; [apply IH |]. intros h2 d2 [Hs2 H]. split; [sub |].
    intros Hd2 e' [-> | Hin]%elem_of_cons Hdir Hv; [| by apply H].
    eapply scanned_clean_mono; [| by apply Hd]. done.
Qed.

Lemma HasUnuploadedData_spec v h :
  wpc looks_only (HasUnuploadedData v) (fun h' d => h ⊆ h' /\ (d = false -> volume_clean v h')) h.
Proof.
  unfold HasUnuploadedData, hasUnuploadedDataAt. case_bool_decide as Ev0; [cbn; split; [sub | by left] |].
  wp_step. apply wpc_perform; [done |]. intros [entries | e].
  - eapply wpc_post; [apply any_dirty_spec |]. intros h' d [Hs H]. split; [sub |].
    intros Hd. right. right. exists entries. split; [apply Hs; by left | auto].
  - destruct e; cbn; (split; [sub |]); try done. intros _. right. left. by left.
Qed.

Lemma getPV_looks clientset v h :
  wpc looks_only (getPVByVolumeID clientset v)
    (fun h' r => h ⊆ h' /\ match r with
       Ok p => exists l, Ev CListPVs (Ok l) ∈ h' /\ p ∈ l | Err _ => True end) h.
Proof.
  unfold getPVByVolumeID. destruct clientset; cbn [negb]; [| cbn; split; [sub | done]].
  wp_step. apply wpc_perform; [done |]. intros [l | e]; cbn; [| split; [sub | done]].
  destruct (List.find _ _) as [p |] eqn:E; (split; [sub |]); [| done].
  exists l. split; [by left |]. apply find_some in E as [E _]. by apply list_elem_of_In.
Qed.

Lemma force_spec clientset v h :
  wpc looks_only (forceUnstageRequested clientset v)
    (fun h' b => h ⊆ h' /\ (b = true -> force_seen h')) h.
Proof.
  unfold forceUnstageRequested. destruct (negb clientset); [cbn; split; [sub | done] |].
  wp_step. eapply wpc_post; [apply getPV_looks |]. intros h1 [p | e] [Hs Hp]; [| cbn; by split].
  destruct Hp as (l & Hl & Hin). case_bool_decide as Ha.
  - cbn. split; [done |]. intros _. left. exists l, p. split; [done |]. split; [done |].
    by apply mget_some.
  - destruct (pv_claim p) as [[n c] |]; [| by cbn; split].
    wp_step. apply wpc_perform; [done |]. intros [q | e]; cbn; (split; [sub |]); [| done].
    intros Hq%bool_decide_eq_true. right. exists n, c, q. split; [by left |].
    by apply mget_some.
Qed.

(** What a successful [cleanupS3Sync] rests on. *)
Definition detach_evidence (s : node) (v staging : string) (h : history) : Prop :=
  force_seen h
  \/ (mountManagers (s3SyncMgr s) !! v = None /\ (staging = "" \/ volume_clean v h))
  \/ (exists mm, mountManagers (s3SyncMgr s) !! v = Some mm /\ (v ∉ backgroundDrains (s3SyncMgr s))
        /\ (staging = "" \/ drained_after mm h)).

Lemma wpm_any {A} (m : M A) s h : wpc anything (m s) (fun _ _ => True) h.
Proof. apply wpc_trivial. Qed.

Lemma wpc_any_looks {A} (p : prog A) Q h : wpc looks_only p Q h -> wpc anything p Q h.
Proof. intros H. by eapply wpc_looks. Qed.

Lemma forceCleanup_ok clientset v s h :
  wpc anything (forceCleanupS3Sync clientset v s) (fun h' r => h ⊆ h' /\ snd r = Ok tt) h.
Proof.
  unfold forceCleanupS3Sync, lookup_manager. apply wpm_skip_lift. intros h1 _ Hs1. do 4 wm_step.
  destruct (_ !! v); cbn [fst snd]; [| by wm_step].
  apply wpm_skip_lift. intros h2 _ Hs2. wm_step. split; [sub | done].
Qed.

Lemma volume_clean_mono v h h' : h ⊆ h' -> volume_clean v h -> volume_clean v h'.
Proof.
  intros Hs [H | [H | (es & H & Hc)]]; [by left | by right; left; auto | right; right].
  exists es. split; [auto |]. intros e He Hd Hv. eapply scanned_clean_mono; eauto.
Qed.

(** The part of [cleanupS3Sync] after the operator's override. *)
Lemma cleanup_spec nodeID clientset v staging s h :
  wpc anything (cleanupS3Sync nodeID clientset v staging s)
    (fun h' r => match snd r with
       | Err e => exists d, e = ErrUnuploadedData d
       | Ok _ => detach_evidence s v staging h' end) h.
Proof.
  unfold cleanupS3Sync, isBackgroundDraining, lookup_manager. do 4 wm_step.
  eapply (wpc_post _ _ (fun h' b => b = true -> force_seen h')).
  { wp_step. apply (wpc_post _ _ (fun _ _ => True)); [apply wpc_trivial |].
    intros h1 [] _; [| done]. eapply wpc_post; [apply wpc_any_looks, force_spec |].
    intros h2 b [_ H]. exact H. }
  intros h1 [] Hf; cbn [fst snd].
  { eapply wpc_post; [apply forceCleanup_ok |]. intros h2 [s' r] [Hs ->]. cbn. left.
    destruct (Hf eq_refl) as [(l & p & H & H') | (n & c & q & H & H')]; [left | right];
      [exists l, p | exists n, c, q]; auto. }
  clear Hf. case_bool_decide as Hd; [wm_step; by eexists |].
  do 2 wm_step. destruct (mountManagers _ !! v) as [mm |] eqn:Em; cbn [fst snd].
  - apply wpm_skip_lift. intros h2 empty _. destruct empty.
    + do 2 wm_step. eapply wpc_post; [apply detach_law |]. intros h3 [mm' drained] Hdr. cbn [fst snd].
      do 2 wm_step. destruct (negb drained && _) eqn:E.
      * apply wpm_skip. intros h4 s4 _ _. wm_step. by eexists.
      * wm_step. right. right. exists mm. split; [done |]. split; [done |].
        apply andb_false_iff in E as [E | E]; bools; [right; by apply Hdr | by left].
    + apply wpm_skip. intros h3 s3 _ _. apply wpm_skip. intros h4 s4 _ _. wm_step. by eexists.
  - case_bool_decide as Hst; cbn [fst snd].
    + do 2 wm_step. cbn [negb]. wm_step. right. left. split; [done | by left].
    + do 2 wm_step. eapply wpc_post; [apply wpc_any_looks, HasUnuploadedData_spec |].
      intros h3 dirty [_ Hc]. cbn [fst snd]. destruct dirty; cbn [negb].
      * apply wpm_skip. intros h4 s4 _ _. wm_step. by eexists.
      * wm_step. right. left. split; [done |]. right. by apply Hc.
Qed.

(** What the answer to kubelet rests on. *)
Definition unstage_verdict (s : node) (v : string) (h : history) (r : result unit gerr) : Prop :=
  match r with
  | Err e => errors_is e SUnuploadedData = true
  | Ok _ => force_seen h
      \/ (mountManagers (s3SyncMgr s) !! v = None /\ volume_clean v h)
      \/ (exists mm, mountManagers (s3SyncMgr s) !! v = Some mm /\ (v ∉ backgroundDrains (s3SyncMgr s))
           /\ drained_after mm h)
  end.


Definition empty_node : node :=
  Node (S3Sync ∅ ∅ ∅ ∅ []) (Checker ∅ ∅ ∅ ∅ ∅) ∅ None 0 (MkGlobals 0 0) false.


(** ** One drain per volume *)

(** The drain slots and the goroutines that hold them. *)
Definition slots (s : node) : gset string * list task :=
  (backgroundDrains (s3SyncMgr s), tasks (s3SyncMgr s)).

Definition drain_inv (s : node) : Prop :=
  NoDup (map task_volume (tasks (s3SyncMgr s)))
  /\ forall v, v ∈ backgroundDrains (s3SyncMgr s) <-> v ∈ map task_volume (tasks (s3SyncMgr s)).

Lemma drain_inv_slots s s' : slots s' = slots s -> drain_inv s -> drain_inv s'.
Proof. unfold drain_inv, slots. intros [= -> ->]. done. Qed.

(** [m] leaves the slots alone. *)
Abbreviation keeps_slots := (keeps slots).

Lemma mountS3Volume_keeps {X} (part : node -> X) clientset v p ctx g :
  (forall f s, part (set_globals f s) = part s) -> (forall f s, part (on_managers f s) = part s) ->
  keeps part (mountS3Volume clientset v p ctx g).
Proof. intros. unfold mountS3Volume. keeps. Qed.
Lemma reexpose_keeps {X} (part : node -> X) v p :
  (forall f s, part (on_mountedAt f s) = part s) -> keeps part (reexposeLiveSession v p).
Proof. intros. unfold reexposeLiveSession, lookup_manager. keeps. Qed.
#[export] Hint Resolve mountS3Volume_keeps reexpose_keeps : keeps.

(** A slot is taken only together with the goroutine that will free it. *)
Lemma take_slot s v t :
  drain_inv s -> v ∉ backgroundDrains (s3SyncMgr s) -> task_volume t = v ->
  drain_inv (on_tasks (fun l => l ++ [t]) (on_drains (fun d => {[v]} ∪ d) s)).
Proof.
  intros [Hn Hd] Hv <-. split; cbn.
  - rewrite map_app. apply list.NoDup_app. split; [done |]. split; [| apply list.NoDup_singleton].
    intros w Hw ->%list_elem_of_singleton. by apply Hv, Hd.
  - intros w. rewrite map_app. cbn [map]. rewrite elem_of_app, elem_of_union, elem_of_singleton, Hd, list_elem_of_singleton.
    tauto.
Qed.

(** A finished goroutine frees its slot. *)
Lemma free_slot s s' v :
  drain_inv s ->
  slots s' = (backgroundDrains (s3SyncMgr s) ∖ {[v]}, tasks (s3SyncMgr s)) ->
  drain_inv (on_tasks (List.filter (fun u => negb (bool_decide (task_volume u = v)))) s').
Proof.
  intros [Hn Hd] [= Hs Ht]. split; cbn; rewrite ?Hs, Ht.
  - clear Hd Ht. induction (tasks (s3SyncMgr s)) as [| t l IH]; cbn; [constructor |].
    apply list.NoDup_cons in Hn as [Hn1 Hn2]. case_bool_decide; cbn; [by apply IH |].
    apply list.NoDup_cons. split; [| by apply IH]. intros Hin. apply Hn1.
    apply list_elem_of_fmap in Hin as (u & -> & Hu). apply elem_of_filter_bool in Hu as [Hu _].
    by apply list_elem_of_fmap_2.
  - intros w. rewrite elem_of_difference, elem_of_singleton, Hd. split.
    + intros [(t & -> & Ht')%list_elem_of_fmap Hw]. apply list_elem_of_fmap_2.
      apply elem_of_filter_bool. split; [done |]. by rewrite bool_decide_eq_false_2.
    + intros (t & -> & Ht')%list_elem_of_fmap. apply elem_of_filter_bool in Ht' as [Ht' Hb]. bools.
      split; [by apply list_elem_of_fmap_2 | done].
Qed.

Lemma finish_slot v b s h :
  wpc anything (finishBackgroundDrain v b s)
    (fun _ r => slots (fst r) = (backgroundDrains (s3SyncMgr s) ∖ {[v]}, tasks (s3SyncMgr s))) h.
Proof.
  unfold finishBackgroundDrain. do 2 wm_step.
  destruct b; do 3 wm_step; (eapply wpc_post; [apply wpc_trivial |]; done).
Qed.

Lemma run_task_slot clientset t s h :
  wpc anything (run_task clientset t s)
    (fun _ r => slots (fst r) = (backgroundDrains (s3SyncMgr s) ∖ {[task_volume t]}, tasks (s3SyncMgr s))) h.
Proof.
  assert (Hfin : forall v b s' h', slots s' = slots s ->
    wpc anything (finishBackgroundDrain v b s')
      (fun _ r => slots (fst r) = (backgroundDrains (s3SyncMgr s) ∖ {[v]}, tasks (s3SyncMgr s))) h').
  { intros v b s' h' [= H1 H2]. rewrite <- H1, <- H2. apply finish_slot. }
  assert (Hb : forall {A} (m : M A) v (k : A -> M unit) s' h', keeps_slots m -> slots s' = slots s ->
    (forall a s'' h'', slots s'' = slots s -> wpc anything (k a s'')
      (fun _ r => slots (fst r) = (backgroundDrains (s3SyncMgr s) ∖ {[v]}, tasks (s3SyncMgr s))) h'') ->
    wpc anything (mbind m k s')
      (fun _ r => slots (fst r) = (backgroundDrains (s3SyncMgr s) ∖ {[v]}, tasks (s3SyncMgr s))) h').
  { intros A m v k s' h' Hm Hs Hk. apply wpm_bind. eapply wpc_post; [apply Hm |].
    intros h'' [s'' a] Hs''. apply Hk. exact (eq_trans Hs'' Hs). }
  destruct t as [v | v staging ctx]; cbn [run_task task_volume].
  - unfold drain_task, lookup_manager. apply Hb; [keeps | done |]. intros [mm |] s1 h1 H1; [| by apply Hfin].
    apply Hb; [keeps | done |]. intros r s2 h2 H2. cbn zeta.
    do 2 (apply Hb; [keeps | done |]; intros ? ? ? ?). by apply Hfin.
  - unfold resume_task, lookup_manager. apply Hb; [keeps | done |]. intros [u | e] s1 h1 H1; [| by apply Hfin].
    apply Hb; [keeps | done |]. intros [mm |] s2 h2 H2; [| by apply Hfin].
    apply Hb; [keeps | done |]. intros r s3 h3 H3. cbn zeta.
    do 3 (apply Hb; [keeps | done |]; intros ? ? ? ?). by apply Hfin.
Qed.

Lemma finish_task_inv clientset t s h :
  drain_inv s -> wpc anything (finish_task clientset t s) (fun _ r => drain_inv (fst r)) h.
Proof.
  intros Hi. unfold finish_task. wm_step. eapply wpc_post; [apply run_task_slot |].
  intros h' [s' u] Hs. cbn [fst snd] in *. wm_step. by eapply free_slot.
Qed.

(** [m] keeps the invariant. *)
Abbreviation keeps_inv := (preserves drain_inv).

Lemma inv_keeps {A} (m : M A) : keeps_slots m -> keeps_inv m.
Proof. apply preserves_keeps, drain_inv_slots. Qed.

Lemma run_drain_inv clientset v : keeps_inv (run_drain clientset v).
Proof.
  unfold run_drain. apply preserves_bind; [apply inv_keeps; keeps |].
  intros [t |]; [| apply inv_keeps; keeps]. intros s h. apply finish_task_inv.
Qed.
Lemma wait_inv clientset v t : keeps_inv (waitForBackgroundDrain clientset v t).
Proof.
  unfold waitForBackgroundDrain, isBackgroundDraining. apply preserves_bind; [apply inv_keeps; keeps |].
  intros []; cbn [negb]; [| apply inv_keeps; keeps].
  apply preserves_bind; [apply inv_keeps; keeps |]. intros [|]; [| apply inv_keeps; keeps].
  apply preserves_bind; [apply run_drain_inv | intros ?; apply inv_keeps; keeps].
Qed.
Lemma setupS3Sync_inv clientset v p ctx g : keeps_inv (setupS3Sync clientset v p ctx g).
Proof.
  unfold setupS3Sync. apply preserves_bind; [apply wait_inv |].
  intros w. apply inv_keeps. unfold hasPendingDrain. keeps.
Qed.

Lemma resume_inv clientset v staging : keeps_inv (resumeStrandedDrain clientset v staging).
Proof.
  unfold resumeStrandedDrain, startBackgroundDrain, isBackgroundDraining, spawn. intros s h Hi.
  case_bool_decide; [done |]. apply wpm_skip_lift. intros h1 ctx _. destruct ctx as [ctx |]; [| done].
  do 3 wm_step. case_bool_decide as Hd; [by repeat wm_step |]. do 2 wm_step.
  apply wpm_bind. apply wpm_lift. eapply wpc_post; [apply wpc_trivial |]. intros h2 u _. cbn [fst snd].
  wm_step. cbn [negb]. apply wpm_skip_lift. intros h3 u3 _. wm_step. by apply take_slot.
Qed.

Lemma cleanup_inv nodeID clientset v staging : keeps_inv (cleanupS3Sync nodeID clientset v staging).
Proof.
  unfold cleanupS3Sync, isBackgroundDraining, lookup_manager. intros s h Hi.
  do 2 wm_step. apply wpm_skip_lift. intros h1 forced _. destruct forced.
  { apply inv_keeps; [| done]. unfold forceCleanupS3Sync, lookup_manager. keeps. }
  case_bool_decide as Hd; [done |]. do 2 wm_step. destruct (_ !! v) as [mm |]; cbn [fst snd].
  - apply wpm_skip_lift. intros h2 [] _.
    + apply wpm_skip_lift. intros h3 r _. do 2 wm_step. destruct (negb _ && _); [| done].
      apply preserves_bind; [apply resume_inv | intros ?; apply inv_keeps; keeps | done].
    + unfold startBackgroundDrain, isBackgroundDraining, spawn. do 3 wm_step.
      rewrite bool_decide_eq_false_2 by done. do 2 wm_step. wm_step. apply wpm_lift.
      eapply wpc_post; [apply wpc_trivial |]. intros h3 u _. cbn [fst snd]. do 3 wm_step.
      wm_step. by apply take_slot.
  - wm_step. eapply (wpc_post _ _ (fun _ r => fst r = s)).
    { case_bool_decide; [done |]. apply wpm_lift. eapply wpc_post; [apply wpc_trivial |]. done. }
    intros h2 [s2 []] ->; cbn [fst snd negb]; [| done].
    apply preserves_bind; [apply resume_inv | intros ?; apply inv_keeps; keeps | done].
Qed.

(** ** Runs of the node *)

(** What happens to S3 volumes on a node: the bodies of the CSI handlers and of
    the checker, and the end of a drain goroutine. *)
Inductive node_op : Type :=
  | OpSetup (v staging : string) (ctx : gmap string string) (fsGroup : option Z)
  | OpCleanup (v staging : string)
  | OpResume (v staging : string)
  | OpReexpose (v staging : string)
  | OpDrainEnds (v : string).
Definition run_op (nodeID : string) (clientset : bool) (o : node_op) : M unit :=
  match o with
  | OpSetup v p ctx g => setupS3Sync clientset v p ctx g ;~ ret tt
  | OpCleanup v p => cleanupS3Sync nodeID clientset v p ;~ ret tt
  | OpResume v p => resumeStrandedDrain clientset v p
  | OpReexpose v p => reexposeLiveSession v p ;~ ret tt
  | OpDrainEnds v => run_drain clientset v
  end.

(** [NewS3SyncManager]: nothing in memory but the markers found on disk. *)
Definition boot : M unit := loadPendingDrains.

Inductive reachable (nodeID : string) (clientset : bool) : node -> Prop :=
  | reach_boot env h :
      reachable nodeID clientset (fst (snd (run env (boot empty_node) h)))
  | reach_op env h o s :
      reachable nodeID clientset s ->
      reachable nodeID clientset (fst (snd (run env (run_op nodeID clientset o s) h))).

Lemma run_op_inv nodeID clientset o : keeps_inv (run_op nodeID clientset o).
Proof.
  destruct o; cbn [run_op].
  - apply preserves_bind; [apply setupS3Sync_inv | intros ?; apply inv_keeps; keeps].
  - apply preserves_bind; [apply cleanup_inv | intros ?; apply inv_keeps; keeps].
  - apply resume_inv.
  - apply inv_keeps. keeps.
  - apply run_drain_inv.
Qed.

(** A volume never has two drains.  In every state a node can reach, the
    drain slots are exactly those of the goroutines still running and no two
    of them are of one volume, so no slot is held for ever and no second VFS
    is mounted beside a draining one: while a drain that does not end runs,
    staging its volume changes nothing and fails. *)
Theorem one_drain_per_volume nodeID clientset s :
  reachable nodeID clientset s ->
  drain_inv s
  /\ forall (env : environment) h v staging ctx fsGroup,
       v ∈ backgroundDrains (s3SyncMgr s) -> env h (CAwaitDrain v (45 * second)) = false ->
       exists e, run env (setupS3Sync clientset v staging ctx fsGroup s) h
         = (Ev (CAwaitDrain v (45 * second)) (env h (CAwaitDrain v (45 * second))) :: h, (s, Err e)).
Proof.
  intros Hr. split.
  - induction Hr as [env h | env h o s Hr IH].
    + refine (wpc_run_post env (boot empty_node) (fun _ r => drain_inv (fst r)) h _).
      apply (inv_keeps loadPendingDrains); [unfold loadPendingDrains; keeps |].
      split; [constructor |]. intros v. set_solver.
    + refine (wpc_run_post env (run_op _ _ o s) (fun _ r => drain_inv (fst r)) h _).
      by apply run_op_inv.
  - intros env h v staging ctx fsGroup Hv He. eexists.
    unfold setupS3Sync, waitForBackgroundDrain, isBackgroundDraining, mbind, gets, ask, lift.
    cbn [bind]. rewrite bool_decide_eq_true_2 by done. cbn -[second]. rewrite He. reflexivity.
Qed.

Lemma one_drain_per_volume_witness :
  drain_inv (fst (snd (run quiet_env (run_op "n" true (OpCleanup "pvc-1" "/stage")
    (fst (snd (run quiet_env (boot empty_node) [])))) []))).
Proof.
  apply (one_drain_per_volume "n" true). apply reach_op, reach_boot.
Defined.

(** ** What the gates miss *)

Lemma volume_secrets_looks clientset v ctx h :
  wpc looks_only (volume_secrets clientset v ctx) (fun _ _ => True) h.
Proof.
  unfold volume_secrets. wp_step. eapply wpc_post; [apply getPV_looks |]. intros h1 [p | e] _; [| done].
  wp_step. apply (wpc_post _ _ (fun _ _ => True)).
  { unfold getStorageClassParameters. repeat case_goal; try done. }
  intros h2 [m | e] _; [| done]. wp_step. eapply wpc_post; [apply FetchVolumeSecrets_looks |].
  by intros h3 [vs | e] _.
Qed.

(** Only the mounted generation is looked at: a volume whose current cache
    is clean is unmounted and reported detachable although another generation
    of its cache, left by a VFS that could not be shut down, still holds
    writes that never reached S3. *)
Theorem older_generation_unstaged (f : forall c, reply c) nodeID clientset v staging s mm :
  mountManagers (s3SyncMgr s) !! v = Some mm -> v ∉ backgroundDrains (s3SyncMgr s) ->
  eval f (HasUnuploadedData v) = true -> eval f (forceUnstageRequested clientset v) = false ->
  eval f (IsUploadQueueEmpty mm) = true -> snd (eval f (UnmountWithin mm ShortDrainWait)) = true ->
  snd (eval f (cleanupS3Sync nodeID clientset v staging s)) = Ok tt.
Proof.
  intros Hm Hd Hu Hf He Hc.
  unfold cleanupS3Sync, isBackgroundDraining, lookup_manager, mbind, gets, lift.
  cbn [bind]. rewrite bool_decide_eq_false_2 by done.
  rewrite !eval_bind. cbn [eval fst snd]. cbn iota beta. rewrite Hu. cbn iota beta. rewrite Hf. cbn [eval fst snd bind].
  rewrite Hm. rewrite !eval_bind, He. cbn [eval fst snd]. rewrite !eval_bind. cbn [eval fst snd].
  rewrite Hc. reflexivity.
Qed.

(** Generation 0 is mounted and drained; generation 1 holds an unuploaded file. *)
Definition two_generations_world (c : call) : reply c :=
  match c return reply c with
  | CHostMounts => Some {["/stage" := [{| Dev := "0:50"; FSType := "fuse.rclone" |}]]}
  | CRpc "vfs/stats" _ _ => RpcDone 200 (BodyJson [("diskCache",
      JObj [("uploadsInProgress", JNum 0); ("uploadsQueued", JNum 0)])])
  | CReadDir "/root/.cache/rclone/vfsMeta" =>
      Ok [DirEnt "pvc-1" true false false; DirEnt (vfs_name "pvc-1" 1) true false false]
  | CWalkDir "/root/.cache/rclone/vfsMeta/pvc-1.g1" => [VFile "/meta"]
  | CWalkDir _ => []
  | CReadMeta "/meta" => Ok (Some (Meta 10 true []))
  | c => default_reply c
  end.
Definition mounted_node : node :=
  on_managers (insert "pvc-1" example_mm) empty_node.

Lemma older_generation_unstaged_witness :
  eval two_generations_world (HasUnuploadedData "pvc-1") = true
  /\ snd (eval two_generations_world (cleanupS3Sync "n" true "pvc-1" "/stage" mounted_node)) = Ok tt.
Proof.
  split; [vm_compute; reflexivity |].
  apply (older_generation_unstaged two_generations_world "n" true "pvc-1" "/stage" mounted_node example_mm);
    [reflexivity | apply not_elem_of_empty | vm_compute; reflexivity ..].
Defined.

(** The marker of an unfinished upload is dropped before the mount that is
    to resume it: when that mount then fails, neither memory nor disk records
    any more that this node holds the only copy. *)
Theorem failed_restage_drops_marker (f : forall c, reply c) clientset v staging ctx fsGroup s e :
  v ∈ pendingDrains (s3SyncMgr s) -> v ∉ backgroundDrains (s3SyncMgr s) ->
  mountManagers (s3SyncMgr s) !! v = None -> eval f (volume_secrets clientset v ctx) = Err e ->
  let '(h, (s', r)) := run (fun _ => f) (setupS3Sync clientset v staging ctx fsGroup s) [] in
  r = Err e /\ (v ∉ pendingDrains (s3SyncMgr s'))
  /\ (exists q, Ev (CRemove (path_join [drainPendingDir; v])) q ∈ h)
  /\ hist_ok (fun _ c => forall p d, c <> CWriteFile p d) h.
Proof.
  intros Hp Hd Hm He.
  unfold setupS3Sync, waitForBackgroundDrain, isBackgroundDraining, hasPendingDrain, reexposeLiveSession,
    lookup_manager, mountS3Volume, mbind, gets, modify, lift, ret, ClearDrainPending.
  cbn [bind snd fst negb perform]. rewrite (bool_decide_eq_false_2 (v ∈ backgroundDrains _)) by done.
  cbn [bind snd fst negb]. rewrite (bool_decide_eq_true_2 (v ∈ pendingDrains _)) by done.
  cbn [bind run fst snd negb on_pending on_s3 s3SyncMgr mountManagers]. rewrite Hm. cbn [bind fst snd].
  set (h0 := [Ev (CRemove _) _]).
  assert (HE : (run (fun _ => f) (volume_secrets clientset v ctx) h0).2 = Err e) by by rewrite eval_run.
  rewrite !run_bind. cbn [run fst snd bind]. rewrite !HE. cbn [run fst snd bind].
  pose proof (wpc_run (fun _ => f) (fun _ c => forall p d, c <> CWriteFile p d)
    (volume_secrets clientset v ctx) (fun h' _ => h0 ⊆ h') h0) as [Hh Hs].
  - eapply wpc_post; [eapply wpc_extends, wpc_looks; [apply volume_secrets_looks |] |].
    + intros h c Hc p d ->. done.
    + by intros h a [Hs _].
  - cbn. split; [by intros ? ? | done].
  - split; [done |]. split; [cbn; set_solver |]. split; [| exact Hh].
    eexists. apply Hs. by left.
Qed.

Definition pending_node : node := on_pending (fun p => {["pvc-1"]} ∪ p) empty_node.

Lemma failed_restage_drops_marker_witness :
  exists e, snd (snd (run (fun _ => default_reply) (setupS3Sync true "pvc-1" "/stage" ∅ None pending_node) [])) = Err e.
Proof.
  eexists.
  refine (proj1 (failed_restage_drops_marker default_reply true "pvc-1" "/stage" ∅ None pending_node _ _ _ _ eq_refl)).
  - cbn. set_solver.
  - cbn. apply not_elem_of_empty.
  - reflexivity.
Defined.

(** ** The end of a drain *)

(** A drain ends on record.  Whatever rclone and the disk answer, when the
    drain goroutine of a mounted volume ends, its slot is free and its manager
    gone, and the volume is on the list of unfinished uploads again, its marker
    written, unless the cache of that mount was walked after the unmount and
    found clean ([drained_after]). *)
Theorem drain_end_is_recorded env clientset v s mm :
  mountManagers (s3SyncMgr s) !! v = Some mm ->
  let '(h, (s', _)) := run env (run_task clientset (DrainTask v) s) [] in
  (v ∉ backgroundDrains (s3SyncMgr s')) /\ mountManagers (s3SyncMgr s') !! v = None
  /\ ((v ∈ pendingDrains (s3SyncMgr s') /\ (exists q, Ev (CMkdirAll drainPendingDir) q ∈ h))
      \/ drained_after mm h).
Proof.
  intros Hm.
  pose proof (wpc_run env anything (run_task clientset (DrainTask v) s) (fun h r =>
    (v ∉ backgroundDrains (s3SyncMgr (fst r))) /\ mountManagers (s3SyncMgr (fst r)) !! v = None
    /\ ((v ∈ pendingDrains (s3SyncMgr (fst r)) /\ (exists q, Ev (CMkdirAll drainPendingDir) q ∈ h))
        \/ drained_after mm h)) []) as H.
  destruct (run env _ []) as [h [s' u]]. apply H; [clear H | done].
  cbn [run_task]. unfold drain_task, lookup_manager. do 2 wm_step. rewrite Hm.
  do 2 wm_step. eapply wpc_post; [apply detach_law |]. intros h1 [mm' drained] Hc. cbn zeta. cbn [fst snd] in *.
  do 2 wm_step. apply wpm_bind. eapply (wpc_post _ _ (fun h' r => fst r = on_managers (delete v) s /\ h1 `suffix_of` h')).
  { destruct drained; [by wm_step |]. wm_step. eapply wpc_post; [apply wpc_suffix |]. done. }
  intros h2 [s2 u2] [-> Hs2]. cbn [fst snd]. unfold finishBackgroundDrain. do 2 wm_step.
  assert (Hdel : mountManagers (s3SyncMgr (on_managers (delete v) s)) !! v = None) by apply lookup_delete_eq.
  destruct drained.
  - do 3 wm_step. unfold ClearDrainPending. wp. cbn. split; [set_solver |]. split; [exact Hdel |]. right.
    refine (drained_after_suffix mm h1 _ _ (Hc eq_refl)). by apply suffix_cons_r.
  - do 3 wm_step. unfold SaveDrainPending. wp; cbn; (split; [set_solver |]; split; [exact Hdel |]; left;
      split; [set_solver |]; eexists; first [by left | right; by left]).
Qed.

Lemma drain_end_is_recorded_witness :
  mountManagers (s3SyncMgr (fst (snd (run (fun _ => two_generations_world)
    (run_task true (DrainTask "pvc-1") mounted_node) [])))) !! "pvc-1" = None.
Proof.
  pose proof (drain_end_is_recorded (fun _ => two_generations_world) true "pvc-1" mounted_node example_mm
    (lookup_insert_eq _ _ _)) as H.
  destruct (run _ _ []) as [h [s' u]]. exact (proj1 (proj2 H)).
Defined.

End Drain.
