(* ===== verification/RawDir.v ===== *)
(** * RawDir: reading a directory without the runtime (pkg/rclone/fusesafe.go)

    [ReadDirRaw] asks the kernel for buffers of directory entries and takes
    them apart in place.  The buffer is the list of its bytes; a read outside
    of it, which Go would not check, is [None].  Effects' [CReadDirRaw] is this
    function as one call, its reply of the type computed here. *)

From Stdlib Require Import Ascii.
From S2P Require Import Prelude Effects.

Module RawDir.

(** ** The buffer *)

Definition byte_at (buf : list ascii) (i : nat) : option nat := nat_of_ascii <$> buf !! i.

(** [syscall.Dirent] at offset [off]: inode and offset (8 bytes each), the
    length of the record (2 bytes, little endian), the type, the name. *)
Definition Reclen (buf : list ascii) (off : nat) : option nat :=
  lo ← byte_at buf (off + 16); hi ← byte_at buf (off + 17); Some (lo + 256 * hi)%nat.
Definition Type_ (buf : list ascii) (off : nat) : option nat := byte_at buf (off + 18).
Definition DT_UNKNOWN : nat := 0.
Definition DT_DIR : nat := 4.
Definition DT_REG : nat := 8.

(** The bytes before the first NUL among the first [k], the empty string when
    there is none. *)
Fixpoint name_loop (k : nat) (raw acc : list ascii) : option string :=
  match k with
  | O => Some ""%string
  | S k =>
      match raw with
      | [] => None
      | c :: raw => if decide (c = zero) then Some (String.string_of_list_ascii (rev acc)) else name_loop k raw (c :: acc)
      end
  end.
Definition direntName (buf : list ascii) (off : nat) : option string := name_loop 256 (drop (off + 19) buf) [].

Definition is_dot (name : string) : bool :=
  bool_decide (name = ""%string) || bool_decide (name = "."%string) || bool_decide (name = ".."%string).

(** [DirEntryRaw]. *)
Definition entry (name : string) (t : nat) : dirent :=
  DirEnt name (t =? DT_DIR)%nat (t =? DT_REG)%nat (t =? DT_UNKNOWN)%nat.

(** The inner loop, over the [n] bytes the kernel filled; an iteration takes
    one byte at least, so [n] of them are enough. *)
Fixpoint scan (fuel : nat) (buf : list ascii) (n off : nat) (max : Z) (out : list dirent) : option (list dirent) :=
  match fuel with
  | O => Some out
  | S fuel =>
      if negb (off <? n)%nat then Some out
      else
        r ← Reclen buf off;
        if (r =? 0)%nat || (n <? off + r)%nat then Some out
        else
          name ← direntName buf off;
          t ← Type_ buf off;
          if is_dot name then scan fuel buf n (off + r) max out
          else
            let out := out ++ [entry name t] in
            if max <=? Z.of_nat (length out) then Some out else scan fuel buf n (off + r) max out
  end.

(** What [syscall.ReadDirent] answers: an error, or the number of bytes and
    the buffer, of which the rest is what earlier reads left. *)
Abbreviation answer := (result (nat * list ascii) errno).

(** The outer loop over the kernel's answers, which end with the directory. *)
Fixpoint read_loop (answers : list answer) (max : Z) (out : list dirent) : option (list dirent * option errno) :=
  if negb (Z.of_nat (length out) <? max) then Some (out, None)
  else
    match answers with
    | [] => Some (out, None)
    | Err e :: _ => Some (out, Some e)
    | Ok (n, buf) :: answers =>
        if (n =? 0)%nat then Some (out, None)
        else out ← scan n buf n 0 max out; read_loop answers max out
    end.

Definition ReadDirRaw (open : result unit errno) (answers : list answer) (max : Z) : option (list dirent * option errno) :=
  match open with
  | Err e => Some ([], Some e)
  | Ok _ => read_loop answers max []
  end.

(** ** What the kernel writes *)

Record kernel_entry : Set := KEntry { k_head : list ascii; k_type : nat; k_name : string; k_pad : list ascii }.

Definition k_reclen (e : kernel_entry) : nat := 20 + String.length (k_name e) + length (k_pad e).
Definition encode (e : kernel_entry) : list ascii :=
  k_head e ++ [ascii_of_nat (k_reclen e `mod` 256); ascii_of_nat (k_reclen e / 256); ascii_of_nat (k_type e)]
  ++ String.list_ascii_of_string (k_name e) ++ zero :: k_pad e.

(** A record of linux_dirent64: a name of at most 255 bytes without a NUL. *)
Record wf_entry (e : kernel_entry) : Prop := WfEntry
  { wf_head : length (k_head e) = 16%nat;
    wf_type : (k_type e < 256)%nat;
    wf_name : (String.length (k_name e) <= 255)%nat;
    wf_nul : zero ∉ String.list_ascii_of_string (k_name e);
    wf_reclen : (k_reclen e < 256 * 256)%nat }.

(** The answer that holds entries [l], with [stale] bytes after them. *)
Definition batch (l : list kernel_entry) (stale : list ascii) : answer :=
  Ok (length (concat (map encode l)), concat (map encode l) ++ stale).

(** The entries a caller is to see. *)
Definition listed (l : list kernel_entry) : list dirent :=
  map (fun e => entry (k_name e) (k_type e)) (List.filter (fun e => negb (is_dot (k_name e))) l).

(** ** One record *)

Lemma length_list_ascii s : length (String.list_ascii_of_string s) = String.length s.
Proof. induction s as [| c s IH]; cbn; [done | by rewrite IH]. Qed.
Lemma length_encode e : length (k_head e) = 16%nat -> length (encode e) = k_reclen e.
Proof. intros H. unfold encode, k_reclen. rewrite !length_app, H, length_list_ascii. cbn. lia. Qed.

Lemma byte_at_app pre l i : byte_at (pre ++ l) (length pre + i) = byte_at l i.
Proof. unfold byte_at. rewrite lookup_app_r by lia. do 2 f_equal. lia. Qed.
Lemma byte_at_skip l1 l2 i j : i = (length l1 + j)%nat -> byte_at (l1 ++ l2) i = byte_at l2 j.
Proof. intros ->. apply byte_at_app. Qed.

(** The record at the head of [encode e ++ rest], read at offset [off]. *)
Section record.
Context (pre rest : list ascii) (e : kernel_entry) (He : wf_entry e).
Abbreviation buf := (pre ++ encode e ++ rest).
Abbreviation off := (length pre).

Lemma buf_byte i c : encode e !! i = Some c -> byte_at buf (off + i) = Some (nat_of_ascii c).
Proof.
  intros Hc. rewrite byte_at_app. unfold byte_at. rewrite lookup_app_l by (by eapply lookup_lt_Some). by rewrite Hc.
Qed.
Lemma encode_byte i c :
  [ascii_of_nat (k_reclen e `mod` 256); ascii_of_nat (k_reclen e `div` 256); ascii_of_nat (k_type e)] !! i = Some c ->
  encode e !! (16 + i)%nat = Some c.
Proof.
  intros Hc. unfold encode. rewrite lookup_app_r by (rewrite (wf_head e He); lia). rewrite (wf_head e He).
  replace (16 + i - 16)%nat with i by lia. by apply lookup_app_l_Some.
Qed.

Lemma Reclen_encode : Reclen buf off = Some (k_reclen e).
Proof.
  pose proof (wf_reclen e He) as Hr.
  unfold Reclen. rewrite (buf_byte 16 _ (encode_byte 0 _ eq_refl)), (buf_byte 17 _ (encode_byte 1 _ eq_refl)). cbn [mbind option_bind].
  rewrite !nat_ascii_embedding; [| apply Nat.Div0.div_lt_upper_bound; lia | by apply Nat.mod_upper_bound].
  f_equal. pose proof (Nat.div_mod_eq (k_reclen e) 256). lia.
Qed.
Lemma Type_encode : Type_ buf off = Some (k_type e).
Proof.
  unfold Type_. rewrite (buf_byte 18 _ (encode_byte 2 _ eq_refl)). by rewrite nat_ascii_embedding by apply He.
Qed.

Lemma name_loop_ends k l acc tl :
  (length l < k)%nat -> zero ∉ l -> name_loop k (l ++ zero :: tl) acc = Some (String.string_of_list_ascii (rev acc ++ l)).
Proof.
  revert k acc. induction l as [| c l IH]; intros [| k] acc Hk Hz; cbn in *; try lia.
  - by rewrite app_nil_r.
  - apply not_elem_of_cons in Hz as [Hc Hz]. rewrite decide_False by done. rewrite IH by (done || lia).
    cbn. by rewrite <- app_assoc.
Qed.
Lemma direntName_encode : direntName buf off = Some (k_name e).
Proof.
  pose proof (wf_name e He) as Hn. unfold direntName, encode.
  rewrite drop_app_ge by lia. replace (off + 19 - off)%nat with 19%nat by lia.
  rewrite <- !app_assoc, drop_app_ge by (rewrite (wf_head e He); lia). rewrite (wf_head e He). cbn [drop app Nat.sub].
  rewrite drop_0, name_loop_ends; [| by rewrite length_list_ascii; lia | apply He].
  cbn. by rewrite String.string_of_list_ascii_of_string.
Qed.

End record.

(** ** A buffer *)

Lemma listed_cons e l : listed (e :: l) = (if is_dot (k_name e) then [] else [entry (k_name e) (k_type e)]) ++ listed l.
Proof. unfold listed. cbn. by destruct (is_dot _). Qed.

(** What is left of [room] once [l] was listed. *)
Lemma scan_encode fuel l pre stale max out :
  (length (concat (map encode l)) <= fuel)%nat -> Forall wf_entry l -> Z.of_nat (length out) < max ->
  scan fuel (pre ++ concat (map encode l) ++ stale) (length pre + length (concat (map encode l))) (length pre) max out
    = Some (take (Z.to_nat max) (out ++ listed l)).
Proof.
  revert fuel pre out. induction l as [| e l IH]; intros fuel pre out Hf Hw Hm.
  - cbn in *. rewrite take_ge by (rewrite app_nil_r; lia). rewrite app_nil_r.
    destruct fuel; cbn [scan]; [done |]. by replace (length pre <? length pre + 0)%nat with false by (symmetry; apply Nat.ltb_ge; lia).
  - apply list.Forall_cons in Hw as [He Hw]. cbn [map concat] in *. rewrite length_app in *.
    assert (Hlen : length (encode e) = k_reclen e) by by apply length_encode, He. rewrite Hlen in *.
    assert (Hk : (20 <= k_reclen e)%nat) by (unfold k_reclen; lia).
    destruct fuel as [| fuel]; [lia |]. rewrite <- app_assoc. cbn [scan].
    replace (length pre <? _)%nat with true by (symmetry; apply Nat.ltb_lt; lia). cbn [negb].
    rewrite Reclen_encode by done. cbn [mbind option_bind].
    replace (k_reclen e =? 0)%nat with false by (symmetry; apply Nat.eqb_neq; lia).
    replace (length pre + (k_reclen e + _) <? _)%nat with false by (symmetry; apply Nat.ltb_ge; lia). cbn [orb].
    rewrite direntName_encode, Type_encode by done. cbn [mbind option_bind].
    assert (Hnext : forall out, Z.of_nat (length out) < max ->
      scan fuel (pre ++ encode e ++ concat (map encode l) ++ stale) (length pre + (k_reclen e + length (concat (map encode l))))
        (length pre + k_reclen e) max out = Some (take (Z.to_nat max) (out ++ listed l))).
    { intros out' Hm'. specialize (IH fuel (pre ++ encode e) out'). rewrite <- app_assoc, length_app, Hlen in IH.
      rewrite <- IH; [f_equal; lia | lia | done | done]. }
    rewrite listed_cons. destruct (is_dot (k_name e)); [by apply Hnext |]. rewrite (app_assoc out).
    assert (Hlo : Z.of_nat (length (out ++ [entry (k_name e) (k_type e)])) = Z.of_nat (length out) + 1) by (rewrite length_app; cbn; lia).
    destruct (max <=? _) eqn:Hmax; bools.
    + rewrite take_app_le, take_ge by lia. done.
    + apply Hnext. lia.
Qed.

Lemma take_take_app {A} n (l k : list A) : take n (take n l ++ k) = take n (l ++ k).
Proof. rewrite !firstn_app, firstn_firstn, length_take, Nat.min_id. do 2 f_equal. lia. Qed.

Lemma batch_scan l stale max out :
  Forall wf_entry l -> Z.of_nat (length out) < max ->
  scan (length (concat (map encode l))) (concat (map encode l) ++ stale) (length (concat (map encode l))) 0 max out
    = Some (take (Z.to_nat max) (out ++ listed l)).
Proof. intros Hw Hm. exact (scan_encode _ l [] stale max out (Nat.le_refl _) Hw Hm). Qed.

Lemma read_loop_encode batches max out :
  Forall (fun b => fst b <> [] /\ Forall wf_entry (fst b)) batches -> (length out <= Z.to_nat max)%nat ->
  read_loop (map (fun b => batch (fst b) (snd b)) batches) max out
    = Some (take (Z.to_nat max) (out ++ listed (concat (map fst batches))), None).
Proof.
  revert out. induction batches as [| [l stale] bs IH]; intros out Hw Hm.
  - cbn. rewrite app_nil_r, take_ge by done. by destruct (negb _).
  - apply list.Forall_cons in Hw as [[Hne Hl] Hw]. cbn [map fst snd batch read_loop concat] in *.
    destruct (Z.of_nat (length out) <? max) eqn:Hlt; cbn [negb]; bools.
    + replace (length (concat (map encode l)) =? 0)%nat with false.
      * rewrite batch_scan by done. cbn [mbind option_bind]. rewrite IH; [| done | rewrite length_take; lia].
        do 2 f_equal. unfold listed. rewrite filter_app, map_app. fold (listed l). fold (listed (concat (map fst bs))).
        rewrite app_assoc. apply take_take_app.
      * symmetry. apply Nat.eqb_neq. destruct l as [| e l]; [done |]. apply list.Forall_cons in Hl as [He _]. cbn.
        rewrite length_app, length_encode by apply He. unfold k_reclen. lia.
    + rewrite take_app_le, take_ge by lia. done.
Qed.

(** Whatever the bytes, no more than [max] entries are listed. *)
Lemma scan_bound fuel buf n off max out l :
  Z.of_nat (length out) < max -> scan fuel buf n off max out = Some l -> Z.of_nat (length l) <= max.
Proof.
  revert off out. induction fuel as [| fuel IH]; cbn [scan]; intros off out Hm; [intros [= <-]; lia |].
  destruct (negb _); [intros [= <-]; lia |]. intros (r & _ & H)%bind_Some. destruct (_ || _); [injection H as <-; lia |].
  apply bind_Some in H as (name & _ & H). apply bind_Some in H as (t & _ & H). destruct (is_dot name); [by eapply IH |].
  assert (Hlo : Z.of_nat (length (out ++ [entry name t])) = Z.of_nat (length out) + 1) by (rewrite length_app; cbn; lia).
  destruct (max <=? _) eqn:Hmax; bools; [injection H as <-; lia |]. by eapply IH.
Qed.
Lemma read_loop_bound answers max out l err :
  (length out <= Z.to_nat max)%nat -> read_loop answers max out = Some (l, err) -> (length l <= Z.to_nat max)%nat.
Proof.
  revert out. induction answers as [| a answers IH]; cbn [read_loop]; intros out Hm; destruct (_ <? _) eqn:Hlt; cbn [negb]; bools;
    try by intros [= <- _].
  destruct a as [[n buf] | e]; [| by intros [= <- _]]. destruct (n =? 0)%nat; [by intros [= <- _] |].
  intros (out' & Hs%scan_bound & H)%bind_Some; [| done]. apply (IH out'); [lia | done].
Qed.

(** C37: a directory is read back exactly, without a look past the buffer.  For
    every sequence of buffers the kernel can fill with records of its format,
    whatever bytes follow them, [ReadDirRaw] reads inside the buffers only
    and answers the entries in order, the dot entries left out, cut at [max];
    and whatever the bytes are, it never answers more than [max]. *)
Theorem directory_read_back :
  (forall batches max,
     Forall (fun b => fst b <> [] /\ Forall wf_entry (fst b)) batches ->
     ReadDirRaw (Ok tt) (map (fun b => batch (fst b) (snd b)) batches) max
       = Some (take (Z.to_nat max) (listed (concat (map fst batches))), None))
  /\ forall open answers max l err, ReadDirRaw open answers max = Some (l, err) -> (length l <= Z.to_nat max)%nat.
Proof.
  split.
  - intros batches max Hw. by apply (read_loop_encode batches max []); [| cbn; lia].
  - intros [u | e] answers max l err; cbn; [| intros [= <- _]; cbn; lia]. apply read_loop_bound. cbn. lia.
Qed.

(** Two buffers, the second with the bytes of the first after its own. *)
Definition example_entry (t : nat) (name : string) : kernel_entry := KEntry (replicate 16 one) t name [zero; one].
Definition example_batches : list (list kernel_entry * list ascii) :=
  [([example_entry 4 "."; example_entry 4 ".."; example_entry 8 "a"], []);
   ([example_entry 0 "b.txt"], encode (example_entry 4 "..")); ([example_entry 4 "sub"], [])].

Lemma example_wf t name :
  (t < 256)%nat -> (String.length name <= 255)%nat -> bool_decide (zero ∉ String.list_ascii_of_string name) = true -> wf_entry (example_entry t name).
Proof. intros Ht Hn Hz. split; try done; [by apply bool_decide_eq_true in Hz | unfold k_reclen; cbn [k_name k_pad example_entry length]; lia]. Qed.
Lemma example_wf_batches : Forall (fun b => fst b <> [] /\ Forall wf_entry (fst b)) example_batches.
Proof.
  repeat (apply list.Forall_cons; split); try apply list.Forall_nil; try done; (split; [done |]);
    repeat (apply list.Forall_cons; split); try apply list.Forall_nil; try done;
    (apply example_wf; [lia | cbn [String.length]; lia | vm_compute; reflexivity]).
Qed.

Lemma directory_read_back_witness :
  ReadDirRaw (Ok tt) (map (fun b => batch (fst b) (snd b)) example_batches) 2
    = Some ([DirEnt "a" false true false; DirEnt "b.txt" false false true], None).
Proof.
  rewrite (proj1 directory_read_back _ 2 example_wf_batches). vm_compute. reflexivity.
Defined.

End RawDir.
