(* ===== verification/S3Live.v ===== *)
(** * S3Live: is this mount live? (pkg/driver/node_s3.go)

    The gate before an S3 volume is bound into a pod, the probes the checker
    uses on a mount, and the removal of a dead one. *)

From Stdlib Require Import Ascii QArith.
From S2P Require Import Prelude GoStrings Effects Luks Mounts MountManager Csi Controller.
From S2P Require Import NodeMounts NodeLuks NodeState Drain.
Import Luks Mounts MountManager Csi NodeMounts NodeState Drain.

#[local] Open Scope Z_scope.

Module S3Live.

(** ** Paths *)

Definition DefaultKubeletRoot := "/var/lib/kubelet".

Definition resolveKubeletRoot : M string :=
  c <~ gets kubeletRootCache ;;
  match c with
  | Some r => ret r
  | None =>
      out <~ lift (runCmdBoundedOutput (10 * second) (host_cmd_u ["readlink"; "-f"; DefaultKubeletRoot])) ;;
      let resolved := match out with
                      | Ok o => if bool_decide (trim_space o = "") then DefaultKubeletRoot else trim_space o
                      | Err _ => DefaultKubeletRoot
                      end in
      modify (set_root resolved) ;~
      ret resolved
  end.

Definition consumer_path (root podUID pvName : string) : string :=
  path_join [root; "pods"; podUID; "volumes"; "kubernetes.io~csi"; pvName; "mount"].

Definition string_field (o : json) (key : string) : option string :=
  match o with
  | JObj l => match Rpc.Rpc.field key l with Some (JStr s) => Some s | _ => None end
  | _ => None
  end.

(** The volume handle in kubelet's vol_data.json, "" if there is none. *)
Definition getVolumeIDFromVolData (volumeDir : string) : prog string :=
  r <- perform (CReadJson (path_join [volumeDir; "vol_data.json"])) ;;
  Ret match r with
      | Ok (Some o) => default "" (string_field o "volumeHandle")
      | _ => ""
      end.

(** ** Probes *)

Definition isMountDeadErr (e : errno) : bool := bool_decide (e ∈ [EIO; ENOTCONN; ESTALE]).

(** [statfsBounded]: the probes of one path in flight share a result, so the
    call stands for the one whose answer this caller sees. *)
Definition statfsBounded (path : string) (timeout : Z) : prog (bounded (result unit errno)) :=
  perform (CStatfsB path timeout).

Definition isFUSEMountPoint (path : string) : prog bool := IsHostFUSEMount path.

Definition verifyS3StagingLive (stagingPath : string) : prog (result unit gerr) :=
  let* (isFUSE, known) := HostFUSEMountState stagingPath ;;
  if negb known then
    Ret (Err (error_new ("the host mount table is unreadable, so " +s+ stagingPath +s+ " cannot be confirmed")))
  else if negb isFUSE then
    Ret (Err (error_new (stagingPath +s+ " is not an rclone FUSE mount in the host namespace")))
  else
    r <- statfsBounded stagingPath (5 * second) ;;
    Ret match r with
        | Blocked => Err (error_new ("statfs on " +s+ stagingPath +s+ " blocked for 5s"))
        | Done (Err e) => Err (errorf_w ("statfs on " +s+ stagingPath +s+ " failed") (errno_err e))
        | Done (Ok _) => Ok tt
        end.

(** *** Reading through a mount *)

(** One directory of the breadth-first probe: what ends the probe, or the
    subdirectories queued so far. *)
Inductive probe_step : Type :=
  | ProbeDead (e : errno) | ProbeLive | ProbeMore (next : list string).

Fixpoint probe_entries (dir : string) (entries : list dirent) (next : list string) : prog probe_step :=
  match entries with
  | [] => Ret (ProbeMore next)
  | e :: entries =>
      let p := path_join [dir; de_name e] in
      if de_isdir e then
        probe_entries dir entries (if (length next <? 8)%nat then next ++ [p] else next)
      else if negb (de_isreg e) && negb (de_unknown e) then probe_entries dir entries next
      else
        r <- perform (COpenProbe p) ;;
        match r with
        | Ok _ => Ret ProbeLive
        | Err err => if isMountDeadErr err then Ret (ProbeDead err) else probe_entries dir entries next
        end
  end.
Fixpoint probe_dirs (dirs next : list string) : prog probe_step :=
  match dirs with
  | [] => Ret (ProbeMore next)
  | dir :: dirs =>
      let* (entries, err) := perform (CReadDirRaw dir 512) ;;
      match (match err with Some e => if isMountDeadErr e then Some e else None | None => None end) with
      | Some e => Ret (ProbeDead e)
      | None =>
          s <- probe_entries dir entries next ;;
          match s with ProbeMore next => probe_dirs dirs next | s => Ret s end
      end
  end.
Fixpoint probe_levels (depth : nat) (dirs : list string) : prog (result unit errno) :=
  match depth, dirs with
  | O, _ | _, [] => Ret (Ok tt)
  | S depth, _ =>
      s <- probe_dirs dirs [] ;;
      match s with
      | ProbeDead e => Ret (Err e)
      | ProbeLive => Ret (Ok tt)
      | ProbeMore next => probe_levels depth next
      end
  end.
Definition probeMountReads (root : string) : prog (result unit errno) := probe_levels 3 [root].

Definition vfsProbeStuckAfter : Z := 2 * minute.

(** [mountVFSResponsive].  A probe goroutine that took 5 s or more was given up
    on and stays in flight until [probe_ends]. *)
Definition mountVFSResponsive (path : string) : M bool :=
  now <~ ask CNow ;;
  prev <~ gets (fun s => vfsProbesInFlight (chk s) !! path) ;;
  match prev with
  | Some since => ret (negb (vfsProbeStuckAfter <? now - since))
  | None =>
      modify (on_probes (insert path now)) ;~
      r <~ lift (probeMountReads path) ;;
      later <~ ask CNow ;;
      if 5 * second <=? later - now then ret true
      else modify (on_probes (delete path)) ;~ ret (is_ok r)
  end.

Definition probe_ends (path : string) : M unit := modify (on_probes (delete path)).

(** ** FUSE connections *)

Definition fuseConnectionsDir := "/sys/fs/fuse/connections".

Definition writeFUSEAbort (minor : string) : prog (result unit gerr) :=
  let abortPath := fuseConnectionsDir +s+ "/" +s+ minor +s+ "/abort" in
  r <- perform (CWriteFile abortPath "1") ;;
  match r with
  | Ok _ => Ret (Ok tt)
  | Err _ => runCmdBounded (15 * second) (host_cmd ["sh"; "-c"; "echo 1 > " +s+ abortPath])
  end.

(** The minors of the FUSE mounts stacked at a path. *)
Definition fuse_minors (mounts : list HostMount) : list string :=
  omap (fun m => if has_prefix "fuse" (FSType m)
                 then match cut ":" (Dev m) with Some (_, minor) => Some minor | None => None end
                 else None) mounts.

Definition abortFUSEConnection (mountPoint : string) : prog unit :=
  perform CInvalidateMounts ;;;
  t <- HostMountStacksOK ;;
  stacks <- match t with
            | Some s => Ret (Some s)
            | None =>
                r <- perform (CReadFile "/proc/self/mountinfo") ;;
                Ret match r with Ok d => Some (parseMountStacks d) | Err _ => None end
            end ;;
  match stacks with
  | None => Ret tt
  | Some s => for_each (fuse_minors (default [] (s !! mountPoint))) (fun m => writeFUSEAbort m ;;; Ret tt)
  end.

Definition listFUSEConnections : prog (list string) :=
  r <- perform (CReadDir fuseConnectionsDir) ;;
  match r with
  | Ok (e :: es) => Ret (map de_name (e :: es))
  | _ =>
      out <- runCmdBoundedOutput (15 * second) (host_cmd ["ls"; fuseConnectionsDir]) ;;
      Ret match out with Ok o => fields o | Err _ => [] end
  end.

(** Anonymous device minors in one mountinfo text. *)
Definition anon_minor (line : string) : option string :=
  match fields line with
  | _ :: _ :: dev :: _ =>
      match cut ":" dev with Some (maj, minor) => if bool_decide (maj = "0") then Some minor else None
                           | None => None end
  | _ => None
  end.
(** [strconv.Atoi] of a /proc entry; only whether it is a number matters. *)
Definition is_pid (name : string) : bool := match parse_int name with Some _ => true | None => false end.

Fixpoint mounted_minors (procs : list dirent) (seenNS mounted : list string) : prog (list string) :=
  match procs with
  | [] => Ret mounted
  | p :: procs =>
      if negb (is_pid (de_name p)) then mounted_minors procs seenNS mounted
      else
        link <- perform (CReadlink ("/proc/" +s+ de_name p +s+ "/ns/mnt")) ;;
        match link with
        | Err _ => mounted_minors procs seenNS mounted
        | Ok ns =>
            if bool_decide (ns ∈ seenNS) then mounted_minors procs seenNS mounted
            else
              data <- perform (CReadFile ("/proc/" +s+ de_name p +s+ "/mountinfo")) ;;
              mounted_minors procs (ns :: seenNS)
                match data with Ok d => omap anon_minor (split nl d) ++ mounted | Err _ => mounted end
        end
  end.

Definition abortOrphanedFUSEConnections : prog unit :=
  conns <- listFUSEConnections ;;
  match conns with
  | [] => Ret tt
  | _ =>
      r <- perform (CReadDir "/proc") ;;
      mounted <- mounted_minors (match r with Ok p => p | Err _ => [] end) [] [] ;;
      for_each conns (fun minor =>
        if bool_decide (minor ∈ mounted) then Ret tt else writeFUSEAbort minor ;;; Ret tt)
  end.

(** ** Removal *)

Definition removeAllBounded (path : string) (timeout : Z) : prog unit :=
  perform (CRemoveAllB path timeout) ;;; Ret tt.

Definition unmountStaleS3Mount (mountPath : string) : prog unit :=
  runCmdBounded (30 * second) ["umount"; "-l"; mountPath] ;;;
  removeAllBounded mountPath (60 * second).

(** ** I/O pressure *)

Section pressure.
(** [strconv.ParseFloat] of a decimal. *)
Context (ParseFloat : string -> option Q).

Definition ioStallThresholdPct : Q := 40.

Definition avg10_of (line : string) : option Q :=
  head (omap (fun f => match cut_prefix "avg10=" f with Some v => ParseFloat v | None => None end) (fields line)).
Definition parseIOPressure (s : string) : Q * bool :=
  match head (omap avg10_of (List.filter (has_prefix "full ") (split nl s))) with
  | Some pct => (pct, Qle_bool ioStallThresholdPct pct)
  | None => (0%Q, false)
  end.
Definition nodeIOStalled : prog (Q * bool) :=
  r <- perform (CReadFile "/proc/pressure/io") ;;
  Ret match r with Ok d => parseIOPressure d | Err _ => (0%Q, false) end.
End pressure.

(** ** What the probes prove *)

(** [path] was seen as a FUSE mount in a table that could be read, and its
    statfs answered. *)
Definition seen_live (path : string) (h : history) : Prop :=
  (exists t, Ev CHostMounts (Some t) ∈ h /\ table_fuse t path = true)
  /\ Ev (CStatfsB path (5 * second)) (Done (Ok tt)) ∈ h.

Lemma verify_spec path h :
  wpc looks_only (verifyS3StagingLive path)
    (fun h' r => h ⊆ h' /\ (is_ok r = true -> seen_live path h')) h.
Proof.
  unfold verifyS3StagingLive, HostFUSEMountState, HostMountsOK, HostMountStacksOK, statfsBounded.
  do 3 wp_step. apply wpc_perform; [done |]. intros t. cbn [wpc]. destruct t as [t |]; cbn [fmap option_fmap option_map].
  2: { cbn. split; [sub | done]. }
  cbn [negb]. destruct (is_fuse (flattenMountStacks t) path) eqn:Hf; cbn [negb].
  2: { cbn. split; [sub | done]. }
  wp_step. apply wpc_perform; [done |]. intros r. cbn [wpc]. split; [sub |].
  destruct r as [[[] | e] |]; try done. intros _. split.
  - exists t. split; [right; by left | exact Hf].
  - by left.
Qed.

(** Directories a probe lists. *)
Definition lists (h : history) : nat :=
  length (List.filter (fun e => match e with Ev (CReadDirRaw _ _) _ => true | _ => false end) h).

#[local] Arguments lists : simpl never.
Lemma lists_raw d m r h : lists (Ev (CReadDirRaw d m) r :: h) = S (lists h).
Proof. done. Qed.
Lemma lists_open p r h : lists (Ev (COpenProbe p) r :: h) = lists h.
Proof. done. Qed.

(** The directories below [root], by the names that were listed. *)
Inductive reached (root : string) : string -> Prop :=
  | reached_root : reached root root
  | reached_entry d name : reached root d -> reached root (path_join [d; name]).

Lemma probe_entries_spec root dir entries next h :
  reached root dir -> (length next <= 8)%nat -> Forall (reached root) next ->
  wpc looks_only (probe_entries dir entries next)
    (fun h' s => lists h' = lists h /\ match s with
       | ProbeDead e => isMountDeadErr e = true /\ exists p, reached root p /\ Ev (COpenProbe p) (Err e) ∈ h'
       | ProbeLive => exists p, Ev (COpenProbe p) (Ok tt) ∈ h'
       | ProbeMore n => (length n <= 8)%nat /\ Forall (reached root) n end) h.
Proof.
  intros Hd. revert next h. induction entries as [| e entries IH]; intros next h Hn Hf; cbn [probe_entries]; [done |].
  assert (He : reached root (path_join [dir; de_name e])) by by constructor.
  cbn zeta. destruct (de_isdir e).
  { destruct (length next <? 8)%nat eqn:E; [| by apply IH]. apply Nat.ltb_lt in E. apply IH.
    - rewrite length_app. cbn. lia.
    - apply list.Forall_app. by repeat constructor. }
  destruct (_ && _); [by apply IH |]. wp_step. apply wpc_perform; [done |].
  intros [[] | err]; [by split; [| eexists; left] |].
  destruct (isMountDeadErr err) eqn:E.
  { cbn. split; [done |]. split; [done |]. eexists. split; [exact He | by left]. }
  eapply wpc_post; [by apply IH |]. intros h' s [Hl Hs]. split; [| exact Hs]. by rewrite Hl.
Qed.

(** What ended a probe of [root], if anything did. *)
Definition probe_evidence (root : string) (s : result unit errno) (h : history) : Prop :=
  match s with
  | Err e => isMountDeadErr e = true
      /\ ((exists p, reached root p /\ Ev (COpenProbe p) (Err e) ∈ h)
          \/ exists d es, reached root d /\ Ev (CReadDirRaw d 512) (es, Some e) ∈ h)
  | Ok _ => True
  end.

Lemma probe_dirs_spec root dirs next h :
  Forall (reached root) dirs -> (length next <= 8)%nat -> Forall (reached root) next ->
  wpc looks_only (probe_dirs dirs next)
    (fun h' s => (lists h' <= lists h + length dirs)%nat /\ match s with
       | ProbeDead e => probe_evidence root (Err e) h'
       | ProbeLive => True
       | ProbeMore n => (length n <= 8)%nat /\ Forall (reached root) n end) h.
Proof.
  intros Hr. revert next h. induction Hr as [| d dirs Hd _ IH]; intros next h Hn Hf; cbn [probe_dirs].
  { cbn. split; [lia | done]. }
  wp_step. apply wpc_perform; [done |]. intros [entries err].
  destruct (match err with Some e => _ | None => _ end) as [e |] eqn:E.
  { destruct err as [e' |]; [| done]. destruct (isMountDeadErr e') eqn:Ed; [| done].
    injection E as ->. cbn. rewrite lists_raw. split; [lia |]. split; [done |]. right. exists d, entries.
    split; [done | by left]. }
  wp_step. eapply wpc_post; [by apply (probe_entries_spec root) |]. intros h1 s [Hl Hs].
  rewrite lists_raw in Hl.
  cbn [length]. destruct s as [e | | n].
  - cbn [wpc]. split; [lia |]. destruct Hs. split; [done | by left].
  - cbn [wpc]. split; [lia | done].
  - destruct Hs. eapply wpc_post; [by apply IH |]. intros h2 s [Hl2 Hs2]. split; [lia | exact Hs2].
Qed.

Lemma probe_spec root h :
  wpc looks_only (probeMountReads root) (fun h' r => (lists h' <= lists h + 17)%nat /\ probe_evidence root r h') h.
Proof.
  unfold probeMountReads. cbn [probe_levels].
  wp_step. eapply wpc_post; [apply (probe_dirs_spec root); [by repeat constructor | cbn; lia | done] |].
  intros h1 s1 [H1 E1]. cbn [length] in H1.
  destruct s1 as [e | | n1]; cbn; [split; [lia | done] | split; [lia | done] |]. destruct E1 as [E1 F1].
  destruct n1 as [| d1 n1]; [split; [lia | done] |]. wp_step.
  eapply wpc_post; [apply (probe_dirs_spec root); [done | cbn; lia | done] |]. intros h2 s2 [H2 E2]. cbn [length] in H2, E1.
  destruct s2 as [e | | n2]; cbn; [split; [lia | done] | split; [lia | done] |]. destruct E2 as [E2 F2].
  destruct n2 as [| d2 n2]; [split; [lia | done] |]. wp_step.
  eapply wpc_post; [apply (probe_dirs_spec root); [done | cbn; lia | done] |]. intros h3 s3 [H3 E3]. cbn [length] in H3, E2.
  destruct s3 as [e | | n3]; cbn; (split; [lia | done]).
Qed.

(** C39: the read probe of a mount is bounded and only condemns on evidence.  It
    changes nothing, lists at most 17 directories (the root and two levels of
    at most 8), and reports the mount dead only when a listing or an open of
    something below its root failed with EIO, ENOTCONN or ESTALE; anything else (an empty volume,
    ENOENT, EACCES) leaves it healthy. *)
Theorem probe_bounded_and_sound env root :
  let '(h, r) := run env (probeMountReads root) [] in
  hist_ok looks_only h /\ (lists h <= 17)%nat /\ probe_evidence root r h.
Proof.
  pose proof (wpc_run env looks_only _ _ [] (probe_spec root [])) as H.
  destruct (run env _ []) as [h r]. by apply H.
Qed.

(** The removal of a stale mount does not check that the mount is gone: when
    its umount fails, the tree is deleted all the same, through whatever is
    still mounted there. *)
Theorem failed_umount_still_deletes (env : environment) path :
  (forall out err, env [] (CExec (Some (30 * second)) "" ["umount"; "-l"; path]) <> XExit 0 out err) ->
  exists r, Ev (CRemoveAllB path (60 * second)) r
            ∈ fst (run env (unmountStaleS3Mount path) []).
Proof.
  intros _. unfold unmountStaleS3Mount, runCmdBounded, runCmdBoundedOutput, removeAllBounded.
  cbn [bind perform run fst]. eexists. by left.
Qed.

Lemma failed_umount_still_deletes_witness :
  exists r, Ev (CRemoveAllB "/stage" (60 * second)) r
    ∈ fst (run (override_env (fun _ c => match c with CExec _ _ _ => Some (XExit 32 "" "busy") | _ => None end))
             (unmountStaleS3Mount "/stage") []).
Proof.
  apply (failed_umount_still_deletes (override_env (fun _ c =>
    match c with CExec _ _ _ => Some (XExit 32 "" "busy") | _ => None end)) "/stage").
  intros out err. discriminate.
Defined.

End S3Live.
