(* ===== verification/NodeServer.v ===== *)
(** * NodeServer: the CSI node service (pkg/driver/node.go)

    The handlers kubelet calls, for both kinds of volume, and the reclaim of
    the volumes whose PV is gone. *)

From S2P Require Import Prelude GoStrings Effects Secrets Luks Mounts VfsCache MountManager Csi.
From S2P Require Import Controller NodeMounts NodeLuks NodeState Drain S3Live.
Import Secrets Luks Mounts VfsCache MountManager Csi NodeMounts NodeLuks NodeState Drain S3Live.

Module NodeServer.

(** ** Requests *)

Definition validateStageVolumeRequest (req : stage_request) : option status :=
  if bool_decide (st_volume req = "") then Some (missing "Volume ID")
  else if bool_decide (st_staging req = "") then Some (missing "Staging target path")
  else match st_cap req with None => Some (missing "Volume capability") | Some _ => None end.

Definition validateUnstageVolumeRequest (volumeID staging : string) : option status :=
  if bool_decide (volumeID = "") then Some (missing "Volume ID")
  else if bool_decide (staging = "") then Some (missing "Staging target path")
  else None.

Definition validatePublishVolumeRequest (req : publish_request) : option status :=
  if bool_decide (pb_volume req = "") then Some (missing "Volume ID")
  else if bool_decide (pb_staging req = "") then Some (missing "Staging target path")
  else if bool_decide (pb_target req = "") then Some (missing "Target path")
  else None.

Section node.
Context (nodeID : string) (clientset : bool).

(** ** Staging *)

Definition prepareVolumeStaging (req : stage_request) (cap : capability)
    : prog (result StagingParameters gerr) :=
  let v := st_volume req in
  let ctx := st_context req in
  fsGroup <- extractFsGroup clientset ctx (Some cap) ;;
  if isS3Backend ctx then
    Ret (Ok (StagingParams v (st_staging req) "" "" "" "" "" fsGroup (extractFsMode ctx) cap))
  else
    localPath <- GetLocalPath v ;;
    let backingFile := GenerateBackingFilePath localPath v in
    mk <- perform (CMkdirAll localPath) ;;
    match mk with
    | Err e => Ret (Err (errorf_v ("failed to create local path directory " +s+ localPath) (errno_err e)))
    | Ok _ =>
        try _ <- ensureBackingFileExists nodeID req backingFile
          else (errorf_v "failed to ensure backing file") ;;
        try passphrase <- getPassphraseFromRequest clientset req
          else (errorf_v "failed to get passphrase") ;;
        Ret (Ok (StagingParams v (st_staging req) localPath backingFile passphrase
                   (GenerateMapperName v) (GetMappedDevicePath (GenerateMapperName v))
                   fsGroup (extractFsMode ctx) cap))
    end.

Definition isAlreadyStaged (v staging : string) (ctx : gmap string string) : prog (result bool gerr) :=
  if negb (isS3Backend ctx) then b <- isVolumeStaged v staging ;; Ret (Ok b)
  else
    r <- verifyS3StagingLive staging ;;
    match r with
    | Ok _ => Ret (Ok true)
    | Err e =>
        known <- HostMountsKnown ;;
        Ret (if (known : bool) then Ok false
             else Err (errorf_v ("cannot verify the staging mount at " +s+ staging) e))
    end.

Definition stage_luks (params : StagingParameters) : prog (result unit status) :=
  try _ <- setupLUKSDevice params else (status_errorf Internal "Failed to setup LUKS device") ;;
  m <- mountAndConfigureVolume params ;;
  match m with
  | Ok _ => Ret (Ok tt)
  | Err e =>
      CloseLUKS (sp_mapperName params) ;;;
      Ret (Err (status_errorf Internal "Failed to mount and configure volume" e))
  end.

Definition NodeStageVolume (req : stage_request) : M (result unit status) :=
  match validateStageVolumeRequest req, st_cap req with
  | Some e, _ => ret (Err e)
  | None, None => ret (Err (missing "Volume capability"))
  | None, Some cap =>
      let v := st_volume req in
      let ctx := st_context req in
      attempt staged <~ lift (isAlreadyStaged v (st_staging req) ctx)
        else (status_errorf Aborted ("Volume " +s+ v)) ;;
      if (staged : bool) then ret (Ok tt)
      else
        attempt params <~ lift (prepareVolumeStaging req cap)
          else (status_errorf Internal "Failed to prepare volume staging") ;;
        if isS3Backend ctx then
          markVolumeSetupInProgress v ;~
          r <~ setupS3Volume clientset v (sp_stagingTargetPath params) ctx (sp_fsGroup params) ;;
          markVolumeSetupComplete v ;~
          ret match r with
              | Ok _ => Ok tt
              | Err e => Err (status_errorf Internal "Failed to setup S3 volume" e)
              end
        else lift (stage_luks params)
  end.

Definition NodeUnstageVolume (v staging : string) : M (result unit status) :=
  match validateUnstageVolumeRequest v staging with
  | Some e => ret (Err e)
  | None =>
      r <~ cleanupS3Sync nodeID clientset v staging ;;
      match r with
      | Err e =>
          if errors_is e SUnuploadedData
          then ret (Err (status_errorf FailedPrecondition ("Refusing to unstage volume " +s+ v) e))
          else
            attempt _ <~ lift (cleanupVolumeStaging v staging)
              else (status_errorf Internal "Failed to cleanup volume staging") ;;
            ret (Ok tt)
      | Ok _ =>
          attempt _ <~ lift (cleanupVolumeStaging v staging)
            else (status_errorf Internal "Failed to cleanup volume staging") ;;
          ret (Ok tt)
      end
  end.

(** ** Publishing *)

Definition ensureVolumeStaged (req : publish_request) : M (result unit gerr) :=
  let v := pb_volume req in
  let staging := pb_staging req in
  let ctx := pb_context req in
  if isS3Backend ctx then
    r <~ lift (verifyS3StagingLive staging) ;;
    match r with
    | Ok _ => ret (Ok tt)
    | Err e =>
        known <~ lift HostMountsKnown ;;
        if negb known then ret (Err (errorf_v ("cannot verify the staging mount at " +s+ staging) e))
        else restoreS3VolumeStaging clientset v staging ctx (pb_cap req)
    end
  else
    staged <~ lift (isVolumeStaged v staging) ;;
    if (staged : bool) then ret (Ok tt)
    else lift (restoreLUKSVolumeStaging clientset v staging ctx).

(** The body of [NodePublishVolume] between the two setup marks. *)
Definition publish (req : publish_request) (fsGroup : option Z) : M (result unit status) :=
  let v := pb_volume req in
  let staging := pb_staging req in
  let isS3 := isS3Backend (pb_context req) in
  attempt _ <~ ensureVolumeStaged req else (status_errorf Internal "Failed to ensure volume staged") ;;
  attempt _ <~ (if isS3 then lift (verifyS3StagingLive staging) else ret (Ok tt))
    else (status_errorf FailedPrecondition ("Refusing to publish volume " +s+ v)) ;;
  match fsGroup with
  | Some g => if isS3 then ret tt
              else lift (applyFsGroupPermissions staging g (extractFsMode (pb_context req)) ;;; Ret tt)
  | None => ret tt
  end ;~
  attempt _ <~ lift (bindMount staging (pb_target req) (pb_readonly req))
    else (status_errorf Internal "Failed to bind mount") ;;
  ret (Ok tt).

Definition NodePublishVolume (req : publish_request) : M (result unit status) :=
  match validatePublishVolumeRequest req with
  | Some e => ret (Err e)
  | None =>
      fsGroup <~ lift (extractFsGroup clientset (pb_context req) (pb_cap req)) ;;
      let isS3 := isS3Backend (pb_context req) in
      (if isS3 then markVolumeSetupInProgress (pb_volume req) else ret tt) ;~
      r <~ publish req fsGroup ;;
      (if isS3 then markVolumeSetupComplete (pb_volume req) else ret tt) ;~
      ret r
  end.

Definition NodeUnpublishVolume (targetPath : string) : prog (result unit status) :=
  if bool_decide (targetPath = "") then Ret (Err (missing "Target path"))
  else
    try _ <- unmountPath targetPath else (status_errorf Internal "Failed to unmount target path") ;;
    Ret (Ok tt).

Definition NodeGetVolumeStats : result unit status := Err (Status Unimplemented "NodeGetVolumeStats is not implemented").

Inductive node_rpc : Set := STAGE_UNSTAGE_VOLUME | NODE_EXPAND_VOLUME.
Definition NodeGetCapabilities : list node_rpc := [STAGE_UNSTAGE_VOLUME; NODE_EXPAND_VOLUME].

(** The node's ID and its topology segment. *)
Definition NodeGetInfo : M (string * gmap string string) :=
  now <~ ask CNow ;;
  modify (set_lastNodeGetInfo now) ;~
  ret (nodeID, {[TopologyKeyNode := nodeID]}).

(** ** Orphaned volumes *)

Definition reclaimOrphanedVolume (v volumeDir : string) : M unit :=
  cleanupS3Sync nodeID clientset v "" ;~
  lift (releaseVolumeMounts v) ;~
  r <~ lift (cleanupVolumeStaging v "") ;;
  match r with
  | Err _ => ret tt
  | Ok _ => ask (CRemoveAll volumeDir) ;~ ret tt
  end.

(** Whether a directory of the local path is an orphan: it carries our
    backing file and its PV is known to be gone. *)
Definition is_orphan (localPath : string) (e : dirent) : prog bool :=
  let v := de_name e in
  if negb (de_isdir e) || negb (has_prefix "pvc-" v) then Ret false
  else
    st <- perform (CStat (GenerateBackingFilePath (path_join [localPath; v]) v)) ;;
    match st with
    | Err ENOENT => Ret false
    | _ =>
        p <- perform (CGetPV v) ;;
        Ret match p with Err KNotFound => true | _ => false end
    end.

Definition cleanupOrphanedVolumes : M unit :=
  if negb clientset then ret tt
  else
    localPath <~ lift local_root ;;
    r <~ ask (CReadDir localPath) ;;
    match r with
    | Err _ => ret tt
    | Ok entries =>
        mfor_each entries (fun e =>
          orphan <~ lift (is_orphan localPath e) ;;
          if (orphan : bool) then reclaimOrphanedVolume (de_name e) (path_join [localPath; de_name e])
          else ret tt)
    end.

End node.

(** ** Watched background work *)

Definition checkerTickStuckAfter : Z := 3 * minute.
Definition checkerTickFatalAfter : Z := 15 * minute.

(** What [runWatched] does about work that ends after [elapsed], or never:
    nothing, a goroutine dump, or a dump and the end of the process. *)
Inductive watch_verdict : Set := WatchQuiet | WatchDumped | WatchFatal.
Definition runWatched (elapsed : option Z) : watch_verdict :=
  match elapsed with
  | None => WatchFatal
  | Some e => if e <? checkerTickStuckAfter then WatchQuiet
              else if e <? checkerTickFatalAfter then WatchDumped else WatchFatal
  end.

(** ** Publishing *)

(** A bind mount of [src] in the host namespace. *)
Definition binds (src : string) (c : call) : Prop :=
  exists b i target, c = CExec b i (host_cmd_u ["mount"; "--bind"; src; target]).
(** [src] is bound only once it was seen live. *)
Definition bind_guard (src : string) (h : history) (c : call) : Prop := binds src c -> seen_live src h.

Lemma seen_live_mono p h h' : h ⊆ h' -> seen_live p h -> seen_live p h'.
Proof. intros Hs [(t & Ht & Hf) H]. split; [exists t |]; auto. Qed.

Lemma runCmd_spec (G : history -> call -> Prop) t argv h :
  G h (CExec (Some t) "" argv) ->
  wpc G (runCmdBounded t argv)
    (fun h' r => h ⊆ h' /\ match r with Ok _ => exec_ok argv h' | Err _ => True end) h.
Proof.
  intros HG. unfold runCmdBounded, runCmdBoundedOutput. do 2 wp_step. apply wpc_perform; [done |].
  intros [e | [| c | c] out err |]; cbn; (split; [sub |]); try done.
  exists (Some t), "", out, err. by left.
Qed.

Lemma bindMount_spec src target ro h :
  seen_live src h ->
  wpc (bind_guard src) (bindMount src target ro)
    (fun h' r => h ⊆ h' /\ (is_ok r = true -> exec_ok (host_cmd_u ["mount"; "--bind"; src; target]) h')) h.
Proof.
  intros Hl. unfold bindMount. wp_step. eapply wpc_post; [apply runCmd_spec; by intros (? & ? & ? & [=]) |].
  intros h1 [[] | e] [Hs1 _]; cbn [wpc]; [| split; [sub | done]].
  wp_step. eapply wpc_post; [apply runCmd_spec; intros _; by eapply seen_live_mono |].
  intros h2 [[] | e] [Hs2 Hb]; cbn [wpc]; [| split; [sub | done]].
  destruct ro; [| split; [sub | done]].
  wp_step. eapply wpc_post; [apply runCmd_spec; by intros (? & ? & ? & [=]) |].
  intros h3 [[] | e] [Hs3 _]; cbn; (split; [sub |]); [| done]. intros _. by eapply exec_ok_mono.
Qed.

(** C11: no plaintext on the node's disk.  Once the staging step of a publish is
    over, an S3 volume is bound into a pod only after its staging path was
    seen to be a FUSE mount of the host that answers; success means the bind
    was made over such a mount; and where it cannot be seen, because the mount
    is missing, dead, or the table unreadable, nothing is bound. *)
Theorem publish_binds_live_mount env clientset req fsGroup s :
  isS3Backend (pb_context req) = true ->
  let '(h1, (s1, r1)) := run env (ensureVolumeStaged clientset req s) [] in
  let '(h, (_, r)) := run env (publish clientset req fsGroup s) [] in
  ok_since (bind_guard (pb_staging req)) h1 h
  /\ (is_ok r = true ->
      seen_live (pb_staging req) h
      /\ exec_ok (host_cmd_u ["mount"; "--bind"; pb_staging req; pb_target req]) h).
Proof.
  intros HS3. unfold publish. cbn zeta. rewrite HS3. unfold mbind at 1. rewrite run_bind.
  destruct (run env (ensureVolumeStaged clientset req s) []) as [h1 [s1 r1]] eqn:E1.
  cbn [fst snd]. destruct r1 as [u | e].
  2: { cbn. split; [constructor | done]. }
  match goal with |- context [run env ?p h1] =>
    assert (Hw : wpc (bind_guard (pb_staging req)) p (fun h r => is_ok (snd r) = true ->
      seen_live (pb_staging req) h /\ exec_ok (host_cmd_u ["mount"; "--bind"; pb_staging req; pb_target req]) h) h1);
    [| set (pp := p) in *]
  end.
  - do 2 wm_step. eapply wpc_mono; [apply verify_spec | by intros h c Hc (? & ? & ? & ->) |].
    intros h2 [[] | e] [Hs Hl]; cbn [fst snd]; [| done]. specialize (Hl eq_refl).
    wm_step. eapply (wpc_post _ _ (fun h' r => h' = h2)).
    { by destruct fsGroup. }
    intros h3 [s3 u3] ->. cbn [fst snd]. do 2 wm_step.
    eapply wpc_post; [by apply bindMount_spec |]. intros h4 [[] | e] [Hs4 Hb]; cbn; [| done].
    intros _. split; [by eapply seen_live_mono | by apply Hb].
  - pose proof (wpc_run_since env _ _ _ h1 h1 Hw (since_here _ _)) as H1.
    pose proof (wpc_run_post env pp _ h1 (wpc_mono _ _ _ _ _ _ Hw (fun _ _ _ => I) (fun _ _ H => H))) as H2.
    destruct (run env pp h1) as [h [s' r]]. done.
Qed.

Definition s3_publish : publish_request :=
  PublishReq "pvc-1" "/stage" "/pod/mount" None false {[StorageBackendParam := "s3"]}.
Definition live_env : environment := override_env (fun _ c =>
  match c with
  | CHostMounts => Some (Some {["/stage" := [{| Dev := "0:50"; FSType := "fuse.rclone" |}]]})
  | _ => None
  end).

Lemma publish_binds_live_mount_witness :
  let r := run live_env (publish true s3_publish None empty_node) [] in
  is_ok (snd (snd r)) = true
  /\ exec_ok (host_cmd_u ["mount"; "--bind"; "/stage"; "/pod/mount"]) (fst r).
Proof.
  pose proof (publish_binds_live_mount live_env true s3_publish None empty_node ltac:(reflexivity)) as H.
  destruct (run live_env (ensureVolumeStaged true s3_publish empty_node) []) as [h1 [s1 r1]].
  assert (Hok : is_ok (snd (snd (run live_env (publish true s3_publish None empty_node) []))) = true)
    by (vm_compute; reflexivity).
  destruct (run live_env (publish true s3_publish None empty_node) []) as [h [s' r]].
  split; [exact Hok |]. exact (proj2 (proj2 H Hok)).
Defined.

(** ** Unstaging *)


(** ** Orphans *)

(** [root] is the local path the environment named. *)
Definition root_read (root : string) (h : history) : Prop :=
  exists env, Ev (CGetenv "CSI_LOCAL_PATH") env ∈ h
    /\ root = if bool_decide (env = "") then DefaultLocalPath else env.

(** Directory [e] of [root] was seen to be of a volume of this driver, and the
    API server said that the volume's PV does not exist. *)
Definition seen_orphaned (root : string) (e : dirent) (h : history) : Prop :=
  de_isdir e = true /\ has_prefix "pvc-" (de_name e) = true
  /\ Ev (CGetPV (de_name e)) (Err KNotFound) ∈ h
  /\ exists st, Ev (CStat (GenerateBackingFilePath (path_join [root; de_name e]) (de_name e))) st ∈ h
       /\ st <> Err ENOENT.

Definition findmnt_of (v : string) : list string :=
  host_cmd ["findmnt"; "-rn"; "-o"; "TARGET"; "-S"; GetMappedDevicePath (GenerateMapperName v)].

(** The calls that reclaim volume [v], of which [managers] has the mounts: it is
    reported or marked as draining; its manager, if it has one, unmounts, on
    the evidence an unmount needs; what findmnt listed on its mapping is
    unmounted; its layers are taken down in their order; and after that its
    directory is removed. *)
Inductive reclaims (managers : gmap string MountManager) (root v : string) (h : history) : call -> Prop :=
| reclaim_report ref : reclaims managers root v h (CEvent ref "ForcedUnstageWithUnuploadedData")
| reclaim_mark_dir : reclaims managers root v h (CMkdirAll drainPendingDir)
| reclaim_mark : reclaims managers root v h (CWriteFile (path_join [drainPendingDir; v]) "")
| reclaim_unmount mm l h0 c : managers !! v = Some mm -> h = l ++ h0 -> unmount_guard mm l c -> reclaims managers root v h c
| reclaim_list b i : reclaims managers root v h (CExec b i (findmnt_of v))
| reclaim_release b i out t : printed (findmnt_of v) out h -> t ∈ parseFindmntTargets out ->
    reclaims managers root v h (CExec b i (host_cmd ["umount"; "-l"; t]))
| reclaim_layers l h0 c : h = l ++ h0 -> cleanup_guard v "" l c -> reclaims managers root v h c
| reclaim_dir : ordered [mapping_gone v; loops_listed v] h -> reclaims managers root v h (CRemoveAll (path_join [root; v])).

Lemma root_read_evidence root : evidence (root_read root).
Proof. intros h h' Hs (env & He & ->). exists env. auto. Qed.
Lemma seen_orphaned_evidence root e : evidence (seen_orphaned root e).
Proof. intros h h' Hs (Hd & Hp & Hn & st & Hst & Hne). do 3 (split; [auto |]). exists st. auto. Qed.

Lemma local_root_spec h :
  wpc looks_only local_root (fun h' root => root_read root h') h.
Proof.
  unfold local_root. wp_step. apply wpc_perform; [done |]. intros env. exists env. split; [by left | done].
Qed.

Lemma is_orphan_spec root e h :
  wpc looks_only (is_orphan root e) (fun h' b => h ⊆ h' /\ (b = true -> seen_orphaned root e h')) h.
Proof.
  unfold is_orphan. destruct (negb (de_isdir e) || _) eqn:E; [cbn; by split; [| discriminate] |]. bools.
  cbn [bind perform wpc]. split; [done |]. intros st. set (h1 := Ev _ st :: h).
  assert (Hp : st <> Err ENOENT ->
    wpc looks_only (bind (perform (CGetPV (de_name e))) (fun p => Ret match p with Err KNotFound => true | _ => false end))
      (fun h' b => h ⊆ h' /\ (b = true -> seen_orphaned root e h')) h1).
  { intros Hne. cbn [bind perform wpc]. split; [done |]. intros p. split; [intros x Hx; right; by right |].
    destruct p as [p | []]; try done. intros _. do 2 (split; [done |]). split; [by left |].
    exists st. split; [right; by left | done]. }
  destruct st as [st | []]; try (by apply Hp). cbn. split; [by intros x Hx; right | done].
Qed.

(** A volume's manager unmounts, whatever happened before. *)
Lemma reclaim_unmounts managers root v mm {A} (p : prog A) (R : history -> A -> Prop) h :
  managers !! v = Some mm -> wpc (unmount_guard mm) p R [] ->
  wpc (fun h c => mutates c = true -> reclaims managers root v h c) p (fun _ _ => True) h.
Proof.
  intros Hm Hp. eapply wpc_post; [eapply wpc_frame; [apply Hp |] | done].
  intros l c Hc _. by eapply reclaim_unmount.
Qed.
Lemma looks_reclaims managers root v {A} (p : prog A) h :
  (forall h, wpc looks_only p (fun _ _ => True) h) ->
  wpc (fun h c => mutates c = true -> reclaims managers root v h c) p (fun _ _ => True) h.
Proof. intros H. eapply wpc_looks; [apply H |]. intros h' c Hc Hm. congruence. Qed.

Section reclaim.
Context (nodeID : string) (clientset : bool) (managers : gmap string MountManager) (root v : string).
Abbreviation reclaiming := (fun h c => mutates c = true -> reclaims managers root v h c).
Abbreviation below := (fun s => mountManagers (s3SyncMgr s) ⊆ managers).

Lemma below_manager s mm : below s -> mountManagers (s3SyncMgr s) !! v = Some mm -> managers !! v = Some mm.
Proof. intros Hb Hm. by eapply lookup_weaken. Qed.

Lemma cleanup_reclaims s h :
  below s -> wpc reclaiming (cleanupS3Sync nodeID clientset v "" s) (fun _ r => below (fst r)) h.
Proof.
  intros Hb. unfold cleanupS3Sync, isBackgroundDraining, lookup_manager. do 4 wm_step.
  eapply (wpc_post _ _ (fun _ _ => True)).
  { wp_step. apply (wpc_post _ _ (fun _ _ => True)).
    - case_bool_decide; [done |]. apply looks_reclaims. intros h'. eapply wpc_post; [apply HasUnuploadedData_spec | done].
    - intros h1 [] _; [| done]. apply looks_reclaims. intros h'. eapply wpc_post; [apply force_spec | done]. }
  intros h1 [] _; cbn [fst snd].
  { unfold forceCleanupS3Sync, lookup_manager. wm_step. wm_step. eapply (wpc_post _ _ (fun _ _ => True)).
    { unfold report. destruct (negb clientset); [done |]. wp_step. eapply (wpc_post _ _ (fun _ _ => True)).
      - unfold pvcRef. destruct (negb clientset); [done |]. wp_step. eapply wpc_post; [apply looks_reclaims |].
        + intros h'. eapply wpc_post; [apply getPV_looks | done].
        + by intros h2 [p | e] _.
      - intros h2 ref _. wp_step. apply wpc_perform; [intros _; apply reclaim_report | done]. }
    intros h2 [] _. do 4 wm_step. destruct (mountManagers _ !! v) as [mm |] eqn:Em; cbn [fst snd].
    - do 2 wm_step. eapply wpc_post; [eapply reclaim_unmounts; [exact (below_manager _ _ Hb Em) | apply unmount_spec] |].
      intros h3 [mm' d] _. cbn. etrans; [apply delete_subseteq | done].
    - wm_step. cbn. etrans; [apply delete_subseteq | done]. }
  case_bool_decide as Hd; [by wm_step |].
  do 2 wm_step. destruct (mountManagers _ !! v) as [mm |] eqn:Em; cbn [fst snd].
  2: { case_bool_decide; [| done]. do 2 wm_step. by wm_step. }
  do 2 wm_step. eapply wpc_post; [eapply reclaim_unmounts; [exact (below_manager _ _ Hb Em) |] |].
  { eapply wpc_mono; [apply IsUploadQueueEmpty_spec | apply unmount_asks | exact (fun _ _ H => H)]. }
  intros h2 [] _.
  - do 2 wm_step. eapply wpc_post; [eapply reclaim_unmounts; [exact (below_manager _ _ Hb Em) | apply unmount_spec] |].
    intros h3 [mm' d] _. cbn [fst snd]. do 2 wm_step. rewrite bool_decide_eq_true_2 by done. cbn [negb].
    rewrite andb_false_r. wm_step. cbn. etrans; [apply delete_subseteq | done].
  - wm_step. unfold startBackgroundDrain, isBackgroundDraining. do 2 wm_step. rewrite bool_decide_eq_false_2 by done.
    do 4 wm_step. eapply (wpc_post _ _ (fun _ _ => True)).
    { unfold SaveDrainPending. wp_step. apply wpc_perform; [intros _; apply reclaim_mark_dir |]. intros [u | e]; [| done].
      wp_step. apply wpc_perform; [intros _; apply reclaim_mark | done]. }
    intros h3 [] _. unfold spawn. do 4 wm_step. done.
Qed.

Lemma release_reclaims h : wpc reclaiming (releaseVolumeMounts v) (fun _ _ => True) h.
Proof.
  unfold releaseVolumeMounts, mountsBackedBy, runCmdBoundedOutput. cbn [bind perform wpc].
  split; [intros _; apply reclaim_list |]. intros r. set (h1 := Ev _ r :: h).
  eapply (wpc_post _ _ (fun h' _ => h1 ⊆ h')); [| done].
  destruct r as [e | [| c | c] out err |]; cbn [wpc bind for_each]; try done.
  apply wpc_for_each; [done |]. intros t h' Ht Hs. wp_step. eapply wpc_post; [apply runCmd_guard |].
  - intros _. eapply reclaim_release, Ht. eexists _, _, _. apply Hs. by left.
  - intros h2 r2 Hs2. cbn. sub.
Qed.

Lemma reclaim_spec s h :
  below s ->
  wpc reclaiming (reclaimOrphanedVolume nodeID clientset v (path_join [root; v]) s) (fun _ r => below (fst r)) h.
Proof.
  intros Hb. unfold reclaimOrphanedVolume. wm_step. eapply wpc_post; [by apply cleanup_reclaims |].
  intros h1 [s1 u] Hb1. cbn [fst snd] in *. clear u. do 2 wm_step. eapply wpc_post; [apply release_reclaims |].
  intros h2 u _. cbn [fst snd]. clear u. do 2 wm_step. eapply wpc_post; [eapply wpc_frame; [apply cleanupVolumeStaging_spec |] |].
  { intros l c Hc _. by eapply reclaim_layers. }
  intros h3 [[] | e] (l & -> & Hl); cbn [fst snd]; [| done]. wm_step. apply wpm_ask; [| done].
  intros _. apply reclaim_dir. destruct (Hl eq_refl) as (l1 & l2 & -> & _ & Ho). rewrite <- app_assoc.
  apply (ordered_persists (mapping_gone v)); [apply evidence_persists, mapping_gone_evidence | exact Ho].
Qed.
End reclaim.


Definition orphan_world (c : call) : reply c :=
  match c return reply c with
  | CReadDir "/opt/local-path-provisioner" => Ok [DirEnt "pvc-9" true false false]
  | CStat "/opt/local-path-provisioner/pvc-9/luks-pvc-9.img" => Ok (FStat 100 false 1)
  | c => default_reply c
  end.
Example orphan_reclaimed :
  Ev (CRemoveAll "/opt/local-path-provisioner/pvc-9") (Ok tt)
    ∈ fst (run (fun _ => orphan_world) (cleanupOrphanedVolumes "n" true empty_node) []).
Proof. vm_compute. by left. Qed.

End NodeServer.
