(* ===== verification/Consumers.v ===== *)
(** * Consumers: the pods over a dead mount (pkg/driver/node_s3.go)

    Which pods hold a mount the host no longer resolves, the re-pointing of
    their binds, and the three ways of recovering one: leaving it to mount
    propagation, killing its containers, deleting it.  Go's iteration over a
    map has no order; the model takes that of [map_to_list]. *)

From Stdlib Require Import Ascii.
From S2P Require Import Prelude GoStrings Effects Luks Mounts MountManager Csi Controller.
From S2P Require Import NodeMounts NodeLuks NodeState Drain S3Live NodeServer.
Import Luks Mounts MountManager Csi K8s NodeMounts NodeLuks NodeState Drain S3Live NodeServer.

Module Consumers.

(** ** Consumer binds in the host's mount table *)

Record consumerBind : Set := ConsumerBind
  { cb_path : string; cb_podUID : string; cb_pvName : string; cb_depth : nat; cb_dev : string }.

Definition csiSegment := "/volumes/kubernetes.io~csi/".

(** The pod and PV a path under [kubeletRoot] binds a volume for. *)
Definition consumer_of_path (kubeletRoot path : string) : option (string * string) :=
  match cut_prefix (kubeletRoot +s+ "/pods/") path with
  | None => None
  | Some rest =>
      match cut csiSegment rest with
      | None => None
      | Some (podUID, rest) =>
          if bool_decide (podUID = "") || contains podUID "/" then None
          else match cut "/" rest with
          | None => None
          | Some (pvName, leaf) =>
              if negb (bool_decide (leaf = "mount")) || bool_decide (pvName = "") then None
              else Some (podUID, pvName)
          end
      end
  end.

(** The last mount of a stack; the parser makes no empty stack. *)
Definition top_of (mounts : list HostMount) : HostMount := List.last mounts {| Dev := ""; FSType := "" |}.

Definition bind_of (kubeletRoot : string) (e : string * list HostMount) : option consumerBind :=
  let '(path, mounts) := e in
  if negb (has_prefix "fuse" (FSType (top_of mounts))) then None
  else match consumer_of_path kubeletRoot path with
       | Some (podUID, pvName) => Some (ConsumerBind path podUID pvName (length mounts) (Dev (top_of mounts)))
       | None => None
       end.
Definition parseConsumerBinds (s : stacks) (kubeletRoot : string) : list consumerBind :=
  omap (bind_of kubeletRoot) (map_to_list s).

(** The devices the host resolves at some path, as a list. *)
Definition liveMountDevices (s : stacks) : list string :=
  omap (fun e : string * list HostMount =>
          if contains (fst e) "/volume-subpaths/" then None else Some (Dev (top_of (snd e)))) (map_to_list s).

Definition consumerBinds : M (option (list consumerBind * list string)) :=
  t <~ lift HostMountStacksOK ;;
  match t with
  | None => ret None
  | Some s =>
      root <~ resolveKubeletRoot ;;
      ret (Some (parseConsumerBinds s root, liveMountDevices s))
  end.

(** ** What a container still holds *)

Definition rcloneFSType := "fuse.rclone".

Definition strandedInMountInfo (mountinfo : string) (live : list string) : list string :=
  concat (map (fun e : string * list HostMount =>
    omap (fun m => if bool_decide (FSType m = rcloneFSType) && negb (bool_decide (Dev m ∈ live))
                   then Some (Dev m) else None) (snd e))
    (map_to_list (parseMountStacks mountinfo))).

Definition cgroupBelongsToPod (cgroup podUID : string) : bool :=
  contains cgroup ("pod" +s+ podUID) || contains cgroup ("pod" +s+ replace_char "-"%char "_" podUID).

Fixpoint pod_pids (podUID : string) (procs : list dirent) : prog (list Z) :=
  match procs with
  | [] => Ret []
  | e :: procs =>
      match parse_int (de_name e) with
      | None => pod_pids podUID procs
      | Some pid =>
          cgroup <- perform (CReadFile ("/proc/" +s+ de_name e +s+ "/cgroup")) ;;
          if negb (match cgroup with Ok c => cgroupBelongsToPod c podUID | Err _ => false end)
          then pod_pids podUID procs
          else
            comm <- perform (CReadFile ("/proc/" +s+ de_name e +s+ "/comm")) ;;
            if match comm with Ok c => bool_decide (trim_space c = "pause") | Err _ => false end
            then pod_pids podUID procs
            else rest <- pod_pids podUID procs ;; Ret (pid :: rest)
      end
  end.
Definition podContainerPIDs (podUID : string) : prog (list Z) :=
  r <- perform (CReadDir "/proc") ;;
  match r with Err _ => Ret [] | Ok procs => pod_pids podUID procs end.

(** A read or a stat in a goroutine of its own, given up on after a while. *)
Definition readFileBounded (path : string) (timeout : Z) : prog (result string gerr) :=
  r <- perform (CReadFileB path timeout) ;;
  Ret match r with
      | Done (Ok data) => Ok data
      | Done (Err e) => Err (errno_err e)
      | Blocked => Err (error_new ("reading " +s+ path +s+ " blocked"))
      end.
Definition statBounded (path : string) (timeout : Z) : prog (result fstat gerr) :=
  r <- perform (CStatB path timeout) ;;
  Ret match r with
      | Done (Ok st) => Ok st
      | Done (Err e) => Err (errno_err e)
      | Blocked => Err (error_new ("stat " +s+ path +s+ " blocked"))
      end.

Fixpoint stranded_of_pids (live : list string) (pids : list Z) (stranded : list string) : prog (list string) :=
  match pids with
  | [] => Ret stranded
  | pid :: pids =>
      data <- readFileBounded ("/proc/" +s+ format_int pid +s+ "/mountinfo") (5 * second) ;;
      stranded_of_pids live pids
        match data with
        | Ok d => fold_left (fun l dev => if bool_decide (dev ∈ l) then l else l ++ [dev])
                    (strandedInMountInfo d live) stranded
        | Err _ => stranded
        end
  end.
Definition containerStrandedDevices (podUID : string) (live : list string) : prog (list string) :=
  pids <- podContainerPIDs podUID ;; stranded_of_pids live pids [].

(** ** Pods of a volume *)

Section node.
(** [driver.nodeID], and whether [clientset] (hence [recorder]) is set. *)
Context (nodeID : string) (clientset : bool).

Definition resolveVolumeRefs (volumeID : string) : prog (string * string * string) :=
  if negb clientset then Ret ("", "", "")
  else
    r <- getPVByVolumeID clientset volumeID ;;
    Ret match r with
        | Ok p => match pv_claim p with Some (n, c) => (n, c, pv_name p) | None => ("", "", "") end
        | Err _ => ("", "", "")
        end.

Definition claims (pvcName : string) (v : string * option string) : bool := bool_decide (snd v = Some pvcName).

Definition podsUsingPVC (namespace pvcName : string) : prog (list pod) :=
  if negb clientset || bool_decide (namespace = "") || bool_decide (pvcName = "") then Ret []
  else
    r <- perform (CListPods namespace (Some nodeID)) ;;
    Ret match r with
        | Ok pods => List.filter (fun p => existsb (claims pvcName) (pod_volumes p)) pods
        | Err _ => []
        end.

Definition fsGroupFromPods (pods : list pod) : option Z := head (omap pod_fsgroup pods).

Definition podByUID (pods : list pod) (podUID : string) : option pod :=
  List.find (fun p => bool_decide (pod_uid p = podUID)) pods.

Definition has_propagation (volName : string) (mounts : list volume_mount) : bool :=
  existsb (fun m => bool_decide (vm_name m = volName)
    && match vm_prop m with Some HostToContainer | Some Bidirectional => true | _ => false end) mounts.

Definition podSelfHealsViaPropagation (p : pod) (pvcName : string) : bool :=
  if bool_decide (pvcName = "") then false
  else match List.find (claims pvcName) (pod_volumes p) with
       | None => false
       | Some (volName, _) =>
           if bool_decide (volName = "") then false
           else existsb (has_propagation volName) (pod_containers p)
                || existsb (has_propagation volName) (pod_init_containers p)
       end.

(** ** Deleting pods *)

Definition staleTerminationGrace : Z := 30 * second.

Definition podStuckTerminating (p : pod) (now : Z) : bool :=
  match pod_deletion p with
  | None => false
  | Some t => t + wrap64 (wrap64 (default 0 (pod_grace p) * second) + staleTerminationGrace) <? now
  end.

Definition forceDeletePod (p : pod) : prog unit :=
  perform (CEvent (PodRef (pod_uid p)) "StaleS3MountRecovery") ;;;
  perform (CDeletePod (pod_ns p) (pod_name p) (Some 0)) ;;; Ret tt.

(** The [switch] of [deletePodByUID] on the pod with that UID.  The clock is
    read where the switch gets that far. *)
Definition delete_pod (p : pod) : prog unit :=
  match pod_phase_of p with
  | PodSucceeded => Ret tt
  | phase =>
      now <- (match pod_deletion p with Some _ => perform CNow | None => Ret 0 end) ;;
      if podStuckTerminating p now then
        if pod_controlled p then forceDeletePod p else Ret tt
      else match pod_deletion p, phase with
      | Some _, _ => Ret tt
      | None, PodFailed => Ret tt
      | None, _ =>
          perform (CEvent (PodRef (pod_uid p)) "StaleS3MountRecovery") ;;;
          perform (CDeletePod (pod_ns p) (pod_name p) None) ;;; Ret tt
      end
  end.

Definition deletePodByUID (podUID : string) : prog unit :=
  if negb clientset then Ret tt
  else
    r <- perform (CListPods "" None) ;;
    match r with
    | Err _ => Ret tt
    | Ok pods => match podByUID pods podUID with Some p => delete_pod p | None => Ret tt end
    end.

Fixpoint uses_ours (namespace : string) (volumes : list (string * option string)) : prog bool :=
  match volumes with
  | [] => Ret false
  | (_, None) :: volumes => uses_ours namespace volumes
  | (_, Some claim) :: volumes =>
      c <- perform (CGetPVC namespace claim) ;;
      match c with
      | Ok c =>
          if bool_decide (pvc_volume c = "") then uses_ours namespace volumes
          else
            p <- perform (CGetPV (pvc_volume c)) ;;
            if match p with
               | Ok p => match pv_csi p with Some d => bool_decide (csi_driver d = DriverName) | None => false end
               | Err _ => false
               end
            then Ret true else uses_ours namespace volumes
      | Err _ => uses_ours namespace volumes
      end
  end.
Definition podUsesOurVolumes (p : pod) : prog bool := uses_ours (pod_ns p) (pod_volumes p).

Definition sweep_pod (p : pod) : prog unit :=
  match pod_deletion p with
  | None => Ret tt
  | Some _ =>
      now <- perform CNow ;;
      if negb (podStuckTerminating p now) then Ret tt
      else
        ours <- podUsesOurVolumes p ;;
        if negb ours || negb (pod_controlled p) then Ret tt else forceDeletePod p
  end.
Definition sweepStuckTerminatingConsumers : prog unit :=
  if negb clientset then Ret tt
  else
    r <- perform (CListPods "" (Some nodeID)) ;;
    match r with Err _ => Ret tt | Ok pods => for_each pods sweep_pod end.

(** ** Restarting containers *)

Fixpoint kill_all (pids : list Z) (killed : bool) : prog bool :=
  match pids with
  | [] => Ret killed
  | pid :: pids => r <- perform (CKill pid) ;; kill_all pids (is_ok r || killed)
  end.
Definition restartPodContainers (p : pod) : prog bool :=
  pids <- podContainerPIDs (pod_uid p) ;;
  match pids with
  | [] => Ret false
  | _ =>
      (if clientset then perform (CEvent (PodRef (pod_uid p)) "StaleS3MountRecovery") else Ret tt) ;;;
      kill_all pids false
  end.
Definition recoverConsumerPod (p : pod) : prog unit :=
  restarted <- (if pod_restart_never p then Ret false else restartPodContainers p) ;;
  if (restarted : bool) then Ret tt else deletePodByUID (pod_uid p).

(** ** Binds *)

(** [ensureStagingServing]. *)
Definition ensureStagingServing (stagingPath : string) : M (result unit gerr) :=
  ask CInvalidateMounts ;~
  live <~ lift (verifyS3StagingLive stagingPath) ;;
  match live with
  | Ok _ => ret (Ok tt)
  | Err _ =>
      id <~ lift (getVolumeIDFromVolData (path_dir stagingPath)) ;;
      (if bool_decide (id = "") then ret false else reexposeLiveSession id stagingPath) ;~
      lift (verifyS3StagingLive stagingPath)
  end.

Definition rebindConsumerMount (globalmountPath podUID pvName : string) : M bool :=
  if bool_decide (pvName = "") then ret false
  else
    root <~ resolveKubeletRoot ;;
    let targetPath := consumer_path root podUID pvName in
    st <~ ask (CStat (path_dir targetPath)) ;;
    match st with
    | Err _ => ret true
    | Ok _ =>
        cleared <~ lift (unmountHostStack targetPath) ;;
        match cleared with
        | Err _ => ret false
        | Ok _ =>
            serving <~ ensureStagingServing globalmountPath ;;
            match serving with
            | Err _ => ret false
            | Ok _ =>
                b <~ lift (bindMount globalmountPath targetPath false) ;;
                ret (is_ok b)
            end
        end
    end.

Definition unbindTerminatingConsumer (podUID pvName : string) : M unit :=
  if bool_decide (pvName = "") then ret tt
  else
    root <~ resolveKubeletRoot ;;
    let targetPath := consumer_path root podUID pvName in
    st <~ ask (CStat (path_dir targetPath)) ;;
    match st with
    | Err _ => ret tt
    | Ok _ => lift (unmountHostStack targetPath) ;~ ret tt
    end.

(** Six attempts, 250 ms apart. *)
Fixpoint healthy_loop (n : nat) (mountPath : string) (want : Z) : prog bool :=
  match n with
  | O => Ret false
  | S n =>
      got <- statBounded mountPath (5 * second) ;;
      if match got with
         | Err e => errors_is e (SErrno ENOENT)
         | Ok st => bool_decide (st_dev st = want)
         end then Ret true
      else perform (CSleep (250 * ms)) ;;; healthy_loop n mountPath want
  end.
Definition consumerMountHealthy (podUID pvName globalmountPath : string) : M bool :=
  if bool_decide (pvName = "") then ret false
  else
    root <~ resolveKubeletRoot ;;
    let mountPath := consumer_path root podUID pvName in
    d <~ lift (HostMountDepth mountPath) ;;
    if match d with Some n => (1 <? n)%nat | None => false end then ret false
    else
      want <~ lift (statBounded globalmountPath (5 * second)) ;;
      match want with
      | Ok st => lift (healthy_loop 6 mountPath (st_dev st))
      | Err _ => ret false
      end.

(** ** The last resort *)

(** A directory of a pod's CSI volumes that is of volume [v]: what is done
    with it. *)
Definition restart_volume (v podUID volumesDir : string) (e : dirent) : prog unit :=
  if negb (de_isdir e) then Ret tt
  else
    data <- perform (CReadJson (path_join [volumesDir; de_name e; "vol_data.json"])) ;;
    match data with
    | Ok (Some o) =>
        if negb (bool_decide (string_field o "volumeHandle" = Some v)) then Ret tt
        else
          let mountPath := path_join [volumesDir; de_name e; "mount"] in
          st <- perform (CLstat mountPath) ;;
          match st with
          | Err ENOENT => Ret tt
          | _ => unmountHostStack mountPath ;;; deletePodByUID podUID
          end
    | _ => Ret tt
    end.
Definition restart_pod (v podsDir : string) (e : dirent) : prog unit :=
  if negb (de_isdir e) then Ret tt
  else
    let volumesDir := path_join [podsDir; de_name e; "volumes"; "kubernetes.io~csi"] in
    r <- perform (CReadDir volumesDir) ;;
    match r with
    | Err _ => Ret tt
    | Ok vols => for_each vols (restart_volume v (de_name e) volumesDir)
    end.
Definition restartPodsWithStaleS3Mount (v : string) : M unit :=
  root <~ resolveKubeletRoot ;;
  let podsDir := root +s+ "/pods" in
  r <~ ask (CReadDir podsDir) ;;
  match r with
  | Err _ => ret tt
  | Ok entries => lift (for_each entries (restart_pod v podsDir))
  end.

(** ** The cooldown *)

Definition consumerRestartCooldown : Z := 5 * minute.

Definition registrationHealthy : M bool := gets (fun s => negb (regUnhealthy s)).

Definition consumerRestartAllowed (v : string) : M bool :=
  healthy <~ registrationHealthy ;;
  if negb healthy then ret false
  else
    last <~ gets (fun s => consumerRestartTimes (chk s) !! v) ;;
    recent <~ match last with
              | Some t => now <~ ask CNow ;; ret (now - t <? consumerRestartCooldown)
              | None => ret false
              end ;;
    if (recent : bool) then ret false
    else
      now <~ ask CNow ;;
      modify (on_restarts (insert v now)) ;~
      ret true.

(** ** Stranded consumers *)

Record stagedVolume : Set := StagedVolume
  { sv_volumeID : string; sv_globalmountPath : string; sv_pvcNamespace : string; sv_pvcName : string }.

Definition csiPluginPath (root : string) : string := root +s+ "/plugins/kubernetes.io/csi/" +s+ DriverName.

(** The staging path of every volume of the plugin directory; a later
    directory of the same volume wins. *)
Fixpoint staging_paths (plugin : string) (entries : list dirent) (m : gmap string string)
    : prog (gmap string string) :=
  match entries with
  | [] => Ret m
  | e :: entries =>
      if negb (de_isdir e) then staging_paths plugin entries m
      else
        let volumeDir := path_join [plugin; de_name e] in
        id <- getVolumeIDFromVolData volumeDir ;;
        staging_paths plugin entries
          (if bool_decide (id = "") then m else <[id := path_join [volumeDir; "globalmount"]]> m)
  end.

Definition staged_of_pv (stagingPaths : gmap string string) (p : pv) : option stagedVolume :=
  match pv_csi p with
  | None => None
  | Some d =>
      if negb (bool_decide (csi_driver d = DriverName)) then None
      else match stagingPaths !! csi_handle d with
           | None => None
           | Some path =>
               let '(n, c) := default ("", "") (pv_claim p) in
               Some (StagedVolume (csi_handle d) path n c)
           end
  end.
Definition stagedVolumesByPV : M (gmap string stagedVolume) :=
  root <~ resolveKubeletRoot ;;
  r <~ ask (CReadDir (csiPluginPath root)) ;;
  match r with
  | Err _ => ret ∅
  | Ok entries =>
      if negb clientset then ret ∅
      else
        paths <~ lift (staging_paths (csiPluginPath root) entries ∅) ;;
        pvs <~ ask CListPVs ;;
        ret match pvs with
            | Err _ => ∅
            | Ok l => fold_left (fun m p => match staged_of_pv paths p with
                                            | Some sv => <[pv_name p := sv]> m | None => m end) l ∅
            end
  end.

Definition maxStrandedRestartsPerSweep : nat := 1.

(** The binds to repair, each with the stale devices its pod holds. *)
Fixpoint broken_binds (live : list string) (binds : list consumerBind)
    : prog (list (consumerBind * list string)) :=
  match binds with
  | [] => Ret []
  | b :: binds =>
      stranded <- containerStrandedDevices (cb_podUID b) live ;;
      rest <- broken_binds live binds ;;
      Ret (if (1 <? cb_depth b)%nat || negb (bool_decide (stranded = [])) then (b, stranded) :: rest else rest)
  end.

(** The re-read after a re-bind: whether propagation carried it into the pod. *)
Definition picked_up (podUID : string) : M bool :=
  ask CInvalidateMounts ;~
  again <~ consumerBinds ;;
  match again with
  | None => ret false
  | Some (_, live) => l <~ lift (containerStrandedDevices podUID live) ;; ret (bool_decide (l = []))
  end.

(** One bind; whether its pod was restarted. *)
Definition repair_bind (staged : gmap string stagedVolume) (restarts : nat) (b : consumerBind)
    (stranded : list string) : M bool :=
  match staged !! cb_pvName b with
  | None => ret false
  | Some sv =>
      setup <~ isVolumeSetupInProgress (sv_volumeID sv) ;;
      draining <~ isBackgroundDraining (sv_volumeID sv) ;;
      if (setup : bool) || (draining : bool) then ret false
      else
        consumers <~ lift (podsUsingPVC (sv_pvcNamespace sv) (sv_pvcName sv)) ;;
        match podByUID consumers (cb_podUID b) with
        | None => ret false
        | Some p =>
            if bool_decide (is_Some (pod_deletion p)) then ret false
            else
              rebound <~ rebindConsumerMount (sv_globalmountPath sv) (cb_podUID b) (cb_pvName b) ;;
              if negb rebound || bool_decide (stranded = []) then ret false
              else
                healed <~ picked_up (cb_podUID b) ;;
                if (healed : bool) || (maxStrandedRestartsPerSweep <=? restarts)%nat then ret false
                else
                  allowed <~ consumerRestartAllowed (sv_volumeID sv) ;;
                  if negb allowed then ret false
                  else lift (recoverConsumerPod p) ;~ ret true
        end
  end.
Fixpoint repair_binds (staged : gmap string stagedVolume) (restarts : nat)
    (todo : list (consumerBind * list string)) : M unit :=
  match todo with
  | [] => ret tt
  | (b, stranded) :: todo =>
      restarted <~ repair_bind staged restarts b stranded ;;
      repair_binds staged (if (restarted : bool) then S restarts else restarts) todo
  end.

Definition repairStrandedConsumers : M unit :=
  c <~ consumerBinds ;;
  match c with
  | None => ret tt
  | Some (binds, live) =>
      todo <~ lift (broken_binds live binds) ;;
      match todo with
      | [] => ret tt
      | _ => staged <~ stagedVolumesByPV ;; repair_binds staged 0 todo
      end
  end.

End node.

(** * What the parts may do *)

(** Calls that touch no pod and run no command. *)
Definition harmless (c : call) : Prop :=
  match c with CExec _ _ _ | CKill _ | CDeletePod _ _ _ => False | _ => True end.
(** Calls that touch no pod. *)
Definition spares_pods (c : call) : Prop :=
  match c with CKill _ | CDeletePod _ _ _ => False | _ => True end.

Lemma harmless_spares c : harmless c -> spares_pods c.
Proof. by destruct c. Qed.

Ltac harmless := only_with ltac:(exact I).

Lemma RPC_harmless m params t : only harmless (Rpc.Rpc.RPCWithTimeout m params t).
Proof. unfold Rpc.Rpc.RPCWithTimeout, Rpc.Rpc.callLibrclone, Rpc.Rpc.sanitize. harmless. Qed.
#[local] Hint Resolve RPC_harmless : only.
Lemma unbind_loop_harmless n p : only harmless (unbind_loop n p).
Proof. induction n as [| n IH]; cbn [unbind_loop]; unfold Session.Session.unmountBounded; harmless. Qed.
Lemma expose_loop_harmless n mm dev d : only harmless (expose_loop n mm dev d).
Proof.
  induction n as [| n IH]; cbn [expose_loop]; unfold mountUsable, HostMountStacksOK, Session.Session.readDirBounded; harmless.
Qed.
#[local] Hint Resolve unbind_loop_harmless expose_loop_harmless : only.
Lemma Reexpose_harmless mm : only harmless (Reexpose mm).
Proof.
  unfold Reexpose, Session.Session.mountedDevice, unbindStaging, expose, Session.Session.bindBounded. harmless.
Qed.
Lemma SessionServing_harmless mm : only harmless (SessionServing mm).
Proof.
  unfold SessionServing, Session.Session.liveSessions, countRegisteredVFS, RegisteredVFSNames,
    Session.Session.mountedDevice, Session.Session.readDirBounded. harmless.
Qed.
#[local] Hint Resolve Reexpose_harmless SessionServing_harmless : only.
Lemma reexpose_harmless v p : monly harmless (reexposeLiveSession v p).
Proof. unfold reexposeLiveSession, lookup_manager. monly_with ltac:(exact I). Qed.
#[local] Hint Resolve reexpose_harmless : only.
Lemma verify_harmless p : only harmless (verifyS3StagingLive p).
Proof. unfold verifyS3StagingLive, HostFUSEMountState, HostMountsOK, HostMountStacksOK, statfsBounded. harmless. Qed.
#[local] Hint Resolve verify_harmless : only.

Lemma ensureStagingServing_harmless p : monly harmless (ensureStagingServing p).
Proof. unfold ensureStagingServing, getVolumeIDFromVolData. monly_with ltac:(exact I). Qed.

(** ** Re-binding *)

(** The mount table was read with nothing mounted at [path]. *)
Definition was_clear (path : string) (h : history) : Prop :=
  exists t, Ev CHostMounts (Some t) ∈ h /\ stack_depth t path = 0%nat.

(** The commands of a bind mount. *)
Definition bind_cmds (src target : string) (c : call) : Prop :=
  c = CExec (Some (60 * second)) "" (host_cmd_u ["mkdir"; "-p"; target])
  \/ c = CExec (Some (60 * second)) "" (host_cmd_u ["mount"; "--bind"; src; target])
  \/ c = CExec (Some (60 * second)) "" ["mount"; "-o"; "remount,ro"; target].

(** The session of [mm] was read. *)
Definition session_answered (mm : MountManager) (h : history) : Prop :=
  exists n t r, Ev (CReadDirRawB (sessionPath mm) n t) (Done (Ok r)) ∈ h.

(** What exposes a session again: rclone is asked what it serves, and the
    session, once it answered, takes the place of what is mounted at its
    staging path. *)
Definition asks_sessions (c : call) : Prop :=
  match c with
  | CRpc m _ _ => m = "mount/listmounts" \/ m = "vfs/list"
  | CDiverge _ => True
  | c => mutates c = false
  end.
Definition exposes (mm : MountManager) (c : call) : Prop :=
  match c with
  | CBindB src dst _ => src = sessionPath mm /\ dst = mountPoint mm
  | CUnmountB p _ _ => p = mountPoint mm
  | c => asks_sessions c
  end.

(** Every call that changes something: the kubelet root is resolved; what is
    mounted at [target] is unmounted; a manager of [src] exposes its session
    there again, and [src] is bound to [target], only once [target] was seen
    clear; the session having answered, and [src] having been seen live. *)
Definition rebind_guard (managers : gmap string MountManager) (src target : string) (h : history) (c : call) : Prop :=
  mutates c = false \/ (exists b i, c = CExec b i (host_cmd_u ["readlink"; "-f"; DefaultKubeletRoot]))
  \/ unmounts_only target h c
  \/ asks_sessions c
  \/ (exists v mm, managers !! v = Some mm /\ mountPoint mm = src /\ exposes mm c
        /\ was_clear target h /\ session_answered mm h)
  \/ (bind_cmds src target c /\ was_clear target h /\ seen_live src h).

Lemma was_clear_mono path h h' : h ⊆ h' -> was_clear path h -> was_clear path h'.
Proof. intros Hs (t & Ht & Hd). exists t. auto. Qed.

Lemma RPC_asks m params t :
  m = "mount/listmounts" \/ m = "vfs/list" -> only asks_sessions (Rpc.Rpc.RPCWithTimeout m params t).
Proof. intros Hm. unfold Rpc.Rpc.RPCWithTimeout, Rpc.Rpc.callLibrclone, Rpc.Rpc.sanitize. only_with ltac:(done). Qed.
#[local] Hint Extern 1 (only asks_sessions (Rpc.Rpc.RPCWithTimeout _ _ _)) => apply RPC_asks; auto : only.
Lemma SessionServing_asks mm : only asks_sessions (SessionServing mm).
Proof.
  unfold SessionServing, Session.Session.liveSessions, countRegisteredVFS, RegisteredVFSNames,
    Session.Session.mountedDevice, Session.Session.readDirBounded. only_with ltac:(cbn; auto).
Qed.
Lemma SessionServing_read mm h :
  wpc anything (SessionServing mm) (fun h' b => b = true -> session_answered mm h') h.
Proof.
  unfold SessionServing. case_bool_decide; [done |]. wp_step. eapply wpc_post; [apply wpc_trivial |].
  intros h1 [l |] _; [| done]. case_bool_decide; cbn [negb]; [| done]. wp_step. eapply wpc_post; [apply wpc_trivial |].
  intros h2 [[| [| n]] |] _; try done. wp_step. eapply wpc_post; [apply wpc_trivial |].
  intros h3 [[dev []] | e] _; try done. unfold Session.Session.readDirBounded. do 2 wp_step. apply wpc_perform; [done |].
  intros [[r | e] |]; cbn; try done. intros _. eexists _, _, r. by left.
Qed.
Lemma Reexpose_exposes mm : only (exposes mm) (Reexpose mm).
Proof.
  assert (Hu : forall n, only (exposes mm) (unbind_loop n (mountPoint mm))).
  { induction n as [| n IH]; cbn [unbind_loop]; unfold Session.Session.unmountBounded; only_with ltac:(done). }
  assert (He : forall n dev d, only (exposes mm) (expose_loop n mm dev d)).
  { induction n as [| n IH]; intros dev d; cbn [expose_loop]; unfold mountUsable, HostMountStacksOK, Session.Session.readDirBounded;
      only_with ltac:(done). }
  unfold Reexpose, Session.Session.mountedDevice, unbindStaging, expose, Session.Session.bindBounded. only_with ltac:(done).
Qed.

Lemma resolve_spec (G : history -> call -> Prop) s h :
  (forall h c, (exists b i, c = CExec b i (host_cmd_u ["readlink"; "-f"; DefaultKubeletRoot])) -> G h c) ->
  wpc G (resolveKubeletRoot s) (fun h' r => h ⊆ h' /\ r = (set_root (snd r) s, snd r) \/ h' = h /\ r = (s, snd r)) h.
Proof.
  intros HG. unfold resolveKubeletRoot. do 2 wm_step. destruct (kubeletRootCache s) as [r |]; [by right |].
  do 2 wm_step. unfold runCmdBoundedOutput. wp_step. apply wpc_perform; [apply HG; eauto |].
  intros r. cbn [wpc fst snd]. do 2 wm_step. wm_step. left. split; [sub | done].
Qed.

Lemma wpc_with_only {A} (P : call -> Prop) (p : prog A) Q h :
  only P p -> wpc anything p Q h -> wpc (fun _ => P) p Q h.
Proof. intros Hp Hq. eapply wpc_mono; [by apply wpc_only | by intros ? ? [] | by intros ? ? []]. Qed.

Lemma bindMount_only src target ro : only (bind_cmds src target) (bindMount src target ro).
Proof.
  unfold bindMount, runCmdBounded, runCmdBoundedOutput. only_with ltac:(unfold bind_cmds; auto).
Qed.
Lemma bindMount_ok src target ro h :
  wpc anything (bindMount src target ro)
    (fun h' r => is_ok r = true -> exec_ok (host_cmd_u ["mount"; "--bind"; src; target]) h') h.
Proof.
  unfold bindMount. wp_step. eapply wpc_post; [by apply runCmd_spec |].
  intros h1 [[] | e] _; cbn [wpc]; [| by intros [=]]. wp_step. eapply wpc_post; [by apply runCmd_spec |].
  intros h2 [[] | e] [_ Hb]; cbn [wpc]; [| by intros [=]]. destruct ro; [| by cbn; intros _]. wp_step.
  eapply wpc_post; [by apply runCmd_spec |]. intros h3 [[] | e] [Hs _]; cbn; [| done]. intros _. by eapply exec_ok_mono.
Qed.

Lemma reexpose_rebinds v src target s h :
  was_clear target h ->
  wpc (rebind_guard (mountManagers (s3SyncMgr s)) src target) (reexposeLiveSession v src s) (fun h' _ => h ⊆ h') h.
Proof.
  intros Hc. unfold reexposeLiveSession, lookup_manager. do 2 wm_step.
  destruct (mountManagers (s3SyncMgr s) !! v) as [mm |] eqn:Em; cbn [fst snd]; [| by wm_step].
  case_bool_decide as Hm; cbn [negb]; [| by wm_step]. do 2 wm_step.
  eapply wpc_mono; [eapply wpc_extends, wpc_only; [apply SessionServing_asks | apply SessionServing_read] | |].
  { intros h1 c [_ H1]. do 3 right. by left. }
  intros h1 [] (H1 & _ & Ha); cbn [fst snd negb]; [| by wm_step]. specialize (Ha eq_refl). do 2 wm_step.
  eapply wpc_mono; [eapply wpc_only; [apply Reexpose_exposes | apply wpc_trivial] | |].
  { intros h2 c [H2%since_subset Hx]. do 4 right. left. exists v, mm. do 3 (split; [done |]).
    split; [eapply was_clear_mono, Hc; by etrans |]. destruct Ha as (n & t & r & Ha). exists n, t, r. auto. }
  intros h2 [u | e] [H2%since_subset _]; cbn [fst snd]; [| wm_step; by etrans].
  wm_step. apply wpm_ask; [by left |]. intros now. repeat wm_step. etrans; [exact H1 |]. etrans; [exact H2 |]. sub.
Qed.

Lemma volData_looks dir h : wpc looks_only (getVolumeIDFromVolData dir) (fun h' _ => h ⊆ h') h.
Proof. unfold getVolumeIDFromVolData. wp_step. apply wpc_perform; [done |]. intros r. sub. Qed.

Lemma ensureStagingServing_rebinds src target s h :
  was_clear target h ->
  wpc (rebind_guard (mountManagers (s3SyncMgr s)) src target) (ensureStagingServing src s)
    (fun h' r => h ⊆ h' /\ (is_ok (snd r) = true -> seen_live src h')) h.
Proof.
  intros Hc. unfold ensureStagingServing. wm_step. apply wpm_ask; [by left |]. intros u. cbn [fst snd]. do 2 wm_step.
  eapply wpc_mono; [apply verify_spec | by left |]. intros h1 [[] | e] [H1 Hl]; cbn [fst snd].
  { wm_step. split; [sub | auto]. }
  do 2 wm_step. eapply wpc_mono; [apply volData_looks | by left |]. intros h2 id H2. cbn [fst snd]. wm_step.
  eapply (wpc_post _ _ (fun h' _ => h2 ⊆ h')).
  { case_bool_decide; [by wm_step |]. eapply wpc_post; [apply reexpose_rebinds | done].
    eapply was_clear_mono, Hc. sub. }
  intros h3 [s3 b] H3. cbn [fst snd]. wm_step. eapply wpc_mono; [apply verify_spec | by left |].
  intros h4 r [H4 Hr]. cbn [fst snd]. split; [sub | done].
Qed.

(** C25: A consumer is re-pointed only at a live mount, over a clear path.
    Whatever the host answers, [rebindConsumerMount] changes the host only in
    these ways: it asks where the kubelet's root is; it unmounts that pod's own
    mount path; and, once a mount table was read with nothing left stacked
    there, a manager whose staging path this is may take down what is mounted
    at the staging path and bind its session to it, when that session was read
    after rclone was asked for its sessions; and the staging path is bound to
    the pod's mount path (which is made before), when the staging path was seen
    to serve as a FUSE mount.  Success means that this last bind was made, or
    that the pod is not published here. *)
Theorem rebind_clear_and_live env staging podUID pvName s :
  let target := consumer_path (snd (snd (run env (resolveKubeletRoot s) []))) podUID pvName in
  let '(h, (_, r)) := run env (rebindConsumerMount staging podUID pvName s) [] in
  hist_ok (rebind_guard (mountManagers (s3SyncMgr s)) staging target) h
  /\ (r = true -> (exists e, Ev (CStat (path_dir target)) (Err e) ∈ h)
      \/ exec_ok (host_cmd_u ["mount"; "--bind"; staging; target]) h).
Proof.
  unfold rebindConsumerMount. case_bool_decide; [by cbn |]. unfold mbind at 1. rewrite run_bind.
  set (target := consumer_path _ _ _). set (G := rebind_guard _ staging target).
  assert (Hr : hist_ok G (fst (run env (resolveKubeletRoot s) []))).
  { eapply wpc_run; [apply resolve_spec | done]. intros h c Hc. right. by left. }
  assert (Hs1 : mountManagers (s3SyncMgr (fst (snd (run env (resolveKubeletRoot s) [])))) = mountManagers (s3SyncMgr s)).
  { pose proof (wpc_run_post env (resolveKubeletRoot s) _ [] (resolve_spec anything s [] (fun _ _ _ => I))) as [[_ E] | [_ E]]; by rewrite E. }
  destruct (run env (resolveKubeletRoot s) []) as [h1 [s1 root]]. cbn [fst snd] in *.
  match goal with |- context [run env ?p h1] =>
    pose proof (wpc_run env G p (fun h r =>
      snd r = true -> (exists e, Ev (CStat (path_dir target)) (Err e) ∈ h)
      \/ exec_ok (host_cmd_u ["mount"; "--bind"; staging; target]) h) h1) as Hrun end.
  destruct (run env _ h1) as [h [s' r]]. apply Hrun; [clear Hrun | done]. fold target.
  wm_step. apply wpm_ask; [by left |]. intros r0. destruct r0 as [st | e]; cbn [fst snd]; [| wm_step; intros _; left; exists e; by left].
  do 2 wm_step. eapply wpc_post; [apply unmount_stack_spec; by right; right; left |].
  intros h2 [[] | e] [H2 Hu]; cbn [fst snd]; [| done]. destruct (Hu eq_refl) as (t & h2' & -> & Hd).
  assert (Hc : was_clear target (Ev CHostMounts (Some t) :: h2')) by (exists t; split; [by left | done]).
  wm_step. unfold G. rewrite <- Hs1. eapply wpc_post; [by apply ensureStagingServing_rebinds |].
  intros h3 [s3 [[] | e]] [H3 Hl]; cbn [fst snd] in *; [| done]. specialize (Hl eq_refl).
  do 2 wm_step. eapply wpc_mono; [eapply wpc_only; [apply bindMount_only | apply (bindMount_ok _ _ _ h3)] | |].
  - intros h4 c [H4%since_subset Hb]. do 5 right. split; [done |].
    split; [eapply was_clear_mono, Hc; by etrans | by eapply seen_live_mono].
  - intros h4 rb [_ Hb]. cbn. intros Hok. right. by apply Hb.
Qed.

(** ** Killing and deleting *)

(** Process [pid] was seen in the cgroup of pod [uid], and not to be its pause
    process. *)
Definition pod_process (uid : string) (pid : Z) (h : history) : Prop :=
  exists name text r, parse_int name = Some pid
  /\ Ev (CReadFile ("/proc/" +s+ name +s+ "/cgroup")) (Ok text) ∈ h /\ cgroupBelongsToPod text uid = true
  /\ Ev (CReadFile ("/proc/" +s+ name +s+ "/comm")) r ∈ h /\ forall comm, r = Ok comm -> trim_space comm <> "pause".

(** Pod [q] may be deleted with grace period [grace]: a normal delete only of
    one that is neither terminating nor finished, a forced one only of one a
    controller recreates and that was seen past its deadline. *)
Definition deletable (q : pod) (grace : option Z) (h : history) : Prop :=
  match grace with
  | None => pod_deletion q = None /\ pod_phase_of q <> PodSucceeded /\ pod_phase_of q <> PodFailed
  | Some g => g = 0 /\ pod_controlled q = true
      /\ exists now, Ev CNow now ∈ h /\ podStuckTerminating q now = true
  end.

Definition deletes_only (uid : string) (h : history) (c : call) : Prop :=
  match c with
  | CDeletePod ns name grace =>
      exists pods q, Ev (CListPods "" None) (Ok pods) ∈ h /\ q ∈ pods /\ pod_uid q = uid
        /\ pod_ns q = ns /\ pod_name q = name /\ deletable q grace h
  | CEvent _ _ => True
  | c => mutates c = false
  end.

Lemma find_elem {A} (f : A -> bool) l x : List.find f l = Some x -> x ∈ l /\ f x = true.
Proof. intros H%List.find_some. by rewrite list_elem_of_In. Qed.

Lemma deletePodByUID_spec clientset uid h :
  wpc (deletes_only uid) (deletePodByUID clientset uid) (fun _ _ => True) h.
Proof.
  unfold deletePodByUID. destruct clientset; cbn [negb]; [| done].
  wp_step. apply wpc_perform; [done |]. intros [pods | e]; [| done].
  unfold podByUID. destruct (List.find _ pods) as [q |] eqn:Hf; [| done].
  apply find_elem in Hf as [Hq Hu]. bools. unfold delete_pod, forceDeletePod.
  assert (Hdel : forall grace h', Ev (CListPods "" None) (Ok pods) :: h ⊆ h' -> deletable q grace h' ->
    deletes_only uid h' (CDeletePod (pod_ns q) (pod_name q) grace)).
  { intros grace h' Hs Hd. exists pods, q. split; [apply Hs; by left | done]. }
  set (h0 := Ev _ _ :: h) in *.
  assert (Hgo : forall phase, pod_phase_of q = phase -> phase <> PodSucceeded ->
    wpc (deletes_only uid)
      (now <- (match pod_deletion q with Some _ => perform CNow | None => Ret 0 end) ;;
       if podStuckTerminating q now then (if pod_controlled q then forceDeletePod q else Ret tt)
       else match pod_deletion q, phase with
            | Some _, _ | None, PodFailed => Ret tt
            | None, _ => perform (CEvent (PodRef (pod_uid q)) "StaleS3MountRecovery") ;;;
                         perform (CDeletePod (pod_ns q) (pod_name q) None) ;;; Ret tt
            end) (fun _ _ => True) h0).
  { intros phase Hp Hns. wp_step. destruct (pod_deletion q) as [t |] eqn:Hdt.
    - apply wpc_perform; [done |]. intros now. destruct (podStuckTerminating q now) eqn:Hst; [| done].
      destruct (pod_controlled q) eqn:Hc; [| done]. unfold forceDeletePod. do 3 wp_step.
      apply wpc_perform; [| done]. apply Hdel; [sub |]. split; [done |]. split; [done |].
      exists now. split; [right; by left | done].
    - cbn [wpc]. unfold podStuckTerminating. rewrite Hdt.
      destruct phase; try done; do 3 wp_step; (apply wpc_perform; [| done]); (apply Hdel; [sub |]); unfold deletable; by rewrite Hp. }
  destruct (pod_phase_of q); [| done | |].
  - exact (Hgo PodRunning eq_refl ltac:(discriminate)).
  - exact (Hgo PodFailed eq_refl ltac:(discriminate)).
  - exact (Hgo PodOther eq_refl ltac:(discriminate)).
Qed.

Lemma pod_process_mono uid pid h h' : h ⊆ h' -> pod_process uid pid h -> pod_process uid pid h'.
Proof. intros Hs (n & t & r & H1 & H2 & H3 & H4 & H5). exists n, t, r. auto 6. Qed.

Lemma pod_pids_spec uid procs h :
  wpc looks_only (pod_pids uid procs) (fun h' l => h ⊆ h' /\ Forall (fun pid => pod_process uid pid h') l) h.
Proof.
  revert h. induction procs as [| e procs IH]; intros h; cbn [pod_pids]; [by split; [| constructor] |].
  destruct (parse_int (de_name e)) as [pid |] eqn:Hp; [| apply IH].
  wp_step. apply wpc_perform; [done |]. intros cg.
  assert (Hrec : forall h0, h ⊆ h0 -> wpc looks_only (pod_pids uid procs)
    (fun h' l => h ⊆ h' /\ Forall (fun pid => pod_process uid pid h') l) h0).
  { intros h0 H0. eapply wpc_post; [apply IH |]. intros h' l [Hs Hl]. split; [sub | done]. }
  destruct cg as [text |]; cbn [negb]; [| apply Hrec; sub].
  destruct (cgroupBelongsToPod text uid) eqn:Hc; cbn [negb]; [| apply Hrec; sub].
  wp_step. apply wpc_perform; [done |]. intros cm.
  destruct (match cm with Ok c => bool_decide (trim_space c = "pause") | Err _ => false end) eqn:Hpause; [apply Hrec; sub |].
  wp_step. eapply wpc_post; [apply wpc_extends, Hrec; sub |]. intros h1 l [Hs1 [Hs Hl]]. cbn [wpc].
  split; [done |]. constructor; [| done]. exists (de_name e), text, cm.
  repeat split; try done; [apply Hs1; right; by left | apply Hs1; by left |].
  intros comm ->. by bools.
Qed.

(** What the recovery of pod [p] may do: kill its own processes, if they are
    restarted; delete it, when it may be; report. *)
Definition recovery_guard (p : pod) (h : history) (c : call) : Prop :=
  match c with
  | CKill pid => pod_restart_never p = false /\ pod_process (pod_uid p) pid h
  | c => deletes_only (pod_uid p) h c
  end.

Lemma kill_all_spec p pids killed h :
  pod_restart_never p = false -> Forall (fun pid => pod_process (pod_uid p) pid h) pids ->
  wpc (recovery_guard p) (kill_all pids killed) (fun _ _ => True) h.
Proof.
  intros Hr. revert killed h. induction pids as [| pid pids IH]; intros killed h Hp; [done |].
  apply list.Forall_cons in Hp as [Hp Hps]. cbn [kill_all]. wp_step. apply wpc_perform; [by split |].
  intros r. apply IH. eapply list.Forall_impl; [exact Hps |]. intros x. apply pod_process_mono. sub.
Qed.

Lemma recoverConsumerPod_spec clientset p h :
  wpc (recovery_guard p) (recoverConsumerPod clientset p) (fun _ _ => True) h.
Proof.
  assert (Hd : forall h, wpc (recovery_guard p) (deletePodByUID clientset (pod_uid p)) (fun _ _ => True) h).
  { intros h0. eapply wpc_mono; [apply deletePodByUID_spec | | done]. by intros ? []. }
  unfold recoverConsumerPod. wp_step. apply (wpc_post _ _ (fun _ _ => True)); [| by intros ? [] _].
  destruct (pod_restart_never p) eqn:Hr; [done |]. unfold restartPodContainers, podContainerPIDs. do 2 wp_step.
  apply wpc_perform; [done |]. intros [procs | e]; cbn [wpc]; [| done].
  eapply wpc_mono; [apply pod_pids_spec | |].
  { intros h0 c Hc. unfold looks_only in Hc. by destruct c. }
  intros h1 [| pid pids] [_ Hl]; [done |]. wp_step.
  apply (wpc_post _ _ (fun h' _ => h1 ⊆ h')).
  { destruct clientset; [| by cbn]. apply wpc_perform; [done |]. intros u. sub. }
  intros h2 [] Hs. apply kill_all_spec; [done |].
  eapply list.Forall_impl; [exact Hl |]. intros x. by apply pod_process_mono.
Qed.

(** Recovering a consumer touches that pod alone.  Whatever /proc and the
    API server answer, [recoverConsumerPod] kills only processes it read in
    that pod's cgroup, never its pause process, and none at all of a pod whose
    containers are not restarted; it deletes only the pod with that UID, and
    that one only when it is neither finished nor already terminating, or, by
    force, when it is past its termination deadline and has a controller to
    recreate it. *)
Theorem recovery_touches_one_pod env clientset p :
  hist_ok (recovery_guard p) (fst (run env (recoverConsumerPod clientset p) [])).
Proof. by eapply wpc_run; [apply recoverConsumerPod_spec |]. Qed.

(** ** The sweep of stuck pods *)

(** A claim of pod [q] was seen bound to a PV of this driver. *)
Definition ours (q : pod) (h : history) : Prop :=
  exists volume claim c v d, (volume, Some claim) ∈ pod_volumes q
  /\ Ev (CGetPVC (pod_ns q) claim) (Ok c) ∈ h /\ Ev (CGetPV (pvc_volume c)) (Ok v) ∈ h
  /\ pv_csi v = Some d /\ csi_driver d = DriverName.

Definition stuck_guard (nodeID : string) (h : history) (c : call) : Prop :=
  match c with
  | CDeletePod ns name grace =>
      exists pods q, Ev (CListPods "" (Some nodeID)) (Ok pods) ∈ h /\ q ∈ pods
        /\ pod_ns q = ns /\ pod_name q = name /\ grace = Some 0 /\ deletable q grace h /\ ours q h
  | CEvent _ _ => True
  | c => mutates c = false
  end.

Lemma uses_ours_spec q vols h :
  vols ⊆ pod_volumes q ->
  wpc looks_only (uses_ours (pod_ns q) vols) (fun h' b => h ⊆ h' /\ (b = true -> ours q h')) h.
Proof.
  revert h. induction vols as [| [volume [claim |]] vols IH]; intros h Hv; cbn [uses_ours]; [by split | |].
  2: { apply IH. intros x Hx. apply Hv. by right. }
  assert (Hrec : forall h0, h ⊆ h0 -> wpc looks_only (uses_ours (pod_ns q) vols)
    (fun h' b => h ⊆ h' /\ (b = true -> ours q h')) h0).
  { intros h0 H0. eapply wpc_post; [apply IH; intros x Hx; apply Hv; by right |]. intros h' b [Hs Hb]. split; [sub | done]. }
  wp_step. apply wpc_perform; [done |]. intros [c | e]; [| apply Hrec; sub].
  case_bool_decide; [apply Hrec; sub |]. wp_step. apply wpc_perform; [done |]. intros [v | e]; [| apply Hrec; sub].
  destruct (pv_csi v) as [d |] eqn:Hd; [| apply Hrec; sub]. case_bool_decide as Hdr; [| apply Hrec; sub].
  cbn [wpc]. split; [sub |]. intros _. exists volume, claim, c, v, d.
  repeat split; try done; [apply Hv; by left | right; by left | by left].
Qed.

(** Only stuck consumers of this driver are deleted by force.  Whatever the
    API server answers, the sweep deletes no pod but one that was listed on
    this node, has been terminating past its grace period and 30 s more, has a
    controller to recreate it, and has a claim seen bound to a PV of this
    driver; and it deletes it with grace 0. *)
Theorem forced_deletes_only_stuck env nodeID clientset :
  hist_ok (stuck_guard nodeID) (fst (run env (sweepStuckTerminatingConsumers nodeID clientset) [])).
Proof.
  eapply wpc_run; [| done]. instantiate (1 := fun _ _ => True).
  unfold sweepStuckTerminatingConsumers. destruct clientset; cbn [negb]; [| done].
  wp_step. apply wpc_perform; [done |]. intros [pods | e]; [| done].
  eapply wpc_post; [apply (wpc_for_each _ _ _ (fun h => Ev (CListPods "" (Some nodeID)) (Ok pods) ∈ h)); [by left |] | done].
  intros q h Hq Hl. unfold sweep_pod. destruct (pod_deletion q) as [t |] eqn:Ht; [| done].
  wp_step. apply wpc_perform; [done |]. intros now.
  destruct (podStuckTerminating q now) eqn:Hst; cbn [negb]; [| by right].
  unfold podUsesOurVolumes. wp_step. eapply wpc_mono; [by apply uses_ours_spec | |].
  { intros h0 c Hc. unfold looks_only in Hc. by destruct c. }
  intros h1 b [Hs Ho]. destruct b; cbn [negb orb]; [| by apply Hs; right].
  destruct (pod_controlled q) eqn:Hc; cbn [negb]; [| by apply Hs; right].
  unfold forceDeletePod. do 3 wp_step.
  apply wpc_perform; [| intros r2; cbn; do 2 right; apply Hs; by right].
  destruct (Ho eq_refl) as (vo & cl & c & v & d & H1 & H2 & H3 & H4 & H5).
  exists pods, q. repeat split; try done; [right; apply Hs; by right | |].
  - exists now. split; [right; apply Hs; by left | done].
  - exists vo, cl, c, v, d. repeat split; try done; by right.
Qed.

(** ** Whose mount is whose *)

(** A path component. *)
Definition component (x : string) : Prop := x <> "" /\ mem_char "/"%char x = false.

Lemma contains_char c x : contains x (String c "") = mem_char c x.
Proof.
  unfold contains. destruct (mem_char c x) eqn:E; [| by rewrite cut_no_char].
  destruct (cut (String c "") x) as [[] |] eqn:E2; [done |]. apply Rpc.Rpc.cut_char_contains in E2. congruence.
Qed.

Lemma consumer_of_path_exact root path podUID pvName :
  consumer_of_path root path = Some (podUID, pvName)
  <-> component podUID /\ component pvName
      /\ path = root +s+ "/pods/" +s+ podUID +s+ "/volumes/kubernetes.io~csi/" +s+ pvName +s+ "/mount".
Proof.
  unfold consumer_of_path, csiSegment, component. split.
  - destruct (cut_prefix _ path) as [rest |] eqn:E1; [| done]. apply cut_prefix_Some in E1 as ->.
    destruct (cut _ rest) as [[u rest2] |] eqn:E2; [| done]. apply cut_Some in E2 as ->.
    destruct (_ || _) eqn:E3; [done |]. bools. rewrite contains_char in *.
    destruct (cut "/" rest2) as [[v leaf] |] eqn:E4; [| done].
    destruct (_ || _) eqn:E5; [done |]. bools. intros [= -> ->].
    pose proof (cut_char_before _ _ _ _ E4) as Hv. apply cut_Some in E4 as ->.
    subst leaf. split; [done |]. split; [done |]. by rewrite !sapp_assoc.
  - intros ([Hu1 Hu2] & [Hv1 Hv2] & ->).
    replace (root +s+ "/pods/" +s+ _) with ((root +s+ "/pods/") +s+ podUID +s+ "/volumes/kubernetes.io~csi/" +s+ pvName +s+ "/mount")
      by (by rewrite !sapp_assoc).
    rewrite cut_prefix_app, (cut_first_char "/"%char "volumes/kubernetes.io~csi/") by done.
    rewrite contains_char, Hu2, bool_decide_eq_false_2 by done. cbn [orb].
    change (pvName +s+ "/mount") with (pvName +s+ "/" +s+ "mount").
    rewrite (cut_first_char "/"%char "" pvName "mount") by done.
    by rewrite bool_decide_eq_true_2, bool_decide_eq_false_2.
Qed.

Lemma bind_of_exact root p mounts b :
  bind_of root (p, mounts) = Some b
  <-> has_prefix "fuse" (FSType (top_of mounts)) = true /\ component (cb_podUID b) /\ component (cb_pvName b)
      /\ cb_path b = p /\ cb_depth b = length mounts /\ cb_dev b = Dev (top_of mounts)
      /\ p = root +s+ "/pods/" +s+ cb_podUID b +s+ "/volumes/kubernetes.io~csi/" +s+ cb_pvName b +s+ "/mount".
Proof.
  unfold bind_of. destruct (has_prefix "fuse" _) eqn:Hf; cbn [negb]; [| by split; [| intros []]].
  destruct (consumer_of_path root p) as [[u v] |] eqn:Hc.
  - apply consumer_of_path_exact in Hc as Hx. destruct Hx as (Hu & Hv & Hp). split.
    + intros [= <-]. done.
    + destruct b as [q u' v' d dev]; cbn. intros (_ & Hu' & Hv' & -> & -> & -> & Hp').
      pose proof (proj2 (consumer_of_path_exact root p u' v') (conj Hu' (conj Hv' Hp'))). congruence.
  - split; [done |]. intros (_ & Hu & Hv & _ & _ & _ & Hp).
    rewrite (proj2 (consumer_of_path_exact root p _ _) (conj Hu (conj Hv Hp))) in Hc. done.
Qed.

(** Which mounts are a consumer's, and which of them are dead.  A bind is
    listed exactly for the paths <root>/pods/<uid>/volumes/kubernetes.io~csi/
    <pv>/mount whose topmost mount is FUSE, with the number of mounts stacked
    there and the device the host resolves; and of a container's own mount
    table, as the kernel prints it, exactly the rclone devices that are the
    topmost mount of no path of the host (subPath mounts aside) are stranded:
    a buried or vanished one is, one still resolved somewhere is not. *)
Theorem stranded_exact (s : stacks) root b l dev :
  l <> [] -> Forall printable l ->
  (b ∈ parseConsumerBinds s root <->
     exists mounts, s !! cb_path b = Some mounts /\ has_prefix "fuse" (FSType (top_of mounts)) = true
     /\ cb_depth b = length mounts /\ cb_dev b = Dev (top_of mounts)
     /\ component (cb_podUID b) /\ component (cb_pvName b)
     /\ cb_path b = root +s+ "/pods/" +s+ cb_podUID b +s+ "/volumes/kubernetes.io~csi/" +s+ cb_pvName b +s+ "/mount")
  /\ (dev ∈ strandedInMountInfo (print_mounts l) (liveMountDevices s) <->
        (exists k, k ∈ l /\ km_fstype k = "fuse.rclone" /\ km_dev k = dev)
        /\ forall p mounts, s !! p = Some mounts -> Dev (top_of mounts) = dev ->
             contains p "/volume-subpaths/" = true).
Proof.
  intros Hne Hl. split.
  - unfold parseConsumerBinds. rewrite list_elem_of_omap. split.
    + intros ([p mounts] & Hin & Hb). apply elem_of_map_to_list in Hin.
      apply bind_of_exact in Hb as (H1 & H2 & H3 & <- & H5 & H6 & H7). exists mounts. done.
    + intros (mounts & H1 & H2 & H3 & H4 & H5 & H6 & H7). exists (cb_path b, mounts).
      split; [by apply elem_of_map_to_list |]. by apply bind_of_exact.
  - assert (Hlive : dev ∈ liveMountDevices s <-> exists p mounts, s !! p = Some mounts
      /\ contains p "/volume-subpaths/" = false /\ Dev (top_of mounts) = dev).
    { unfold liveMountDevices. rewrite list_elem_of_omap. split.
      - intros ([p mounts] & Hin & Hb). apply elem_of_map_to_list in Hin. cbn in Hb.
        destruct (contains p _) eqn:E; [done |]. injection Hb as <-. by exists p, mounts.
      - intros (p & mounts & H1 & H2 & <-). exists (p, mounts). split; [by apply elem_of_map_to_list |].
        cbn. by rewrite H2. }
    unfold strandedInMountInfo. rewrite list_elem_of_In, in_concat. split.
    + intros (ds & Hds & Hd). apply list_elem_of_In, list_elem_of_fmap in Hds as ([p ms] & -> & Hp).
      apply elem_of_map_to_list in Hp. rewrite parse_printed in Hp by done. cbn [snd] in Hd.
      apply list_elem_of_In, list_elem_of_omap in Hd as (m & Hm & Hd).
      destruct (_ && _) eqn:E; [| done]. bools. injection Hd as <-. split.
      * assert (Hma : m ∈ mounts_at p l) by (by destruct (mounts_at p l); [| injection Hp as <-]).
        apply list_elem_of_fmap in Hma as (k & -> & Hk). apply elem_of_filter_bool in Hk as [Hk _]. by exists k.
      * intros q ms' Hq Hdev. destruct (contains q _) eqn:Ec; [done |]. exfalso. apply H0. apply Hlive. by exists q, ms'.
    + intros [(k & Hk & Hfs & Hkd) Hnl].
      assert (Hka : {| Dev := km_dev k; FSType := km_fstype k |} ∈ mounts_at (km_path k) l).
      { apply list_elem_of_fmap. exists k. split; [done |]. apply elem_of_filter_bool. split; [done |]. by apply bool_decide_eq_true. }
      exists (omap (fun m => if bool_decide (FSType m = rcloneFSType) && negb (bool_decide (Dev m ∈ liveMountDevices s))
                then Some (Dev m) else None) (mounts_at (km_path k) l)). split.
      * apply list_elem_of_In, list_elem_of_fmap. exists (km_path k, mounts_at (km_path k) l). split; [done |].
        apply elem_of_map_to_list. rewrite parse_printed by done. by destruct (mounts_at (km_path k) l); [apply not_elem_of_nil in Hka |].
      * apply list_elem_of_In, list_elem_of_omap. eexists. split; [exact Hka |]. cbn. rewrite Hfs, Hkd.
        rewrite bool_decide_eq_true_2, bool_decide_eq_false_2; [done | | done].
        intros (p & ms & H1 & H2 & H3)%Hlive. rewrite (Hnl p ms H1 H3) in H2. done.
Qed.

Lemma stranded_exact_witness :
  "0:50" ∈ strandedInMountInfo (print_mounts example_table)
             (liveMountDevices {["/stage v" := [{| Dev := "0:50"; FSType := "fuse.rclone" |};
                                                {| Dev := "0:52"; FSType := "fuse.rclone" |}]]}).
Proof.
  apply (stranded_exact _ "/var/lib/kubelet" (ConsumerBind "" "" "" 0 "") example_table "0:50" ltac:(done) example_printable).
  split.
  - exists (KMount "40" "22" "0:50" "/" "/stage v" "rw" [] "fuse.rclone" "r:" "rw"). split; [right; by left | done].
  - by intros p mounts [<- <-]%lookup_singleton_Some [=].
Defined.

(** ** One sweep *)

Definition restart_state (s : node) : gmap string Z * bool := (consumerRestartTimes (chk s), regUnhealthy s).

Ltac spares := monly_with ltac:(exact I).

Lemma harmless_spares_m {A} (m : M A) : monly harmless m -> monly spares_pods m.
Proof. intros H s. eapply only_mono; [apply H | apply harmless_spares]. Qed.
Lemma resolve_spares : monly spares_pods resolveKubeletRoot.
Proof. unfold resolveKubeletRoot, runCmdBoundedOutput. spares. Qed.
#[local] Hint Resolve resolve_spares : only.
Lemma unmount_stack_spares n b p : only spares_pods (unmount_stack_loop n b p).
Proof.
  revert b. induction n as [| n IH]; intros b; cbn [unmount_stack_loop];
    unfold HostMountDepth, HostMountStacksOK, unmountHostOnce, runCmdBounded, runCmdBoundedOutput; only_with ltac:(exact I).
Qed.
Lemma serving_spares p : monly spares_pods (ensureStagingServing p).
Proof. apply harmless_spares_m, ensureStagingServing_harmless. Qed.
#[local] Hint Resolve unmount_stack_spares serving_spares : only.
Lemma rebind_spares g u v : monly spares_pods (rebindConsumerMount g u v).
Proof.
  unfold rebindConsumerMount, unmountHostStack, bindMount, runCmdBounded, runCmdBoundedOutput. spares.
Qed.
Lemma consumerBinds_spares : monly spares_pods consumerBinds.
Proof. unfold consumerBinds, HostMountStacksOK. spares. Qed.
Lemma pod_pids_spares u procs : only spares_pods (pod_pids u procs).
Proof. induction procs as [| e procs IH]; cbn [pod_pids]; only_with ltac:(exact I). Qed.
#[local] Hint Resolve rebind_spares consumerBinds_spares pod_pids_spares : only.
Lemma stranded_of_pids_spares live pids l : only spares_pods (stranded_of_pids live pids l).
Proof. revert l. induction pids as [| pid pids IH]; intros l; cbn [stranded_of_pids]; only_with ltac:(exact I). Qed.
#[local] Hint Resolve stranded_of_pids_spares : only.
Lemma stranded_spares u live : only spares_pods (containerStrandedDevices u live).
Proof. unfold containerStrandedDevices, podContainerPIDs. only_with ltac:(exact I). Qed.
#[local] Hint Resolve stranded_spares : only.
Lemma picked_up_spares u : monly spares_pods (picked_up u).
Proof. unfold picked_up. spares. Qed.
Lemma broken_spares live binds : only spares_pods (broken_binds live binds).
Proof. induction binds as [| b binds IH]; cbn [broken_binds]; only_with ltac:(exact I). Qed.
Lemma podsUsingPVC_spares nodeID clientset n c : only spares_pods (podsUsingPVC nodeID clientset n c).
Proof. unfold podsUsingPVC. only_with ltac:(exact I). Qed.
Lemma staging_paths_spares p es m : only spares_pods (staging_paths p es m).
Proof. revert m. induction es as [| e es IH]; intros m; cbn [staging_paths]; unfold getVolumeIDFromVolData; only_with ltac:(exact I). Qed.
#[local] Hint Resolve picked_up_spares broken_spares podsUsingPVC_spares staging_paths_spares : only.
Lemma stagedVolumesByPV_spares clientset : monly spares_pods (stagedVolumesByPV clientset).
Proof. unfold stagedVolumesByPV. spares. Qed.
#[local] Hint Resolve stagedVolumesByPV_spares : only.

Lemma resolve_keeps : keeps restart_state resolveKubeletRoot.
Proof. unfold resolveKubeletRoot. keeps. Qed.
#[local] Hint Resolve resolve_keeps : keeps.
Lemma rebind_keeps g u v : keeps restart_state (rebindConsumerMount g u v).
Proof. unfold rebindConsumerMount, ensureStagingServing. keeps. Qed.
Lemma consumerBinds_keeps : keeps restart_state consumerBinds.
Proof. unfold consumerBinds. keeps. Qed.
#[local] Hint Resolve rebind_keeps consumerBinds_keeps : keeps.
Lemma picked_up_keeps u : keeps restart_state (picked_up u).
Proof. unfold picked_up. keeps. Qed.
Lemma staged_keeps clientset : keeps restart_state (stagedVolumesByPV clientset).
Proof. unfold stagedVolumesByPV. keeps. Qed.
#[local] Hint Resolve picked_up_keeps staged_keeps : keeps.

(** Between [h] and [h'] no pod was touched, and the cooldowns are the same. *)
Definition calm (h : history) (s : node) (h' : history) (s' : node) : Prop :=
  ok_since (fun _ => spares_pods) h h' /\ restart_state s' = restart_state s.

Lemma calm_trans h1 s1 h2 s2 h3 s3 : calm h1 s1 h2 s2 -> calm h2 s2 h3 s3 -> calm h1 s1 h3 s3.
Proof. intros [H1 E1] [H2 E2]. split; [by eapply since_trans | congruence]. Qed.

(** A calm step of a longer program. *)
Lemma calm_step {A B} (m : M A) (f : A -> M B) h0 s0 h s Q :
  monly spares_pods m -> keeps restart_state m -> calm h0 s0 h s ->
  (forall a h' s', calm h0 s0 h' s' -> wpc anything (f a s') Q h') ->
  wpc anything (mbind m f s) Q h.
Proof.
  intros Ho Hk Hc Hf. apply wpm_bind. eapply wpc_mono; [apply (wpc_only spares_pods), Hk; apply Ho | done |].
  intros h' [s' a] [Hs E]. apply Hf. eapply calm_trans; [exact Hc |]. by split.
Qed.

(** The volume was due a recovery and has now had it. *)
Definition recovered_for (v : string) (s : node) (h' : history) (s' : node) : Prop :=
  exists t, consumerRestartTimes (chk s') = <[v := t]> (consumerRestartTimes (chk s))
  /\ regUnhealthy s = false /\ Ev CNow t ∈ h'
  /\ forall t0, consumerRestartTimes (chk s) !! v = Some t0 ->
       exists now, Ev CNow now ∈ h' /\ consumerRestartCooldown <= now - t0.

Definition recovered (s : node) (h' : history) (s' : node) : Prop := exists v, recovered_for v s h' s'.

Lemma recovered_calm s0 h1 s1 h2 s2 : recovered s0 h1 s1 -> calm h1 s1 h2 s2 -> recovered s0 h2 s2.
Proof.
  intros (v & t & E & Hr & Ht & Hc) [Hs Es]. apply since_subset in Hs. injection Es as Es1 Es2.
  exists v, t. rewrite Es1. splits; [done | done | by apply Hs |]. intros t0 H0.
  destruct (Hc _ H0) as (now & Hn & Hle). exists now. split; [by apply Hs | done].
Qed.

Lemma consumerRestartAllowed_spec v h0 s0 h s :
  calm h0 s0 h s ->
  wpc anything (consumerRestartAllowed v s)
    (fun h' r => if (snd r : bool) then recovered_for v s0 h' (fst r) else calm h0 s0 h' (fst r)) h.
Proof.
  intros Hc. unfold consumerRestartAllowed, registrationHealthy. do 2 wm_step.
  destruct (regUnhealthy s) eqn:Hu; cbn [negb]; [done |]. do 2 wm_step.
  assert (Es : restart_state s = restart_state s0) by apply Hc. injection Es as Es1 Es2.
  assert (Hgo : forall h1, calm h0 s0 h1 s ->
    (forall t0, consumerRestartTimes (chk s) !! v = Some t0 -> exists now, Ev CNow now ∈ h1 /\ consumerRestartCooldown <= now - t0) ->
    wpc anything ((now <~ ask CNow ;; modify (on_restarts (insert v now)) ;~ ret true) s)
      (fun h' r => if (snd r : bool) then recovered_for v s0 h' (fst r) else calm h0 s0 h' (fst r)) h1).
  { intros h1 Hc1 Hd. wm_step. apply wpm_ask; [done |]. intros now. cbn [fst snd]. do 2 wm_step. wm_step.
    exists now. cbn. rewrite <- Es1, <- Es2. splits; [done | done | by left |].
    intros t0 H0. destruct (Hd t0 H0) as (n & Hn & Hle). exists n. split; [by right | done]. }
  destruct (consumerRestartTimes (chk s) !! v) as [t |] eqn:Ht.
  - do 2 wm_step. apply wpm_ask; [done |]. intros now. cbn [fst snd]. wm_step.
    destruct (now - t <? consumerRestartCooldown) eqn:E; bools.
    + wm_step. destruct Hc as [Hs E0]. split; [by constructor | exact E0].
    + apply Hgo.
      * destruct Hc as [Hs E0]. split; [by constructor | exact E0].
      * intros t0 [= <-]. exists now. split; [by left | done].
  - do 2 wm_step. by apply Hgo.
Qed.

Lemma repair_bind_spec nodeID clientset staged n b stranded h0 s0 h s :
  calm h0 s0 h s ->
  wpc anything (repair_bind nodeID clientset staged n b stranded s)
    (fun h' r => if (snd r : bool) then n = 0%nat /\ recovered s0 h' (fst r) else calm h0 s0 h' (fst r)) h.
Proof.
  intros Hc. unfold repair_bind, isVolumeSetupInProgress, isBackgroundDraining.
  destruct (staged !! cb_pvName b) as [sv |]; [| done].
  do 4 wm_step. destruct (_ || _); [done |].
  eapply calm_step; [spares | keeps | exact Hc |]. intros consumers h1 s1 H1.
  destruct (podByUID consumers _) as [p |]; [| done]. case_bool_decide; [done |].
  eapply calm_step; [spares | keeps | exact H1 |]. intros rebound h2 s2 H2.
  destruct (_ || _); [done |].
  eapply calm_step; [spares | keeps | exact H2 |]. intros healed h3 s3 H3.
  destruct (_ || _) eqn:Hn; [done |]. bools.
  wm_step. eapply wpc_post; [by apply consumerRestartAllowed_spec |].
  intros h4 [s4 []] Hr; cbn [fst snd negb] in *; [| done].
  apply wpm_skip_lift. intros h5 u H5. wm_step. split; [by destruct n |].
  destruct Hr as (t & E & Hr & Ht & Hd). exists (sv_volumeID sv), t. splits; [done | done | by apply H5 |].
  intros t0 Ht0. destruct (Hd _ Ht0) as (now & Hnow & Hle). exists now. split; [by apply H5 | done].
Qed.

Lemma repair_binds_spec nodeID clientset staged todo n h0 s0 h s :
  (n = 0%nat /\ calm h0 s0 h s \/ (0 < n)%nat /\ recovered s0 h s) ->
  wpc anything (repair_binds nodeID clientset staged n todo s)
    (fun h' r => calm h0 s0 h' (fst r) \/ recovered s0 h' (fst r)) h.
Proof.
  revert n h s. induction todo as [| [b stranded] todo IH]; intros n h s Hi; cbn [repair_binds].
  { cbn. destruct Hi as [[_ ?] | [_ ?]]; [by left | by right]. }
  wm_step. destruct Hi as [[-> Hc] | [Hn Hr]].
  - eapply wpc_post; [by apply repair_bind_spec |]. intros h1 [s1 []] H1; cbn [fst snd] in *; apply IH.
    + right. split; [lia | apply H1].
    + left. done.
  - eapply wpc_post; [apply (repair_bind_spec _ _ _ _ _ _ h s); split; [constructor | done] |].
    intros h1 [s1 []] H1; cbn [fst snd] in *; [lia |]. apply IH. right. split; [done |]. by eapply recovered_calm.
Qed.

(** The repair of stranded consumers is staggered and rate-limited.
    Whatever the host and the cluster answer, a sweep either kills and deletes
    nothing and leaves every cooldown as it was, or it started the cooldown of
    exactly one volume: one that was due (never recovered, or 5 minutes ago or
    more), while the driver was registered with kubelet. *)
Theorem one_recovery_per_sweep env nodeID clientset s :
  let '(h, (s', _)) := run env (repairStrandedConsumers nodeID clientset s) [] in
  (hist_ok (fun _ => spares_pods) h /\ restart_state s' = restart_state s) \/ recovered s h s'.
Proof.
  pose proof (wpc_run_post env (repairStrandedConsumers nodeID clientset s)
    (fun h r => calm [] s h (fst r) \/ recovered s h (fst r)) []) as H.
  destruct (run env _ []) as [h [s' u]]. cbn [fst snd] in H.
  enough (Hw : wpc anything (repairStrandedConsumers nodeID clientset s)
    (fun h r => calm [] s h (fst r) \/ recovered s h (fst r)) []).
  { destruct (H Hw) as [[Hs E] | Hr]; [left | by right]. split; [| done].
    clear -Hs. induction Hs; [done |]. by split. }
  assert (H0 : calm [] s [] s) by (split; [constructor | done]).
  unfold repairStrandedConsumers. eapply calm_step; [spares | keeps | exact H0 |].
  intros [[binds live] |] h1 s1 H1; [| by left].
  eapply calm_step; [spares | keeps | exact H1 |]. intros [| t todo] h2 s2 H2; [by left |].
  eapply calm_step; [spares | keeps | exact H2 |]. intros staged h3 s3 H3.
  apply repair_binds_spec. by left.
Qed.

End Consumers.
