(* ===== verification/Checker.v ===== *)
(** * Checker: the periodic repair of S3 mounts (pkg/driver/node_s3.go, node.go)

    What the checker takes for a stale or a missing mount, the back-off and
    the cooldown of its repairs, the repair itself, the recovery of volumes
    kubelet no longer stages here, and the garbage collection of their
    caches. *)

From Stdlib Require Import QArith.
From S2P Require Import Prelude GoStrings Effects Secrets Luks Mounts VfsNames VfsCache Session MountManager.
From S2P Require Import Csi Controller NodeMounts NodeLuks NodeState Drain S3Live NodeServer Consumers.
Import Secrets Luks Mounts VfsNames VfsCache MountManager Csi K8s NodeMounts NodeLuks NodeState Drain S3Live NodeServer Consumers.

#[local] Open Scope Z_scope.

Module Checker.

(** ** Back-off *)

Definition reconcileFreeAttempts : Z := 2.
Definition reconcileBackoffBase : Z := 2 * minute.
Definition reconcileBackoffMax : Z := 15 * minute.

(** How long after the last of [count] attempts the next one has to wait. *)
Definition reconcile_wait (count : Z) : Z :=
  if count <? reconcileFreeAttempts then 0
  else Z.min (Z.shiftl reconcileBackoffBase (Z.min (count - reconcileFreeAttempts) 3)) reconcileBackoffMax.

Definition reconcileAllowed (v : string) : M bool :=
  a <~ gets (fun s => default (Attempt 0 0) (reconcileAttempts (chk s) !! v)) ;;
  early <~ (if reconcileFreeAttempts <=? ra_count a then
              now <~ ask CNow ;; ret (now - ra_last a <? reconcile_wait (ra_count a))
            else ret false) ;;
  if (early : bool) then ret false
  else
    now <~ ask CNow ;;
    modify (on_attempts (insert v (Attempt (ra_count a + 1) now))) ;~
    ret true.

Definition reconcileSucceeded (v : string) : M unit := modify (on_attempts (delete v)).

Definition reportMountLifetime (v : string) : M unit :=
  t <~ gets (fun s => mountedAt s !! v) ;;
  match t with
  | None => ret tt
  | Some _ => modify (on_mountedAt (delete v)) ;~ ask CNow ;~ ret tt
  end.

(** ** Zombies *)

Definition zombieVFSConfirmations : Z := 2.

Definition expectedFSName (v : string) : M string :=
  mm <~ lookup_manager v ;;
  match mm with Some mm => ret (cryptConfigName mm) | None => lift (FSNameForVolume v) end.

Definition vfsRegistryMissing (volumeDir : string) (vfsNames : option (gmap string nat)) : M bool :=
  match vfsNames with
  | None => ret false
  | Some names =>
      v <~ lift (getVolumeIDFromVolData volumeDir) ;;
      setup <~ isVolumeSetupInProgress v ;;
      draining <~ isBackgroundDraining v ;;
      if bool_decide (v = "") || (setup : bool) || (draining : bool) then ret false
      else
        fs <~ expectedFSName v ;;
        if (0 <? default 0%nat (names !! fs))%nat then modify (on_strikes (delete v)) ;~ ret false
        else
          prev <~ gets (fun s => zombieVFSStrikes (chk s) !! v) ;;
          let strikes := match prev with Some n => n + 1 | None => 1 end in
          if strikes <? zombieVFSConfirmations then
            modify (on_strikes (insert v strikes)) ;~ ret false
          else modify (on_strikes (delete v)) ;~ ret true
  end.

(** ** What a staging path looks like *)

Inductive diagnosis : Set := Absent | Healthy | Stale | Missing.

(** The probes of one staging directory, in the order of [cleanupStaleS3Mounts]. *)
Definition diagnose (volumeDir : string) (vfsNames : option (gmap string nat)) : M diagnosis :=
  let globalmountPath := path_join [volumeDir; "globalmount"] in
  st <~ lift (statfsBounded globalmountPath (5 * second)) ;;
  match st with
  | Done (Err ENOENT) => ret Absent
  | Blocked => ret Stale
  | Done (Err e) => ret (if isMountDeadErr e then Stale else Healthy)
  | Done (Ok _) =>
      fuse <~ lift (isFUSEMountPoint globalmountPath) ;;
      if negb fuse then ret Missing
      else
        zombie <~ vfsRegistryMissing volumeDir vfsNames ;;
        if (zombie : bool) then ret Stale
        else
          ok <~ mountVFSResponsive globalmountPath ;;
          ret (if (ok : bool) then Healthy else Stale)
  end.

Section node.
Context (nodeID : string) (clientset : bool).

(** ** Repair *)

(** The manager goes, its monitor with it; the path of its session is kept. *)
Definition drop_manager (v : string) : M string :=
  mm <~ lookup_manager v ;;
  modify (on_managers (delete v)) ;~
  ret match mm with Some mm => sessionPath mm | None => "" end.

(** One consumer of a volume that was just re-mounted. *)
Definition reattach (pvcName pvName staging : string) (budget : bool) (p : pod) : M unit :=
  match pod_deletion p with
  | Some _ =>
      unbindTerminatingConsumer (pod_uid p) pvName ;~
      lift (deletePodByUID clientset (pod_uid p))
  | None =>
      rebound <~ rebindConsumerMount staging (pod_uid p) pvName ;;
      healed <~ (if podSelfHealsViaPropagation p pvcName
                 then consumerMountHealthy (pod_uid p) pvName staging else ret false) ;;
      if (healed : bool) then ret tt
      else if negb budget then ret tt
      else if negb rebound then lift (deletePodByUID clientset (pod_uid p))
      else lift (recoverConsumerPod clientset p)
  end.

(** When the re-mount failed. *)
Definition remount_failed (v staging : string) : M unit :=
  drop_manager v ;~
  allowed <~ consumerRestartAllowed v ;;
  if negb allowed then ret tt
  else
    mounted <~ lift (IsHostMountPoint staging) ;;
    (if (mounted : bool) then ret tt else lift (removeAllBounded staging (60 * second))) ;~
    restartPodsWithStaleS3Mount clientset v.

Definition remount (v staging : string) (ctx : gmap string string) : M unit :=
  refs <~ lift (resolveVolumeRefs clientset v) ;;
  let '(pvcNamespace, pvcName, pvName) := refs in
  consumers <~ lift (podsUsingPVC nodeID clientset pvcNamespace pvcName) ;;
  let fsGroup := fsGroupFromPods consumers in
  oldSession <~ drop_manager v ;;
  lift (Session.ShutdownSessions v [oldSession]) ;~
  lift (abortFUSEConnection staging) ;~
  lift (runCmdBounded (30 * second) ["umount"; "-l"; staging]) ;~
  lift (Session.mkdirAllBounded staging (30 * second)) ;~
  r <~ setupS3Sync clientset v staging ctx fsGroup ;;
  match r with
  | Err _ => remount_failed v staging
  | Ok _ =>
      budget <~ consumerRestartAllowed v ;;
      mfor_each consumers (reattach pvcName pvName staging budget)
  end.

Definition reconcileS3Mount (v staging : string) (ctx : gmap string string) (missing : bool) : M unit :=
  markVolumeSetupInProgress v ;~
  live <~ (if missing then reexposeLiveSession v staging else ret false) ;;
  (if (live : bool) then ret tt else remount v staging ctx) ;~
  markVolumeSetupComplete v.


(** ** A tick of the mount checker *)

(** What becomes of a staging path found stale or missing. *)
Definition repair_entry (volumeDir : string) (stale : bool) : M unit :=
  let globalmountPath := path_join [volumeDir; "globalmount"] in
  v <~ lift (getVolumeIDFromVolData volumeDir) ;;
  if bool_decide (v = "") then (if stale then lift (unmountStaleS3Mount globalmountPath) else ret tt)
  else
    setup <~ isVolumeSetupInProgress v ;;
    draining <~ isBackgroundDraining v ;;
    if (setup : bool) || (draining : bool) then ret tt
    else
      ctx <~ lift (getS3VolumeContext clientset v) ;;
      match ctx with
      | None => if stale then lift (unmountStaleS3Mount globalmountPath) else ret tt
      | Some ctx =>
          needed <~ (if stale then ret true
                     else lift (let* (pvcNS, pvcName, _) := resolveVolumeRefs clientset v ;;
                                l <- podsUsingPVC nodeID clientset pvcNS pvcName ;;
                                Ret (negb (bool_decide (length l = 0%nat))))) ;;
          if negb needed then ret tt
          else
            reportMountLifetime v ;~
            allowed <~ reconcileAllowed v ;;
            if negb allowed then ret tt
            else reconcileS3Mount v globalmountPath ctx (negb stale)
      end.

Definition check_entry (plugin : string) (vfsNames : option (gmap string nat)) (e : dirent) : M unit :=
  if negb (de_isdir e) then ret tt
  else
    let volumeDir := path_join [plugin; de_name e] in
    d <~ diagnose volumeDir vfsNames ;;
    match d with
    | Absent => ret tt
    | Healthy =>
        v <~ lift (getVolumeIDFromVolData volumeDir) ;;
        if bool_decide (v = "") then ret tt else reconcileSucceeded v
    | Stale => repair_entry volumeDir true
    | Missing => repair_entry volumeDir false
    end.

Definition check_entries (plugin : string) (vfsNames : option (gmap string nat)) : M unit :=
  st <~ ask (CStat plugin) ;;
  match st with
  | Err ENOENT => ret tt
  | _ =>
      r <~ ask (CReadDir plugin) ;;
      match r with
      | Err _ => ret tt
      | Ok entries => mfor_each entries (check_entry plugin vfsNames)
      end
  end.

Definition cleanupStaleS3Mounts (ParseFloat : string -> option Q) : M unit :=
  io <~ lift (nodeIOStalled ParseFloat) ;;
  if snd io then ret tt
  else
    known <~ lift HostMountsKnown ;;
    if negb known then ret tt
    else
      vfsNames <~ lift RegisteredVFSNames ;;
      root <~ resolveKubeletRoot ;;
      check_entries (csiPluginPath root) vfsNames.

Definition sweepDeadSessions : M unit :=
  l <~ lift Session.SessionVolumes ;;
  mfor_each l (fun v =>
    draining <~ isBackgroundDraining v ;;
    if (draining : bool) then ret tt else lift (Session.SweepDeadSessions v)).

(** ** Volumes nothing stages any more *)

Definition strandedRetryInterval : Z := 5 * minute.

Fixpoint staged_ids (plugin : string) (entries : list dirent) (seen : gset string) : prog (gset string) :=
  match entries with
  | [] => Ret seen
  | e :: entries =>
      if negb (de_isdir e) then staged_ids plugin entries seen
      else
        id <- getVolumeIDFromVolData (path_join [plugin; de_name e]) ;;
        staged_ids plugin entries (if bool_decide (id = "") then seen else {[id]} ∪ seen)
  end.

Definition stagedVolumeIDs : M (option (gset string)) :=
  root <~ resolveKubeletRoot ;;
  r <~ ask (CReadDir (csiPluginPath root)) ;;
  match r with
  | Err ENOENT => ret (Some ∅)
  | Err _ => ret None
  | Ok entries => seen <~ lift (staged_ids (csiPluginPath root) entries ∅) ;; ret (Some seen)
  end.

Definition recover_stranded (staged : gset string) (v : string) : M unit :=
  setup <~ isVolumeSetupInProgress v ;;
  draining <~ isBackgroundDraining v ;;
  if bool_decide (v ∈ staged) || (setup : bool) || (draining : bool) then ret tt
  else
    mm <~ lookup_manager v ;;
    match mm with
    | Some _ => ret tt
    | None =>
        last <~ gets (fun s => strandedRetry (chk s) !! v) ;;
        recent <~ match last with
                  | Some t => now <~ ask CNow ;; ret (now - t <? strandedRetryInterval)
                  | None => ret false
                  end ;;
        if (recent : bool) then ret tt
        else
          forced <~ lift (forceUnstageRequested clientset v) ;;
          if (forced : bool) then ret tt
          else
            now <~ ask CNow ;;
            modify (on_strandedRetry (insert v now)) ;~
            resumeStrandedDrain clientset v (path_join [drainMountBase; v])
    end.

Definition recoverStrandedVolumes : M unit :=
  stranded <~ lift VolumesWithUnuploadedData ;;
  if bool_decide (stranded = []) then ret tt
  else
    staged <~ stagedVolumeIDs ;;
    match staged with
    | None => ret tt
    | Some staged => mfor_each stranded (recover_stranded staged)
    end.

(** ** Garbage collection of caches *)

(** The [isActive] of [cleanupOrphanedVFSCacheDirs], with its memo. *)
Definition pv_active (v : string) (memo : gmap string bool) : prog (gmap string bool * bool) :=
  match memo !! v with
  | Some known => Ret (memo, known)
  | None =>
      r <- perform (CGetPV v) ;;
      let active := match r with Err KNotFound => false | _ => true end in
      Ret (<[v := active]> memo, active)
  end.

Definition cleanupOrphanedVFSCacheDirs : prog unit :=
  if negb clientset then Ret tt
  else CleanupOrphanedVFSCacheDirs pv_active ∅ ;;; Ret tt.

(** ** Order of the work *)

(** Tick [tick] of [runStaleS3MountChecker], counted from 0. *)
Definition checker_tick (ParseFloat : string -> option Q) (tick : Z) : M unit :=
  (if tick mod 10 =? 0 then
     lift abortOrphanedFUSEConnections ;~
     lift (sweepStuckTerminatingConsumers nodeID clientset) ;~
     repairStrandedConsumers nodeID clientset ;~
     cleanupOrphanedVolumes nodeID clientset ;~
     lift cleanupOrphanedVFSCacheDirs
   else ret tt) ;~
  cleanupStaleS3Mounts ParseFloat ;~
  recoverStrandedVolumes.

(** The start-up work of [NewNodeServer], after the watchdog's. *)
Definition startup_cleanup (ParseFloat : string -> option Q) : M unit :=
  lift abortOrphanedFUSEConnections ;~
  sweepDeadSessions ;~
  cleanupStaleS3Mounts ParseFloat ;~
  lift cleanupOrphanedVFSCacheDirs ;~
  cleanupOrphanedVolumes nodeID clientset.

End node.

(** * Back-off *)

(** A world in which nothing but the clock answers. *)
Definition at_time (t : Z) : environment :=
  override_env (fun _ c => match c with CNow => Some t | _ => None end).

(** The times, of those [v] asks for a repair at, at which it is granted. *)
Fixpoint grants (v : string) (ts : list Z) (s : node) : list Z :=
  match ts with
  | [] => []
  | t :: ts =>
      let '(_, (s, b)) := run (at_time t) (reconcileAllowed v s) [] in
      if (b : bool) then t :: grants v ts s else grants v ts s
  end.

(** The reference: a counter, the time of the last grant, and the wait after it. *)
Fixpoint ref_grants (a : reconcileAttempt) (ts : list Z) : list Z :=
  match ts with
  | [] => []
  | t :: ts =>
      if (ra_count a <? reconcileFreeAttempts) || (reconcile_wait (ra_count a) <=? t - ra_last a)
      then t :: ref_grants (Attempt (ra_count a + 1) t) ts else ref_grants a ts
  end.

Definition attempt_of (v : string) (s : node) : reconcileAttempt :=
  default (Attempt 0 0) (reconcileAttempts (chk s) !! v).

Lemma allowed_at v t s :
  snd (run (at_time t) (reconcileAllowed v s) []) =
  (if (ra_count (attempt_of v s) <? reconcileFreeAttempts)
      || (reconcile_wait (ra_count (attempt_of v s)) <=? t - ra_last (attempt_of v s))
   then (on_attempts (insert v (Attempt (ra_count (attempt_of v s) + 1) t)) s, true) else (s, false)).
Proof.
  unfold reconcileAllowed, attempt_of, mbind, gets, ask, lift, modify, ret. cbn [bind fst snd].
  set (a := default _ _).
  destruct (reconcileFreeAttempts <=? ra_count a) eqn:E1; cbn [bind perform run fst snd at_time override_env].
  - rewrite (Z.ltb_antisym reconcileFreeAttempts), E1. cbn [negb orb]. rewrite Z.leb_antisym.
    by destruct (_ <? reconcile_wait _).
  - by rewrite (Z.ltb_antisym reconcileFreeAttempts), E1.
Qed.

Lemma grants_ref v ts s : grants v ts s = ref_grants (attempt_of v s) ts.
Proof.
  revert s. induction ts as [| t ts IH]; intros s; cbn [grants ref_grants]; [done |].
  pose proof (allowed_at v t s) as H. destruct (run _ _ _) as [h [s' b]]. cbn [snd] in H.
  destruct (_ || _); injection H as -> ->; rewrite IH; [| done].
  unfold attempt_of at 1. cbn. by rewrite lookup_insert_eq.
Qed.

Lemma reconcile_wait_bound n : 0 <= n -> 0 <= reconcile_wait n <= reconcileBackoffMax.
Proof.
  intros Hn. unfold reconcile_wait. destruct (_ <? _) eqn:E; bools; [done |]. unfold reconcileFreeAttempts in *.
  rewrite Z.shiftl_mul_pow2 by lia. pose proof (Z.pow_nonneg 2 (Z.min (n - 2) 3) ltac:(lia)).
  unfold reconcileBackoffBase, reconcileBackoffMax, minute, second. lia.
Qed.

(** Consecutive grants, the first of them the one of count [n], keep apart. *)
Fixpoint spaced (n : Z) (last : Z) (gs : list Z) : Prop :=
  match gs with
  | [] => True
  | g :: gs => reconcile_wait n <= g - last /\ spaced (n + 1) g gs
  end.

Lemma ref_grants_spec a ts :
  0 <= ra_count a -> Sorted Z.le (ra_last a :: ts) ->
  spaced (ra_count a) (ra_last a) (ref_grants a ts)
  /\ forall t, t ∈ ts -> exists g, g ∈ ra_last a :: ref_grants a ts /\ g <= t < g + reconcileBackoffMax.
Proof.
  revert a. induction ts as [| t ts IH]; intros a Hn Hs; cbn [ref_grants].
  { split; [done |]. by intros t ?%not_elem_of_nil. }
  apply Sorted_StronglySorted in Hs; [| intros x y z; lia].
  apply StronglySorted_inv in Hs as [Hs Hle]. apply list.Forall_cons in Hle as [Hlt Hle].
  pose proof (reconcile_wait_bound (ra_count a) Hn) as Hw.
  apply StronglySorted_inv in Hs as [Hs Ht].
  destruct ((ra_count a <? _) || _) eqn:E.
  - destruct (IH (Attempt (ra_count a + 1) t)) as [Hsp Hin].
    { cbn. lia. }
    { apply StronglySorted_Sorted. by constructor. }
    split; cbn [spaced].
    + split; [| done]. apply orb_true_iff in E as [E | E]; bools; [| done].
      unfold reconcile_wait. rewrite (proj2 (Z.ltb_lt _ _)) by done. lia.
    + intros t' [-> | Hin']%elem_of_cons.
      * exists t. split; [right; by left |]. unfold reconcileBackoffMax, minute, second. lia.
      * destruct (Hin t' Hin') as (g & Hg & Hle'). exists g. split; [by right | done].
  - destruct (IH a) as [Hsp Hin]; [done | |].
    { apply StronglySorted_Sorted. by constructor. }
    split; [done |]. intros t' [-> | Hin']%elem_of_cons; [| by apply Hin].
    exists (ra_last a). split; [by left |]. bools. lia.
Qed.

(** C21: The back-off of repairs spaces attempts and never starves a volume.
    For any non-decreasing times at which a volume with no failed repair on
    record is found broken, the grants of [reconcileAllowed] are those of a
    reference counter; the k-th waits 0, 0, 2, 4, 8, then 15 minutes after the
    one before it, and no request is ever 15 minutes or more after the last
    grant without being granted itself.  One tick that finds the mount healthy
    makes the next attempt immediate again. *)
Theorem backoff_spaces_and_never_starves v s ts :
  reconcileAttempts (chk s) !! v = None -> Sorted Z.le ts ->
  let gs := grants v ts s in
  gs = ref_grants (Attempt 0 0) ts
  /\ match gs with [] => ts = [] | g :: gs => spaced 1 g gs end
  /\ (forall t, t ∈ ts -> exists g, g ∈ gs /\ g <= t < g + reconcileBackoffMax)
  /\ map reconcile_wait [0; 1; 2; 3; 4; 5; 6] = map (Z.mul minute) [0; 0; 2; 4; 8; 15; 15]
  /\ forall s' t, hd_error (grants v [t] (fst (snd (run quiet_env (reconcileSucceeded v s') [])))) = Some t.
Proof.
  intros Hv Hs gs. subst gs. rewrite grants_ref.
  replace (attempt_of v s) with (Attempt 0 0) by (unfold attempt_of; by rewrite Hv).
  split; [done |]. destruct ts as [| t ts]; cbn [ref_grants].
  { splits; [done | by intros t ?%not_elem_of_nil | done |]. intros s' t. rewrite grants_ref.
    unfold attempt_of, reconcileSucceeded, modify. cbn. by rewrite lookup_delete_eq. }
  cbn [ra_count ra_last]. change (0 <? reconcileFreeAttempts) with true. cbn [orb].
  destruct (ref_grants_spec (Attempt (0 + 1) t) ts) as [Hsp Hin]; [cbn; lia | done |].
  splits; [done | | done |].
  - intros t' [-> | Hin']%elem_of_cons; [| by apply Hin].
    exists t. split; [by left |]. unfold reconcileBackoffMax, minute, second. lia.
  - intros s' t'. rewrite grants_ref. unfold attempt_of, reconcileSucceeded, modify. cbn. by rewrite lookup_delete_eq.
Qed.

Lemma backoff_spaces_and_never_starves_witness :
  grants "pvc-1" (map (Z.mul (30 * second)) [0; 1; 2; 5; 6; 7; 13; 20]) empty_node
  = map (Z.mul (30 * second)) [0; 1; 5; 13].
Proof.
  rewrite (proj1 (backoff_spaces_and_never_starves "pvc-1" empty_node
    (map (Z.mul (30 * second)) [0; 1; 2; 5; 6; 7; 13; 20]) eq_refl
    ltac:(repeat constructor; unfold second; lia))).
  reflexivity.
Defined.

(** * Repairs rest on evidence *)

(** The host mount table was read without a FUSE mount at [path], or could not
    be read, which the code takes for the same. *)
Definition absent_or_unread (path : string) (h : history) : Prop :=
  exists t, Ev CHostMounts t ∈ h /\ match t with Some t => table_fuse t path = false | None => True end.

(** The volume of staging directory [dir], as kubelet's file was read. *)
Definition volume_of (dir v : string) (h : history) : Prop :=
  exists r, Ev (CReadJson (path_join [dir; "vol_data.json"])) r ∈ h
  /\ v = match r with Ok (Some o) => default "" (string_field o "volumeHandle") | _ => "" end.
(** The name under which rclone serves volume [v]: its manager's, or else that of
    the generation the name map on disk gives it. *)
Definition filesystem_of (s : node) (v fs : string) (h : history) : Prop :=
  match mountManagers (s3SyncMgr s) !! v with
  | Some mm => fs = cryptConfigName mm
  | None => exists r, Ev (CReadNameMap vfsNameMapFile) r ∈ h
      /\ fs = (vfsNamesFor v (generationOfVFSName v (mget (match r with Ok (Some m) => m | _ => ∅ end) v))).2
  end.

(** What shows that the mount below [dir] does not work; [s] is the state in
    which it is looked at and [names] the registry of the tick. *)
Inductive dead (s : node) (dir : string) (names : option (gmap string nat)) (h : history) : Prop :=
  | dead_wedged : Ev (CStatfsB (path_join [dir; "globalmount"]) (5 * second)) Blocked ∈ h -> dead s dir names h
  | dead_errno e :
      Ev (CStatfsB (path_join [dir; "globalmount"]) (5 * second)) (Done (Err e)) ∈ h -> isMountDeadErr e = true ->
      dead s dir names h
  | dead_zombie m v fs n :
      names = Some m -> volume_of dir v h -> filesystem_of s v fs h -> default 0%nat (m !! fs) = 0%nat ->
      v ∉ volumesInSetup (s3SyncMgr s) -> v ∉ backgroundDrains (s3SyncMgr s) ->
      zombieVFSStrikes (chk s) !! v = Some n -> 1 <= n -> dead s dir names h
  | dead_probe e :
      probe_evidence (path_join [dir; "globalmount"]) (Err e) h -> dead s dir names h
  | dead_probe_stuck since now :
      vfsProbesInFlight (chk s) !! path_join [dir; "globalmount"] = Some since -> Ev CNow now ∈ h ->
      vfsProbeStuckAfter < now - since -> dead s dir names h.

Definition diagnosed (s : node) (dir : string) (names : option (gmap string nat)) (h : history) (d : diagnosis) : Prop :=
  let path := path_join [dir; "globalmount"] in
  match d with
  | Stale => dead s dir names h
  | Missing => Ev (CStatfsB path (5 * second)) (Done (Ok tt)) ∈ h /\ absent_or_unread path h
  | _ => True
  end.

Lemma volume_of_mono dir v h h' : h ⊆ h' -> volume_of dir v h -> volume_of dir v h'.
Proof. intros Hs (r & Hr & ->). exists r. auto. Qed.
Lemma filesystem_mono s v fs h h' : h ⊆ h' -> filesystem_of s v fs h -> filesystem_of s v fs h'.
Proof. intros Hs. unfold filesystem_of. destruct (_ !! v); [done |]. intros (r & Hr & ->). exists r. auto. Qed.
Lemma dead_mono s dir names h h' : h ⊆ h' -> dead s dir names h -> dead s dir names h'.
Proof.
  intros Hs [].
  - eapply dead_wedged; auto.
  - eapply dead_errno; eauto.
  - eapply dead_zombie; eauto using volume_of_mono, filesystem_mono.
  - eapply dead_probe. destruct H as [He [(q & Hr & Hq) | (d & es & Hr & Hd)]]; (split; [exact He |]); [left; exists q | right; exists d, es]; auto.
  - eapply dead_probe_stuck; eauto.
Qed.
Lemma absent_or_unread_mono path h h' : h ⊆ h' -> absent_or_unread path h -> absent_or_unread path h'.
Proof. intros Hs (t & Ht & Hf). exists t. auto. Qed.

Lemma fuse_spec path h :
  wpc looks_only (isFUSEMountPoint path) (fun h' r => h ⊆ h' /\ (r = false -> absent_or_unread path h')) h.
Proof.
  unfold isFUSEMountPoint, IsHostFUSEMount, HostFUSEMountState, HostMountsOK, HostMountStacksOK. do 3 wp_step.
  apply wpc_perform; [done |]. intros t. cbn [wpc]. destruct t as [t |]; cbn; (split; [sub |]); intros Hf.
  - exists (Some t). split; [by left | exact Hf].
  - exists None. split; [by left | done].
Qed.


(** The parts of the state no probe touches. *)
Definition settled (s : node) : S3SyncManager * (gmap string Z * bool) := (s3SyncMgr s, restart_state s).

Lemma volID_spec (G : history -> call -> Prop) dir h :
  (forall h c, mutates c = false -> G h c) ->
  wpc G (getVolumeIDFromVolData dir) (fun h' v => h ⊆ h' /\ volume_of dir v h') h.
Proof.
  intros HG. unfold getVolumeIDFromVolData. wp_step. apply wpc_perform; [by apply HG |]. intros r. cbn [wpc].
  split; [sub |]. exists r. split; [by left | done].
Qed.

Lemma registry_spec s0 dir names s h :
  settled s = settled s0 -> zombieVFSStrikes (chk s) = zombieVFSStrikes (chk s0) ->
  vfsProbesInFlight (chk s) = vfsProbesInFlight (chk s0) ->
  wpc looks_only (vfsRegistryMissing dir names s)
    (fun h' r => h ⊆ h' /\ settled (fst r) = settled s0 /\ vfsProbesInFlight (chk (fst r)) = vfsProbesInFlight (chk s0)
       /\ (snd r = true -> dead s0 dir names h')) h.
Proof.
  intros Hs Hz Hp. unfold vfsRegistryMissing, isVolumeSetupInProgress, isBackgroundDraining. destruct names as [m |]; [| done].
  do 2 wm_step. eapply wpc_post; [by apply volID_spec |]. intros h1 v [A1 Hv]. cbn [fst snd].
  do 4 wm_step. destruct (_ || _ || _) eqn:E; [done |]. bools. unfold expectedFSName, lookup_manager.
  do 3 wm_step. pose proof Hs as Hss. injection Hs as Hs _ _.
  eapply (wpc_post _ _ (fun h' r => h1 ⊆ h' /\ fst r = s /\ filesystem_of s0 v (snd r) h')).
  { unfold filesystem_of. rewrite <- Hs. destruct (_ !! v); [by cbn |]. wm_step.
    unfold FSNameForVolume, LoadVFSNameMap. do 2 wp_step. apply wpc_perform; [done |].
    intros r. cbn [wpc fst snd]. split; [sub |]. split; [done |]. exists r. split; [by left |].
    by destruct r as [[] |]. }
  intros h2 [s2 fs] (A2 & E2 & Hfs); cbn [fst snd] in *; subst s2. destruct (0 <? _)%nat eqn:Efs.
  { do 3 wm_step. by (splits; [sub | done | done |]). }
  do 2 wm_step. cbn zeta. destruct (_ <? _) eqn:Est.
  { do 3 wm_step. by (splits; [sub | done | done |]). }
  do 3 wm_step. splits; [sub | done | done |]. intros _. rewrite Hz in Est.
  apply Nat.ltb_ge, Nat.le_0_r in Efs. destruct (zombieVFSStrikes (chk s0) !! v) as [n |] eqn:Ez; bools.
  - eapply dead_zombie; [done | by eapply volume_of_mono | exact Hfs | exact Efs | by rewrite <- Hs | by rewrite <- Hs | exact Ez |].
    unfold zombieVFSConfirmations in *. lia.
  - unfold zombieVFSConfirmations in *. lia.
Qed.

Lemma responsive_spec s0 dir names s h :
  settled s = settled s0 -> vfsProbesInFlight (chk s) = vfsProbesInFlight (chk s0) ->
  wpc looks_only (mountVFSResponsive (path_join [dir; "globalmount"]) s)
    (fun h' r => h ⊆ h' /\ settled (fst r) = settled s0 /\ (snd r = false -> dead s0 dir names h')) h.
Proof.
  intros Hs Hp. set (path := path_join _). unfold mountVFSResponsive. wm_step. apply wpm_ask; [done |]. intros now. cbn [fst snd].
  do 2 wm_step. rewrite Hp. destruct (_ !! path) as [since |] eqn:Ei.
  { wm_step. split; [sub |]. split; [done |]. intros E. bools. eapply dead_probe_stuck; [done | by left | done]. }
  do 4 wm_step. eapply wpc_post; [apply wpc_extends, probe_spec |]. intros h1 r [H1 [_ Hr]]. cbn [fst snd].
  wm_step. apply wpm_ask; [done |]. intros later. cbn [fst snd]. destruct (_ <=? _).
  - wm_step. split; [sub | done].
  - do 3 wm_step. split; [sub |]. split; [done |]. destruct r as [[] | e]; [done |]. intros _.
    eapply dead_mono; [| by eapply dead_probe]. sub.
Qed.

Lemma diagnose_spec dir names s h :
  wpc looks_only (diagnose dir names s)
    (fun h' r => settled (fst r) = settled s /\ diagnosed s dir names h' (snd r)) h.
Proof.
  unfold diagnose, statfsBounded. set (path := path_join _). do 2 wm_step. apply wpc_perform; [done |].
  intros st. cbn [fst snd]. destruct st as [[[] | e] |].
  - do 2 wm_step. eapply wpc_post; [apply fuse_spec |]. intros h1 fuse [H1 Hf]. cbn [fst snd]. destruct fuse; cbn [negb].
    + wm_step. eapply wpc_post; [by apply (registry_spec s dir) |]. intros h2 [s2 zombie] (H2 & Hs2 & Hp2 & Hz); cbn [fst snd] in *.
      destruct zombie; [wm_step; by split; [| apply Hz] |].
      wm_step. eapply wpc_post; [by apply (responsive_spec s) |]. intros h3 [s3 ok] (H3 & Hs3 & Ho); cbn [fst snd] in *.
      wm_step. split; [done |]. destruct ok; [done | by apply Ho].
    + wm_step. split; [done |]. split; [apply H1; by left | by apply Hf].
  - assert (Hd : diagnosed s dir names (Ev (CStatfsB path (5 * second)) (Done (Err e)) :: h) (if isMountDeadErr e then Stale else Healthy)).
    { destruct (isMountDeadErr e) eqn:E; [| done]. eapply dead_errno; [by left | done]. }
    destruct e; wm_step; by split.
  - wm_step. split; [done |]. apply dead_wedged. by left.
Qed.

(** Some pod on this node was listed that mounts the claim of volume [v], which
    the volume's PV names. *)
Definition consumed (nodeID v : string) (h : history) : Prop :=
  exists pvs p n c pods q,
    Ev CListPVs (Ok pvs) ∈ h /\ p ∈ pvs /\ (exists src, pv_csi p = Some src /\ csi_handle src = v) /\ pv_claim p = Some (n, c)
    /\ Ev (CListPods n (Some nodeID)) (Ok pods) ∈ h /\ q ∈ pods /\ existsb (claims c) (pod_volumes q) = true.

(** When a staging directory may be repaired. *)
Definition repairable (nodeID : string) (s : node) (dir : string) (names : option (gmap string nat)) (h : history) : Prop :=
  let path := path_join [dir; "globalmount"] in
  exists v, volume_of dir v h
  /\ (v = "" \/ (v ∉ volumesInSetup (s3SyncMgr s)) /\ v ∉ backgroundDrains (s3SyncMgr s))
  /\ (dead s dir names h
      \/ v <> "" /\ Ev (CStatfsB path (5 * second)) (Done (Ok tt)) ∈ h /\ absent_or_unread path h /\ consumed nodeID v h).
Definition repair_guard nodeID s dir names (h : history) (c : call) : Prop :=
  mutates c = true -> repairable nodeID s dir names h.

Lemma consumed_mono nodeID v h h' : h ⊆ h' -> consumed nodeID v h -> consumed nodeID v h'.
Proof. intros Hs (pvs & p & n & c & pods & q & H1 & H2 & H3 & H4 & H5 & H6). exists pvs, p, n, c, pods, q. auto 7. Qed.
Lemma repairable_mono nodeID s dir names h h' :
  h ⊆ h' -> repairable nodeID s dir names h -> repairable nodeID s dir names h'.
Proof.
  intros Hs (v & Hv & Hb & Hd). exists v. split; [by eapply volume_of_mono |]. split; [done |].
  destruct Hd as [Hd | (Hv' & Hst & Hg & Hc)]; [left; by eapply dead_mono | right].
  split; [done |]. split; [auto |]. split; [by eapply absent_or_unread_mono | by eapply consumed_mono].
Qed.

(** After the evidence, anything goes. *)
Lemma wpc_after {A} (E : history -> Prop) (p : prog A) h :
  (forall h h', h ⊆ h' -> E h -> E h') -> E h -> wpc (fun h' c => mutates c = true -> E h') p (fun _ _ => True) h.
Proof.
  intros Hm. revert h. induction p as [a | c k IH]; cbn; intros h HE; [done |]. split; [done |]. intros r.
  apply IH. eapply Hm; [| exact HE]. sub.
Qed.
Lemma repair_after {A} nodeID s dir names (p : prog A) h :
  repairable nodeID s dir names h -> wpc (repair_guard nodeID s dir names) p (fun _ _ => True) h.
Proof. intros H. apply (wpc_after (repairable nodeID s dir names)); [| done]. intros h1 h2. apply repairable_mono. Qed.

Lemma wpc_reads {A} (G : history -> call -> Prop) (p : prog A) Q h :
  only (fun c => mutates c = false) p -> (forall h c, mutates c = false -> G h c) ->
  wpc anything p Q h -> wpc G p (fun h' a => h ⊆ h' /\ Q h' a) h.
Proof.
  intros Ho HG Hq. eapply wpc_mono; [apply wpc_extends, (wpc_with_only _ _ _ _ Ho Hq) | by auto | done].
Qed.

Lemma getS3VolumeContext_reads clientset v : only (fun c => mutates c = false) (getS3VolumeContext clientset v).
Proof. unfold getS3VolumeContext. only_with ltac:(done). Qed.
Lemma resolveVolumeRefs_reads clientset v : only (fun c => mutates c = false) (resolveVolumeRefs clientset v).
Proof. unfold resolveVolumeRefs, getPVByVolumeID. only_with ltac:(done). Qed.
Lemma podsUsingPVC_reads nodeID clientset n c : only (fun c => mutates c = false) (podsUsingPVC nodeID clientset n c).
Proof. unfold podsUsingPVC. only_with ltac:(done). Qed.

Lemma resolveVolumeRefs_spec clientset v h :
  wpc anything (resolveVolumeRefs clientset v)
    (fun h' r => let '(n, c, _) := r in n = "" \/ exists pvs p, Ev CListPVs (Ok pvs) ∈ h' /\ p ∈ pvs
       /\ (exists src, pv_csi p = Some src /\ csi_handle src = v) /\ pv_claim p = Some (n, c)) h.
Proof.
  unfold resolveVolumeRefs, getPVByVolumeID. destruct (negb clientset); [by left |]. wp_step. wp_step.
  apply wpc_perform; [done |]. intros [pvs | e]; cbn [wpc]; [| by left].
  destruct (List.find _ pvs) as [p |] eqn:Hf; cbn [wpc]; [| by left]. apply find_elem in Hf as [Hp Hc].
  destruct (pv_claim p) as [[n c] |] eqn:Ec; [| by left]. right. exists pvs, p. split; [by left |]. split; [done |].
  split; [| done]. destruct (pv_csi p) as [src |]; [| done]. exists src. split; [done |]. by apply bool_decide_eq_true in Hc.
Qed.

Lemma podsUsingPVC_spec nodeID clientset n c h :
  wpc anything (podsUsingPVC nodeID clientset n c) (fun h' l => l <> [] ->
    n <> "" /\ exists pods q, Ev (CListPods n (Some nodeID)) (Ok pods) ∈ h' /\ q ∈ pods /\ existsb (claims c) (pod_volumes q) = true) h.
Proof.
  unfold podsUsingPVC. destruct (_ || _ || _) eqn:En; [by cbn; intros [] |]. bools. wp_step. apply wpc_perform; [done |].
  intros [pods | e]; cbn [wpc]; [| by intros []]. intros Hl. split; [done |].
  destruct (List.filter _ pods) as [| p l] eqn:E; [done |].
  assert (Hp : p ∈ List.filter (fun p => existsb (claims c) (pod_volumes p)) pods) by (rewrite E; by left).
  apply elem_of_filter_bool in Hp as [Hp Hcl]. exists pods, p. split; [by left | done].
Qed.

Section evidence.
Context (nodeID : string) (clientset : bool) (s0 : node) (dir : string) (names : option (gmap string nat)).

Lemma looks_repair (h : history) (c : call) : mutates c = false -> repair_guard nodeID s0 dir names h c.
Proof. unfold repair_guard. intros ->. done. Qed.

Lemma repair_entry_spec (stale : bool) s h :
  settled s = settled s0 -> diagnosed s0 dir names h (if stale then Stale else Missing) ->
  wpc (repair_guard nodeID s0 dir names) (repair_entry nodeID clientset dir stale s) (fun _ _ => True) h.
Proof.
  intros Hs Hd. unfold repair_entry. set (path := path_join _) in *. cbn zeta. do 2 wm_step.
  eapply wpc_post; [apply volID_spec, looks_repair |]. intros h1 v [A1 Hv]. cbn [fst snd].
  injection Hs as Hs _ _.
  assert (Hst : forall h' : history, h1 ⊆ h' -> stale = true ->
    (v = "" \/ (v ∉ volumesInSetup (s3SyncMgr s)) /\ v ∉ backgroundDrains (s3SyncMgr s)) ->
    repairable nodeID s0 dir names h').
  { intros h' Hh -> Hb. eapply repairable_mono; [exact Hh |]. exists v. rewrite <- Hs. split; [done |]. split; [done |].
    left. by eapply dead_mono. }
  case_bool_decide as Hv0.
  { destruct stale; [| done]. apply wpm_lift. apply repair_after. by apply Hst; [| | left]. }
  unfold isVolumeSetupInProgress, isBackgroundDraining. do 4 wm_step. destruct (_ || _) eqn:E; [done |]. bools.
  do 2 wm_step. eapply wpc_post; [apply wpc_reads; [apply getS3VolumeContext_reads | apply looks_repair | apply wpc_trivial] |].
  intros h2 ctx [A2 _]. cbn [fst snd]. destruct ctx as [ctx |]; [destruct stale |].
  - wm_step. wm_step. apply repair_after, Hst; auto.
  - wm_step. wm_step. wp_step.
    eapply wpc_post; [apply wpc_reads; [apply resolveVolumeRefs_reads | apply looks_repair | apply resolveVolumeRefs_spec] |].
    intros h3 [[pvcNS pvcName] pvName] [A3 Href]. wp_step.
    eapply wpc_post; [apply wpc_reads; [apply podsUsingPVC_reads | apply looks_repair | apply podsUsingPVC_spec] |].
    intros h4 l [A4 Hl]. cbn [wpc fst snd]. case_bool_decide as El; [done |]. cbn [negb].
    destruct Hl as (Hn & pods & q & Hq1 & Hq2 & Hq3); [by intros -> |]. destruct Href as [| (pvs & p & P1 & P2 & P3 & P4)]; [done |].
    apply repair_after. exists v. rewrite <- Hs. destruct Hd as [Hd1 Hd2].
    split; [eapply volume_of_mono, Hv; sub |]. split; [by right |]. right. splits.
    + done.
    + auto 6.
    + eapply absent_or_unread_mono; [| exact Hd2]. sub.
    + exists pvs, p, pvcNS, pvcName, pods, q. splits; auto.
  - destruct stale; [| done]. apply wpm_lift. apply repair_after, Hst; auto.
Qed.

End evidence.

(** C12: The checker disturbs a mount only on evidence about that mount.
    Whatever the host, the registry and the cluster answer, handling one staging
    directory changes nothing outside the process until that directory's mount
    was shown dead: statfs of it blocked for 5 s or failed with EIO, ENOTCONN
    or ESTALE; an open or a listing below it failed so; a probe of it has been
    in flight for over 2 minutes; or rclone's list of this tick lacks the name
    under which the directory's volume is served, and that volume had a strike
    already; or until the mount table was read without a FUSE mount there, or
    could not be read (which the code does not tell apart; see
    [lost_table_destroys_live_volume]), while statfs answered and a pod on this
    node was listed with the claim of the directory's volume.  Nor is it
    touched while its volume is being set up or drained. *)
Theorem repairs_only_on_evidence env nodeID clientset plugin names e s :
  hist_ok (repair_guard nodeID s (path_join [plugin; de_name e]) names)
    (fst (run env (check_entry nodeID clientset plugin names e s) [])).
Proof.
  eapply wpc_run; [| done]. instantiate (1 := fun _ _ => True). unfold check_entry.
  destruct (de_isdir e); cbn [negb]; [| done]. set (dir := path_join _). cbn zeta.
  wm_step. eapply wpc_mono; [apply diagnose_spec | intros ? ?; apply looks_repair |].
  intros h1 [s1 d] [Hs Hd]; cbn [fst snd] in *. destruct d.
  - done.
  - do 2 wm_step. eapply wpc_post; [apply volID_spec, looks_repair |]. intros h2 v _. cbn [fst snd]. by case_bool_decide.
  - by apply (repair_entry_spec nodeID clientset s dir names true).
  - by apply (repair_entry_spec nodeID clientset s dir names false).
Qed.

(** * What the gates miss *)

Definition live_mount : string := "/var/lib/kubelet/plugins/kubernetes.io/csi/lukscryptwalker.csi.k8s.io/x/globalmount".
Definition live_table : stacks := {[live_mount := [{| Dev := "0:50"; FSType := "fuse.rclone" |}]]}.

Definition live_pv : pv :=
  PV "pvc-1" ∅ "" (Some (CSISource DriverName "pvc-1" (Some {["storage-backend" := "s3"]}))) (Some ("ns", "claim")).

(** The mount table is readable until the first statfs of a tick, then not; one
    S3 volume is staged, its mount answers, and one pod uses it. *)
Definition losing_table : environment := override_env (fun h c =>
  match c with
  | CHostMounts =>
      Some (if existsb (fun e => match e with Ev (CStatfsB _ _) _ => true | _ => false end) h then None else Some live_table)
  | CExec _ _ ["umount"; "-l"; _] => Some XTimeout
  | CStat _ => Some (Ok (FStat 0 true 0))
  | CReadDir p => Some (if bool_decide (p = csiPluginPath "/var/lib/kubelet") then Ok [DirEnt "x" true false false] else Err ENOENT)
  | CReadJson _ => Some (Ok (Some (JObj [("volumeHandle", JStr "pvc-1")])))
  | CGetPV _ => Some (Ok live_pv)
  | CListPVs => Some (Ok [live_pv])
  | CListPods _ _ => Some (Ok [Pod "u" "ns" "p" None None PodRunning false true None [("v", Some "claim")] [] []])
  | _ => None
  end).

(** What a history shows of [path]: every table that was read has a FUSE mount
    there, every statfs answered; and the tree below it was removed. *)
Definition shown_live (path : string) (h : history) : bool :=
  existsb (fun e => match e with Ev CHostMounts (Some t) => true | _ => false end) h
  && forallb (fun e => match e with
       | Ev CHostMounts (Some t) => table_fuse t path
       | Ev (CStatfsB _ _) r => match r with Done (Ok _) => true | _ => false end
       | _ => true end) h.
Definition removed_tree (path : string) (h : history) : bool :=
  existsb (fun e => match e with Ev (CRemoveAllB p _) _ => bool_decide (p = path) | _ => false end) h.

(** The tick's check that the mount table is readable does not cover the
    tick.  A table that becomes unreadable after it reads as "no mount": there
    is a world in which every table that could be read shows the volume's FUSE
    mount, every statfs on it answers and a pod uses it, and one tick takes it
    for missing, fails to unmount it, and deletes the tree below it, which is
    the volume. *)
Theorem lost_table_destroys_live_volume ParseFloat :
  exists env, let h := fst (run env (cleanupStaleS3Mounts "n" true ParseFloat empty_node) []) in
  shown_live live_mount h = true /\ removed_tree live_mount h = true.
Proof. exists losing_table. vm_compute. by split. Qed.

(** * Recovery of stranded volumes *)

(** No staging directory of kubelet was found to be of volume [v]: there is no
    plugin directory, or the file of every directory in it names another volume
    or could not be read. *)
Definition unstaged (v : string) (h : history) : Prop :=
  exists plugin,
    Ev (CReadDir plugin) (Err ENOENT) ∈ h
    \/ exists entries, Ev (CReadDir plugin) (Ok entries) ∈ h
       /\ forall e, e ∈ entries -> de_isdir e = true ->
            exists w, volume_of (path_join [plugin; de_name e]) w h /\ (w = "" \/ w <> v).
(** A cache directory of [v] was found and walked. *)
Definition cached (v : string) (h : history) : Prop :=
  exists entries e visits,
    Ev (CReadDir (path_join [VFSCacheBasePath; "vfsMeta"])) (Ok entries) ∈ h /\ e ∈ entries
    /\ volumeIDOfVFSName (de_name e) = v
    /\ Ev (CWalkDir (path_join [VFSCacheBasePath; "vfsMeta"; de_name e])) visits ∈ h.
(** 5 minutes have passed since the last attempt recorded in [s]. *)
Definition retry_due (s : node) (v : string) (h : history) : Prop :=
  forall t, strandedRetry (chk s) !! v = Some t -> exists now, Ev CNow now ∈ h /\ strandedRetryInterval <= now - t.

Definition recoverable (s : node) (v : string) (h : history) : Prop :=
  (v ∉ volumesInSetup (s3SyncMgr s)) /\ mountManagers (s3SyncMgr s) !! v = None
  /\ (v ∉ backgroundDrains (s3SyncMgr s))
  /\ unstaged v h /\ cached v h /\ retry_due s v h.

(** What [recoverStrandedVolumes], begun in [s], has done when in [s']. *)
Definition stranded_progress (s : node) (h : history) (s' : node) : Prop :=
  volumesInSetup (s3SyncMgr s') = volumesInSetup (s3SyncMgr s)
  /\ mountManagers (s3SyncMgr s') = mountManagers (s3SyncMgr s)
  /\ (forall v, strandedRetry (chk s') !! v = strandedRetry (chk s) !! v \/ recoverable s v h)
  /\ backgroundDrains (s3SyncMgr s) ⊆ backgroundDrains (s3SyncMgr s')
  /\ (forall v, v ∈ backgroundDrains (s3SyncMgr s') -> v ∈ backgroundDrains (s3SyncMgr s) \/ recoverable s v h)
  /\ exists l, tasks (s3SyncMgr s') = tasks (s3SyncMgr s) ++ l
      /\ forall t, t ∈ l -> exists v ctx, t = ResumeTask v (path_join [drainMountBase; v]) ctx /\ recoverable s v h.

Lemma unstaged_mono v h h' : h ⊆ h' -> unstaged v h -> unstaged v h'.
Proof.
  intros Hs (plugin & Hu). exists plugin. destruct Hu as [Hu | (entries & Hu & He)]; [left; auto | right].
  exists entries. split; [auto |]. intros e' Hin Hd. destruct (He e' Hin Hd) as (w & Hw & Hne).
  exists w. split; [by eapply volume_of_mono | done].
Qed.
Lemma cached_mono v h h' : h ⊆ h' -> cached v h -> cached v h'.
Proof. intros Hs (es & e & vs & C1 & C2 & C3 & C4). exists es, e, vs. auto 6. Qed.
Lemma recoverable_mono s v h h' : h ⊆ h' -> recoverable s v h -> recoverable s v h'.
Proof.
  intros Hs (H1 & H2 & H3 & H4 & H5 & H6). unfold recoverable.
  splits; [done | done | done | by eapply unstaged_mono | by eapply cached_mono |].
  intros t Ht. destruct (H6 t Ht) as (now & Hn & Hle). exists now. auto.
Qed.
Lemma progress_mono s h h' s' : h ⊆ h' -> stranded_progress s h s' -> stranded_progress s h' s'.
Proof.
  intros Hs (H1 & H2 & H3 & Hm & H4 & l & H5 & H6). unfold stranded_progress. splits; [done | done | | done | |].
  - intros v. destruct (H3 v); [by left | right; by eapply recoverable_mono].
  - intros v Hv. destruct (H4 v Hv); [by left | right; by eapply recoverable_mono].
  - exists l. split; [done |]. intros t Ht. destruct (H6 t Ht) as (v & ctx & -> & Hr). exists v, ctx.
    split; [done | by eapply recoverable_mono].
Qed.

Lemma dirty_volumes_spec seen entries all h :
  Ev (CReadDir (path_join [VFSCacheBasePath; "vfsMeta"])) (Ok all) ∈ h -> entries ⊆ all ->
  (forall v, v ∈ seen -> cached v h) ->
  wpc looks_only (dirty_volumes VFSCacheBasePath seen entries) (fun h' l => h ⊆ h' /\ forall v, v ∈ l -> cached v h') h.
Proof.
  revert seen h. induction entries as [| e entries IH]; intros seen h Hall Hin Hseen; cbn [dirty_volumes]; [by split |].
  assert (Htl : entries ⊆ all) by (intros x Hx; apply Hin; by right).
  destruct (negb _); [by apply IH |]. destruct (decide _); [by apply IH |].
  unfold hasDirtyCacheItemsAt. do 2 wp_step. apply wpc_perform; [done |]. intros visits.
  assert (Hgo : forall l h1, Ev (CWalkDir (path_join [VFSCacheBasePath; "vfsMeta"; de_name e])) visits :: h ⊆ h1 ->
    (forall v, v ∈ l -> v ∈ seen \/ v = volumeIDOfVFSName (de_name e)) ->
    wpc looks_only (dirty_volumes VFSCacheBasePath l entries) (fun h' l => h ⊆ h' /\ forall v, v ∈ l -> cached v h') h1).
  { intros l h1 H1 Hl. eapply wpc_post; [apply IH; [apply H1; by right | done |] |].
    - intros v Hv. destruct (Hl v Hv) as [Hs | ->].
      + destruct (Hseen v Hs) as (es & e' & vs & C1 & C2 & C3 & C4). exists es, e', vs. splits; [ | done | done |];
          apply H1; by right.
      + exists all, e, visits. splits; [apply H1; by right | apply Hin; by left | done | apply H1; by left].
    - intros h2 l2 [H2 Hl2]. split; [sub | done]. }
  wp_step. eapply wpc_post; [apply wpc_extends, dirty_walk_spec |]. intros h1 r [H1 _]. cbn [wpc].
  destruct (match r with Ok d => d | Err ENOENT => false | Err _ => true end);
    (apply Hgo; [done |]).
  - intros v [Hv | ->%list_elem_of_singleton]%elem_of_app; auto.
  - auto.
Qed.
Lemma VolumesWithUnuploadedData_spec h :
  wpc looks_only VolumesWithUnuploadedData (fun h' l => h ⊆ h' /\ forall v, v ∈ l -> cached v h') h.
Proof.
  unfold VolumesWithUnuploadedData, volumesWithUnuploadedDataAt. wp_step. apply wpc_perform; [done |].
  intros [entries | e]; cbn [wpc]; [| split; [sub |]; by intros v ?%not_elem_of_nil].
  wp_step. eapply wpc_post; [apply (dirty_volumes_spec [] entries entries); [by left | done |] |].
  - by intros v ?%not_elem_of_nil.
  - intros h' l [Hs Hl]. cbn. split; [sub |]. intros v Hv. apply Hl. by apply (proj1 (sort_strings_elem l v)).
Qed.

Lemma staged_ids_spec plugin entries seen h :
  wpc looks_only (staged_ids plugin entries seen)
    (fun h' ids => h ⊆ h' /\ seen ⊆ ids /\ forall e, e ∈ entries -> de_isdir e = true ->
       exists w, volume_of (path_join [plugin; de_name e]) w h' /\ (w <> "" -> w ∈ ids)) h.
Proof.
  revert seen h. induction entries as [| e entries IH]; intros seen h; cbn [staged_ids].
  { cbn. splits; [done | done |]. by intros e ?%not_elem_of_nil. }
  destruct (de_isdir e) eqn:Hd; cbn [negb].
  2: { eapply wpc_post; [apply IH |]. intros h' ids (A1 & A2 & A3). splits; [done | done |].
       intros e' [-> | Hin]%elem_of_cons Hd'; [congruence | by apply A3]. }
  unfold getVolumeIDFromVolData. do 2 wp_step. apply wpc_perform; [done |]. intros r. cbn [wpc].
  eapply wpc_post; [apply IH |]. intros h' ids (A1 & A2 & A3). splits; [sub | |].
  - case_bool_decide; set_solver.
  - intros e' [-> | Hin]%elem_of_cons Hd'; [| by apply A3].
    eexists. split; [exists r; split; [apply A1; by left | reflexivity] |].
    intros Hne. rewrite bool_decide_eq_false_2 in A2 by done. set_solver.
Qed.

Lemma stagedVolumeIDs_spec s h :
  wpc anything (stagedVolumeIDs s)
    (fun h' r => h ⊆ h' /\ s3SyncMgr (fst r) = s3SyncMgr s /\ chk (fst r) = chk s
       /\ forall ids v, snd r = Some ids -> v ∉ ids -> unstaged v h') h.
Proof.
  unfold stagedVolumeIDs. wm_step.
  eapply (wpc_post _ _ (fun h' r => h ⊆ h' /\ s3SyncMgr (fst r) = s3SyncMgr s /\ chk (fst r) = chk s)).
  { eapply wpc_post; [by apply resolve_spec |]. by intros h1 [s1 root] [[H1 ->] | [-> ->]]. }
  intros h1 [s1 root] (H1 & E1 & E2); cbn [fst snd] in *. wm_step. apply wpm_ask; [done |].
  intros [entries | e]; cbn [fst snd].
  - do 2 wm_step. eapply wpc_mono; [apply staged_ids_spec | done |]. intros h2 ids (H2 & _ & H3). cbn [fst snd].
    wm_step. splits; [sub | done | done |]. intros ? v [= <-] Hn. exists (csiPluginPath root). right. exists entries.
    split; [apply H2; by left |]. intros e He Hd. destruct (H3 e He Hd) as (w & Hw & Hin). exists w. split; [done |].
    destruct (decide (w = "")); [by left | right]. intros ->. by apply Hn, Hin.
  - destruct e; wm_step; splits; try done; try sub. intros ? v [= <-] _. exists (csiPluginPath root). left. by left.
Qed.

Section stranded.
Context (clientset : bool) (s0 : node).

Lemma take_stranded v ctx s h :
  stranded_progress s0 h s -> recoverable s0 v h ->
  stranded_progress s0 h (on_tasks (fun l => l ++ [ResumeTask v (path_join [drainMountBase; v]) ctx])
    (on_drains (fun d => {[v]} ∪ d) s)).
Proof.
  intros (H1 & H2 & H3 & Hm & H4 & l & H5 & H6) Hr. unfold stranded_progress. splits; [done | done | done | | |].
  - cbn. set_solver.
  - cbn. intros w [->%elem_of_singleton | Hw]%elem_of_union; [by right | by apply H4].
  - exists (l ++ [ResumeTask v (path_join [drainMountBase; v]) ctx]). cbn. rewrite H5, <- app_assoc.
    split; [done |]. intros t [Ht | ->%list_elem_of_singleton]%elem_of_app; [by apply H6 | by exists v, ctx].
Qed.

Lemma resume_stranded v s h :
  v ∉ backgroundDrains (s3SyncMgr s) -> recoverable s0 v h -> stranded_progress s0 h s ->
  wpc anything (resumeStrandedDrain clientset v (path_join [drainMountBase; v]) s)
    (fun h' r => h ⊆ h' /\ stranded_progress s0 h' (fst r)) h.
Proof.
  intros Hd Hr Hp. unfold resumeStrandedDrain. case_bool_decide; [done |].
  apply wpm_skip_lift. intros h1 ctx A1. assert (Hp1 : stranded_progress s0 h1 s) by (by eapply progress_mono).
  destruct ctx as [ctx |]; [| by split].
  unfold startBackgroundDrain, isBackgroundDraining, spawn. do 3 wm_step. rewrite bool_decide_eq_false_2 by done.
  do 2 wm_step. apply wpm_skip_lift. intros h2 u A2. wm_step. cbn [negb].
  apply wpm_skip_lift. intros h3 u' A3. wm_step. cbn [fst]. split; [sub |].
  apply take_stranded; [by eapply progress_mono; [| exact Hp1]; sub | by eapply recoverable_mono; [| exact Hr]; sub].
Qed.

Lemma recover_stranded_spec staged v s h :
  (v ∉ staged -> unstaged v h) -> cached v h -> stranded_progress s0 h s ->
  wpc anything (recover_stranded clientset staged v s) (fun h' r => h ⊆ h' /\ stranded_progress s0 h' (fst r)) h.
Proof.
  intros Hun Hc Hp. unfold recover_stranded, isVolumeSetupInProgress, isBackgroundDraining, lookup_manager.
  do 4 wm_step. destruct (_ || _ || _) eqn:E; [done |]. bools. do 2 wm_step.
  destruct (_ !! v) eqn:Em; [done |]. do 2 wm_step.
  assert (Hgo : forall h1, h ⊆ h1 -> retry_due s v h1 ->
    wpc anything ((forced <~ lift (forceUnstageRequested clientset v) ;;
       if (forced : bool) then ret tt
       else now <~ ask CNow ;; modify (on_strandedRetry (insert v now)) ;~
            resumeStrandedDrain clientset v (path_join [drainMountBase; v])) s)
      (fun h' r => h ⊆ h' /\ stranded_progress s0 h' (fst r)) h1).
  { intros h1 A1 Hdue. assert (Hp1 : stranded_progress s0 h1 s) by (by eapply progress_mono).
    assert (Hr : recoverable s0 v h1).
    { destruct Hp1 as (P1 & P2 & P3 & P4 & P5 & P6). destruct (P3 v) as [P3v | P3v]; [| done].
      unfold recoverable. rewrite <- P1, <- P2. splits; [done | done | set_solver | | |].
      - eapply unstaged_mono; [| apply Hun]; [exact A1 | done].
      - by eapply cached_mono.
      - intros t. rewrite <- P3v. apply Hdue. }
    apply wpm_skip_lift. intros h2 forced A2. destruct forced; [split; [sub | by eapply progress_mono] |].
    wm_step. apply wpm_ask; [done |]. intros now. cbn [fst snd]. do 2 wm_step.
    eapply wpc_post; [apply resume_stranded; [done | eapply recoverable_mono; [| exact Hr]; sub |] |].
    - destruct (progress_mono s0 h1 (Ev CNow now :: h2) s ltac:(sub) Hp1) as (P1 & P2 & P3 & P4).
      split; [done |]. split; [done |]. split; [| exact P4].
      intros w. cbn. destruct (decide (w = v)) as [-> |]; [right | rewrite lookup_insert_ne by done; apply P3].
      eapply recoverable_mono; [| exact Hr]. sub.
    - intros h3 r [A3 Hp3]. split; [sub | done]. }
  wm_step. destruct (strandedRetry (chk s) !! v) as [t |] eqn:Et.
  - wm_step. apply wpm_ask; [done |]. intros now. cbn [fst snd]. wm_step. destruct (_ <? _) eqn:El.
    + wm_step. split; [sub | eapply progress_mono; [| exact Hp]; sub].
    + bools. apply Hgo; [sub |]. intros t' E'. rewrite Et in E'. injection E' as <-. exists now. split; [by left | done].
  - wm_step. apply Hgo; [done |]. intros t' E'. congruence.
Qed.
End stranded.

(** Stranded uploads are resumed only where nothing else owns the volume.
    Whatever the host and the cluster answer, [recoverStrandedVolumes] starts a
    drain only of volumes that have a cache directory here, that no staging
    directory kubelet has was read to be of, that are not being set up, mounted
    or draining, and that were not tried in the last 5 minutes; every drain it
    starts mounts below the driver's own directory, never on a kubelet path,
    and it touches neither the mounts nor the marks of any volume. *)
Theorem stranded_recovery_exclusive env clientset s :
  let '(h, (s', _)) := run env (recoverStrandedVolumes clientset s) [] in stranded_progress s h s'.
Proof.
  pose proof (wpc_run_post env (recoverStrandedVolumes clientset s) (fun h r => stranded_progress s h (fst r)) []) as H.
  destruct (run env _ []) as [h [s' u]]. apply H. clear h s' u H.
  assert (H0 : forall h s', s3SyncMgr s' = s3SyncMgr s -> chk s' = chk s -> stranded_progress s h s').
  { intros h s' E1 E2. unfold stranded_progress. rewrite E1, E2. splits; [done | done | by left | done | by left |].
    exists []. rewrite app_nil_r. split; [done |]. by intros t ?%not_elem_of_nil. }
  unfold recoverStrandedVolumes. do 2 wm_step. eapply wpc_mono; [apply VolumesWithUnuploadedData_spec | done |].
  intros h1 l [_ Hl]. cbn [fst snd]. case_bool_decide; [by apply H0 |].
  wm_step. eapply wpc_post; [apply stagedVolumeIDs_spec |]. intros h2 [s2 staged] (A2 & E1 & E2 & Hst); cbn [fst snd] in *.
  destruct staged as [staged |]; [| by apply H0].
  apply (wpc_post _ _ (fun h' r => (h2 ⊆ h' /\ stranded_progress s h' (fst r)))); [| by intros h' r []].
  apply (wpm_for_each _ _ _ (fun h' s' => h2 ⊆ h' /\ stranded_progress s h' s')); [split; [done | by apply H0] |].
  intros v s3 h3 Hv [A3 Hp]. eapply wpc_post; [apply recover_stranded_spec; [| | exact Hp] |].
  - intros Hn. eapply unstaged_mono; [exact A3 |]. by apply (Hst staged v).
  - eapply cached_mono; [| by apply Hl]. sub.
  - intros h4 r [A4 Hp4]. split; [sub | done].
Qed.

(** A staging directory whose vol_data.json cannot be read, and a dirty cache of
    the volume staged there. *)
Definition unreadable_staging : environment := override_env (fun h c =>
  match c with
  | CReadDir p =>
      Some (if bool_decide (p = csiPluginPath "/var/lib/kubelet") || bool_decide (p = path_join [VFSCacheBasePath; "vfsMeta"])
            then Ok [DirEnt "pvc-1" true false false] else Err ENOENT)
  | CWalkDir p => Some [VFile "/meta"]
  | CReadMeta _ => Some (Ok (Some (Meta 1 true [])))
  | CReadJson _ => Some (Err EIO)
  | CGetPV _ => Some (Ok live_pv)
  | _ => None
  end).

(** "unknown" is read as "not staged" after all: a staging directory whose
    vol_data.json cannot be read is left out of the staged volumes without
    making the answer unknown, and the volume staged there gets a private
    drain mount. *)
Theorem unreadable_staging_reads_unstaged :
  exists env,
    snd (snd (run env (stagedVolumeIDs empty_node) [])) = Some ∅
    /\ map task_volume (tasks (s3SyncMgr (fst (snd (run env (recoverStrandedVolumes true empty_node) []))))) = ["pvc-1"].
Proof. exists unreadable_staging. vm_compute. by split. Qed.

(** * Garbage collection of caches *)

(** A cache directory may go when its volume's PV was looked up and not found,
    or when it is mapped to no volume and was walked and found clean. *)
Definition gc_guard (m : gmap string string) (h : history) (c : call) : Prop :=
  match c with
  | CRemoveAll p =>
      exists name, (p = VFSCacheBasePath +s+ "/vfs/" +s+ name \/ p = VFSCacheBasePath +s+ "/vfsMeta/" +s+ name)
      /\ ((exists v, m !! v = Some name /\ Ev (CGetPV v) (Err KNotFound) ∈ h)
          \/ scanned_clean VFSCacheBasePath name h)
  | CWriteNameMap _ m' =>
      forall v, m' !! v = m !! v \/ m' !! v = None /\ Ev (CGetPV v) (Err KNotFound) ∈ h
  | c => mutates c = false
  end.

(** The memo remembers no volume as inactive but one whose PV was not found. *)
Definition memo_ok (memo : gmap string bool) (h : history) : Prop :=
  forall v, memo !! v = Some false -> Ev (CGetPV v) (Err KNotFound) ∈ h.

Lemma memo_ok_mono memo h h' : h ⊆ h' -> memo_ok memo h -> memo_ok memo h'.
Proof. intros Hs H v Hv. auto. Qed.
Lemma pv_active_spec v memo h :
  memo_ok memo h ->
  wpc looks_only (pv_active v memo)
    (fun h' r => h ⊆ h' /\ memo_ok (fst r) h' /\ (snd r = false -> Ev (CGetPV v) (Err KNotFound) ∈ h')) h.
Proof.
  intros Hm. unfold pv_active. destruct (memo !! v) as [known |] eqn:E.
  { cbn. splits; [done | done |]. intros ->. by apply Hm. }
  wp_step. apply wpc_perform; [done |]. intros r. cbn [wpc fst snd]. splits; [sub | |].
  - intros w. destruct (decide (w = v)) as [-> | Hne].
    + rewrite lookup_insert_eq. intros [= Hr]. destruct r as [? | []]; try done. by left.
    + rewrite lookup_insert_ne by done. intros Hw. right. by apply Hm.
  - intros Hr. destruct r as [? | []]; try done. by left.
Qed.

(** The callback is an oracle: a volume is gone when its PV was not found. *)
#[export] Instance pv_oracle : ActivityOracle pv_active.
Proof.
  refine (Oracle _ _ (fun v h => Ev (CGetPV v) (Err KNotFound) ∈ h) memo_ok _ memo_ok_mono _).
  - intros v h h' Hs Hv. by apply Hs.
  - intros v memo h. apply pv_active_spec.
Defined.

(** The garbage collection of caches deletes only what no volume needs.
    Whatever the host and the API server answer, it removes a generation's two
    directories only when the name map gives that generation to a volume whose
    PV was looked up in this run and not found (an API error keeps it), or
    when no volume maps to it and its metadata was walked and is clean; and it
    rewrites the name map only to drop such volumes. *)
Theorem cache_gc_only_orphans env clientset :
  let m := snd (run env LoadVFSNameMap []) in
  hist_ok (gc_guard m) (fst (run env (cleanupOrphanedVFSCacheDirs clientset) [])).
Proof.
  unfold cleanupOrphanedVFSCacheDirs. destruct clientset; cbn [negb]; [| done]. cbn zeta. rewrite run_bind. cbn [run fst].
  assert (Hk : memo_ok ∅ []) by by intros v. exact (collect_safe pv_active env ∅ Hk).
Qed.

End Checker.
