(* ===== verification/Registration.v ===== *)
(** * Registration: does kubelet know this driver? (pkg/driver/registration.go)

    The verdict behind the registration-health endpoint: the CSINode entry, the
    handshake since kubelet started, the reading of /proc that finds kubelet,
    and the events of a change.  The listener and the two tickers of
    [RunRegistrationHealthServer] are left to the runtime; one turn of each is
    a definition here. *)

From Stdlib Require Import Ascii.
From S2P Require Import Prelude GoStrings Effects Mounts MountManager Csi Endpoint Controller NodeMounts NodeLuks NodeState Drain S3Live NodeServer.
Import Mounts Csi Endpoint NodeState Drain NodeServer.

#[local] Open Scope Z_scope.

Module Registration.

Definition registrationStartupGrace : Z := 90 * second.
Definition kubeletRehandshakeGrace : Z := 90 * second.
Definition bindFailureEventThreshold : Z := 3.
Definition kubeletPort : Z := 10250.

(** ** Finding processes *)

(** [filepath.Base] of argv[0], and argv[1] of the multi-call binaries. *)
Definition isKubeletCmdline (args : list string) : bool :=
  match args with
  | [] => false
  | a0 :: rest =>
      if bool_decide (a0 = "") then false
      else if bool_decide (path_base a0 ∈ ["kubelet"; "kubelite"]) then true
      else if bool_decide (path_base a0 ∈ ["k3s"; "k3s-server"; "k3s-agent"; "rke2"; "rke2-server"; "rke2-agent"]) then
        match rest with a1 :: _ => bool_decide (a1 = "server") || bool_decide (a1 = "agent") | [] => false end
      else false
  end.

(** Field 22 of a /proc/<pid>/stat line: the 20th after the last [)]. *)
Definition stat_ticks (data : string) : option Z :=
  match cut_last ")" data with
  | None => None
  | Some (_, rest) => match fields rest !! 19%nat with Some f => parse_int f | None => None end
  end.
Definition processStartTicks (pid : string) : prog (option Z) :=
  r <- perform (CReadFile ("/proc/" +s+ pid +s+ "/stat")) ;;
  Ret match r with Ok data => stat_ticks data | Err _ => None end.

(** The first "btime" line decides, even one that does not parse. *)
Fixpoint btime_of (lines : list string) : option Z :=
  match lines with
  | [] => None
  | l :: lines =>
      match cut_prefix "btime " l with
      | Some rest => option_map (fun secs => secs * second) (parse_int (trim_space rest))
      | None => btime_of lines
      end
  end.
Definition hostBootTime : prog (option Z) :=
  r <- perform (CReadFile "/proc/stat") ;;
  Ret match r with Ok data => btime_of (split nl data) | Err _ => None end.

Definition startTimeFromTicks (bootTime ticks : Z) : Z := bootTime + wrap64 (ticks * (second / 100)).

(** *** Listening sockets *)

Definition hex_digit (c : ascii) : option Z :=
  let n := Z.of_nat (Ascii.nat_of_ascii c) in
  if (48 <=? n) && (n <=? 57) then Some (n - 48)
  else if (97 <=? n) && (n <=? 102) then Some (n - 87)
  else if (65 <=? n) && (n <=? 70) then Some (n - 55)
  else None.
Fixpoint parse_hex (acc : Z) (s : string) : option Z :=
  match s with
  | "" => Some acc
  | String c s => match hex_digit c with Some d => parse_hex (16 * acc + d) s | None => None end
  end.
(** [strconv.ParseUint(s, 16, 16)]. *)
Definition parse_uint16 (s : string) : option Z :=
  if bool_decide (s = "") then None
  else match parse_hex 0 s with Some n => if n <? 65536 then Some n else None | None => None end.

(** The socket link of one line of a /proc/net/tcp table, when it is a
    listening socket on [port]. *)
Definition listening_inode (port : Z) (line : string) : option string :=
  match fields line with
  | _ :: local :: _ :: st :: _ :: _ :: _ :: _ :: _ :: inode :: _ =>
      if negb (bool_decide (st = "0A")) then None
      else match cut_last ":" local with
      | None => None
      | Some (_, hex) =>
          match parse_uint16 hex with
          | Some p => if p =? port then Some ("socket:[" +s+ inode +s+ "]") else None
          | None => None
          end
      end
  | _ => None
  end.
Definition collectListeningInodes (file : string) (port : Z) (inodes : list string) : prog (list string) :=
  r <- perform (CReadFile file) ;;
  Ret match r with
      | Err _ => inodes
      | Ok data => inodes ++ omap (listening_inode port) (tl (split nl data))
      end.

Definition is_pid (name : string) : bool := match name with String c _ => is_digit c | "" => false end.

Fixpoint holds_any (pid : string) (inodes : list string) (fds : list dirent) : prog bool :=
  match fds with
  | [] => Ret false
  | fd :: fds =>
      link <- perform (CReadlink ("/proc/" +s+ pid +s+ "/fd/" +s+ de_name fd)) ;;
      if match link with Ok l => bool_decide (l ∈ inodes) | Err _ => false end then Ret true
      else holds_any pid inodes fds
  end.
Fixpoint find_holder (inodes : list string) (procs : list dirent) : prog (option string) :=
  match procs with
  | [] => Ret None
  | p :: procs =>
      if negb (is_pid (de_name p)) then find_holder inodes procs
      else
        fds <- perform (CReadDir ("/proc/" +s+ de_name p +s+ "/fd")) ;;
        match fds with
        | Err _ => find_holder inodes procs
        | Ok fds =>
            h <- holds_any (de_name p) inodes fds ;;
            if (h : bool) then Ret (Some (de_name p)) else find_holder inodes procs
        end
  end.
Definition pidListeningOn (port : Z) : prog (option string) :=
  inodes <- collectListeningInodes "/proc/net/tcp" port [] ;;
  inodes <- collectListeningInodes "/proc/net/tcp6" port inodes ;;
  if bool_decide (inodes = []) then Ret None
  else
    procs <- perform (CReadDir "/proc") ;;
    match procs with Err _ => Ret None | Ok procs => find_holder inodes procs end.

(** *** Kubelet *)

(** [time.Time{}], in unix nanoseconds. *)
Definition zero_time : Z := - 62135596800 * second.

Fixpoint newest_kubelet (bootTime newest : Z) (procs : list dirent) : prog Z :=
  match procs with
  | [] => Ret newest
  | p :: procs =>
      if negb (is_pid (de_name p)) then newest_kubelet bootTime newest procs
      else
        cmdline <- perform (CReadFile ("/proc/" +s+ de_name p +s+ "/cmdline")) ;;
        match cmdline with
        | Err _ => newest_kubelet bootTime newest procs
        | Ok cmdline =>
            if negb (isKubeletCmdline (split "000"%char cmdline)) then newest_kubelet bootTime newest procs
            else
              ticks <- processStartTicks (de_name p) ;;
              newest_kubelet bootTime
                match ticks with
                | Some t => Z.max newest (startTimeFromTicks bootTime t)
                | None => newest
                end procs
        end
  end.

Definition kubeletProcessStart : prog (option Z) :=
  boot <- hostBootTime ;;
  match boot with
  | None => Ret None
  | Some bootTime =>
      pid <- pidListeningOn kubeletPort ;;
      ticks <- match pid with Some pid => processStartTicks pid | None => Ret None end ;;
      match ticks with
      | Some t => Ret (Some (startTimeFromTicks bootTime t))
      | None =>
          procs <- perform (CReadDir "/proc") ;;
          match procs with
          | Err _ => Ret None
          | Ok procs =>
              newest <- newest_kubelet bootTime zero_time procs ;;
              Ret (if newest =? zero_time then None else Some newest)
          end
      end
  end.

(** ** The verdict *)

Section driver.
(** [driver.nodeID], whether [clientset] (hence [recorder]) is set,
    [driver.endpoint] (with net/url, see Endpoint), and when the health server
    was started. *)
Context (nodeID : string) (clientset : bool) (parse_other : string -> option url) (endpoint : string)
  (registrationHealthStart : Z).

Definition csiSocketAccepting : prog bool :=
  let addr := endpointAddr parse_other endpoint in
  if bool_decide (addr = "") then Ret true
  else r <- perform (CDial addr (2 * second)) ;; Ret (is_ok r).

Definition kubeletHandshakeCurrent : M bool :=
  start <~ lift kubeletProcessStart ;;
  match start with
  | None => ret true
  | Some kubeletStart =>
      now <~ ask CNow ;;
      if now - kubeletStart <? kubeletRehandshakeGrace then ret true
      else
        nanos <~ gets lastNodeGetInfo ;;
        ret ((0 <? nanos) && (kubeletStart <? nanos))
  end.

Definition isDriverRegistered : M bool :=
  now <~ ask CNow ;;
  if now - registrationHealthStart <? registrationStartupGrace then ret true
  else if negb clientset || bool_decide (nodeID = "") then ret true
  else
    csiNode <~ ask (CGetCSINode nodeID) ;;
    match csiNode with
    | Err _ => ret true
    | Ok drivers =>
        if bool_decide (DriverName ∈ drivers) then kubeletHandshakeCurrent
        else
          accepting <~ lift csiSocketAccepting ;;
          ret (negb accepting)
    end.

Definition recordRegistrationTransition (healthy : bool) : M unit :=
  was <~ gets regUnhealthy ;;
  modify (set_regUnhealthy (negb healthy)) ;~
  if negb clientset || bool_decide (was = negb healthy) then ret tt
  else ask (CEvent NodeRef (if healthy then "CSIRegistrationRecovered" else "CSIRegistrationLost")) ;~ ret tt.

(** One tick of the refresher: what [regHealthy] becomes. *)
Definition refresh_registration : M bool :=
  healthy <~ isDriverRegistered ;;
  recordRegistrationTransition healthy ;~
  ret healthy.

(** The [/healthz] handler. *)
Definition healthz (regHealthy : bool) : Z * string :=
  if regHealthy then (200, "registered") else (503, "driver not registered with kubelet").

(** ** The listener *)

(** [net.SplitHostPort]: the host and the port of "host:port" or
    "[host]:port". *)
Definition split_host_port (s : string) : option (string * string) :=
  match cut_last ":" s with
  | None => None
  | Some (h, port) =>
      match h with
      | String "["%char h' =>
          match cut "]" h' with
          | Some (host, "") =>
              if mem_char "["%char host || mem_char "["%char port || mem_char "]"%char port then None else Some (host, port)
          | _ => None
          end
      | _ => if mem_char ":"%char h || mem_char "["%char s || mem_char "]"%char s then None else Some (h, port)
      end
  end.

Definition portHolderDescription (addr : string) : prog string :=
  match split_host_port addr with
  | None => Ret "could not parse the address to identify the holder"
  | Some (_, portStr) =>
      match parse_int portStr with
      | None => Ret "could not parse the port to identify the holder"
      | Some port =>
          pid <- pidListeningOn port ;;
          match pid with
          | None => Ret ("no process on this host holds a listening socket on it — an orphaned socket from a previous " +s+
                         "driver instance, which only a node reboot frees")
          | Some pid =>
              cmdline <- perform (CReadFile ("/proc/" +s+ pid +s+ "/cmdline")) ;;
              let name := match cmdline with
                          | Ok c => trim_space (replace_char "000"%char " " c)
                          | Err _ => "unknown" end in
              Ret ("it is held by pid " +s+ pid +s+ " (" +s+ name +s+ ")")
          end
      end
  end.

(** One turn of the serve loop: [ListenAndServe] came back with an error or
    not; the count of failures is returned. *)
Definition serve_turn (addr : string) (failed : bool) (failures : Z) : prog Z :=
  if negb failed then Ret 0
  else
    let failures := failures + 1 in
    (if failures =? bindFailureEventThreshold then
       portHolderDescription addr ;;;
       (if clientset then perform (CEvent NodeRef "RegistrationHealthPortUnavailable") else Ret tt)
     else Ret tt) ;;;
    perform (CSleep (10 * second)) ;;;
    Ret failures.

End driver.

(** ** The verdict *)

(** Kubelet was located, has been up for 90 s or more, and has not called
    NodeGetInfo since it started. *)
Definition handshake_missing (f : forall c, reply c) (s : node) : Prop :=
  exists start, eval f kubeletProcessStart = Some start /\ kubeletRehandshakeGrace <= f CNow - start
  /\ (lastNodeGetInfo s <= 0 \/ lastNodeGetInfo s <= start).

(** C26: when a registration is reported lost, exactly.  In a world that answers
    every call by [f], [isDriverRegistered] answers no if and only if the
    startup grace of 90 s is over, there is a client and a node name, the API
    server answered with the node's CSINode, and one of these holds: the driver
    is missing from it while its own socket accepts a connection; or the driver
    is missing from it and no path can be read off its endpoint, so that the
    socket is not tried and counts as accepting (the code's comment says that
    the registrar is not to be punished on a guess); or the driver is in it but
    kubelet, found in /proc and up for 90 s or more, has not shaken hands since
    it started.  In every other case, an API error and a kubelet that is not
    found among them, it answers yes. *)
Theorem registration_lost_exact (f : forall c, reply c) nodeID clientset parse_other endpoint began s :
  snd (eval f (isDriverRegistered nodeID clientset parse_other endpoint began s)) = false
  <-> clientset = true /\ nodeID <> "" /\ registrationStartupGrace <= f CNow - began
      /\ exists drivers, f (CGetCSINode nodeID) = Ok drivers
         /\ ((DriverName ∉ drivers) /\ (endpointAddr parse_other endpoint = ""
                                        \/ f (CDial (endpointAddr parse_other endpoint) (2 * second)) = Ok tt)
             \/ DriverName ∈ drivers /\ handshake_missing f s).
Proof.
  unfold isDriverRegistered, mbind, ask, lift. cbn [bind perform eval fst snd].
  destruct (_ <? registrationStartupGrace) eqn:Eg; bools; [cbn; split; [done | intros (_ & _ & ? & _); lia] |].
  destruct clientset; cbn [negb orb]; [| cbn; split; [done | by intros []]].
  case_bool_decide as En; [cbn; split; [done | by intros (_ & ? & _)] |]. cbn [bind perform eval fst snd].
  destruct (f (CGetCSINode nodeID)) as [drivers | e] eqn:Ed; [| cbn; split; [done | by intros (_ & _ & _ & ? & [=] & _)]].
  case_bool_decide as Ein.
  - unfold kubeletHandshakeCurrent, mbind, ask, lift, gets, ret. rewrite !eval_bind. cbn [eval fst snd].
    unfold handshake_missing. destruct (eval f kubeletProcessStart) as [start |] eqn:Es; cbn [bind perform eval fst snd].
    2: { split; [done |]. intros (_ & _ & _ & d & [= <-] & [[? _] | (_ & st & [=] & _)]). done. }
    destruct (_ <? kubeletRehandshakeGrace) eqn:Eh; bools; cbn [bind eval fst snd].
    { split; [done |]. intros (_ & _ & _ & d & [= <-] & [[? _] | (_ & st & [= <-] & ? & _)]); [done | lia]. }
    rewrite andb_false_iff, !Z.ltb_ge. split.
    + intros Hl. splits; [done | done | done |]. exists drivers. split; [done |]. right. split; [done |]. by exists start.
    + intros (_ & _ & _ & d & [= <-] & [[? _] | (_ & st & [= <-] & _ & Hl)]); done.
  - unfold csiSocketAccepting. cbn zeta. case_bool_decide as Es; cbn [bind perform eval ret fst snd negb].
    + split; [| done]. intros _. splits; [done | done | done |]. exists drivers. split; [done |]. left. auto.
    + rewrite negb_false_iff. split.
      * intros Hd. splits; [done | done | done |]. exists drivers. split; [done |]. left. split; [done |]. right.
        by destruct (f (CDial _ _)) as [[] |].
      * intros (_ & _ & _ & d & [= <-] & [[_ [? | ->]] | [? _]]); done.
Qed.

(** ** What /proc says *)

(** A stat line as the kernel prints it: the command name is verbatim, spaces
    and parentheses included. *)
Definition print_stat (pid comm : string) (fs : list string) : string :=
  pid +s+ " (" +s+ comm +s+ ") " +s+ join " " fs.

Lemma stat_roundtrip pid comm fs t :
  Forall word fs -> Forall (fun w => mem_char ")" w = false) fs -> in_int64 t ->
  fs !! 19%nat = Some (format_int t) -> stat_ticks (print_stat pid comm fs) = Some t.
Proof.
  intros Hw Hp Ht H19. unfold stat_ticks, print_stat.
  assert (Hj : mem_char ")" (join " " fs) = false).
  { clear -Hp. induction Hp as [| w l Hw Hl IH]; [done |]. destruct l as [| w2 l]; [exact Hw |].
    change (join " " (w :: w2 :: l)) with (w +s+ " " +s+ join " " (w2 :: l)). by rewrite !mem_char_app, Hw, IH. }
  replace (pid +s+ _) with ((pid +s+ " (" +s+ comm) +s+ String ")" "" +s+ (" " +s+ join " " fs)) by (by rewrite !sapp_assoc).
  rewrite (cut_last_app ")" "") by exact Hj.
  replace (fields (" " +s+ join " " fs)) with (fields (join " " fs)) by done.
  rewrite (fields_join fs Hw), H19. by apply parse_format_int.
Qed.

Definition hex_char (d : Z) : ascii := Ascii.ascii_of_nat (Z.to_nat (if d <? 10 then d + 48 else d + 55)).
(** [%04X] of a port. *)
Definition print_port (p : Z) : string :=
  String (hex_char (p / 4096)) (String (hex_char (p / 256 mod 16)) (String (hex_char (p / 16 mod 16)) (String (hex_char (p mod 16)) ""))).

Lemma hex_digit_char d : 0 <= d < 16 -> hex_digit (hex_char d) = Some d.
Proof.
  intros Hd. assert (Hin : d ∈ map Z.of_nat (seq 0 16)).
  { apply list_elem_of_In, in_map_iff. exists (Z.to_nat d). split; [lia |]. apply in_seq. lia. }
  cbn in Hin. repeat (apply elem_of_cons in Hin as [-> | Hin]; [reflexivity |]). by apply not_elem_of_nil in Hin.
Qed.
Lemma port_roundtrip p : 0 <= p < 65536 -> parse_uint16 (print_port p) = Some p.
Proof.
  intros Hp. unfold parse_uint16. rewrite bool_decide_eq_false_2 by done. unfold print_port. cbn [parse_hex].
  rewrite !hex_digit_char; [| apply Z.mod_pos_bound; lia .. | split; [apply Z.div_pos; lia | apply Z.div_lt_upper_bound; lia]].
  replace (16 * _ + p mod 16) with p.
  - by rewrite (proj2 (Z.ltb_lt _ _)) by lia.
  - pose proof (Z.div_mod p 16 ltac:(lia)). pose proof (Z.div_mod (p / 16) 16 ltac:(lia)) as H1.
    pose proof (Z.div_mod (p / 16 / 16) 16 ltac:(lia)) as H2. rewrite !Z.div_div in * by lia.
    change (16 * 16 * 16) with 4096 in *. change (16 * 16) with 256 in *. lia.
Qed.

Lemma hex_char_plain d c : 0 <= d < 16 -> c = " "%char \/ c = ":"%char \/ is_space c = true -> hex_char d <> c.
Proof.
  intros Hd Hc <-.
  assert (Hin : d ∈ map Z.of_nat (seq 0 16)).
  { apply list_elem_of_In, in_map_iff. exists (Z.to_nat d). split; [lia |]. apply in_seq. lia. }
  cbn in Hin.
  repeat (apply elem_of_cons in Hin as [-> | Hin]; [destruct Hc as [E | [E | E]]; by vm_compute in E |]). by apply not_elem_of_nil in Hin.
Qed.

(** A line of /proc/net/tcp: local address and port, state, the columns between
    and after, and the inode. *)
Record socket_line : Set := SocketLine
  { sk_sl : string; sk_addr : string; sk_port : Z; sk_rem : string; sk_state : string;
    sk_cols : list string; sk_inode : string; sk_tail : list string }.
Definition print_socket (k : socket_line) : string :=
  join " " ([sk_sl k; sk_addr k +s+ ":" +s+ print_port (sk_port k); sk_rem k; sk_state k] ++ sk_cols k ++ [sk_inode k] ++ sk_tail k).
Definition wf_socket (k : socket_line) : Prop :=
  0 <= sk_port k < 65536 /\ length (sk_cols k) = 5%nat
  /\ Forall word ([sk_sl k; sk_addr k; sk_rem k; sk_state k] ++ sk_cols k ++ [sk_inode k] ++ sk_tail k).

Lemma hex_char_ascii d : 0 <= d < 16 -> is_ascii (hex_char d) = true.
Proof.
  intros Hd. assert (Hin : d ∈ map Z.of_nat (seq 0 16)).
  { apply list_elem_of_In, in_map_iff. exists (Z.to_nat d). split; [lia |]. apply in_seq. lia. }
  cbn in Hin. repeat (apply elem_of_cons in Hin as [-> | Hin]; [reflexivity |]). by apply not_elem_of_nil in Hin.
Qed.
Lemma hex_char_space d : 0 <= d < 16 -> is_space (hex_char d) = false.
Proof. intros Hd. destruct (is_space _) eqn:E; [| done]. exfalso. eapply (hex_char_plain d (hex_char d)); auto. Qed.
Lemma port_digits p : 0 <= p < 65536 -> 0 <= p / 4096 < 16 /\ forall x, 0 <= x mod 16 < 16.
Proof.
  intros Hp. split; [| intros x; apply Z.mod_pos_bound; lia].
  split; [apply Z.div_pos; lia | apply Z.div_lt_upper_bound; lia].
Qed.
Lemma port_plain p : 0 <= p < 65536 ->
  has_space (print_port p) = false /\ mem_char ":" (print_port p) = false.
Proof.
  intros [H1 H2]%port_digits. rewrite has_space_text.
  2: { unfold ascii_text. cbn [print_port string_exists]. by rewrite !hex_char_ascii by auto. }
  cbn [print_port string_exists mem_char]. rewrite !hex_char_space by auto.
  assert (Hc : forall d, 0 <= d < 16 -> Ascii.eqb (hex_char d) ":" = false).
  { intros d Hd. apply Ascii.eqb_neq, hex_char_plain; auto. }
  by rewrite !Hc by auto.
Qed.

Definition socket_words (k : socket_line) : list string :=
  [sk_sl k; sk_addr k +s+ ":" +s+ print_port (sk_port k); sk_rem k; sk_state k] ++ sk_cols k ++ [sk_inode k] ++ sk_tail k.
Lemma socket_words_ok k : wf_socket k -> Forall word (socket_words k).
Proof.
  intros (Hp & Hl & Hw). unfold socket_words. cbn [app] in *.
  apply list.Forall_cons in Hw as [H1 Hw]. apply list.Forall_cons in Hw as [H2 Hw].
  constructor; [done |]. constructor; [| done]. destruct H2 as [_ H2]. split; [by destruct (sk_addr k) |].
  change (has_space (sk_addr k +s+ String ":" (print_port (sk_port k))) = false).
  rewrite has_space_app, H2 by done. exact (proj1 (port_plain _ Hp)).
Qed.

Lemma listening_exact k port :
  wf_socket k ->
  listening_inode port (print_socket k)
  = (if bool_decide (sk_state k = "0A") && (sk_port k =? port) then Some ("socket:[" +s+ sk_inode k +s+ "]") else None).
Proof.
  intros Hk. unfold listening_inode, print_socket. change (join " " _) with (join " " (socket_words k)).
  rewrite fields_join by (by apply socket_words_ok). destruct Hk as (Hp & Hl & _). unfold socket_words.
  destruct (sk_cols k) as [| c1 [| c2 [| c3 [| c4 [| c5 [|]]]]]]; try done. cbn [app].
  case_bool_decide; cbn [negb andb]; [| done].
  rewrite (cut_last_app ":" "") by apply (port_plain _ Hp). rewrite port_roundtrip by done. by destruct (_ =? _).
Qed.


(** The table: a header line, then a line per socket. *)
Fixpoint print_sockets (l : list socket_line) : string :=
  match l with [] => "" | k :: l => print_socket k +s+ String nl (print_sockets l) end.

Lemma sockets_exact port l :
  Forall wf_socket l ->
  omap (listening_inode port) (split nl (print_sockets l))
  = omap (fun k => if bool_decide (sk_state k = "0A") && (sk_port k =? port) then Some ("socket:[" +s+ sk_inode k +s+ "]") else None) l.
Proof.
  induction 1 as [| k l Hk Hl IH]; [done |]. cbn [print_sockets].
  rewrite split_app by (apply join_sep_no_nl, (socket_words_ok _ Hk)).
  cbn [omap list_omap]. rewrite listening_exact by done. rewrite <- IH. done.
Qed.

(** What /proc says is read back exactly.  The start time of a process is
    found in its stat line whatever its command name, blanks and parentheses
    included; and of a table of sockets, as the kernel prints it, exactly the
    inodes of the sockets that listen on the port asked for are collected. *)
Theorem proc_read_back (f : forall c, reply c) pid comm fs t file header l port :
  Forall word fs -> Forall (fun w => mem_char ")" w = false) fs -> in_int64 t ->
  fs !! 19%nat = Some (format_int t) ->
  f (CReadFile ("/proc/" +s+ pid +s+ "/stat")) = Ok (print_stat pid comm fs) ->
  mem_char nl header = false -> Forall wf_socket l ->
  f (CReadFile file) = Ok (header +s+ String nl (print_sockets l)) ->
  eval f (processStartTicks pid) = Some t
  /\ forall link, link ∈ eval f (collectListeningInodes file port [])
       <-> exists k, k ∈ l /\ sk_state k = "0A" /\ sk_port k = port /\ link = "socket:[" +s+ sk_inode k +s+ "]".
Proof.
  intros Hw Hp Ht H19 Hf Hh Hl Hfile. unfold processStartTicks, collectListeningInodes. cbn [bind perform eval].
  rewrite Hf, Hfile. split; [by apply stat_roundtrip |]. intros link.
  rewrite split_app by done. cbn [tl app]. rewrite sockets_exact by done. rewrite list_elem_of_omap. split.
  - intros (k & Hk & E). destruct (_ && _) eqn:Ek; [| done]. bools. injection E as <-. by exists k.
  - intros (k & Hk & Hst & Hpo & ->). exists k. split; [done |]. by rewrite bool_decide_eq_true_2, (proj2 (Z.eqb_eq _ _)).
Qed.

Definition example_sockets : list socket_line :=
  [SocketLine "0:" "00000000" 10250 "00000000:0000" "0A" ["00000000:00000000"; "00:00000000"; "00000000"; "0"; "0"] "4711" ["1"];
   SocketLine "1:" "0100007F" 10250 "0100007F:B0A2" "01" ["00000000:00000000"; "00:00000000"; "00000000"; "0"; "0"] "4712" ["1"]].
Definition example_stat : list string := repeat "0" 19 ++ ["8123"; "9"].
Definition example_proc (c : call) : reply c :=
  match c return reply c with
  | CReadFile "/proc/7/stat" => Ok (print_stat "7" "k (x) y" example_stat)
  | CReadFile "/proc/net/tcp" => Ok ("  sl  local_address" +s+ String nl (print_sockets example_sockets))
  | c => default_reply c
  end.

Lemma proc_read_back_witness :
  eval example_proc (processStartTicks "7") = Some 8123
  /\ "socket:[4711]" ∈ eval example_proc (collectListeningInodes "/proc/net/tcp" 10250 []).
Proof.
  destruct (proc_read_back example_proc "7" "k (x) y" example_stat 8123 "/proc/net/tcp" "  sl  local_address"
    example_sockets 10250) as [H1 H2]; try reflexivity.
  - by repeat constructor.
  - by repeat constructor.
  - by apply in_int64b_spec.
  - repeat constructor; cbn; try lia; done.
  - split; [exact H1 |]. apply H2. eexists. split; [by left |]. done.
Defined.

End Registration.
