(* ===== verification/Process.v ===== *)
(** * Process: what surrounds the servers (identity.go, selfmonitor.go,
    watchdog.go, cmd/main.go)

    The liveness probe and its single-flight call into librclone, the monitor
    that runs every minute, the installation of the host watchdog, and the
    start and end of the process.  The three texts the watchdog installs are
    arguments; so is whether the in-cluster API client can be built. *)

From Stdlib Require Import Ascii.
From S2P Require Import Prelude GoStrings Effects Secrets Rpc Mounts VfsNames MountManager VfsSetup.
From S2P Require Import Csi Endpoint Controller NodeMounts NodeLuks NodeState Drain S3Live NodeServer Registration.
Import Secrets Rpc VfsNames Csi NodeLuks NodeState VfsSetup Registration.

#[local] Open Scope Z_scope.

(** * The identity service *)

Module Identity.

Definition librcloneHangThreshold : Z := 2 * minute.

(** The probe goroutines: the one [startOrJoin] hands out, the calls into
    librclone that have not returned, those that have but have not yet cleared
    [probeCurrent], and the results. *)
Record probes : Type := Probes
  { probeCurrent : option N; flying : list N; closing : list N;
    answers : gmap N (option gerr); next_id : N; lastLibrcloneOK : Z }.

Definition boot (now : Z) : probes := Probes None [] [] ∅ 0 now.

Definition startOrJoinLibrcloneProbe (p : probes) : probes * N :=
  match probeCurrent p with
  | Some id => (p, id)
  | None =>
      let id := next_id p in
      (Probes (Some id) (id :: flying p) (closing p) (answers p) (id + 1) (lastLibrcloneOK p), id)
  end.

(** The goroutine of call [id]: its RPC returns and [done] is closed ... *)
Definition rpc_returns (id : N) (err : option gerr) (p : probes) : probes :=
  if bool_decide (id ∈ flying p) then
    Probes (probeCurrent p) (List.filter (fun i => negb (bool_decide (i = id))) (flying p)) (id :: closing p)
      (<[id := err]> (answers p)) (next_id p) (lastLibrcloneOK p)
  else p.
(** ... then it clears [probeCurrent] and ends. *)
Definition probe_clears (id : N) (p : probes) : probes :=
  if bool_decide (id ∈ closing p) then
    Probes None (flying p) (List.filter (fun i => negb (bool_decide (i = id))) (closing p))
      (answers p) (next_id p) (lastLibrcloneOK p)
  else p.

(** What the [select] of [Probe] saw. *)
Inductive select : Set := Answered | TimedOut | Cancelled.

(** [Probe], from the end of its [select] on probe [id] at time [now]. *)
Definition Probe_ends (id : N) (sel : select) (now : Z) (p : probes) : probes * result unit status :=
  let verdict (reason : string) :=
    if now - lastLibrcloneOK p <? librcloneHangThreshold then Ok tt
    else Err (Prelude.Status FailedPrecondition reason) in
  match sel with
  | Cancelled => (p, Err (Prelude.Status CtxError ""))
  | TimedOut => (p, verdict "librclone did not answer within 5s")
  | Answered =>
      match answers p !! id with
      | Some None => (Probes (probeCurrent p) (flying p) (closing p) (answers p) (next_id p) now, Ok tt)
      | Some (Some e) => (p, verdict ("librclone unhealthy: " +s+ e_text e))
      | None => (p, verdict "librclone did not answer within 5s")
      end
  end.

Definition GetPluginInfo (name version : string) : result (string * string) status :=
  if bool_decide (name = "") then Err (Prelude.Status Unavailable "Driver name not configured")
  else if bool_decide (version = "") then Err (Prelude.Status Unavailable "Driver version not configured")
  else Ok (name, version).

Inductive plugin_capability : Set := CONTROLLER_SERVICE | VOLUME_ACCESSIBILITY_CONSTRAINTS.
Definition GetPluginCapabilities : list plugin_capability := [CONTROLLER_SERVICE; VOLUME_ACCESSIBILITY_CONSTRAINTS].

(** Call [id] came back without an error, and [Probe] saw it. *)
Definition answered_well (id : N) (sel : select) (p : probes) : bool :=
  match sel with
  | Answered => match answers p !! id with Some None => true | _ => false end
  | _ => false
  end.

(** Any interleaving of probe calls and goroutines, each step with the time at
    which a probe saw a good answer, if it did. *)
Inductive step : option Z -> probes -> probes -> Prop :=
  | step_join p : step None p (fst (startOrJoinLibrcloneProbe p))
  | step_returns id err p : step None p (rpc_returns id err p)
  | step_clears id p : step None p (probe_clears id p)
  | step_probe id sel now p :
      step (if answered_well id sel p then Some now else None) p (fst (Probe_ends id sel now p)).

End Identity.

(** * The monitor *)

Module SelfMonitor.

Definition threadWarnThreshold : Z := 2000.
Definition goroutineWarnThreshold : Z := 10000.
Definition rssWarnKB : Z := 1024 * 1024.
Definition logStallEventThreshold : Z := 60 * second.

Record monitor : Set := Monitor { logStalled : bool; cacheUnencrypted : bool; peakThreads : Z; peakRSS : Z }.

Section monitor.
(** Whether [recorder] is set. *)
Context (recorder : bool).

Definition verifyCacheStillEncrypted (m : monitor) : prog monitor :=
  err <- VerifyCacheEncrypted ;;
  let wasBroken := cacheUnencrypted m in
  let m := Monitor (logStalled m) (negb (is_ok err)) (peakThreads m) (peakRSS m) in
  match err with
  | Ok _ =>
      (if wasBroken && recorder then perform (CEvent NodeRef "VFSCacheEncryptionRestored") else Ret tt) ;;;
      Ret m
  | Err _ =>
      (if wasBroken || negb recorder then Ret tt else perform (CEvent NodeRef "VFSCacheNotEncrypted")) ;;;
      Ret m
  end.

(** [stalled] is [asynclog.DefaultStalledFor()]. *)
Definition reportLogStall (stalled : Z) (m : monitor) : prog monitor :=
  let wasStalled := logStalled m in
  let m := Monitor (logStallEventThreshold <=? stalled) (cacheUnencrypted m) (peakThreads m) (peakRSS m) in
  (if stalled <? logStallEventThreshold then
     (if wasStalled && recorder then perform (CEvent NodeRef "DriverLogOutputRecovered") else Ret tt)
   else if wasStalled || negb recorder then Ret tt
   else perform (CEvent NodeRef "DriverLogOutputStalled")) ;;;
  Ret m.

Fixpoint status_field (name : string) (lines : list string) : Z :=
  match lines with
  | [] => -1
  | line :: lines =>
      if negb (has_prefix (name +s+ ":") line) then status_field name lines
      else match fields line with
           | _ :: v :: _ => default (-1) (parse_int v)
           | _ => -1
           end
  end.
Definition procStatusField (name : string) : prog Z :=
  r <- perform (CReadFile "/proc/self/status") ;;
  Ret match r with Ok data => status_field name (split nl data) | Err _ => -1 end.
Definition countOpenFDs : prog Z :=
  r <- perform (CReadDir "/proc/self/fd") ;;
  Ret match r with Ok entries => Z.of_nat (length entries) | Err _ => -1 end.

(** A tick of [runSelfMonitor]: the new state, and whether it raised the
    resource alert. *)
Definition selfMonitor_tick (stalled goroutines : Z) (m : monitor) : prog (monitor * bool) :=
  m <- reportLogStall stalled m ;;
  m <- verifyCacheStillEncrypted m ;;
  threads <- procStatusField "Threads" ;;
  rssKB <- procStatusField "VmRSS" ;;
  countOpenFDs ;;;
  Ret (Monitor (logStalled m) (cacheUnencrypted m) (Z.max (peakThreads m) threads) (Z.max (peakRSS m) rssKB),
       (threadWarnThreshold <=? threads) || (goroutineWarnThreshold <=? goroutines) || (rssWarnKB <=? rssKB)).

End monitor.
End SelfMonitor.

(** * The host watchdog *)

Module Watchdog.

(** Standard output, or the failure to start, finish in time or succeed. *)
Definition runHostSh (command stdin : string) (timeout : Z) : prog (result string unit) :=
  r <- perform (CExec (Some timeout) stdin ["nsenter"; "-t"; "1"; "-m"; "sh"; "-c"; command]) ;;
  Ret match r with XExit 0 out _ => Ok out | _ => Err tt end.

Section watchdog.
Context (recorder : bool) (watchdogScript watchdogService watchdogTimer : string).

Definition install_steps : list (string * string) :=
  [("", "rm -f /var/lib/lukscrypt-watchdog/unhealthy-count /var/lib/lukscrypt-watchdog/last-reboot; true");
   (watchdogScript, "mkdir -p /var/lib/lukscrypt-watchdog && cat > /var/lib/lukscrypt-watchdog/watchdog.sh && chmod 755 /var/lib/lukscrypt-watchdog/watchdog.sh");
   (watchdogService, "cat > /etc/systemd/system/lukscrypt-watchdog.service");
   (watchdogTimer, "cat > /etc/systemd/system/lukscrypt-watchdog.timer");
   ("", "systemctl daemon-reload && systemctl enable --now lukscrypt-watchdog.timer")].

Fixpoint run_steps (steps : list (string * string)) : prog bool :=
  match steps with
  | [] => Ret true
  | (content, cmd) :: steps =>
      r <- runHostSh cmd content (30 * second) ;;
      match r with Ok _ => run_steps steps | Err _ => Ret false end
  end.

(** Whether every step was done. *)
Definition InstallHostWatchdog : prog bool :=
  v <- perform (CGetenv "HOST_WATCHDOG") ;;
  if bool_decide (v = "false") then
    runHostSh "systemctl disable --now lukscrypt-watchdog.timer 2>/dev/null; true" "" (30 * second) ;;;
    Ret false
  else run_steps install_steps.

Definition drainCmd : string := join (String nl "")
  ["L=/var/lib/lukscrypt-watchdog/actions.log";
   "cat " +s+ String "034" "$L" +s+ String "034" " 2>/dev/null";
   "cat " +s+ String "034" "$L" +s+ String "034" " >> /var/lib/lukscrypt-watchdog/actions-archive.log 2>/dev/null";
   ": > " +s+ String "034" "$L" +s+ String "034" " 2>/dev/null";
   "true"].

(** One event per line of the log. *)
Definition reportWatchdogActions : prog unit :=
  r <- runHostSh drainCmd "" (15 * second) ;;
  match r with
  | Err _ => Ret tt
  | Ok out =>
      if bool_decide (trim_space out = "") then Ret tt
      else for_each (split nl (trim_space out))
             (fun _ => if recorder then perform (CEvent NodeRef "HostWatchdogRecovery") else Ret tt)
  end.

End watchdog.
End Watchdog.

(** * The process *)

Module Main.

Definition isControllerMode (endpoint : string) : bool := contains endpoint "/var/lib/csi/sockets/pluginproxy/".

Section main.
(** The flags, and whether [rest.InClusterConfig] and [kubernetes.NewForConfig]
    succeed. *)
Context (endpoint nodeID vfsCacheSize luksSecretName luksSecretNamespace luksSecretKey : string) (inCluster : bool).

(** [klog.Fatal]: no deferred call runs. *)
Definition fatal {A} : prog (option A) := perform (CExit "klog.Fatal") ;;; Ret None.

Definition setup_cache : prog (option unit) :=
  if negb inCluster then fatal
  else
    vs <- FetchVolumeSecrets true (Params (Ref luksSecretName luksSecretNamespace) (Ref "" "") luksSecretKey) ;;
    match vs with
    | Err _ => fatal
    | Ok vs =>
        if bool_decide (Passphrase vs = "") then fatal
        else
          let* (_, r) := SetupVFSCache vfsCacheSize (Passphrase vs) nodeID ;;
          match r with Err _ => fatal | Ok _ => Ret (Some tt) end
    end.

(** [main] up to the creation of the driver: rclone's state, or nothing when the
    process ended. *)
Definition main : prog (option init_state) :=
  if bool_decide (nodeID = "") then fatal
  else
    cache <- (if negb (isControllerMode endpoint) then setup_cache else Ret (Some tt)) ;;
    match cache with
    | None => Ret None
    | Some _ => s <- Initialize (MkInit false false) ;; Ret (Some s)
    end.

(** What follows [d.Run], the flush of the log apart: the deferred calls run only when it did not fail. *)
Definition shutdown (run_failed : bool) (s : init_state) : prog (option init_state) :=
  if run_failed then fatal
  else
    let s := Finalize s in
    (if negb (isControllerMode endpoint) then TeardownVFSCache ;;; Ret tt else Ret tt) ;;;
    Ret (Some s).

(** The whole process; nothing where it was ended by [klog.Fatal].  The node
    server that [NewDriver] starts is System's. *)
Definition process (parse_other : string -> option Endpoint.url) : prog (option init_state) :=
  started <- main ;;
  match started with
  | None => Ret None
  | Some s =>
      r <- Endpoint.Run parse_other endpoint ;;
      shutdown (negb (is_ok r)) s
  end.

End main.
End Main.

Module Facts.
Import Identity SelfMonitor Main.

(** ** The probe *)

(** Reached from a start at [now]; the times of the good answers seen, the
    newest first. *)
Inductive reachable (now : Z) : list Z -> probes -> Prop :=
  | reach_boot : reachable now [] (boot now)
  | reach_step oks p o p' : reachable now oks p -> step o p p' ->
      reachable now (match o with Some t => t :: oks | None => oks end) p'.

Definition probes_inv (p : probes) : Prop :=
  flying p ++ closing p = match probeCurrent p with Some id => [id] | None => [] end
  /\ (forall id, id ∈ flying p ++ closing p -> (id < next_id p)%N)
  /\ (forall id, id ∈ closing p -> is_Some (answers p !! id)).

Lemma filter_self (id : N) : List.filter (fun i => negb (bool_decide (i = id))) [id] = [].
Proof. cbn. by rewrite bool_decide_eq_true_2. Qed.

Lemma step_inv o p p' : step o p p' -> probes_inv p -> probes_inv p'.
Proof.
  intros [q | id err q | id q | id sel now q] (H1 & H2 & H3); unfold probes_inv.
  - unfold startOrJoinLibrcloneProbe. destruct (probeCurrent q) as [cur |] eqn:E; cbn [fst].
    { by rewrite E. }
    apply app_nil in H1 as [Hf Hc]. cbn. rewrite Hf, Hc. splits; [done | |].
    + intros i [-> | Hi]%elem_of_cons; [lia | by apply not_elem_of_nil in Hi].
    + by intros i ?%not_elem_of_nil.
  - unfold rpc_returns. case_bool_decide as Hin; [| done]. cbn.
    destruct (probeCurrent q) as [cur |]; [| apply app_nil in H1 as [Hf _]; rewrite Hf in Hin; by apply not_elem_of_nil in Hin].
    destruct (flying q) as [| x l] eqn:Ef; [by apply not_elem_of_nil in Hin |].
    cbn in H1. injection H1 as -> [-> Hc]%app_nil. apply list_elem_of_singleton in Hin as ->. rewrite Hc, filter_self.
    splits; [done | intros i Hi; apply H2; exact (proj2 (elem_of_app _ _ _) (or_introl Hi)) |].
    intros i ->%list_elem_of_singleton. rewrite lookup_insert_eq. by eexists.
  - unfold probe_clears. case_bool_decide as Hin; [| done]. cbn.
    destruct (probeCurrent q) as [cur |]; [| apply app_nil in H1 as [_ Hc]; rewrite Hc in Hin; by apply not_elem_of_nil in Hin].
    destruct (flying q) as [| x l] eqn:Ef; cbn [app] in H1.
    + rewrite H1 in Hin |- *. apply list_elem_of_singleton in Hin as ->. rewrite filter_self.
      splits; [done | by intros i ?%not_elem_of_nil | by intros i ?%not_elem_of_nil].
    + injection H1 as -> [-> Hc]%app_nil. rewrite Hc in Hin. by apply not_elem_of_nil in Hin.
  - unfold Probe_ends. destruct sel; [destruct (answers q !! id) as [[e |] |] | |]; by cbn.
Qed.

Lemma step_clock o p p' :
  step o p p' -> lastLibrcloneOK p' = default (lastLibrcloneOK p) o.
Proof.
  intros [q | id err q | id q | id sel now q].
  - unfold startOrJoinLibrcloneProbe. by destruct (probeCurrent q).
  - unfold rpc_returns. by case_bool_decide.
  - unfold probe_clears. by case_bool_decide.
  - unfold answered_well, Probe_ends. destruct sel; [| done | done]. by destruct (answers q !! id) as [[] |].
Qed.

Lemma probe_verdict id sel t p :
  snd (Probe_ends id sel t p) = Ok tt
  <-> answered_well id sel p = true \/ sel <> Cancelled /\ t - lastLibrcloneOK p < librcloneHangThreshold.
Proof.
  unfold answered_well, Probe_ends.
  destruct sel; [destruct (answers p !! id) as [[e |] |] | |]; cbn;
    try (destruct (_ <? librcloneHangThreshold) eqn:El; bools); naive_solver lia.
Qed.

(** C31: one probe of librclone is in flight at a time, and [Probe] fails only
    after two minutes without a good answer.  In every state any interleaving
    of liveness calls and probe goroutines can reach, at most one goroutine
    exists, later calls join the one that hangs instead of adding to it, and
    its result is there when it is done.  A [Probe] that is not cancelled fails
    if and only if its call did not come back well in time and two minutes or
    more have passed since the last good answer that any [Probe] saw (or since
    the start).  That clock is moved by [Probe] alone: where none ran for two
    minutes, the next one fails on a single slow call. *)
Theorem probe_single_flight now oks p :
  reachable now oks p ->
  (length (flying p ++ closing p) <= 1)%nat
  /\ (forall id, id ∈ flying p ++ closing p -> startOrJoinLibrcloneProbe p = (p, id))
  /\ (forall id, id ∈ closing p -> is_Some (answers p !! id))
  /\ forall id sel t, sel <> Cancelled ->
       (is_ok (snd (Probe_ends id sel t p)) = false
        <-> answered_well id sel p = false /\ librcloneHangThreshold <= t - default now (head oks)).
Proof.
  intros Hr. assert (Hi : probes_inv p /\ lastLibrcloneOK p = default now (head oks)).
  { induction Hr as [| oks q o q' _ [IH IHc] Hs].
    - split; [| done]. unfold probes_inv. splits; [done | by intros i ?%not_elem_of_nil | by intros i ?%not_elem_of_nil].
    - split; [by eapply step_inv |]. rewrite (step_clock _ _ _ Hs), IHc. by destruct o. }
  destruct Hi as [(H1 & _ & H3) Hclock]. splits.
  - rewrite H1. destruct (probeCurrent p); cbn; lia.
  - intros id Hid. rewrite H1 in Hid. unfold startOrJoinLibrcloneProbe.
    destruct (probeCurrent p) as [cur |]; [by apply list_elem_of_singleton in Hid as -> | by apply not_elem_of_nil in Hid].
  - exact H3.
  - intros id sel t Hsel. rewrite <- Hclock. pose proof (probe_verdict id sel t p) as Hv.
    destruct (snd (Probe_ends id sel t p)) as [[] | e]; cbn.
    + split; [done |]. intros [Ha Ht]. destruct (proj1 Hv eq_refl) as [Ha' | [_ Ht']]; [congruence | lia].
    + split; [| done]. intros _. split.
      * apply not_true_iff_false. intros Ha. by discriminate (proj2 Hv (or_introl Ha)).
      * apply Z.nlt_ge. intros Ht. by discriminate (proj2 Hv (or_intror (conj Hsel Ht))).
Qed.

(** A first call that is slow, three minutes after the start. *)
Example first_slow_call_fails :
  is_ok (snd (Probe_ends 0 TimedOut (3 * minute) (fst (startOrJoinLibrcloneProbe (boot 0))))) = false.
Proof. reflexivity. Qed.

Lemma probe_single_flight_witness :
  let p := fst (startOrJoinLibrcloneProbe (fst (startOrJoinLibrcloneProbe (boot 0)))) in
  startOrJoinLibrcloneProbe p = (p, 0%N).
Proof.
  apply (probe_single_flight 0 []); [| by left].
  do 2 (eapply (reach_step _ [] _ None); [| apply step_join]). apply reach_boot.
Defined.

(** ** The monitors *)

(** The reference: the values that differ from the one before. *)
Fixpoint edges (was : bool) (l : list bool) : list bool :=
  match l with
  | [] => []
  | b :: l => if bool_decide (was = b) then edges b l else b :: edges b l
  end.

(** The reasons of the events on the node, in the order they were raised. *)
Definition node_event (e : event) : option string :=
  match e with Ev (CEvent NodeRef reason) _ => Some reason | _ => None end.
Definition events (h : history) : list string := rev (omap node_event h).

(** A tick after another, each in its own world. *)
Fixpoint ticks {A S} (env : A -> environment) (body : A -> S -> prog S) (l : list A) (s : S) (h : history) : history * S :=
  match l with
  | [] => (h, s)
  | a :: l => let '(h, s) := run (env a) (body a s) h in ticks env body l s h
  end.

Definition edge_detector {A S} (env : A -> environment) (body : A -> S -> prog S) (bad : S -> bool) (verdict : A -> bool)
    (on : bool) (name : bool -> string) : Prop :=
  forall l s h, events (fst (ticks env body l s h))
    = events h ++ if on then map name (edges (bad s) (map verdict l)) else [].

Lemma one_tick {A S} (env : A -> environment) (body : A -> S -> prog S) bad verdict on name :
  (forall a s h, let '(h', s') := run (env a) (body a s) h in bad s' = verdict a
     /\ events h' = events h ++ if on && negb (bool_decide (bad s = verdict a)) then [name (verdict a)] else []) ->
  edge_detector env body bad verdict on name.
Proof.
  intros H l. induction l as [| a l IH]; intros s h; cbn [ticks map edges]; [by destruct on; rewrite app_nil_r |].
  specialize (H a s h). destruct (run (env a) (body a s) h) as [h' s']. destruct H as [Hb He].
  rewrite IH, He, Hb, <- app_assoc. f_equal. destruct on; [| done]. cbn [andb]. by case_bool_decide.
Qed.

Lemma events_cons e h : events (e :: h) = events h ++ match node_event e with Some r => [r] | None => [] end.
Proof. unfold events. cbn [omap list_omap]. destruct (node_event e); [done | by rewrite app_nil_r]. Qed.

(** A program that raises no event. *)
Definition silent (c : call) : Prop := match c with CEvent _ _ => False | _ => True end.
Lemma events_silent {A} env (p : prog A) h : only silent p -> events (fst (run env p h)) = events h.
Proof.
  revert h. induction p as [a | c k IH]; cbn; intros h Ho; [done |]. destruct Ho as [Hc Hk].
  rewrite IH by auto. rewrite events_cons. destruct c; cbn in *; try done; by rewrite app_nil_r.
Qed.

Lemma verify_silent : only silent VerifyCacheEncrypted.
Proof. unfold VerifyCacheEncrypted, verifyCacheEncryptedAt. only_with ltac:(exact I). Qed.

(** C32: the three monitors report changes, once each.  Registration with
    kubelet, the stall of the log output (60 s or more), and the encryption of
    the cache: over any run of ticks, in any worlds, the events raised on the
    node are exactly the edges of the verdicts, a loss when the verdict turns
    bad and a recovery when it turns good again, and none without a recorder. *)
Theorem monitors_report_edges (env : bool -> environment) (env' : Z -> environment) clientset recorder :
  edge_detector env (fun healthy s => r <- recordRegistrationTransition clientset healthy s ;; Ret (fst r)) regUnhealthy negb clientset
    (fun bad => if bad then "CSIRegistrationLost" else "CSIRegistrationRecovered")
  /\ edge_detector env' (reportLogStall recorder) logStalled (Z.leb logStallEventThreshold) recorder
    (fun bad => if bad then "DriverLogOutputStalled" else "DriverLogOutputRecovered")
  /\ edge_detector (fun f _ => f) (fun _ => verifyCacheStillEncrypted recorder) cacheUnencrypted
    (fun f => negb (is_ok (eval f VerifyCacheEncrypted))) recorder
    (fun bad => if bad then "VFSCacheNotEncrypted" else "VFSCacheEncryptionRestored").
Proof.
  splits; apply one_tick.
  - intros healthy s h. unfold recordRegistrationTransition, mbind, gets, modify, ask, lift, ret. cbn [bind].
    destruct clientset; cbn [negb orb andb]; [| by cbn; rewrite app_nil_r].
    destruct (regUnhealthy s), healthy; cbn; rewrite ?events_cons; cbn; by rewrite ?app_nil_r.
  - intros d m h. unfold reportLogStall. rewrite Z.ltb_antisym. destruct (_ <=? d), (logStalled m), recorder;
      cbn; rewrite ?events_cons; cbn; by rewrite ?app_nil_r.
  - intros f m h. unfold verifyCacheStillEncrypted. rewrite run_bind, eval_run.
    pose proof (events_silent (fun _ => f) VerifyCacheEncrypted h verify_silent) as E.
    destruct (run _ VerifyCacheEncrypted h) as [h1 r1]. cbn [fst] in *. rewrite <- E.
    destruct (eval f VerifyCacheEncrypted) as [[] | e], (cacheUnencrypted m), recorder;
      cbn; rewrite ?events_cons; cbn; by rewrite ?app_nil_r.
Qed.

(** ** The start *)

(** rclone is called, and the socket served, only once the cache is verified to
    be encrypted. *)
Definition start_guard (h : history) (c : call) : Prop :=
  match c with CRpc _ _ _ | CListen _ _ | CServe => verified_encrypted h | _ => True end.

Lemma start_after {A} (p : prog A) h : verified_encrypted h -> wpc start_guard p (fun _ _ => True) h.
Proof.
  revert h. induction p as [a | c k IH]; cbn; intros h Hv; [done |]. split; [by destruct c |]. intros r. apply IH.
  destruct Hv as (H1 & H2 & c1 & p1 & H3 & H4 & H5). unfold verified_encrypted. splits; [by right | by right |].
  exists c1, p1. splits; [by right | by right | done].
Qed.

Lemma main_spec endpoint nodeID size secretName secretNs secretKey inCluster :
  isControllerMode endpoint = false ->
  wpc start_guard (main endpoint nodeID size secretName secretNs secretKey inCluster)
    (fun h r => is_Some r -> verified_encrypted h /\ nodeID <> "" /\ inCluster = true) [].
Proof.
  intros Hm.
  assert (Hf : forall h, wpc start_guard (fatal (A := unit)) (fun h' r => r = None) h).
  { intros h0. unfold fatal. wp_step. by apply wpc_perform. }
  unfold main. case_bool_decide as Hn.
  { unfold fatal. wp_step. apply wpc_perform; [done |]. by intros ? []. }
  rewrite Hm. cbn [negb]. wp_step.
  apply (wpc_post _ _ (fun h' r => is_Some r -> verified_encrypted h' /\ inCluster = true)).
  - unfold setup_cache. destruct inCluster; cbn [negb]; [| eapply wpc_post; [apply Hf |]; by intros ? ? -> []].
    wp_step. eapply wpc_post; [apply wpc_looks; [apply NodeLuks.FetchVolumeSecrets_looks |] |].
    { intros h0 c Hc. by destruct c. }
    intros h1 [vs | e] _; [| eapply wpc_post; [apply Hf |]; by intros ? ? -> []].
    case_bool_decide; [eapply wpc_post; [apply Hf |]; by intros ? ? -> [] |].
    wp_step. eapply wpc_mono; [apply SetupVFSCache_spec | |].
    { intros h0 c Hc. by destruct c. }
    intros h2 [sz [path | e]] Hv; [| eapply wpc_post; [apply Hf |]; by intros ? ? -> []].
    cbn. intros _. split; [by apply Hv | done].
  - intros h1 [u |] Hv; [| by cbn; intros []]. destruct (Hv ltac:(by eexists)) as [Hv1 Hv2]. wp_step.
    eapply wpc_post; [apply wpc_extends, (start_after _ _ Hv1) |]. intros h2 s [Hs _]. cbn. intros _.
    splits; [| done | done]. destruct Hv1 as (H1 & H2 & c1 & p1 & H3 & H4 & H5). unfold verified_encrypted.
    splits; [auto | auto |]. exists c1, p1. auto.
Qed.

(** A node serves only on an encrypted cache.  In node mode [main] gets as
    far as the driver only after rclone's cache directory was pinned to the
    encrypted volume, read back and found on a device of its own, and makes no
    call into rclone before that; without a node ID, an API client, a
    passphrase or the volume it exits, and does nothing to rclone. *)
Theorem main_needs_encrypted_cache env endpoint nodeID size secretName secretNs secretKey inCluster :
  isControllerMode endpoint = false ->
  let '(h, r) := run env (main endpoint nodeID size secretName secretNs secretKey inCluster) [] in
  hist_ok start_guard h /\ (is_Some r -> verified_encrypted h /\ nodeID <> "" /\ inCluster = true).
Proof.
  intros Hm. pose proof (wpc_run env _ _ _ [] (main_spec endpoint nodeID size secretName secretNs secretKey inCluster Hm)) as H.
  destruct (run env _ []) as [h r]. by apply H.
Qed.

(** Nor does the process, whatever happens to it later: kubelet finds a socket,
    and rclone is called, only over the encrypted cache. *)
Theorem process_serves_encrypted env endpoint nodeID size secretName secretNs secretKey inCluster parse_other :
  isControllerMode endpoint = false ->
  hist_ok start_guard (fst (run env (process endpoint nodeID size secretName secretNs secretKey inCluster parse_other) [])).
Proof.
  intros Hm. refine (proj1 (wpc_run env start_guard _ (fun _ _ => True) [] _ I)).
  unfold process. wp_step. eapply wpc_post; [by apply main_spec |].
  intros h [st |] Hv; [| done]. destruct (Hv ltac:(by eexists)) as [Hv' _]. by apply start_after.
Qed.

(** A node whose secret is there, and whose cache volume is mounted already. *)
Definition ready_node : environment := override_env (fun _ c =>
  match c with
  | CGetSecret _ _ => Some (Ok {["passphrase" := "x"]})
  | CStat p => Some (Ok (FStat 0 true (if bool_decide (p = VfsNames.VFSCacheBasePath) then 2 else 1)))
  | CGetCacheDir => Some VfsNames.VFSCacheBasePath
  | _ => None
  end).

Lemma main_needs_encrypted_cache_witness :
  is_Some (snd (run ready_node (main "unix:///csi/csi.sock" "n" "0" "luks-secret" "kube-system" "passphrase" true) []))
  /\ verified_encrypted (fst (run ready_node (main "unix:///csi/csi.sock" "n" "0" "luks-secret" "kube-system" "passphrase" true) [])).
Proof.
  split; [vm_compute; by eexists |].
  pose proof (main_needs_encrypted_cache ready_node "unix:///csi/csi.sock" "n" "0" "luks-secret" "kube-system" "passphrase" true eq_refl) as H.
  destruct (run ready_node _ []) as [h r] eqn:E. apply H. replace r with (snd (h, r)) by done. rewrite <- E.
  vm_compute. by eexists.
Defined.

End Facts.
