(* ===== verification/WatchdogScript.v ===== *)
(** * WatchdogScript: the host watchdog's script (watchdog.go)

    The shell script [InstallHostWatchdog] puts on the node, which systemd runs
    every minute.  It removes the pod sandbox of a driver that the container
    runtime believes to run while there is no process.  What the host's
    commands answer is a [host]; what the script does is a list of [action]s;
    its memory between two runs is a [runstate], which a reboot clears; a run
    that exceeds its time is killed after any of its actions. *)

From Stdlib Require Import Ascii.
From S2P Require Import Prelude GoStrings.

Module WatchdogScript.

(** ** What the host answers to one run *)

Abbreviation crictl := (string * string)%type. (* command, runtime endpoint *)

Record host : Type := Host
  { driver_process : bool                      (* [pgrep -f], for the driver's command line *);
    on_path : string -> bool                   (* [command -v] *);
    executable : string -> bool                (* [-x] *);
    version_ok : string -> string -> bool      (* [crictl --runtime-endpoint ep version] *);
    date : Z                                   (* [date +%s] *);
    crictl_out : crictl -> list string -> string (* standard output *);
    crictl_ok : crictl -> list string -> bool    (* exit status 0, in time *);
    mountinfo : string                         (* /proc/self/mountinfo *);
    writable : string -> bool                  (* [-w] on a connection's abort file *);
    abort_ok : string -> bool                  (* writing there succeeds *) }.

(** The files under RUNSTATE, which only the script writes. *)
Record runstate : Set := RunState
  { zombie_count : option Z; last_kill : option Z; last_noruntime : option Z }.
Definition fresh : runstate := RunState None None None.

(** [$(cat file 2>/dev/null || echo 0)] *)
Definition counter (o : option Z) : Z := default 0 o.

(** ** What a run does *)

Inductive msg : Set :=
  | MCannotSelfHeal | MSignature (n : Z) | MAborted (n : nat) | MEvidence (cid : string)
  | MCaptured (cid : string) | MRemoving (pod : string)
  | MRemoved (pod : string) | MFailed (pod : string).

Inductive action : Set :=
  | SetCount (n : Z) | ClearCount | StampKill (t : Z) | StampNoRuntime (t : Z)
  | Logger (m : msg)      (* to the journal *)
  | Record_ (m : msg)     (* to actions.log *)
  | AbortConn (conn : string) (ok : bool)
  | Crictl (cr : crictl) (args : list string).

Definition apply (a : action) (s : runstate) : runstate :=
  match a with
  | SetCount n => RunState (Some n) (last_kill s) (last_noruntime s)
  | ClearCount => RunState None (last_kill s) (last_noruntime s)
  | StampKill t => RunState (zombie_count s) (Some t) (last_noruntime s)
  | StampNoRuntime t => RunState (zombie_count s) (last_kill s) (Some t)
  | _ => s
  end.

(** ** The script *)

Definition crictl_paths : list string :=
  ["crictl"; "/var/lib/rancher/rke2/bin/crictl"; "/var/lib/rancher/k3s/data/current/bin/crictl";
   "/snap/microk8s/current/usr/bin/crictl"; "/var/snap/microk8s/current/bin/crictl"].
Definition runtime_endpoints : list string :=
  ["unix:///run/containerd/containerd.sock"; "unix:///run/k3s/containerd/containerd.sock";
   "unix:///var/snap/microk8s/common/run/containerd.sock"].

(** The first command that is there, with the first endpoint that answers it. *)
Definition crictl_cmd (h : host) : option crictl :=
  List.find (fun '(c, ep) => version_ok h c ep)
    (flat_map (fun c => map (pair c) runtime_endpoints)
       (List.filter (fun c => on_path h c || executable h c) crictl_paths)).

Definition report_no_runtime (h : host) (s : runstate) : list action :=
  if date h - counter (last_noruntime s) <? 3600 then []
  else [StampNoRuntime (date h); Logger MCannotSelfHeal; Record_ MCannotSelfHeal].

(** [head -1] in a command substitution, which drops the newline. *)
Definition first_line (s : string) : string := default "" (head (split nl s)).

(** [[ -z "$(...)" ]]: nothing but newlines. *)
Definition blank (s : string) : bool := negb (string_exists (fun c => negb (Ascii.eqb c nl)) s).

(** [grep fuse.rclone], where the dot is any character. *)
Fixpoint grep_fuse_rclone (s : string) : bool :=
  match s with
  | EmptyString => false
  | String _ s' =>
      (match cut_prefix "fuse" s with
       | Some (String _ r) => has_prefix "rclone" r
       | _ => false
       end) || grep_fuse_rclone s'
  end.

(** awk's [$3] and [cut -d: -f2] (the whole line where it has no colon). *)
Definition awk_3 (line : string) : string :=
  nth 2 (List.filter (fun w => negb (bool_decide (w = ""))) (split " " (replace_char tab " " line))) "".
Definition cut_2 (s : string) : string :=
  match split ":" s with _ :: w :: _ => w | l => nth 0 l "" end.

(** [sort -u], in the byte order of the C locale. *)
Fixpoint uniq (l : list string) : list string :=
  match l with
  | a :: (b :: _) as l' => if bool_decide (a = b) then uniq l' else a :: uniq l'
  | l => l
  end.

(** The minor device numbers of the rclone mounts, each once. *)
Definition fuse_conns (h : host) : list string :=
  List.filter (fun w => negb (bool_decide (w = "")))
    (uniq (sort_strings (map (fun l => cut_2 (awk_3 l)) (List.filter grep_fuse_rclone (split nl (mountinfo h)))))).

Definition abort_all (h : host) : list action :=
  map (fun c => AbortConn c (abort_ok h c)) (List.filter (writable h) (fuse_conns h)).
Definition aborted (h : host) : nat :=
  length (List.filter (abort_ok h) (List.filter (writable h) (fuse_conns h))).

Definition driver_container : string := "lukscryptwalker-csi".
(** What the runtime says is running, and the sandbox that is removed. *)
Definition running (h : host) (cr : crictl) : string := crictl_out h cr ["ps"; "--name"; driver_container; "-q"].
Definition sandbox (h : host) (cr : crictl) : string :=
  first_line (crictl_out h cr ["pods"; "--name"; "csi-node"; "-q"]).
Definition container_of (h : host) (cr : crictl) (pod : string) : string :=
  first_line (crictl_out h cr ["ps"; "-a"; "--pod"; pod; "--name"; driver_container; "-q"]).

Definition evidence (cr : crictl) (cid : string) : list action :=
  if bool_decide (cid = "") then []
  else [Record_ (MEvidence cid); Crictl cr ["inspect"; cid]; Crictl cr ["logs"; "--tail"; "40"; cid]; Logger (MCaptured cid)].

(** The status of the pair of commands is that of the second. *)
Definition remove_sandbox (h : host) (cr : crictl) (pod : string) : list action :=
  [Logger (MRemoving pod); Crictl cr ["stopp"; pod]; Crictl cr ["rmp"; "-f"; pod]]
  ++ (if crictl_ok h cr ["rmp"; "-f"; pod]
      then [Logger (MRemoved pod); Record_ (MRemoved pod)]
      else [Logger (MFailed pod); Record_ (MFailed pod)]).

(** From the look-up of the sandbox on, with the counter already cleared. *)
Definition cure (h : host) (cr : crictl) : list action :=
  let pod := sandbox h cr in
  if bool_decide (pod = "") then []
  else
    abort_all h ++ (if (0 <? aborted h)%nat then [Logger (MAborted (aborted h))] else [])
    ++ evidence cr (container_of h cr pod) ++ remove_sandbox h cr pod.

Definition script (h : host) (s : runstate) : list action :=
  if driver_process h then [ClearCount]
  else match crictl_cmd h with
  | None => report_no_runtime h s
  | Some cr =>
      if blank (running h cr) then [ClearCount]
      else
        let n := counter (zombie_count s) + 1 in
        [SetCount n; Logger (MSignature n)]
        ++ (if n <? 3 then []
            else if date h - counter (last_kill s) <? 900 then []
            else [StampKill (date h); ClearCount] ++ cure h cr)
  end.

(** ** The timer *)

(** A run, with the number of its actions done when systemd killed it, if it
    did ([TimeoutStartSec]); a reboot, which empties the tmpfs. *)
Inductive event : Type :=
  | Tick (h : host) (killed : option nat)
  | Reboot.

Definition done (h : host) (killed : option nat) (s : runstate) : list action :=
  take (default (length (script h s)) killed) (script h s).

Definition step (e : event) (s : runstate) : runstate :=
  match e with
  | Tick h killed => foldl (fun s a => apply a s) s (done h killed s)
  | Reboot => fresh
  end.

(** The state after a past, newest event first. *)
Fixpoint after (past : list event) : runstate :=
  match past with [] => fresh | e :: past => step e (after past) end.

(** ** What the script is to look for *)

(** The signature: no process of the driver, and a runtime that claims it. *)
Definition signature (h : host) : Prop :=
  driver_process h = false /\ exists cr, crictl_cmd h = Some cr /\ blank (running h cr) = false.
(** Nothing was learnt: no process, and no runtime to ask. *)
Definition blind (h : host) : Prop := driver_process h = false /\ crictl_cmd h = None.

(** A run that went on after the stamp of its cure, that is, was not killed right
    behind it. *)
Fixpoint past_stamp (l : list action) : bool :=
  match l with
  | [] => false
  | StampKill _ :: l => match l with [] => false | _ => true end
  | _ :: l => past_stamp l
  end.
Definition cured (h : host) (killed : option nat) (s : runstate) : bool := past_stamp (done h killed s).

(** [seen n past]: the newest part of the past holds [n] sightings of the
    signature with no contrary evidence, no reboot and no cure between them. *)
Inductive seen : nat -> list event -> Prop :=
  | seen_none past : seen 0 past
  | seen_hit n h killed past :
      signature h -> cured h killed (after past) = false -> seen n past -> seen (S n) (Tick h killed :: past)
  | seen_blind n h killed past :
      blind h \/ killed = Some 0%nat -> seen n past -> seen n (Tick h killed :: past).

(** The dates of the cures begun since the last boot. *)
Definition stamps (a : action) : bool := match a with StampKill _ => true | _ => false end.
Fixpoint cures (past : list event) : list Z :=
  match past with
  | [] | Reboot :: _ => []
  | Tick h killed :: past =>
      if existsb stamps (done h killed (after past)) then date h :: cures past else cures past
  end.

(** What destroys something. *)
Definition destructive (a : action) : bool :=
  match a with
  | AbortConn _ _ | Crictl _ ("stopp" :: _) | Crictl _ ("rmp" :: _) => true
  | _ => false
  end.

(** ** Lemmas *)

Lemma uniq_elem l x : x ∈ uniq l <-> x ∈ l.
Proof.
  induction l as [| a l IH]; [done |]. destruct l as [| b l]; [done |]. cbn [uniq].
  case_bool_decide as H; [subst |]; rewrite ?elem_of_cons, IH, ?elem_of_cons; tauto.
Qed.

Lemma fuse_conns_spec h w :
  w ∈ fuse_conns h <->
  w <> "" /\ exists line, line ∈ split nl (mountinfo h) /\ grep_fuse_rclone line = true /\ w = cut_2 (awk_3 line).
Proof.
  unfold fuse_conns. rewrite elem_of_filter_bool, uniq_elem, sort_strings_elem, list_elem_of_fmap.
  setoid_rewrite elem_of_filter_bool. rewrite negb_true_iff, bool_decide_eq_false. naive_solver.
Qed.

(** What the cure does leaves the state alone. *)
Definition inert (a : action) : Prop := forall s, apply a s = s.

Lemma cure_inert h cr : Forall inert (cure h cr).
Proof.
  unfold cure, evidence, remove_sandbox, abort_all, inert.
  repeat case_match; rewrite ?Forall_app, ?Forall_map; repeat split; repeat constructor;
    apply Forall_true; done.
Qed.

Lemma foldl_inert l s : Forall inert l -> foldl (fun s a => apply a s) s l = s.
Proof. intros H. revert s. induction H as [| a l Ha _ IH]; intros s; cbn; [done |]. by rewrite Ha. Qed.

Lemma cure_no_stamp h cr k : existsb stamps (take k (cure h cr)) = false.
Proof.
  apply not_true_iff_false. intros (a & Ha & Hs)%existsb_exists. apply list_elem_of_In in Ha.
  pose proof (Forall_elem _ _ a (cure_inert h cr) (subseteq_take k _ _ Ha)) as Hi.
  destruct a; try done. specialize (Hi fresh). done.
Qed.

Lemma seen_le n m past : (m <= n)%nat -> seen n past -> seen m past.
Proof.
  intros Hle H. revert m Hle. induction H as [past | n h k past Hs Hc _ IH | n h k past Hb _ IH]; intros m Hle.
  - replace m with 0%nat by lia. constructor.
  - destruct m as [| m]; constructor; [done | done |]. apply IH. lia.
  - constructor; [done |]. by apply IH.
Qed.

(** What a run does, by what it finds. *)
Lemma script_signature h s cr :
  driver_process h = false -> crictl_cmd h = Some cr -> blank (running h cr) = false ->
  let n := counter (zombie_count s) + 1 in
  script h s = [SetCount n; Logger (MSignature n)]
    ++ (if (3 <=? n) && (900 <=? date h - counter (last_kill s))
        then [StampKill (date h); ClearCount] ++ cure h cr else []).
Proof.
  intros H1 H2 H3 n. unfold script. rewrite H1, H2, H3. fold n. f_equal.
  destruct (n <? 3) eqn:E; rewrite ?Z.ltb_lt, ?Z.ltb_ge in E.
  - by replace (3 <=? n) with false by lia.
  - replace (3 <=? n) with true by lia. cbn [andb].
    destruct (_ <? 900) eqn:E2; rewrite ?Z.ltb_lt, ?Z.ltb_ge in E2;
      [by replace (900 <=? _) with false by lia | by replace (900 <=? _) with true by lia].
Qed.

Lemma signature_dec h :
  signature h \/ blind h \/ forall s, script h s = [ClearCount].
Proof.
  unfold signature, blind, script. destruct (driver_process h); [by right; right |].
  destruct (crictl_cmd h) as [cr |]; [| by right; left].
  destruct (blank (running h cr)) eqn:E; [by right; right | left; split; [done | by exists cr]].
Qed.

(** How a run, wherever it ends, moves the state. *)
Lemma tick_effect h killed s :
  let s' := step (Tick h killed) s in
  let stamped := existsb stamps (done h killed s) in
  last_kill s' = (if stamped then Some (date h) else last_kill s)
  /\ (stamped = true -> 900 <= date h - counter (last_kill s))
  /\ (zombie_count s' = None
      \/ (zombie_count s' = zombie_count s /\ (blind h \/ killed = Some 0%nat))
      \/ (zombie_count s' = Some (counter (zombie_count s) + 1) /\ signature h /\ cured h killed s = false)).
Proof.
  cbn zeta. unfold cured, step, done.
  assert (Hkilled : forall x (l : list action), default (length (x :: l)) killed = 0%nat -> killed = Some 0%nat).
  { intros x l. by destruct killed as [[|] |]. }
  destruct (signature_dec h) as [Hsig | [Hb | Hcl]].
  - pose proof Hsig as (H1 & cr & H2 & H3). rewrite (script_signature h s cr H1 H2 H3).
    set (n := counter _ + 1). cbn zeta. cbn [app].
    match goal with |- context [default (length ?l) killed] => pose proof (Hkilled _ _ : default (length l) killed = 0%nat -> _) as Hk0 end.
    destruct (default _ killed) as [| [| k]]; [cbn; splits; naive_solver | cbn; splits; naive_solver |].
    cbn [firstn existsb stamps orb foldl apply].
    destruct (_ && _) eqn:Eif; [| rewrite take_nil; cbn; splits; naive_solver]. bools.
    destruct k as [| [| k]]; cbn [firstn existsb stamps orb foldl apply app];
      [cbn; splits; naive_solver | cbn; splits; naive_solver lia |].
    rewrite foldl_inert by (apply Forall_take, cure_inert). cbn. splits; auto.
  - unfold script, report_no_runtime. rewrite (proj1 Hb), (proj2 Hb). destruct (_ <? 3600); [rewrite take_nil; cbn; splits; naive_solver |].
    destruct (default _ killed) as [| [| [| [| k]]]]; cbn; splits; naive_solver.
  - rewrite Hcl. pose proof (Hkilled ClearCount []) as Hk0.
    destruct (default _ killed) as [| k]; [cbn; splits; naive_solver |]. cbn. rewrite take_nil. cbn; splits; naive_solver.
Qed.

(** The state remembers the past: the count is no more than what was seen, and
    the last cure is the latest. *)
Definition remembers (s : runstate) (past : list event) : Prop :=
  0 <= counter (zombie_count s)
  /\ seen (Z.to_nat (counter (zombie_count s))) past
  /\ (forall t, t ∈ cures past -> exists l, last_kill s = Some l /\ t <= l)
  /\ (forall l, last_kill s = Some l -> l ∈ cures past).

Lemma after_remembers past : remembers (after past) past.
Proof.
  induction past as [| [h killed |] past (Hc & Hs & Hk1 & Hk2)]; cbn [after].
  1, 3: split; [done | split; [constructor | split; [by intros t ?%not_elem_of_nil | done]]].
  destruct (tick_effect h killed (after past)) as (El & Hgap & Hcount).
  unfold remembers. rewrite El. cbn [cures]. splits.
  - destruct Hcount as [-> | [[-> _] | [-> _]]]; cbn; lia.
  - destruct Hcount as [-> | [[-> Hb] | (-> & Hsig & Hc')]]; [constructor | by apply seen_blind |].
    cbn. rewrite Z2Nat.inj_add, Nat.add_1_r by lia. by constructor.
  - destruct (existsb _ _); [| done]. intros t [-> | Ht]%elem_of_cons; eexists; (split; [done |]); [lia |].
    destruct (Hk1 t Ht) as (x & Hx & Htx). rewrite Hx in Hgap. cbn in Hgap. specialize (Hgap eq_refl). lia.
  - destruct (existsb _ _); [intros ? [= <-]; left | done].
Qed.

Lemma cure_destructive h cr a :
  a ∈ cure h cr -> destructive a = true ->
  sandbox h cr <> ""
  /\ ((exists conn, a = AbortConn conn (abort_ok h conn) /\ conn ∈ fuse_conns h)
      \/ a = Crictl cr ["stopp"; sandbox h cr] \/ a = Crictl cr ["rmp"; "-f"; sandbox h cr]).
Proof.
  unfold cure. case_bool_decide as Hp; [by intros ?%not_elem_of_nil |]. intros Ha Hd. split; [done |].
  rewrite !elem_of_app in Ha. destruct Ha as [Ha | [Ha | [Ha | Ha]]].
  - apply list_elem_of_fmap in Ha as (c & -> & [Hc _]%elem_of_filter_bool). left. by exists c.
  - destruct (0 <? aborted h)%nat; [apply list_elem_of_singleton in Ha as -> | by apply not_elem_of_nil in Ha]. done.
  - unfold evidence in Ha. case_bool_decide; [by apply not_elem_of_nil in Ha |].
    by repeat (apply elem_of_cons in Ha as [-> | Ha]; [by cbn in Hd |]); apply not_elem_of_nil in Ha.
  - unfold remove_sandbox in Ha. apply elem_of_app in Ha as [Ha | Ha].
    + repeat (apply elem_of_cons in Ha as [-> | Ha]; [by cbn in Hd; auto |]); by apply not_elem_of_nil in Ha.
    + destruct (crictl_ok _ _ _); repeat (apply elem_of_cons in Ha as [-> | Ha]; [by cbn in Hd |]); by apply not_elem_of_nil in Ha.
Qed.

Lemma take_reached {A} (l1 l2 : list A) k a x :
  a ∈ take k (l1 ++ l2) -> a ∉ l1 -> x ∈ l1 -> x ∈ take k (l1 ++ l2).
Proof.
  rewrite take_app. intros [Ha | Ha]%elem_of_app Hn Hx; [by apply subseteq_take in Ha |].
  destruct (decide (length l1 <= k)%nat) as [Hk | Hk].
  - rewrite take_ge by done. apply elem_of_app. by left.
  - replace (k - length l1)%nat with 0%nat in Ha by lia. by apply not_elem_of_nil in Ha.
Qed.

(** What precedes the removal of a sandbox. *)
Definition before_removal (h : host) (cr : crictl) : list action :=
  abort_all h ++ (if (0 <? aborted h)%nat then [Logger (MAborted (aborted h))] else [])
  ++ evidence cr (container_of h cr (sandbox h cr)).

Definition removes (a : action) : bool :=
  match a with Crictl _ ("stopp" :: _) | Crictl _ ("rmp" :: _) => true | _ => false end.

Lemma before_removal_keeps h cr a : a ∈ before_removal h cr -> removes a = false.
Proof.
  unfold before_removal, evidence. rewrite !elem_of_app. intros [(c & -> & _)%list_elem_of_fmap | [Ha | Ha]]; [done | |].
  - destruct (0 <? aborted h)%nat; [by apply list_elem_of_singleton in Ha as -> | by apply not_elem_of_nil in Ha].
  - case_bool_decide; [by apply not_elem_of_nil in Ha |].
    by repeat (apply elem_of_cons in Ha as [-> | Ha]; [done |]); apply not_elem_of_nil in Ha.
Qed.

Lemma cure_split h cr :
  sandbox h cr <> "" -> cure h cr = before_removal h cr ++ remove_sandbox h cr (sandbox h cr).
Proof. intros H. unfold cure, before_removal. rewrite bool_decide_false by done. by rewrite !app_assoc. Qed.

Lemma script_destructive h s a :
  a ∈ script h s -> destructive a = true ->
  signature h /\ exists cr, crictl_cmd h = Some cr
    /\ 3 <= counter (zombie_count s) + 1 /\ 900 <= date h - counter (last_kill s)
    /\ script h s = [SetCount (counter (zombie_count s) + 1); Logger (MSignature (counter (zombie_count s) + 1));
                     StampKill (date h); ClearCount] ++ cure h cr
    /\ a ∈ cure h cr.
Proof.
  intros Ha Hd. destruct (signature_dec h) as [Hsig | [[H1 H2] | Hcl]].
  - pose proof Hsig as (H1 & cr & H2 & H3). split; [done |]. exists cr. split; [done |].
    rewrite (script_signature h s cr H1 H2 H3) in Ha |- *.
    apply elem_of_app in Ha as [Ha | Ha].
    { by repeat (apply elem_of_cons in Ha as [-> | Ha]; [done |]); apply not_elem_of_nil in Ha. }
    destruct (_ && _) eqn:E; [bools | by apply not_elem_of_nil in Ha]. splits; try done.
    by repeat (apply elem_of_cons in Ha as [-> | Ha]; [done |]).
  - unfold script, report_no_runtime in Ha. rewrite H1, H2 in Ha.
    destruct (_ <? 3600); by repeat (apply elem_of_cons in Ha as [-> | Ha]; [done |]); apply not_elem_of_nil in Ha.
  - rewrite Hcl in Ha. by apply list_elem_of_singleton in Ha as ->.
Qed.

(** ** What the watchdog promises *)

(** C13: the watchdog destroys nothing but on its signature.  Whatever the host
    answered to the past runs, wherever systemd killed them and however often
    the node rebooted: when a run aborts a FUSE connection or stops or removes
    a sandbox, it saw no driver process while the runtime claimed one, two
    earlier runs of this boot had seen the same, with no run since the first of
    them that saw otherwise or cured it (one that was killed at once, or found
    no runtime to ask, does not count, and neither does a cure that was killed
    as soon as it had stamped its time); every earlier cure of this boot is 15
    minutes past;
    what it aborts are connections of rclone mounts in the mount table, what it
    removes is the first sandbox the runtime lists, and before the sandbox goes
    the connections were aborted and the dead container's logs were saved. *)
Theorem watchdog_acts_only_on_signature past h killed a :
  a ∈ done h killed (after past) -> destructive a = true ->
  signature h /\ seen 2 past
  /\ (forall t, t ∈ cures past -> 900 <= date h - t)
  /\ exists cr, crictl_cmd h = Some cr /\ sandbox h cr <> ""
     /\ ((exists conn line, a = AbortConn conn (abort_ok h conn) /\ line ∈ split nl (mountinfo h)
             /\ grep_fuse_rclone line = true /\ conn = cut_2 (awk_3 line))
         \/ ((a = Crictl cr ["stopp"; sandbox h cr] \/ a = Crictl cr ["rmp"; "-f"; sandbox h cr])
             /\ (forall conn, conn ∈ fuse_conns h -> writable h conn = true ->
                   AbortConn conn (abort_ok h conn) ∈ done h killed (after past))
             /\ (container_of h cr (sandbox h cr) <> "" ->
                   Crictl cr ["logs"; "--tail"; "40"; container_of h cr (sandbox h cr)] ∈ done h killed (after past)))).
Proof.
  intros Ha Hd. set (s := after past) in *.
  destruct (after_remembers past) as (Hc & Hs & Hk & _). fold s in Hc, Hs, Hk.
  destruct (script_destructive h s a) as (Hsig & cr & Hcr & Hn & Hgap & Escript & Hin);
    [by eapply subseteq_take | done |].
  splits; [done | eapply seen_le; [| exact Hs]; lia | |].
  { intros t Ht. destruct (Hk t Ht) as (l & El & Hl). rewrite El in Hgap. cbn in Hgap. lia. }
  exists cr. split; [done |].
  destruct (cure_destructive h cr a Hin Hd) as [Hp [(conn & -> & (_ & line & Hline)%fuse_conns_spec) | Hrm]].
  { split; [done |]. left. by exists conn, line. }
  split; [done |]. right. split; [done |].
  assert (Hbefore : forall x, x ∈ before_removal h cr -> x ∈ done h killed s).
  { intros x Hx. unfold done in *. rewrite Escript, (cure_split h cr Hp), (app_assoc _ (before_removal h cr)) in *.
    eapply take_reached; [exact Ha | | apply elem_of_app; by right].
    intros [Hq | Hq%before_removal_keeps]%elem_of_app; [| by destruct Hrm as [-> | ->]].
    repeat (apply elem_of_cons in Hq as [-> | Hq]; [by destruct Hrm |]). by apply not_elem_of_nil in Hq. }
  unfold before_removal in Hbefore. split.
  - intros conn Hconn Hw. apply Hbefore, elem_of_app. left. unfold abort_all.
    apply list_elem_of_fmap. exists conn. split; [done |]. by apply elem_of_filter_bool.
  - intros Hcid. apply Hbefore. rewrite !elem_of_app. right; right. unfold evidence.
    rewrite bool_decide_false by done. right; right; by left.
Qed.

(** A run that asks to stop the sandbox it found and then to remove it, after it
    aborted the connections of the rclone mounts. *)
Definition heals (h : host) (past : list event) : Prop :=
  exists cr before rest, crictl_cmd h = Some cr
  /\ done h None (after past)
     = before ++ [Crictl cr ["stopp"; sandbox h cr]; Crictl cr ["rmp"; "-f"; sandbox h cr]] ++ rest
  /\ forall conn, conn ∈ fuse_conns h -> writable h conn = true -> AbortConn conn (abort_ok h conn) ∈ before.

Lemma done_full h s : done h None s = script h s.
Proof. apply take_ge. done. Qed.

(** A run that may cure: the signature, a sandbox to remove, and 15 minutes
    since the last cure. *)
Definition may_cure (h : host) (s : runstate) : Prop :=
  signature h /\ (forall cr, crictl_cmd h = Some cr -> sandbox h cr <> "")
  /\ 900 <= date h - counter (last_kill s).

Lemma third_sighting_heals h past :
  may_cure h (after past) -> 2 <= counter (zombie_count (after past)) -> heals h past.
Proof.
  intros ((H1 & cr & H2 & H3) & Hp & Hgap) Hn.
  pose proof (script_signature h (after past) cr H1 H2 H3) as E. cbn zeta in E.
  rewrite (cure_split h cr (Hp cr H2)) in E.
  replace (3 <=? _) with true in E by lia. replace (900 <=? _) with true in E by lia. cbn [andb] in E.
  set (n := counter _ + 1) in E. unfold remove_sandbox in E.
  eexists cr, ([SetCount n; Logger (MSignature n); StampKill (date h); ClearCount] ++ before_removal h cr ++ [Logger (MRemoving (sandbox h cr))]), _.
  split; [done |]. split.
  - rewrite done_full, E, <- !app_assoc. cbn [app]. do 4 f_equal.
  - intros conn Hc Hw. rewrite !elem_of_app. right. left. unfold before_removal, abort_all. rewrite !elem_of_app. left.
    apply list_elem_of_fmap. exists conn. split; [done |]. by apply elem_of_filter_bool.
Qed.

Lemma early_sighting_counts h past :
  signature h -> counter (zombie_count (after past)) < 2 ->
  let s := after (Tick h None :: past) in
  counter (zombie_count s) = counter (zombie_count (after past)) + 1 /\ last_kill s = last_kill (after past).
Proof.
  intros (H1 & cr & H2 & H3) Hn. cbn [after step]. rewrite done_full, (script_signature h _ cr H1 H2 H3).
  by replace (3 <=? _) with false by lia.
Qed.

(** C14: the watchdog gets to its cure.  Where three runs in a row, none of them
    killed, find the signature and a sandbox, and the clock and every cure of
    this boot leave 15 minutes, one of the three asks the runtime to stop that
    sandbox and then to remove it, having aborted the FUSE connection of every
    rclone mount it may write to; whatever the watchdog's past, and whatever
    these commands answer.  (That the sandbox then goes, and that kubelet makes
    another, is the runtime's part.) *)
Theorem watchdog_heals past h1 h2 h3 :
  (forall h, h ∈ [h1; h2; h3] ->
    signature h /\ (forall cr, crictl_cmd h = Some cr -> sandbox h cr <> "")
    /\ 900 <= date h /\ forall t, t ∈ cures past -> 900 <= date h - t) ->
  heals h1 past \/ heals h2 (Tick h1 None :: past) \/ heals h3 (Tick h2 None :: Tick h1 None :: past).
Proof.
  intros H. destruct (after_remembers past) as (Hc & _ & _ & Hk).
  assert (Hmay : forall h s, h ∈ [h1; h2; h3] -> last_kill s = last_kill (after past) -> may_cure h s).
  { intros h s Hh E. destruct (H h Hh) as (H1 & H2 & H3 & H4). split; [done | split; [done |]]. rewrite E.
    destruct (last_kill (after past)) as [l |] eqn:El; cbn; [by apply H4, Hk | lia]. }
  assert (H1 : h1 ∈ [h1; h2; h3]) by left.
  assert (H2 : h2 ∈ [h1; h2; h3]) by (right; left).
  assert (H3 : h3 ∈ [h1; h2; h3]) by (right; right; left).
  destruct (decide (2 <= counter (zombie_count (after past)))) as [Hn | Hn].
  { left. by apply third_sighting_heals; [apply Hmay |]. }
  destruct (early_sighting_counts h1 past) as [E1 L1]; [apply (H h1 H1) | lia |].
  destruct (decide (2 <= counter (zombie_count (after (Tick h1 None :: past))))) as [Hn' | Hn'].
  { right; left. by apply third_sighting_heals; [apply Hmay |]. }
  destruct (early_sighting_counts h2 (Tick h1 None :: past)) as [E2 L2]; [apply (H h2 H2) | lia |].
  right; right. apply third_sighting_heals; [apply Hmay; congruence | lia].
Qed.

(** Where the runtime lists no sandbox, the cure's quarter of an hour is spent
    and the count forgotten, but nothing is done. *)
Theorem empty_listing_spends_the_cure h past cr :
  signature h -> crictl_cmd h = Some cr -> sandbox h cr = "" ->
  2 <= counter (zombie_count (after past)) -> 900 <= date h - counter (last_kill (after past)) ->
  (forall a, a ∈ done h None (after past) -> destructive a = false)
  /\ last_kill (after (Tick h None :: past)) = Some (date h)
  /\ zombie_count (after (Tick h None :: past)) = None.
Proof.
  intros (H1 & cr' & H2 & H3) Hcr Hp Hn Hgap. assert (cr' = cr) as -> by congruence.
  cbn [after step]. rewrite done_full, (script_signature h _ cr H1 H2 H3).
  replace (3 <=? _) with true by lia. replace (900 <=? _) with true by lia.
  unfold cure. rewrite Hp. cbn. splits; [| done | done].
  intros a Ha. by repeat (apply elem_of_cons in Ha as [-> | Ha]; [done |]); apply not_elem_of_nil in Ha.
Qed.

(** ** A node's runtime

    What crictl's documentation says of the three listings, over the containers
    and the sandboxes of a node. *)

Record container : Set := Container { ct_id : string; ct_name : string; ct_pod : string; ct_running : bool }.
Record sandboxed : Set := Sandboxed { sb_id : string; sb_name : string }.

Definition lines (l : list string) : string := join (String nl "") l.

Definition listing (cs : list container) (ps : list sandboxed) (args : list string) : string :=
  match args with
  | ["ps"; "--name"; n; "-q"] => lines (map ct_id (List.filter (fun c => ct_running c && contains (ct_name c) n) cs))
  | ["pods"; "--name"; n; "-q"] => lines (map sb_id (List.filter (fun p => contains (sb_name p) n) ps))
  | ["ps"; "-a"; "--pod"; p; "--name"; n; "-q"] =>
      lines (map ct_id (List.filter (fun c => bool_decide (ct_pod c = p) && contains (ct_name c) n) cs))
  | _ => ""
  end.

Definition a_node (process : bool) (cs : list container) (ps : list sandboxed) (now : Z) : host :=
  Host process (fun c => bool_decide (c = "crictl")) (fun _ => false)
    (fun _ ep => bool_decide (ep = "unix:///run/containerd/containerd.sock")) now
    (fun _ => listing cs ps) (fun _ _ => true)
    (lines ["36 25 0:31 / /sys rw - sysfs sysfs rw"; "90 25 0:52 / /var/lib/kubelet/x rw - fuse.rclone s3: rw"])
    (fun _ => true) (fun _ => true).

(** The driver's sandbox is [node]; the runtime still calls its container
    running, and the process is gone. *)
Definition zombie (now : Z) : host :=
  a_node false [Container "c1" "lukscryptwalker-csi" "node" true] [Sandboxed "node" "lukscryptwalker-csi-node-x"] now.

(** The node driver is starting again, as after any crash, and so has no
    process; a controller of the same container name runs beside it, and
    another storage driver has a pod called [csi-node]. *)
Definition restarting (now : Z) : host :=
  a_node false [Container "c1" "lukscryptwalker-csi" "node" false; Container "c2" "lukscryptwalker-csi" "controller" true]
    [Sandboxed "other" "ebs-csi-node-y"; Sandboxed "node" "lukscryptwalker-csi-node-x";
     Sandboxed "controller" "lukscryptwalker-csi-controller-0"] now.

Lemma zombie_signature now : signature (zombie now).
Proof. split; [done |]. eexists. split; by vm_compute. Qed.

Lemma watchdog_acts_only_on_signature_witness :
  exists t1 t2, after [Tick (zombie 2060) None; Tick (zombie 2000) None] = RunState (Some t1) None None
  /\ t1 = 2 /\ t2 = 900
  /\ forall t, t ∈ cures [Tick (zombie 2060) None; Tick (zombie 2000) None] -> t2 <= date (zombie 2120) - t.
Proof.
  exists 2, 900. split; [by vm_compute | split; [done | split; [done |]]].
  apply (watchdog_acts_only_on_signature [Tick (zombie 2060) None; Tick (zombie 2000) None] (zombie 2120) None
    (AbortConn "52" true)); [| done].
  apply (list_elem_of_lookup_2 _ 4). by vm_compute.
Defined.

Lemma watchdog_heals_witness :
  heals (zombie 2000) [] \/ heals (zombie 2060) [Tick (zombie 2000) None]
  \/ heals (zombie 2120) [Tick (zombie 2060) None; Tick (zombie 2000) None].
Proof.
  apply watchdog_heals. intros h Hh.
  assert (E : exists now, h = zombie now /\ 2000 <= now).
  { repeat (apply elem_of_cons in Hh as [-> | Hh]; [by eexists; split; [done | lia] |]). by apply not_elem_of_nil in Hh. }
  destruct E as (now & -> & Hnow). split; [apply zombie_signature |]. split; [intros cr; by intros [= <-] |].
  split; [cbn; lia | by intros t ?%not_elem_of_nil].
Defined.

(** The signature does not tell our sandbox from others: beside a controller,
    three minutes of restarting are enough for the watchdog to remove the
    sandbox of a driver that has nothing to do with it. *)
Theorem neighbour_removed :
  exists cr, crictl_cmd (restarting 2120) = Some cr
  /\ Crictl cr ["rmp"; "-f"; "other"] ∈
       done (restarting 2120) None (after [Tick (restarting 2060) None; Tick (restarting 2000) None]).
Proof. eexists. split; [done |]. apply (list_elem_of_lookup_2 _ 8). by vm_compute. Qed.

End WatchdogScript.
