(* ===== verification/Pods.v ===== *)
(** * Pods: what leaves the pods alone

    Only the mount checker kills containers and deletes pods.  Here, operation
    by operation, from the RPC layer up to the CSI handlers, is the half of
    that claim that concerns everything else; see System for the whole. *)

From S2P Require Import Prelude GoStrings Effects Rpc RcloneConfig Luks Mounts VfsNames VfsCache Session MountManager Secrets.
From S2P Require Import Csi Controller NodeMounts NodeLuks NodeState Drain S3Live NodeServer Consumers Checker Registration.
Import Rpc Luks Mounts VfsNames Session VfsCache MountManager Csi K8s Secrets NodeMounts NodeLuks NodeState Drain S3Live.
Import NodeServer Consumers Checker Registration.

#[local] Open Scope Z_scope.

Module Pods.

Ltac spared := only_with ltac:(exact I).

Lemma RPC_spares m params t : only spares_pods (RPCWithTimeout m params t).
Proof. unfold RPCWithTimeout, callLibrclone, sanitize. spared. Qed.
#[export] Hint Resolve RPC_spares : only.
Lemma RPC_default_spares m params : only spares_pods (RPC m params).
Proof. apply RPC_spares. Qed.
#[export] Hint Resolve RPC_default_spares : only.
Lemma table_spares : only spares_pods HostMountStacksOK.
Proof. unfold HostMountStacksOK. spared. Qed.
Lemma tableOK_spares : only spares_pods HostMountsOK.
Proof. unfold HostMountsOK, HostMountStacksOK. spared. Qed.
#[export] Hint Resolve table_spares tableOK_spares : only.
Lemma is_mount_spares p : only spares_pods (IsHostMountPoint p).
Proof. unfold IsHostMountPoint, HostMounts. spared. Qed.
Lemma fuse_state_spares p : only spares_pods (HostFUSEMountState p).
Proof. unfold HostFUSEMountState. spared. Qed.
#[export] Hint Resolve is_mount_spares fuse_state_spares : only.
Lemma is_fuse_spares p : only spares_pods (IsHostFUSEMount p).
Proof. unfold IsHostFUSEMount. spared. Qed.
#[export] Hint Resolve is_fuse_spares : only.

(** ** Sessions *)

Lemma unmountBounded_spares p d : only spares_pods (unmountBounded p d).
Proof. unfold unmountBounded. spared. Qed.
Lemma mkdirAllBounded_spares p t : only spares_pods (mkdirAllBounded p t).
Proof. unfold mkdirAllBounded. spared. Qed.
Lemma readDirBounded_spares p t : only spares_pods (readDirBounded p t).
Proof. unfold readDirBounded. spared. Qed.
Lemma mountedDevice_spares p t : only spares_pods (mountedDevice p t).
Proof. unfold mountedDevice. spared. Qed.
Lemma removeSessionDir_spares p : only spares_pods (removeSessionDir p).
Proof. unfold removeSessionDir. spared. Qed.
Lemma liveSessions_spares v : only spares_pods (liveSessions v).
Proof. unfold liveSessions. spared. Qed.
#[export] Hint Resolve unmountBounded_spares mkdirAllBounded_spares readDirBounded_spares mountedDevice_spares
  removeSessionDir_spares liveSessions_spares : only.
Lemma unmountSession_spares p : only spares_pods (unmountSession p).
Proof. unfold unmountSession. spared. Qed.
#[export] Hint Resolve unmountSession_spares : only.
Lemma newSessionDir_spares v n : only spares_pods (newSessionDir v n).
Proof.
  unfold newSessionDir. assert (H : forall fuel p, only spares_pods (newSessionDir_loop fuel p n)).
  { induction fuel as [| fuel IH]; intros p; cbn [newSessionDir_loop]; spared. }
  spared.
Qed.
Lemma ShutdownSessions_spares v l : only spares_pods (ShutdownSessions v l).
Proof.
  unfold ShutdownSessions. assert (H : forall l, only spares_pods (end_sessions l)).
  { induction l0 as [| s l0 IH]; cbn [end_sessions]; spared. }
  spared.
Qed.
Lemma SweepDeadSessions_spares v : only spares_pods (SweepDeadSessions v).
Proof. unfold SweepDeadSessions, sweep_session. spared. Qed.
#[export] Hint Resolve newSessionDir_spares ShutdownSessions_spares SweepDeadSessions_spares : only.

(** ** Caches *)

Lemma item_dirty_spares p : only spares_pods (isCacheItemDirty p).
Proof. unfold isCacheItemDirty. spared. Qed.
#[export] Hint Resolve item_dirty_spares : only.
Lemma dirty_walk_spares l : only spares_pods (dirty_walk l).
Proof. induction l as [| [] l IH]; cbn [dirty_walk]; spared. Qed.
#[export] Hint Resolve dirty_walk_spares : only.
Lemma tree_dirty_spares b n : only spares_pods (hasDirtyCacheItemsAt b n).
Proof. unfold hasDirtyCacheItemsAt. spared. Qed.
#[export] Hint Resolve tree_dirty_spares : only.
Lemma HasUnuploadedData_spares v : only spares_pods (HasUnuploadedData v).
Proof.
  unfold HasUnuploadedData, hasUnuploadedDataAt. assert (H : forall b es, only spares_pods (any_dirty b v es)).
  { intros b. induction es as [| e es IH]; cbn [any_dirty]; spared. }
  spared.
Qed.
Lemma ValidateVFSCache_spares n : only spares_pods (ValidateVFSCache n).
Proof. unfold ValidateVFSCache, validateVFSCacheAt, validate_item, corruptReason, quarantineCacheItem. spared. Qed.
Lemma names_spares : only spares_pods LoadVFSNameMap.
Proof. unfold LoadVFSNameMap. spared. Qed.
#[export] Hint Resolve HasUnuploadedData_spares ValidateVFSCache_spares names_spares : only.
Lemma SaveVFSName_spares v n : only spares_pods (SaveVFSName v n).
Proof. unfold SaveVFSName, writeVFSNameMap. spared. Qed.
Lemma RemoveVFSName_spares v : only spares_pods (RemoveVFSName v).
Proof. unfold RemoveVFSName, writeVFSNameMap. spared. Qed.
Lemma SaveDrainPending_spares v : only spares_pods (SaveDrainPending v).
Proof. unfold SaveDrainPending. spared. Qed.
Lemma ClearDrainPending_spares v : only spares_pods (ClearDrainPending v).
Proof. unfold ClearDrainPending. spared. Qed.
#[export] Hint Resolve SaveVFSName_spares RemoveVFSName_spares SaveDrainPending_spares ClearDrainPending_spares : only.

(** ** Mounts *)

Lemma configs_spares l : only spares_pods (RcloneConfig.RcloneConfig.DeleteNamedConfigs l).
Proof. unfold RcloneConfig.RcloneConfig.DeleteNamedConfigs. spared. Qed.
Lemma create_s3_spares n c : only spares_pods (RcloneConfig.RcloneConfig.CreateNamedS3Config n c).
Proof. unfold RcloneConfig.RcloneConfig.CreateNamedS3Config. spared. Qed.
Lemma create_crypt_spares n p c : only spares_pods (RcloneConfig.RcloneConfig.CreateNamedCryptConfig n p c).
Proof. unfold RcloneConfig.RcloneConfig.CreateNamedCryptConfig. spared. Qed.
Lemma NewMountManager_spares a b c d e f g : only spares_pods (NewMountManager a b c d e f g).
Proof. unfold NewMountManager. spared. Qed.
Lemma isMountPoint_spares mm : only spares_pods (isMountPoint mm).
Proof. unfold isMountPoint. spared. Qed.
Lemma disk_dirty_spares mm : only spares_pods (hasDirtyCacheOnDisk mm).
Proof. unfold hasDirtyCacheOnDisk. spared. Qed.
Lemma registered_spares : only spares_pods RegisteredVFSNames.
Proof. unfold RegisteredVFSNames. spared. Qed.
#[export] Hint Resolve configs_spares create_s3_spares create_crypt_spares NewMountManager_spares isMountPoint_spares
  disk_dirty_spares registered_spares : only.
Lemma count_spares mm : only spares_pods (countRegisteredVFS mm).
Proof. unfold countRegisteredVFS. spared. Qed.
Lemma unbind_spares mm : only spares_pods (unbindStaging mm).
Proof.
  unfold unbindStaging. assert (H : forall n p, only spares_pods (unbind_loop n p)).
  { induction n as [| n IH]; intros p; cbn [unbind_loop]; spared. }
  spared.
Qed.
Lemma wait_spares mm t : only spares_pods (waitForPendingUploads mm t).
Proof.
  unfold waitForPendingUploads. assert (H : forall n d, only spares_pods (wait_loop n mm d)).
  { induction n as [| n IH]; intros d; cbn [wait_loop]; spared. }
  spared.
Qed.
#[export] Hint Resolve count_spares unbind_spares wait_spares : only.
Lemma unmount_spares mm t : only spares_pods (unmount mm t).
Proof. unfold unmount, cleanupVFSCacheDir. spared. Qed.
Lemma usable_spares mm d : only spares_pods (mountUsable mm d).
Proof. unfold mountUsable. spared. Qed.
#[export] Hint Resolve unmount_spares usable_spares : only.
Lemma expose_spares mm dev d : only spares_pods (expose mm dev d).
Proof.
  unfold expose, bindBounded. assert (H : forall n, only spares_pods (expose_loop n mm dev d)).
  { induction n as [| n IH]; cbn [expose_loop]; spared. }
  spared.
Qed.
#[export] Hint Resolve expose_spares : only.
Lemma ready_spares mm : only spares_pods (waitForMountReady mm).
Proof.
  unfold waitForMountReady. assert (H : forall n d, only spares_pods (ready_loop n mm d)).
  { induction n as [| n IH]; intros d; cbn [ready_loop]; spared. }
  spared.
Qed.
Lemma Reexpose_spares mm : only spares_pods (Reexpose mm).
Proof. unfold Reexpose. spared. Qed.
Lemma SessionServing_spares mm : only spares_pods (SessionServing mm).
Proof. unfold SessionServing. spared. Qed.
Lemma exclusive_spares mm : only spares_pods (ensureExclusiveVFSName mm).
Proof.
  unfold ensureExclusiveVFSName. assert (H : forall n b mm, only spares_pods (ensure_loop n b mm)).
  { induction n as [| n IH]; intros b mm0; cbn [ensure_loop]; spared. }
  spared.
Qed.
#[export] Hint Resolve ready_spares Reexpose_spares SessionServing_spares exclusive_spares : only.
Lemma cloexec_spares : only spares_pods setFuseFdsCloexec.
Proof. unfold setFuseFdsCloexec. spared. Qed.
Lemma stale_cache_spares mm : only spares_pods (hasStaleVFSCache mm).
Proof. unfold hasStaleVFSCache. spared. Qed.
#[export] Hint Resolve cloexec_spares stale_cache_spares : only.
Lemma mount_session_spares g mm : only spares_pods (mount_session g mm).
Proof. unfold mount_session, warnOnDuplicateVFS. spared. Qed.
#[export] Hint Resolve mount_session_spares : only.
Lemma Mount_spares g mm : only spares_pods (Mount g mm).
Proof. unfold Mount, IsMounted. spared. Qed.
#[export] Hint Resolve Mount_spares : only.

(** ** Commands, LUKS devices and files *)

Lemma cmd_bounded_spares t argv : only spares_pods (runCmdBoundedOutput t argv).
Proof. unfold runCmdBoundedOutput. spared. Qed.
#[export] Hint Resolve cmd_bounded_spares : only.
Lemma cmd_run_bounded_spares t argv : only spares_pods (runCmdBounded t argv).
Proof. unfold runCmdBounded. spared. Qed.
Lemma cmd_combined_spares argv : only spares_pods (cmd_combined argv).
Proof. unfold cmd_combined. spared. Qed.
Lemma cmd_output_spares argv : only spares_pods (cmd_output argv).
Proof. unfold cmd_output. spared. Qed.
Lemma cmd_run_spares argv : only spares_pods (cmd_run argv).
Proof. unfold cmd_run, cmd_output. spared. Qed.
#[export] Hint Resolve cmd_run_bounded_spares cmd_combined_spares cmd_output_spares cmd_run_spares : only.
Lemma cryptsetup_spares i args : only spares_pods (runCryptsetup i args).
Proof. unfold runCryptsetup, runBounded. spared. Qed.
#[export] Hint Resolve cryptsetup_spares : only.
Lemma is_luks_spares d : only spares_pods (IsLUKSDevice d).
Proof. unfold IsLUKSDevice. spared. Qed.
Lemma is_opened_spares d : only spares_pods (IsLUKSOpened d).
Proof. unfold IsLUKSOpened. spared. Qed.
#[export] Hint Resolve is_luks_spares is_opened_spares : only.
Lemma open_luks_spares d m p : only spares_pods (OpenLUKS d m p).
Proof. unfold OpenLUKS. spared. Qed.
Lemma close_luks_spares m : only spares_pods (CloseLUKS m).
Proof. unfold CloseLUKS. spared. Qed.
Lemma resize_luks_spares m p : only spares_pods (ResizeLUKS m p).
Proof. unfold ResizeLUKS. spared. Qed.
#[export] Hint Resolve open_luks_spares close_luks_spares resize_luks_spares : only.
Lemma format_luks_spares d m p : only spares_pods (FormatAndOpenLUKS d m p).
Proof. unfold FormatAndOpenLUKS. spared. Qed.
Lemma free_space_spares d n : only spares_pods (ensureFreeSpace d n).
Proof. unfold ensureFreeSpace. spared. Qed.
#[export] Hint Resolve format_luks_spares free_space_spares : only.
Lemma create_backing_spares f z : only spares_pods (CreateBackingFile f z).
Proof. unfold CreateBackingFile. spared. Qed.
Lemma expand_backing_spares f z : only spares_pods (ExpandBackingFile f z).
Proof. unfold ExpandBackingFile. spared. Qed.
Lemma local_path_spares v : only spares_pods (GetLocalPath v).
Proof. unfold GetLocalPath, local_root. spared. Qed.
Lemma loops_spares f : only spares_pods (loopDevicesFor f).
Proof. unfold loopDevicesFor. spared. Qed.
#[export] Hint Resolve create_backing_spares expand_backing_spares local_path_spares loops_spares : only.
Lemma stack_spares p : only spares_pods (unmountHostStack p).
Proof.
  unfold unmountHostStack. assert (H : forall n b, only spares_pods (unmount_stack_loop n b p)).
  { induction n as [| n IH]; intros b; cbn [unmount_stack_loop]; unfold HostMountDepth, unmountHostOnce; spared. }
  spared.
Qed.
#[export] Hint Resolve stack_spares : only.
Lemma unmount_path_spares p : only spares_pods (unmountPath p).
Proof. unfold unmountPath. spared. Qed.
Lemma bind_mount_spares a b r : only spares_pods (bindMount a b r).
Proof. unfold bindMount. spared. Qed.
Lemma mounted_from_spares p d : only spares_pods (isMountedFrom p d).
Proof. unfold isMountedFrom. spared. Qed.
#[export] Hint Resolve unmount_path_spares bind_mount_spares mounted_from_spares : only.

(** ** Kubernetes *)

Section handlers.
Context (nodeID : string) (clientset : bool).

Lemma pv_spares v : only spares_pods (getPVByVolumeID clientset v).
Proof. unfold getPVByVolumeID. spared. Qed.
Lemma sc_spares n : only spares_pods (getStorageClassParameters clientset n).
Proof. unfold getStorageClassParameters. spared. Qed.
Lemma secrets_spares q : only spares_pods (FetchVolumeSecrets clientset q).
Proof. unfold FetchVolumeSecrets, fetchPassphrase, fetchS3Config. spared. Qed.
#[local] Hint Resolve pv_spares sc_spares secrets_spares : only.
Lemma volume_secrets_spares v ctx : only spares_pods (volume_secrets clientset v ctx).
Proof. unfold volume_secrets. spared. Qed.
Lemma fsGroup_spares ctx cap : only spares_pods (extractFsGroup clientset ctx cap).
Proof. unfold extractFsGroup, extractFsGroupFromPod. spared. Qed.
Lemma report_spares v r : only spares_pods (report clientset v r).
Proof. unfold report, pvcRef. spared. Qed.
Lemma unuploaded_report_spares v : only spares_pods (reportUnuploadedData clientset v).
Proof. unfold reportUnuploadedData. apply report_spares. Qed.
Lemma force_spares v : only spares_pods (forceUnstageRequested clientset v).
Proof. unfold forceUnstageRequested. spared. Qed.
Lemma context_spares v : only spares_pods (getS3VolumeContext clientset v).
Proof. unfold getS3VolumeContext. spared. Qed.
#[local] Hint Resolve volume_secrets_spares fsGroup_spares report_spares unuploaded_report_spares force_spares context_spares : only.

(** ** S3 volumes *)

Lemma lookup_spares v : monly spares_pods (lookup_manager v).
Proof. apply monly_gets. Qed.
Lemma draining_spares v : monly spares_pods (isBackgroundDraining v).
Proof. unfold isBackgroundDraining. spares. Qed.
#[local] Hint Resolve lookup_spares draining_spares : only.
Lemma start_drain_spares v : monly spares_pods (startBackgroundDrain v).
Proof. unfold startBackgroundDrain. spares. Qed.
Lemma spawn_spares t : monly spares_pods (spawn t).
Proof. unfold spawn. spares. Qed.
#[local] Hint Resolve spawn_spares : only.
Lemma queue_empty_spares mm : only spares_pods (IsUploadQueueEmpty mm).
Proof. unfold IsUploadQueueEmpty. spared. Qed.
Lemma queue_confirmed_spares mm : only spares_pods (uploadQueueConfirmedEmpty mm).
Proof. unfold uploadQueueConfirmedEmpty. spared. Qed.
#[local] Hint Resolve start_drain_spares queue_empty_spares queue_confirmed_spares : only.
Lemma mountS3Volume_spares v p ctx g : monly spares_pods (mountS3Volume clientset v p ctx g).
Proof. unfold mountS3Volume. spares. Qed.
Lemma reexposeLive_spares v p : monly spares_pods (reexposeLiveSession v p).
Proof. unfold reexposeLiveSession, lookup_manager. spares. Qed.
Lemma finish_spares v b : monly spares_pods (finishBackgroundDrain v b).
Proof. unfold finishBackgroundDrain. spares. Qed.
#[local] Hint Resolve mountS3Volume_spares reexposeLive_spares finish_spares : only.
Lemma finish_task_spares t : monly spares_pods (finish_task clientset t).
Proof. unfold finish_task, run_task, drain_task, resume_task, lookup_manager, Unmount. spares. Qed.
#[local] Hint Resolve finish_task_spares : only.
Lemma run_drain_spares v : monly spares_pods (run_drain clientset v).
Proof. unfold run_drain. spares. Qed.
#[local] Hint Resolve run_drain_spares : only.
Lemma setupS3Sync_spares v p ctx g : monly spares_pods (setupS3Sync clientset v p ctx g).
Proof. unfold setupS3Sync, waitForBackgroundDrain, isBackgroundDraining, hasPendingDrain. spares. Qed.
Lemma resume_spares v p : monly spares_pods (resumeStrandedDrain clientset v p).
Proof. unfold resumeStrandedDrain, startBackgroundDrain, isBackgroundDraining, spawn. spares. Qed.
#[local] Hint Resolve setupS3Sync_spares resume_spares : only.
Lemma cleanupS3Sync_spares v p : monly spares_pods (cleanupS3Sync nodeID clientset v p).
Proof.
  unfold cleanupS3Sync, forceCleanupS3Sync, UnmountWithin.
  spares.
Qed.
#[local] Hint Resolve cleanupS3Sync_spares : only.

(** ** The handlers *)

Lemma verify_live_spares p : only spares_pods (verifyS3StagingLive p).
Proof. unfold verifyS3StagingLive, statfsBounded. spared. Qed.
Lemma known_spares : only spares_pods HostMountsKnown.
Proof. unfold HostMountsKnown. spared. Qed.
Lemma staged_spares v p : only spares_pods (isVolumeStaged v p).
Proof. unfold isVolumeStaged, isMountPoint. spared. Qed.
Lemma fs_permissions_spares p g m : only spares_pods (applyFsGroupPermissions p g m).
Proof. unfold applyFsGroupPermissions. spared. Qed.
Lemma format_spares d c : only spares_pods (formatDevice d c).
Proof. unfold formatDevice. spared. Qed.
Lemma mount_device_spares d p c : only spares_pods (mountDevice d p c).
Proof. unfold mountDevice, clear_target. spared. Qed.
Lemma resize_fs_spares d p : only spares_pods (resizeFilesystem d p).
Proof. unfold resizeFilesystem. spared. Qed.
Lemma refresh_spares f : only spares_pods (refreshLoopDevice f).
Proof. unfold refreshLoopDevice. spared. Qed.
#[local] Hint Resolve verify_live_spares known_spares staged_spares fs_permissions_spares format_spares
  mount_device_spares resize_fs_spares refresh_spares : only.
Lemma backing_exists_spares req f : only spares_pods (ensureBackingFileExists nodeID req f).
Proof. unfold ensureBackingFileExists. spared. Qed.
Lemma passphrase_spares q : only spares_pods (passphrase_of clientset q).
Proof. unfold passphrase_of. spared. Qed.
#[local] Hint Resolve backing_exists_spares passphrase_spares : only.
Lemma cleanup_staging_spares v p : only spares_pods (cleanupVolumeStaging v p).
Proof. unfold cleanupVolumeStaging, unmount_staging, sync_staging, detachLoopDevicesFor. spared. Qed.
Lemma mount_configure_spares q : only spares_pods (mountAndConfigureVolume q).
Proof. unfold mountAndConfigureVolume. spared. Qed.
Lemma restore_luks_spares v p ctx : only spares_pods (restoreLUKSVolumeStaging clientset v p ctx).
Proof. unfold restoreLUKSVolumeStaging, restoreLUKSDeviceAndMount, getPassphraseForRestore. spared. Qed.
#[local] Hint Resolve cleanup_staging_spares mount_configure_spares restore_luks_spares : only.

Lemma stage_luks_spares q : only spares_pods (stage_luks q).
Proof. unfold stage_luks, setupLUKSDevice. spared. Qed.
Lemma prepare_spares req cap : only spares_pods (prepareVolumeStaging nodeID clientset req cap).
Proof. unfold prepareVolumeStaging, getPassphraseFromRequest. spared. Qed.
Lemma already_spares v p ctx : only spares_pods (isAlreadyStaged v p ctx).
Proof. unfold isAlreadyStaged. spared. Qed.
#[local] Hint Resolve stage_luks_spares prepare_spares already_spares : only.
Lemma stage_spares req : monly spares_pods (NodeStageVolume nodeID clientset req).
Proof. unfold NodeStageVolume, markVolumeSetupInProgress, markVolumeSetupComplete, setupS3Volume. spares. Qed.
Lemma unstage_spares v p : monly spares_pods (NodeUnstageVolume nodeID clientset v p).
Proof. unfold NodeUnstageVolume. spares. Qed.
Lemma publish_spares req : monly spares_pods (NodePublishVolume clientset req).
Proof.
  unfold NodePublishVolume, publish, ensureVolumeStaged, restoreS3VolumeStaging, markVolumeSetupInProgress,
    markVolumeSetupComplete. spares.
Qed.
Lemma unpublish_spares p : only spares_pods (NodeUnpublishVolume p).
Proof. unfold NodeUnpublishVolume. spared. Qed.
Lemma expand_spares req : only spares_pods (NodeExpandVolume clientset req).
Proof.
  unfold NodeExpandVolume, validateAndPrepareExpansionRequest, getPassphraseForExpansion, performVolumeExpansion. spared.
Qed.
Lemma info_spares : monly spares_pods (NodeGetInfo nodeID).
Proof. unfold NodeGetInfo. spares. Qed.

End handlers.

#[export] Hint Resolve pv_spares sc_spares secrets_spares volume_secrets_spares fsGroup_spares report_spares
  unuploaded_report_spares force_spares context_spares lookup_spares draining_spares start_drain_spares
  spawn_spares queue_empty_spares queue_confirmed_spares mountS3Volume_spares reexposeLive_spares
  finish_spares finish_task_spares run_drain_spares setupS3Sync_spares resume_spares cleanupS3Sync_spares
  verify_live_spares known_spares staged_spares fs_permissions_spares format_spares mount_device_spares
  resize_fs_spares refresh_spares backing_exists_spares passphrase_spares cleanup_staging_spares
  mount_configure_spares restore_luks_spares stage_luks_spares prepare_spares already_spares stage_spares
  unstage_spares publish_spares unpublish_spares expand_spares info_spares : only.

End Pods.
