(* ===== verification/Invariant.v ===== *)
(** * Invariant: the bookkeeping of the node server is consistent

    The invariant of the maps the node server keeps in memory, and that every
    part of the handlers, of the checker and of the drain goroutines preserves
    it.  The drain slots are treated in Drain; System puts it together. *)

From S2P Require Import Prelude GoStrings Effects MountManager VfsNames Rpc Luks Mounts Session VfsCache Secrets.
From S2P Require Import Csi Endpoint Controller NodeMounts NodeLuks NodeState Drain S3Live NodeServer Consumers Checker Registration.
Import MountManager VfsNames Rpc Luks Mounts Session VfsCache Csi K8s Secrets NodeMounts NodeLuks NodeState Drain S3Live.
Import NodeServer Consumers Checker Registration.

#[local] Open Scope Z_scope.

Module Invariant.

(** ** Managers *)

(** [mm] is a manager of volume [v], and its three names are those of its
    generation. *)
Definition owns (v : string) (mm : MountManager) : Prop :=
  volumeID mm = v /\ (vfsName mm, s3ConfigName mm, cryptConfigName mm) = vfsNamesFor v (generation mm).

Lemma owns_names v mm g : owns v mm -> owns v (set_names mm g).
Proof. intros [<- _]. unfold set_names, owns. by destruct (vfsNamesFor (volumeID mm) g) as [[] ?] eqn:E. Qed.
Lemma owns_session v mm p : owns v mm -> owns v (set_session mm p).
Proof. done. Qed.
Lemma owns_mounted v mm b : owns v mm -> owns v (set_mounted mm b).
Proof. done. Qed.
Lemma owns_monitoring v mm b : owns v mm -> owns v (set_monitoring mm b).
Proof. done. Qed.
#[local] Hint Resolve owns_names owns_session owns_mounted owns_monitoring : core.

Lemma wpc_skip {A B} (p : prog A) (f : A -> prog B) (Q : history -> B -> Prop) h :
  (forall h' a, wpc anything (f a) Q h') -> wpc anything (bind p f) Q h.
Proof. intros H. apply wpc_bind. eapply wpc_post; [apply wpc_trivial |]. intros h' a _. apply H. Qed.

Ltac skip := repeat first [ apply wpc_skip; intros ? ?
  | match goal with |- wpc _ (match ?x with _ => _ end) _ _ => destruct x end | progress cbn zeta ].

Lemma new_owns c v p f x l g h :
  wpc anything (NewMountManager c v p f x l g) (fun _ mm => owns v mm) h.
Proof.
  unfold NewMountManager, owns. cbn zeta. apply wpc_skip. intros h1 m. by destruct (vfsNamesFor v _) as [[] ?] eqn:E.
Qed.
Lemma unmount_owns v mm d h : owns v mm -> wpc anything (unmount mm d) (fun _ r => owns v (fst r)) h.
Proof. intros Ho. unfold unmount, StopCacheMonitor. skip; cbn; auto. Qed.
Lemma exclusive_owns v n b mm h : owns v mm -> wpc anything (ensure_loop n b mm) (fun _ r => owns v (fst r)) h.
Proof.
  revert b mm h. induction n as [| n IH]; intros b mm h Ho; cbn [ensure_loop]; [by skip |].
  assert (Hb : forall h, wpc anything (ensure_loop n (b + 1) (bumpGeneration mm)) (fun _ r => owns v (fst r)) h).
  { intros h'. by apply IH, owns_names. }
  skip; cbn; auto.
Qed.
Lemma session_owns g v mm h : owns v mm -> wpc anything (mount_session g mm) (fun _ r => owns v (snd (fst r))) h.
Proof. intros Ho. unfold mount_session. skip; cbn; auto. Qed.
Lemma mount_owns g v mm h : owns v mm -> wpc anything (Mount g mm) (fun _ r => owns v (snd (fst r))) h.
Proof.
  intros Ho. unfold Mount. apply wpc_skip. intros h1 already. destruct already; [done |].
  apply wpc_skip. intros h2 stale. apply wpc_bind. eapply (wpc_post _ _ (fun _ mm' => owns v mm')).
  { destruct stale; [| done]. apply wpc_bind. eapply wpc_post; [by apply unmount_owns |]. by intros h' r. }
  intros h3 mm' Ho'. apply wpc_bind. eapply wpc_post; [by apply exclusive_owns |].
  intros h4 [mm2 r] Ho2. destruct r; [| done]. apply wpc_skip. intros h5 u. by apply session_owns.
Qed.

(** ** The books *)

Definition books (marks : gset string) (s : node) : Prop :=
  volumesInSetup (s3SyncMgr s) = marks
  /\ map_Forall owns (mountManagers (s3SyncMgr s))
  /\ map_Forall (fun _ n => n = 1) (zombieVFSStrikes (chk s))
  /\ map_Forall (fun _ a => 1 <= ra_count a) (reconcileAttempts (chk s)).

Lemma books_forget X v s : books X s -> books X (on_managers (delete v) s).
Proof. intros (H1 & H2 & H3 & H4). unfold books. splits; try done. by apply map_Forall_delete. Qed.
Lemma books_unstrike X v s : books X s -> books X (on_strikes (delete v) s).
Proof. intros (H1 & H2 & H3 & H4). unfold books. splits; try done. by apply map_Forall_delete. Qed.
Lemma books_succeed X v s : books X s -> books X (on_attempts (delete v) s).
Proof. intros (H1 & H2 & H3 & H4). unfold books. splits; try done. by apply map_Forall_delete. Qed.
Lemma books_manager X v mm s : owns v mm -> books X s -> books X (on_managers (insert v mm) s).
Proof. intros Hm (H1 & H2 & H3 & H4). unfold books. splits; try done. by apply map_Forall_insert_2. Qed.
Lemma books_strike X v s : books X s -> books X (on_strikes (insert v 1) s).
Proof. intros (H1 & H2 & H3 & H4). unfold books. splits; try done. by apply map_Forall_insert_2. Qed.
Lemma books_attempt X v n t s : 1 <= n -> books X s -> books X (on_attempts (insert v (Attempt n t)) s).
Proof. intros Hn (H1 & H2 & H3 & H4). unfold books. splits; try done. by apply map_Forall_insert_2. Qed.

(** The whole invariant, [marks] being the volumes marked as being set up. *)
Definition node_inv (marks : gset string) (s : node) : Prop := drain_inv s /\ books marks s.

Lemma inv_forget X v s : node_inv X s -> node_inv X (on_managers (delete v) s).
Proof. intros [H1 H2]. split; [done | by apply books_forget]. Qed.
Lemma inv_succeed X v s : node_inv X s -> node_inv X (on_attempts (delete v) s).
Proof. intros [H1 H2]. split; [done | by apply books_succeed]. Qed.
#[local] Hint Resolve books_forget books_unstrike books_succeed inv_forget inv_succeed : core.
#[local] Hint Extern 2 (preserves _ (modify _)) => apply preserves_modify; intros ?; first [exact id | auto] : preserves.

(** A part of the program that keeps the invariant of the drains keeps the
    whole of it when it keeps the books. *)
Lemma node_inv_of X {A} (m : M A) : keeps_inv m -> preserves (books X) m -> preserves (node_inv X) m.
Proof. apply preserves_and. Qed.

(** ** S3 volumes and drains *)

Section node.
Context (nodeID : string) (clientset : bool) (X : gset string).

Lemma mountS3Volume_books v p ctx g : preserves (books X) (mountS3Volume clientset v p ctx g).
Proof.
  unfold mountS3Volume. apply preserves_bind; [preserves |]. intros [vs | e]; [| preserves].
  intros s h Hs. wm_step. wm_step. eapply wpc_post; [apply new_owns |]. intros h1 mm Ho. cbn [fst snd].
  do 4 wm_step. eapply wpc_post; [exact (mount_owns _ v mm _ Ho) |]. intros h2 [[g' mm'] r] Ho'; cbn [fst snd] in *.
  do 2 wm_step. destruct r; wm; [by apply books_manager | done].
Qed.
Lemma reexpose_books v p : preserves (books X) (reexposeLiveSession v p).
Proof. unfold reexposeLiveSession, lookup_manager. preserves. Qed.
#[local] Hint Resolve mountS3Volume_books reexpose_books : preserves.
Lemma finish_books v b : preserves (books X) (finishBackgroundDrain v b).
Proof. unfold finishBackgroundDrain. preserves. Qed.
#[local] Hint Resolve finish_books : preserves.
Lemma task_books t : preserves (books X) (finish_task clientset t).
Proof. unfold finish_task, run_task, drain_task, resume_task, lookup_manager. preserves. Qed.
#[local] Hint Resolve task_books : preserves.
Lemma run_drain_books v : preserves (books X) (run_drain clientset v).
Proof. unfold run_drain. preserves. Qed.
#[local] Hint Resolve run_drain_books : preserves.
Lemma setup_books v p ctx g : preserves (books X) (setupS3Sync clientset v p ctx g).
Proof. unfold setupS3Sync, waitForBackgroundDrain, isBackgroundDraining, hasPendingDrain. preserves. Qed.
Lemma resume_books v p : preserves (books X) (resumeStrandedDrain clientset v p).
Proof. unfold resumeStrandedDrain, startBackgroundDrain, isBackgroundDraining, spawn. preserves. Qed.
#[local] Hint Resolve resume_books : preserves.
Lemma cleanup_books v p : preserves (books X) (cleanupS3Sync nodeID clientset v p).
Proof.
  unfold cleanupS3Sync, forceCleanupS3Sync, startBackgroundDrain, isBackgroundDraining, lookup_manager, spawn. preserves.
Qed.

Lemma setup_inv v p ctx g : preserves (node_inv X) (setupS3Sync clientset v p ctx g).
Proof. apply node_inv_of; [apply setupS3Sync_inv | apply setup_books]. Qed.
Lemma stranded_inv v p : preserves (node_inv X) (resumeStrandedDrain clientset v p).
Proof. apply node_inv_of; [apply resume_inv | apply resume_books]. Qed.
Lemma teardown_inv v p : preserves (node_inv X) (cleanupS3Sync nodeID clientset v p).
Proof. apply node_inv_of; [apply cleanup_inv | apply cleanup_books]. Qed.
Lemma drain_ends_inv v : preserves (node_inv X) (run_drain clientset v).
Proof. apply node_inv_of; [apply run_drain_inv | apply run_drain_books]. Qed.
Lemma reexposed_inv v p : preserves (node_inv X) (reexposeLiveSession v p).
Proof. apply node_inv_of; [apply inv_keeps; keeps | apply reexpose_books]. Qed.
#[local] Hint Resolve setup_inv stranded_inv teardown_inv drain_ends_inv reexposed_inv : preserves.

(** ** The checker *)

Lemma resolve_inv : preserves (node_inv X) resolveKubeletRoot.
Proof. unfold resolveKubeletRoot. preserves. Qed.
Lemma responsive_inv p : preserves (node_inv X) (mountVFSResponsive p).
Proof. unfold mountVFSResponsive. preserves. Qed.
Lemma registry_inv d names : preserves (node_inv X) (vfsRegistryMissing d names).
Proof.
  unfold vfsRegistryMissing, isVolumeSetupInProgress, isBackgroundDraining, expectedFSName, lookup_manager.
  destruct names as [names |]; [| preserves].
  apply preserves_bind; [preserves |]. intros v. do 2 (apply preserves_bind; [preserves |]; intros ?).
  case_match; [preserves |]. apply preserves_bind; [preserves |]. intros fs.
  assert (Hun : preserves (node_inv X) (modify (on_strikes (delete v)))).
  { apply preserves_modify. intros s [H1 H2]. split; [done | by apply books_unstrike]. }
  case_match; [preserves |]. intros s h [Hi Hb]. do 2 wm_step.
  destruct (zombieVFSStrikes (chk s) !! v) as [n |] eqn:En.
  - destruct Hb as (B1 & B2 & B3 & B4). assert (n = 1) as -> by exact (B3 v n En).
    assert (Hb : books X s) by done. cbn [Z.add].
    change (1 + 1 <? zombieVFSConfirmations) with false. cbn iota. apply (preserves_bind (node_inv X)); [exact Hun | preserves | done].
  - cbn iota. change (1 <? zombieVFSConfirmations) with true. cbn iota. do 3 wm_step. split; [done | by apply books_strike].
Qed.
#[local] Hint Resolve resolve_inv responsive_inv registry_inv : preserves.
Lemma diagnose_inv d names : preserves (node_inv X) (diagnose d names).
Proof. unfold diagnose. preserves. Qed.
Lemma allowed_inv v : preserves (node_inv X) (reconcileAllowed v).
Proof.
  unfold reconcileAllowed. intros s h [Hi Hb]. do 2 wm_step. set (a := default _ _).
  assert (Ha : 0 <= ra_count a).
  { unfold a. destruct (reconcileAttempts (chk s) !! v) as [b |] eqn:Eb; [| done]. cbn [default].
    destruct Hb as (_ & _ & _ & Hb). pose proof (map_Forall_lookup_1 _ _ v b Hb Eb). cbn in *. lia. }
  apply wpm_bind. eapply (wpc_post _ _ (fun _ r => fst r = s)).
  { case_match; [| done]. wm_step. apply wpm_ask; [done |]. done. }
  intros h1 [s1 early] ->; cbn [fst snd]. destruct early; [done |].
  wm_step. apply wpm_ask; [done |]. intros now. cbn [fst snd]. do 3 wm_step.
  split; [done |]. apply books_attempt; [lia | done].
Qed.
Lemma lifetime_inv v : preserves (node_inv X) (reportMountLifetime v).
Proof. unfold reportMountLifetime. preserves. Qed.
Lemma serving_inv p : preserves (node_inv X) (ensureStagingServing p).
Proof. unfold ensureStagingServing. preserves. Qed.
#[local] Hint Resolve diagnose_inv allowed_inv lifetime_inv serving_inv : preserves.
Lemma rebind_inv p u n : preserves (node_inv X) (rebindConsumerMount p u n).
Proof. unfold rebindConsumerMount. preserves. Qed.
Lemma unbind_inv u n : preserves (node_inv X) (unbindTerminatingConsumer u n).
Proof. unfold unbindTerminatingConsumer. preserves. Qed.
Lemma healthy_inv u n p : preserves (node_inv X) (consumerMountHealthy u n p).
Proof. unfold consumerMountHealthy. preserves. Qed.
Lemma restart_allowed_inv v : preserves (node_inv X) (consumerRestartAllowed v).
Proof. unfold consumerRestartAllowed, registrationHealthy. preserves. Qed.
Lemma drop_inv v : preserves (node_inv X) (drop_manager v).
Proof. unfold drop_manager, lookup_manager. preserves. Qed.
#[local] Hint Resolve rebind_inv unbind_inv healthy_inv restart_allowed_inv drop_inv : preserves.
Lemma restart_pods_inv v : preserves (node_inv X) (restartPodsWithStaleS3Mount clientset v).
Proof. unfold restartPodsWithStaleS3Mount. preserves. Qed.
Lemma reattach_inv c n p b q : preserves (node_inv X) (reattach clientset c n p b q).
Proof. unfold reattach. preserves. Qed.
#[local] Hint Resolve restart_pods_inv reattach_inv : preserves.
Lemma remount_failed_inv v p : preserves (node_inv X) (remount_failed clientset v p).
Proof. unfold remount_failed. preserves. Qed.
#[local] Hint Resolve remount_failed_inv : preserves.
Lemma remount_inv v p ctx : preserves (node_inv X) (remount nodeID clientset v p ctx).
Proof. unfold remount. preserves. Qed.
Lemma repair_bind_inv staged n b devs : preserves (node_inv X) (repair_bind nodeID clientset staged n b devs).
Proof. unfold repair_bind, isVolumeSetupInProgress, isBackgroundDraining, picked_up. preserves. Qed.
Lemma consumers_inv : preserves (node_inv X) (repairStrandedConsumers nodeID clientset).
Proof.
  unfold repairStrandedConsumers, consumerBinds, stagedVolumesByPV.
  assert (H : forall todo n staged, preserves (node_inv X) (repair_binds nodeID clientset staged n todo)).
  { induction todo as [| [b devs] todo IH]; intros n staged; cbn [repair_binds]; [preserves |].
    apply preserves_bind; [apply repair_bind_inv | intros ?; apply IH]. }
  preserves.
Qed.
Lemma orphans_inv : preserves (node_inv X) (cleanupOrphanedVolumes nodeID clientset).
Proof. unfold cleanupOrphanedVolumes, reclaimOrphanedVolume. preserves. Qed.
Lemma recover_inv : preserves (node_inv X) (recoverStrandedVolumes clientset).
Proof.
  unfold recoverStrandedVolumes, stagedVolumeIDs, recover_stranded, isVolumeSetupInProgress, isBackgroundDraining, lookup_manager.
  preserves.
Qed.
Lemma sessions_inv : preserves (node_inv X) sweepDeadSessions.
Proof. unfold sweepDeadSessions, isBackgroundDraining. preserves. Qed.

End node.

(** ** Between operations *)

(** No volume is marked as being set up. *)
Abbreviation rest := (node_inv ∅).

(** What follows the mark of volume [v], up to its removal. *)
Definition setting_up {A} (v : string) (m : M A) : Prop :=
  forall s h, node_inv {[v]} s -> wpc anything (m s) (fun _ r => rest (fst r)) h.

Lemma mark_inv {A} v (k : M A) : setting_up v k -> preserves rest (markVolumeSetupInProgress v ;~ k).
Proof.
  intros Hk s h [Hi (H1 & H2 & H3 & H4)]. unfold markVolumeSetupInProgress. do 2 wm_step. apply Hk.
  split; [done |]. unfold books. splits; try done. cbn. rewrite H1. set_solver.
Qed.
Lemma setting_up_bind {A B} v (m : M A) (f : A -> M B) :
  preserves (node_inv {[v]}) m -> (forall a, setting_up v (f a)) -> setting_up v (mbind m f).
Proof.
  intros Hm Hf s h Hs. apply wpm_bind. eapply wpc_post; [by apply Hm |]. intros h' [s' a] Hs'. by apply Hf.
Qed.
Lemma setting_up_done v s : node_inv {[v]} s -> rest (on_setup (fun d => d ∖ {[v]}) s).
Proof.
  intros [Hi (H1 & H2 & H3 & H4)]. split; [done |]. unfold books. splits; try done. cbn. rewrite H1. set_solver.
Qed.
Lemma unmark_inv {A} v (k : unit -> M A) :
  (forall u, preserves rest (k u)) -> setting_up v (mbind (markVolumeSetupComplete v) k).
Proof. intros Hk s h Hs. unfold markVolumeSetupComplete. do 2 wm_step. by apply Hk, setting_up_done. Qed.

Section rest.
Context (nodeID : string) (clientset : bool).
#[local] Hint Resolve setup_inv stranded_inv teardown_inv drain_ends_inv reexposed_inv resolve_inv diagnose_inv
  allowed_inv lifetime_inv remount_inv consumers_inv orphans_inv recover_inv sessions_inv : preserves.

Lemma reconcile_inv v p ctx b : preserves rest (reconcileS3Mount nodeID clientset v p ctx b).
Proof.
  unfold reconcileS3Mount. apply mark_inv. do 2 (apply setting_up_bind; [preserves | intros ?]).
  intros s h Hs. by apply wpm_modify, setting_up_done.
Qed.
#[local] Hint Resolve reconcile_inv : preserves.
Lemma repair_inv d b : preserves rest (repair_entry nodeID clientset d b).
Proof. unfold repair_entry, isVolumeSetupInProgress, isBackgroundDraining. preserves. Qed.
#[local] Hint Resolve repair_inv : preserves.
Lemma stale_inv f : preserves rest (cleanupStaleS3Mounts nodeID clientset f).
Proof. unfold cleanupStaleS3Mounts, check_entries, check_entry, reconcileSucceeded. preserves. Qed.
#[local] Hint Resolve stale_inv : preserves.
Lemma tick_inv f n : preserves rest (checker_tick nodeID clientset f n).
Proof. unfold checker_tick. preserves. Qed.
Lemma startup_inv f : preserves rest (startup_cleanup nodeID clientset f).
Proof. unfold startup_cleanup. preserves. Qed.

(** ** The handlers *)

Lemma stage_inv req : preserves rest (NodeStageVolume nodeID clientset req).
Proof.
  unfold NodeStageVolume, setupS3Volume. destruct (validateStageVolumeRequest req), (st_cap req) as [cap |]; [preserves .. | | preserves].
  apply preserves_bind; [preserves |]. intros [staged | e]; [| preserves]. destruct staged; [preserves |].
  apply preserves_bind; [preserves |]. intros [params | e]; [| preserves]. destruct (isS3Backend _); [| preserves].
  apply mark_inv, setting_up_bind; [preserves |]. intros r. apply unmark_inv. preserves.
Qed.
Lemma unstage_inv v p : preserves rest (NodeUnstageVolume nodeID clientset v p).
Proof. unfold NodeUnstageVolume. preserves. Qed.
Lemma publish_body_inv X req g : preserves (node_inv X) (publish clientset req g).
Proof. unfold publish, ensureVolumeStaged, restoreS3VolumeStaging. preserves. Qed.
Lemma publish_inv req : preserves rest (NodePublishVolume clientset req).
Proof.
  unfold NodePublishVolume. destruct (validatePublishVolumeRequest req); [preserves |].
  apply preserves_bind; [preserves |]. intros g. cbn zeta. destruct (isS3Backend _).
  - apply mark_inv, setting_up_bind; [apply publish_body_inv |]. intros r. apply unmark_inv. preserves.
  - apply preserves_bind; [preserves |]. intros _. apply preserves_bind; [apply publish_body_inv | preserves].
Qed.
Lemma info_inv : preserves rest (NodeGetInfo nodeID).
Proof. unfold NodeGetInfo. preserves. Qed.
Lemma registration_inv parse_other endpoint start : preserves rest (refresh_registration nodeID clientset parse_other endpoint start).
Proof. unfold refresh_registration, isDriverRegistered, kubeletHandshakeCurrent, recordRegistrationTransition. preserves. Qed.
Lemma probe_inv p : preserves rest (probe_ends p).
Proof. unfold probe_ends. preserves. Qed.

End rest.

End Invariant.
