(* ===== verification/System.v ===== *)
(** * System: the node server as a whole

    The handlers of the CSI node service, the checker, the registration
    refresher and the drain goroutines as the events of one state machine,
    and what holds of all of its runs: who may touch a pod, the invariant of
    the server's state, and the budget of the restarts. *)

From Stdlib Require Import QArith.
From S2P Require Import Prelude GoStrings Effects MountManager VfsNames Rpc Luks Mounts Session VfsCache Secrets.
From S2P Require Import Csi Endpoint Controller NodeMounts NodeLuks NodeState Drain S3Live NodeServer Consumers Checker Registration Pods Invariant.
Import Mounts Session MountManager VfsNames Csi K8s NodeLuks NodeState Drain S3Live NodeServer Consumers Checker Registration Pods Invariant.

#[local] Open Scope Z_scope.

Module System.

(** * Events *)

(** What the node server reacts to. *)
Inductive node_event : Type :=
  | Stage (req : stage_request)
  | Unstage (v staging : string)
  | Publish (req : publish_request)
  | Unpublish (targetPath : string)
  | Expand (req : expand_request)
  | GetInfo
  | DrainEnds (v : string) (* a drain goroutine runs to its end *)
  | ProbeEnds (path : string) (* a probe given up on returns at last *)
  | RegistrationTick
  | CheckerTick (n : Z).

Section server.
Context (nodeID : string) (clientset : bool) (ParseFloat : string -> option Q).
Context (parse_other : string -> option Endpoint.url) (endpoint : string) (registrationHealthStart : Z).

Definition handle (e : node_event) : M unit :=
  match e with
  | Stage req => NodeStageVolume nodeID clientset req ;~ ret tt
  | Unstage v staging => NodeUnstageVolume nodeID clientset v staging ;~ ret tt
  | Publish req => NodePublishVolume clientset req ;~ ret tt
  | Unpublish target => lift (NodeUnpublishVolume target) ;~ ret tt
  | Expand req => lift (NodeExpandVolume clientset req) ;~ ret tt
  | GetInfo => NodeGetInfo nodeID ;~ ret tt
  | DrainEnds v => run_drain clientset v
  | ProbeEnds path => probe_ends path
  | RegistrationTick => refresh_registration nodeID clientset parse_other endpoint registrationHealthStart ;~ ret tt
  | CheckerTick n => checker_tick nodeID clientset ParseFloat n
  end.

(** [NewNodeServer]: the markers found on disk, then the start-up work. *)
Definition new_node_server : M unit := loadPendingDrains ;~ startup_cleanup nodeID clientset ParseFloat.

(** The states of the server between two events. *)
Inductive running : node -> Prop :=
  | run_starts env h : running (fst (snd (run env (new_node_server empty_node) h)))
  | run_event env h e s : running s -> running (fst (snd (run env (handle e s) h))).

(** * Who touches pods *)

Definition is_checker (e : node_event) : bool := match e with CheckerTick _ => true | _ => false end.

Lemma read_loops_spare :
  (forall b n procs, only spares_pods (newest_kubelet b n procs))
  /\ (forall inodes procs, only spares_pods (find_holder inodes procs)).
Proof.
  assert (Hh : forall pid inodes fds, only spares_pods (holds_any pid inodes fds)).
  { intros pid inodes. induction fds as [| fd fds IH]; cbn [holds_any]; spared. }
  split.
  - intros b n procs. revert n. induction procs as [| e procs IH]; intros n; cbn [newest_kubelet]; unfold processStartTicks; spared.
  - intros inodes. induction procs as [| e procs IH]; cbn [find_holder]; spared.
Qed.
Lemma kubelet_start_spares : only spares_pods kubeletProcessStart.
Proof.
  destruct read_loops_spare as [H1 H2].
  unfold kubeletProcessStart, hostBootTime, pidListeningOn, collectListeningInodes, processStartTicks. spared.
Qed.
#[local] Hint Resolve kubelet_start_spares : only.
Lemma registration_spares : monly spares_pods (refresh_registration nodeID clientset parse_other endpoint registrationHealthStart).
Proof.
  unfold refresh_registration, isDriverRegistered, kubeletHandshakeCurrent, recordRegistrationTransition, csiSocketAccepting.
  spares.
Qed.
#[local] Hint Resolve registration_spares : only.

(** Only the checker touches pods.  Whatever the host and the cluster
    answer, no CSI call, no end of a drain or probe and no refresh of the
    registration deletes a pod or kills a process. *)
Theorem handlers_leave_pods_alone env e s :
  is_checker e = false -> hist_ok (fun _ => spares_pods) (fst (run env (handle e s) [])).
Proof.
  intros He. assert (H : monly spares_pods (handle e)) by (destruct e; try done; cbn [handle]; unfold probe_ends; spares).
  apply since_hist_ok. eapply wpc_run_since; [| constructor].
  eapply wpc_mono; [apply (wpc_only spares_pods _ (fun _ _ => True)), wpc_trivial; apply H | by intros ? ? [] | done].
Qed.

(** * The state between events *)

#[local] Hint Resolve stage_inv unstage_inv publish_inv info_inv drain_ends_inv probe_inv registration_inv tick_inv : preserves.

Lemma running_rest s : running s -> rest s.
Proof.
  intros Hr. induction Hr as [env h | env h e s Hr IH].
  - refine (wpc_run_post env (new_node_server empty_node) (fun _ r => rest (fst r)) h _).
    apply (preserves_bind rest).
    + unfold loadPendingDrains. preserves. apply preserves_modify. by intros s.
    + intros _. apply startup_inv.
    + split; [split; [constructor | intros v; cbn; set_solver] |]. unfold books. splits; try done; apply map_Forall_empty.
  - refine (wpc_run_post env (handle e s) (fun _ r => rest (fst r)) h _).
    assert (H : preserves rest (handle e)) by (destruct e; cbn [handle]; preserves). by apply H.
Qed.

Lemma owns_config v mm : owns v mm -> cryptConfigName mm = vfs_name v (generation mm).
Proof. intros [_ E]. exact (f_equal snd E). Qed.


End server.

Lemma handlers_leave_pods_alone_witness :
  hist_ok (fun _ => spares_pods)
    (fst (run quiet_env (handle "n" true (fun _ => None) (fun _ => None) "unix:///csi/csi.sock" 0 (Unstage "pvc-1" "/stage") empty_node) [])).
Proof. apply handlers_leave_pods_alone. reflexivity. Defined.


(** * The budget of restarts *)

(** Pod [uid] was listed as terminating on this node. *)
Definition listed_terminating (nodeID uid : string) (h : history) : Prop :=
  exists n pods q, Ev (CListPods n (Some nodeID)) (Ok pods) ∈ h /\ q ∈ pods /\ pod_uid q = uid /\ pod_deletion q <> None.

(** What needs no budget: clearing away pods that were listed as terminating. *)
Definition free_of_budget (nodeID : string) (h : history) (c : call) : Prop :=
  spares_pods c \/ exists uid, listed_terminating nodeID uid h /\ deletes_only uid h c.

Lemma listed_mono nodeID uid h h' : h ⊆ h' -> listed_terminating nodeID uid h -> listed_terminating nodeID uid h'.
Proof. intros Hs (n & pods & q & H & H'). exists n, pods, q. auto. Qed.

Lemma podsUsingPVC_lists nodeID clientset n c h :
  wpc anything (podsUsingPVC nodeID clientset n c)
    (fun h' l => forall q, q ∈ l -> pod_deletion q <> None -> listed_terminating nodeID (pod_uid q) h') h.
Proof.
  unfold podsUsingPVC. case_goal; [by intros q ?%not_elem_of_nil |]. wp_step. apply wpc_perform; [done |].
  intros [pods | e]; cbn [wpc]; [| by intros q ?%not_elem_of_nil].
  intros q [Hq _]%elem_of_filter_bool Ht. exists n, pods, q. split; [by left | done].
Qed.

(** A part of the program that needs no budget, inside one that may. *)
Lemma free_step {A B} nodeID (m : M A) (f : A -> M B) h0 s0 h s R Q :
  monly spares_pods m -> keeps restart_state m -> wpc anything (m s) (fun h' r => R h' (snd r)) h ->
  ok_since (free_of_budget nodeID) h0 h -> restart_state s = restart_state s0 ->
  (forall a h' s', h ⊆ h' -> R h' a -> ok_since (free_of_budget nodeID) h0 h' -> restart_state s' = restart_state s0 ->
     wpc anything (f a s') Q h') ->
  wpc anything (mbind m f s) Q h.
Proof.
  intros Ho Hk Hr Hs E Hf. apply wpm_bind.
  eapply wpc_mono; [apply (wpc_only spares_pods); [apply Ho | apply wpc_conj; [apply Hr | apply Hk]] | done |].
  intros h' [s' a] (H1 & H2 & H3). cbn [fst snd] in *. apply Hf; [by eapply since_subset | done | | by rewrite H3].
  eapply since_trans; [exact Hs |]. eapply since_mono; [| exact H1]. by left.
Qed.
Ltac free := eapply (free_step _ _ _ _ _ _ _ (fun _ _ => True)); [spares | keeps | apply wpc_trivial | eassumption | eassumption |].

Lemma resolve_refs_spares clientset v : only spares_pods (resolveVolumeRefs clientset v).
Proof. unfold resolveVolumeRefs, getPVByVolumeID. spared. Qed.
Lemma abort_spares p : only spares_pods (abortFUSEConnection p).
Proof. unfold abortFUSEConnection, writeFUSEAbort. spared. Qed.
Lemma drop_spares v : monly spares_pods (drop_manager v).
Proof. unfold drop_manager. spares. Qed.
Lemma unbind_target_spares u n : monly spares_pods (unbindTerminatingConsumer u n).
Proof. unfold unbindTerminatingConsumer. spares. Qed.
Lemma healthy_spares u n p : monly spares_pods (consumerMountHealthy u n p).
Proof.
  unfold consumerMountHealthy, HostMountDepth.
  assert (H : forall n p w, only spares_pods (healthy_loop n p w)).
  { induction n0 as [| k IH]; intros q w; cbn [healthy_loop]; spared. }
  spares.
Qed.
#[local] Hint Resolve resolve_refs_spares abort_spares drop_spares unbind_target_spares healthy_spares podsUsingPVC_spares
  setupS3Sync_spares rebind_spares resolve_spares reexposeLive_spares : only.

Lemma drain_keeps clientset v : keeps restart_state (run_drain clientset v).
Proof.
  unfold run_drain, finish_task, run_task, drain_task, resume_task, finishBackgroundDrain, lookup_manager. keeps.
Qed.
#[local] Hint Resolve drain_keeps : keeps.
Lemma setup_keeps clientset v p ctx g : keeps restart_state (setupS3Sync clientset v p ctx g).
Proof. unfold setupS3Sync, waitForBackgroundDrain, isBackgroundDraining, hasPendingDrain. keeps. Qed.
Lemma drop_keeps v : keeps restart_state (drop_manager v).
Proof. unfold drop_manager, lookup_manager. keeps. Qed.
Lemma unbind_keeps u n : keeps restart_state (unbindTerminatingConsumer u n).
Proof. unfold unbindTerminatingConsumer. keeps. Qed.
Lemma healthy_keeps u n p : keeps restart_state (consumerMountHealthy u n p).
Proof. unfold consumerMountHealthy. keeps. Qed.
#[local] Hint Resolve setup_keeps drop_keeps unbind_keeps healthy_keeps rebind_keeps resolve_keeps : keeps.
Lemma reattach_keeps clientset c n p b q : keeps restart_state (reattach clientset c n p b q).
Proof. unfold reattach. keeps. Qed.
Lemma restart_pods_keeps clientset v : keeps restart_state (restartPodsWithStaleS3Mount clientset v).
Proof. unfold restartPodsWithStaleS3Mount. keeps. Qed.
#[local] Hint Resolve reattach_keeps restart_pods_keeps : keeps.

(** The two ways a repair may leave the pods and the cooldowns. *)
Definition within_budget (nodeID v : string) (s0 : node) (h : history) (s : node) : Prop :=
  (ok_since (free_of_budget nodeID) [] h /\ restart_state s = restart_state s0) \/ recovered_for v s0 h s.

Lemma recovered_keeps v s0 s1 h1 s2 s3 h2 :
  restart_state s1 = restart_state s0 -> recovered_for v s1 h1 s2 -> h1 ⊆ h2 -> restart_state s3 = restart_state s2 ->
  recovered_for v s0 h2 s3.
Proof.
  intros [= E1 E2] (t & E & Hr & Ht & Hc) Hs [= F1 F2]. exists t. rewrite F1, E, E1, <- E2. splits; [done | done | auto |].
  rewrite <- E1. intros t0 H0. destruct (Hc _ H0) as (now & Hn & Hle). exists now. auto.
Qed.

(** What a granted budget is followed by. *)
Lemma after_grant {A} nodeID v (m : M A) s0 s1 h1 s h :
  restart_state s1 = restart_state s0 -> recovered_for v s1 h s -> keeps restart_state m -> h1 ⊆ h ->
  wpc anything (m s) (fun h' r => within_budget nodeID v s0 h' (fst r)) h.
Proof.
  intros E Hr Hk _. eapply wpc_post; [apply wpc_extends, Hk |]. intros h' r [Hs F]. right. by eapply recovered_keeps.
Qed.

Section repair.
Context (nodeID : string) (clientset : bool).
Abbreviation free := (ok_since (free_of_budget nodeID) []).

Lemma reattach_free c n p q s0 s h :
  (pod_deletion q <> None -> listed_terminating nodeID (pod_uid q) h) ->
  free h -> restart_state s = restart_state s0 ->
  wpc anything (reattach clientset c n p false q s)
    (fun h' r => h ⊆ h' /\ free h' /\ restart_state (fst r) = restart_state s0) h.
Proof.
  intros Hq Hf E. unfold reattach. destruct (pod_deletion q) as [t |].
  - free.
    intros u h1 s1 H1 _ F1 E1. wm_step. eapply wpc_post.
    { apply (wpc_since (free_of_budget nodeID)). eapply wpc_mono; [apply wpc_grows, deletePodByUID_spec | | intros ? ? H; exact H].
      intros h' d [Hs Hd]. right. exists (pod_uid q). split; [| exact Hd]. eapply listed_mono; [| by apply Hq]. sub. }
    intros h2 u2 [F2 _]. cbn [fst]. splits; [apply since_subset in F2; sub | by eapply since_trans | done].
  - free.
    intros rebound h1 s1 H1 _ F1 E1.
    free.
    intros healed h2 s2 H2 _ F2 E2. cbn [negb]. destruct healed; (split; [sub | done]).
Qed.

(** Asking for the budget of volume [v]. *)
Lemma ask_budget {A} v (k : bool -> M A) s0 s h :
  free h -> restart_state s = restart_state s0 -> keeps restart_state (k true) ->
  (forall h' s', h ⊆ h' -> free h' -> restart_state s' = restart_state s0 ->
     wpc anything (k false s') (fun h' r => within_budget nodeID v s0 h' (fst r)) h') ->
  wpc anything (mbind (consumerRestartAllowed v) k s) (fun h' r => within_budget nodeID v s0 h' (fst r)) h.
Proof.
  intros Hf E Hk Hno. wm_step. eapply wpc_post.
  { apply wpc_extends, (consumerRestartAllowed_spec v h s). by split; [constructor |]. }
  intros h1 [s1 granted] [H1 Hg]. cbn [fst snd] in *. destruct granted; [by eapply after_grant |].
  destruct Hg as [F1 E1]. apply Hno; [done | | congruence].
  eapply since_trans; [exact Hf |]. eapply since_mono; [| exact F1]. by left.
Qed.

Lemma remount_within v p ctx s0 s h :
  free h -> restart_state s = restart_state s0 ->
  wpc anything (remount nodeID clientset v p ctx s) (fun h' r => within_budget nodeID v s0 h' (fst r)) h.
Proof.
  intros Hf E. unfold remount.
  free.
  intros [[ns c] pv] h1 s1 _ _ F1 E1.
  eapply free_step; [spares | keeps | wm_step; apply podsUsingPVC_lists | exact F1 | exact E1 |].
  intros consumers h2 s2 _ Hl F2 E2. cbn [snd] in Hl. cbn zeta.
  free.
  intros old h3 s3 H3 _ F3 E3.
  do 4 (free; intros ? ? ? ? _ ? ?).
  free.
  intros r h5 s5 G5 _ F5 E5. assert (L5 : h2 ⊆ h5) by sub. destruct r as [u | e].
  - apply ask_budget; [done | done | keeps |]. intros h6 s6 G6 F6 E6.
    eapply wpc_post; [eapply (wpm_for_each _ _ _ (fun h' s' => h2 ⊆ h' /\ free h' /\ restart_state s' = restart_state s0)) |].
    + splits; [sub | done | done].
    + intros q s7 h7 Hq (G7 & F7 & E7). eapply wpc_post; [apply reattach_free; [| done | exact E7] |].
      * intros Ht. eapply listed_mono; [exact G7 | by apply Hl].
      * intros h8 [s8 w] (G8 & F8 & E8). splits; [sub | done | done].
    + intros h9 r (_ & F9 & E9). by left.
  - unfold remount_failed.
    free.
    intros old' h6 s6 G6 _ F6 E6. apply ask_budget; [done | done | keeps |]. intros h7 s7 G7 F7 E7. by left.
Qed.

End repair.

(** C16: the repair of a mount stays within its budget.  Whatever the host and
    the cluster answer, repairing the mount of an S3 volume either kills no
    process, deletes at most pods that were listed on this node as terminating
    already, and leaves every cooldown as it was, or it started the cooldown
    of that volume, which was due (no restart in the last 5 minutes), while
    the driver was registered with kubelet. *)
Theorem repair_within_budget env nodeID clientset v staging ctx missing s :
  let '(h, (s', _)) := run env (reconcileS3Mount nodeID clientset v staging ctx missing s) [] in
  (hist_ok (free_of_budget nodeID) h /\ restart_state s' = restart_state s) \/ recovered_for v s h s'.
Proof.
  pose proof (wpc_run_post env (reconcileS3Mount nodeID clientset v staging ctx missing s)
    (fun h r => within_budget nodeID v s h (fst r)) []) as H.
  destruct (run env _ []) as [h [s' u]]. cbn [fst snd] in H.
  enough (Hw : wpc anything (reconcileS3Mount nodeID clientset v staging ctx missing s)
    (fun h r => within_budget nodeID v s h (fst r)) []).
  { destruct (H Hw) as [[Hs E] | Hr]; [left | by right]. split; [by apply since_hist_ok | done]. }
  unfold reconcileS3Mount, markVolumeSetupInProgress, markVolumeSetupComplete.
  eapply (free_step nodeID _ _ _ _ _ _ (fun _ _ => True)); [spares | keeps | apply wpc_trivial | constructor | reflexivity |].
  intros u1 h1 s1 _ _ F1 E1.
  free.
  intros live h2 s2 _ _ F2 E2. wm_step. eapply wpc_post.
  { instantiate (1 := fun h' r => within_budget nodeID v s h' (fst r)). destruct live; [by left | by apply remount_within]. }
  intros h3 [s3 u3] H3. cbn [fst]. wm_step. exact H3.
Qed.

End System.
