(* ===== verification/World.v ===== *)
(** * World: a node that answers

    The theorems elsewhere hold whatever the outside world answers.  Here is
    one world that answers as a node does: files, LUKS containers, device
    mapper, filesystems, directories and mounts as a state, and what each command and
    system call the driver makes does to it.  [interp] runs a program against
    this state; [interp_is_run] shows it to be one of the environments, so
    that what holds of every environment holds here. *)

From S2P Require Import Prelude GoStrings Effects Luks NodeState.
Import Luks NodeState.

Module World.

(** ** Programs run by a handler

    A handler answers each call from a state. *)

Definition handler (W : Type) : Type := forall c : call, W -> W * reply c.

Section interp.
Context {W : Type} (answer : handler W).

Fixpoint interp {A} (p : prog A) (w : W) : W * A :=
  match p with
  | Ret a => (w, a)
  | Do c k => let '(w, r) := answer c w in interp (k r) w
  end.

Lemma interp_bind {A B} (p : prog A) (f : A -> prog B) w :
  interp (bind p f) w = let '(w', a) := interp p w in interp (f a) w'.
Proof. revert w. induction p as [a | c k IH]; intros w; cbn; [done |]. destruct (answer c w) as [w' r]. apply IH. Qed.
Lemma interp_perform c w : interp (perform c) w = answer c w.
Proof. cbn. by destruct (answer c w). Qed.

(** The state a history leads to, and the environment that answers from it. *)
Fixpoint replay (w : W) (h : history) : W :=
  match h with [] => w | Ev c _ :: h => fst (answer c (replay w h)) end.
Definition env_of (w : W) : environment := fun h c => snd (answer c (replay w h)).

Lemma interp_is_run {A} (p : prog A) w h :
  let '(h', a) := run (env_of w) p h in interp p (replay w h) = (replay w h', a).
Proof.
  revert h. induction p as [a | c k IH]; intros h; cbn; [done |].
  specialize (IH (env_of w h c) (Ev c (env_of w h c) :: h)). cbn in IH.
  unfold env_of in *. by destruct (answer c (replay w h)) as [w' r].
Qed.

(** The state-passing programs of the node server. *)
Lemma interp_mbind {A B} (m : M A) (f : A -> M B) s w :
  interp (mbind m f s) w = let '(w', (s', a)) := interp (m s) w in interp (f a s') w'.
Proof. unfold mbind. rewrite interp_bind. by destruct (interp (m s) w) as [w' [s' a]]. Qed.
Lemma interp_lift {A} (p : prog A) s w : interp (lift p s) w = let '(w', a) := interp p w in (w', (s, a)).
Proof. unfold lift. by rewrite interp_bind. Qed.
Lemma interp_gets {A} (f : node -> A) s w : interp (gets f s) w = (w, (s, f s)).
Proof. done. Qed.
Lemma interp_modify f s w : interp (modify f s) w = (w, (f s, tt)).
Proof. done. Qed.

End interp.

(** ** The state of a node *)

Record filesystem : Set := Fs { fs_kind : string; fs_data : string; fs_size : Z }.
(** A file, and the container in it: its passphrase, and the filesystem inside. *)
Record file : Set := File { f_size : Z; f_luks : option (string * option filesystem) }.
(** Mapped devices by path, with their backing files; the bytes a mapped device
    has of its file (the size of the loop device) and offers itself; the devices
    mounted at a path, the topmost first; the directories that were asked for
    (each stands for those above it too). *)
Record host : Type := Host
  { files : gmap string file; mapped : gmap string string; sizes : gmap string (Z * Z);
    mounts : gmap string (list string); dirs : gset string }.

Definition on_files f (w : host) : host := Host (f (files w)) (mapped w) (sizes w) (mounts w) (dirs w).
Definition on_sizes f (w : host) : host := Host (files w) (mapped w) (f (sizes w)) (mounts w) (dirs w).
Definition on_mounts f (w : host) : host := Host (files w) (mapped w) (sizes w) (f (mounts w)) (dirs w).
Definition on_dirs f (w : host) : host := Host (files w) (mapped w) (sizes w) (mounts w) (f (dirs w)).

Definition beneath (dir p : string) : bool := bool_decide (p = dir) || has_prefix (dir +s+ "/") p.
Definition make_dir (p : string) (w : host) : host := on_dirs (union {[p]}) w.
Definition is_dir (w : host) (p : string) : bool := bool_decide (set_Exists (fun q => beneath p q = true) (dirs w)).

(** The header in front of the data of a container. *)
Definition luks_header : Z := 16 * 2 ^ 20.
Definition map_device (dev f : string) (n : Z) (w : host) : host :=
  Host (files w) (<[dev := f]> (mapped w)) (<[dev := (n, n - luks_header)]> (sizes w)) (mounts w) (dirs w).
Definition unmap_device (dev : string) (w : host) : host :=
  Host (files w) (delete dev (mapped w)) (delete dev (sizes w)) (mounts w) (dirs w).
Definition size_of (w : host) (dev : string) : Z := default 0 (snd <$> sizes w !! dev).

(** The filesystem on a mapped device. *)
Definition fs_on (w : host) (dev : string) : option filesystem :=
  f ← mapped w !! dev; x ← files w !! f; '(_, fs) ← f_luks x; fs.
Definition put_fs (fs : filesystem) (x : file) : file :=
  File (f_size x) ((fun '(p, _) => (p, Some fs)) <$> f_luks x).
(** [set_fs]: what is on a mapped device; [grow_fs]: it fills the device. *)
Definition set_fs (dev : string) (fs : filesystem) (w : host) : host :=
  match mapped w !! dev with Some f => on_files (alter (put_fs fs) f) w | None => w end.
Definition grow_fs (dev : string) (w : host) : host :=
  match fs_on w dev with Some fs => set_fs dev (Fs (fs_kind fs) (fs_data fs) (size_of w dev)) w | None => w end.

(** What is seen at a path, and the write of a process there. *)
Definition top_at (w : host) (path : string) : option string := l ← mounts w !! path; head l.
Definition read_at (w : host) (path : string) : option string :=
  dev ← top_at w path; fs_data <$> fs_on w dev.
Definition capacity_at (w : host) (path : string) : option Z :=
  dev ← top_at w path; fs_size <$> fs_on w dev.
Definition write_at (path data : string) (w : host) : host :=
  match top_at w path with
  | Some dev => match fs_on w dev with Some fs => set_fs dev (Fs (fs_kind fs) data (fs_size fs)) w | None => w end
  | None => w
  end.

(** ** Commands *)

Definition succeed (w : host) : host * exec_reply := (w, XExit 0 "" "").
Definition print (w : host) (out : string) : host * exec_reply := (w, XExit 0 out "").
Definition refuse (w : host) (status : Z) : host * exec_reply := (w, XExit status "" "").

Definition push_mount (path dev : string) (w : host) : host :=
  on_mounts (insert path (dev :: default [] (mounts w !! path))) w.
Definition pop_mount (path : string) (w : host) : option host :=
  match mounts w !! path with
  | Some (_ :: []) => Some (on_mounts (delete path) w)
  | Some (_ :: l) => Some (on_mounts (insert path l) w)
  | _ => None
  end.
Definition unused (dev : string) (w : host) : bool := bool_decide (map_Forall (fun _ l => dev ∉ l) (mounts w)).

Inductive cmd : Type :=
  | IsLuks (dev : string) | LuksFormat (dev : string) | LuksOpen (dev name : string) | LuksClose (name : string)
  | Blkid (dev : string) | Mkfs (kind dev : string) | MountFs (kind dev path : string)
  | BindMount (src path : string) | RemountRo (path : string) | Umount (path : string)
  | Findmnt (path : string) | LosetupOf (f : string) | LosetupDetach
  | Fallocate (size f : string) | LosetupRefresh | LuksResize (name : string) | BlockSize (dev : string)
  | FsType (dev : string) | Resize2fs (dev : string) | XfsGrow (path : string) | MakeDir (path : string)
  | Harmless | Unknown.

(** The arguments after [pre]. *)
Fixpoint after (pre argv : list string) : option (list string) :=
  match pre, argv with
  | [], _ => Some argv
  | p :: pre, a :: argv => if String.eqb p a then after pre argv else None
  | _, _ => None
  end.

(** The command in the host's namespaces, or in the pod's. *)
Definition in_host (argv : list string) : list string :=
  match after ["nsenter"; "-t"; "1"; "-m"; "-u"] argv with
  | Some l => l
  | None => default argv (after ["nsenter"; "-t"; "1"; "-m"] argv)
  end.

Definition syntax : list (list string * (list string -> option cmd)) :=
  [ (["cryptsetup"; "isLuks"], fun l => match l with [d] => Some (IsLuks d) | _ => None end);
    (["cryptsetup"; "luksFormat"; "--batch-mode"], fun l => match l with [d] => Some (LuksFormat d) | _ => None end);
    (["cryptsetup"; "luksOpen"], fun l => match l with [d; n] => Some (LuksOpen d n) | _ => None end);
    (["cryptsetup"; "luksClose"], fun l => match l with [n] => Some (LuksClose n) | _ => None end);
    (["blkid"], fun l => match l with [d] => Some (Blkid d) | _ => None end);
    (["mkfs.ext4"; "-F"; "-e"; "remount-ro"], fun l => match l with [d] => Some (Mkfs "ext4" d) | _ => None end);
    (["mkfs.ext3"; "-F"; "-e"; "remount-ro"], fun l => match l with [d] => Some (Mkfs "ext3" d) | _ => None end);
    (["mkfs.xfs"; "-f"], fun l => match l with [d] => Some (Mkfs "xfs" d) | _ => None end);
    (["mount"; "-t"], fun l => match l with
                               | [k; d; p] | [k; _; _; d; p] => Some (MountFs k d p)
                               | _ => None end);
    (["mount"; "--bind"], fun l => match l with [s; p] => Some (BindMount s p) | _ => None end);
    (["mount"; "-o"; "remount,ro"], fun l => match l with [p] => Some (RemountRo p) | _ => None end);
    (["umount"], fun l => match l with [p] => Some (Umount p) | _ => None end);
    (["umount"; "-l"], fun l => match l with [p] => Some (Umount p) | _ => None end);
    (["findmnt"; "-n"; "-o"; "SOURCE"], fun l => match l with [p] => Some (Findmnt p) | _ => None end);
    (["losetup"; "-j"], fun l => match l with [f] => Some (LosetupOf f) | _ => None end);
    (["losetup"; "-d"], fun l => match l with [_] => Some LosetupDetach | _ => None end);
    (["fallocate"; "-l"], fun l => match l with [n; f] => Some (Fallocate n f) | _ => None end);
    (["losetup"; "-c"], fun l => match l with [_] => Some LosetupRefresh | _ => None end);
    (["cryptsetup"; "resize"], fun l => match l with [n] => Some (LuksResize n) | _ => None end);
    (["blockdev"; "--getsize64"], fun l => match l with [d] => Some (BlockSize d) | _ => None end);
    (["blkid"; "-s"; "TYPE"; "-o"; "value"], fun l => match l with [d] => Some (FsType d) | _ => None end);
    (["resize2fs"], fun l => match l with [d] => Some (Resize2fs d) | _ => None end);
    (["xfs_growfs"], fun l => match l with [p] => Some (XfsGrow p) | _ => None end);
    (["sync"], fun _ => Some Harmless); (["chown"; "-R"], fun _ => Some Harmless);
    (["chmod"; "-R"], fun _ => Some Harmless);
    (["mkdir"; "-p"], fun l => match l with [p] => Some (MakeDir p) | _ => None end) ].
Fixpoint parse (rules : list (list string * (list string -> option cmd))) (argv : list string) : cmd :=
  match rules with
  | [] => Unknown
  | (pre, f) :: rules =>
      match (match after pre argv with Some l => f l | None => None end) with
      | Some c => c
      | None => parse rules argv
      end
  end.
Definition decode (argv : list string) : cmd := parse syntax (in_host argv).

Definition mapper_of (name : string) : string := GetMappedDevicePath name.

(** ext4 mounts an ext3 filesystem as well. *)
Definition mountable (as_ kind : string) : bool :=
  bool_decide (as_ = kind) || (bool_decide (as_ = "ext4") && bool_decide (kind = "ext3")).

(** The size a loop device would have of the file behind [dev]. *)
Definition bytes_behind (w : host) (dev : string) : option Z := f ← mapped w !! dev; f_size <$> files w !! f.
Definition refresh_loops (w : host) : host :=
  on_sizes (map_imap (fun dev '(l, n) => Some (default l (bytes_behind w dev), n))) w.

(** What a command does; a device in use cannot be closed, and a container is
    opened and resized by its passphrase only; a file as small as the header has
    no room for one; a mount needs its directory.  There is one loop device. *)
Definition execute (stdin : string) (c : cmd) (w : host) : host * exec_reply :=
  match c with
  | IsLuks f =>
      match files w !! f with Some (File _ (Some _)) => succeed w | _ => refuse w 1 end
  | LuksFormat f =>
      match files w !! f with
      | Some x => if f_size x <=? luks_header then refuse w 1
                  else succeed (on_files (insert f (File (f_size x) (Some (stdin, None)))) w)
      | None => refuse w 4
      end
  | LuksOpen f name =>
      match files w !! f, mapped w !! mapper_of name with
      | Some (File n (Some (pass, _))), None =>
          if bool_decide (pass = stdin) then succeed (map_device (mapper_of name) f n w) else refuse w 2
      | _, _ => refuse w 5
      end
  | LuksClose name =>
      match mapped w !! mapper_of name with
      | Some _ => if unused (mapper_of name) w then succeed (unmap_device (mapper_of name) w) else refuse w 5
      | None => refuse w 4
      end
  | Blkid dev => match fs_on w dev with Some _ => succeed w | None => refuse w 2 end
  | Mkfs kind dev =>
      match mapped w !! dev with Some _ => succeed (set_fs dev (Fs kind "" (size_of w dev)) w) | None => refuse w 1 end
  | MountFs kind dev path =>
      match fs_on w dev with
      | Some fs => if mountable kind (fs_kind fs) && is_dir w path then succeed (push_mount path dev w) else refuse w 32
      | None => refuse w 32
      end
  | BindMount src path =>
      if is_dir w path then succeed (push_mount path (default "rootfs" (top_at w src)) w) else refuse w 32
  | RemountRo path => match top_at w path with Some _ => succeed w | None => refuse w 32 end
  | Umount path => match pop_mount path w with Some w' => succeed w' | None => refuse w 32 end
  | Findmnt path =>
      match top_at w path with Some dev => print w (dev +s+ String nl "") | None => refuse w 1 end
  | LosetupOf f =>
      print w (if bool_decide (map_Forall (fun _ g => g <> f) (mapped w)) then ""
               else "/dev/loop0: []: (" +s+ f +s+ ")" +s+ String nl "")
  | LosetupDetach => refuse w 1
  | Fallocate size f =>
      match parse_int size with
      | Some n =>
          succeed (on_files (insert f (match files w !! f with Some x => File (Z.max n (f_size x)) (f_luks x) | None => File n None end)) w)
      | None => refuse w 1
      end
  | LosetupRefresh => succeed (refresh_loops w)
  | LuksResize name =>
      match f ← mapped w !! mapper_of name; x ← files w !! f; f_luks x with
      | Some (pass, _) =>
          if bool_decide (pass = stdin)
          then succeed (on_sizes (alter (fun '(l, _) => (l, l - luks_header)) (mapper_of name)) w) else refuse w 2
      | None => refuse w 4
      end
  | BlockSize dev =>
      match mapped w !! dev with Some _ => print w (format_int (size_of w dev) +s+ String nl "") | None => refuse w 1 end
  | FsType dev => match fs_on w dev with Some fs => print w (fs_kind fs +s+ String nl "") | None => refuse w 2 end
  | Resize2fs dev =>
      match fs_on w dev with
      | Some fs => if mountable "ext4" (fs_kind fs) then succeed (grow_fs dev w) else refuse w 1
      | None => refuse w 1
      end
  | XfsGrow path =>
      match top_at w path with
      | Some dev =>
          match fs_on w dev with
          | Some fs => if bool_decide (fs_kind fs = "xfs") then succeed (grow_fs dev w) else refuse w 1
          | None => refuse w 1
          end
      | None => refuse w 1
      end
  | MakeDir path => succeed (make_dir path w)
  | Harmless => succeed w
  | Unknown => refuse w 127
  end.

(** ** System calls

    Stat is asked of files and devices only. *)

(** A recursive removal goes through the mounts below. *)
Definition wiped (dir : string) (w : host) : list string :=
  concat (map snd (List.filter (fun '(p, _) => beneath dir p) (map_to_list (mounts w)))).
Definition remove_all (dir : string) (w : host) : host :=
  let wipe dev w := match fs_on w dev with Some fs => set_fs dev (Fs (fs_kind fs) "" (fs_size fs)) w | None => w end in
  on_dirs (filter (fun p => beneath dir p = false))
    (on_files (filter (fun '(f, _) => beneath dir f = false)) (foldr wipe w (wiped dir w))).

Definition table (w : host) : stacks :=
  (fun l => rev (map (fun d => {| Dev := d; FSType := "ext4" |}) l)) <$> mounts w.

Lemma is_dir_made p w : is_dir (make_dir p w) p = true.
Proof.
  apply bool_decide_eq_true_2. exists p. split; [set_solver |]. unfold beneath. by rewrite bool_decide_eq_true_2.
Qed.

Section cluster.
(** The objects of the API server; they do not change here. *)
Context (pvs : list pv) (classes : gmap string (gmap string string)) (secrets : gmap (string * string) (gmap string string)).

Definition found {A} (o : option A) : result A k8serr := match o with Some a => Ok a | None => Err KNotFound end.

Definition node_answers : handler host := fun c w =>
  match c return host * reply c with
  | CExec _ stdin argv => execute stdin (decode argv) w
  | CStat p => (w, match files w !! p with
                   | Some x => Ok (FStat (f_size x) false 0)
                   | None => if bool_decide (is_Some (mapped w !! p)) then Ok (FStat 0 false 0) else Err ENOENT
                   end)
  | CRemove p => match files w !! p with Some _ => (on_files (delete p) w, Ok tt) | None => (w, Err ENOENT) end
  | CMkdirAll p => (make_dir p w, Ok tt)
  | CRemoveAll p => (remove_all p w, Ok tt)
  | CHostMounts => (w, Some (table w))
  | CListPVs => (w, Ok pvs)
  | CGetPV name => (w, found (List.find (fun p => bool_decide (pv_name p = name)) pvs))
  | CGetStorageClass name => (w, found (classes !! name))
  | CGetSecret ns name => (w, found (secrets !! (ns, name)))
  | c => (w, default_reply c)
  end.

End cluster.

End World.
