(* ===== verification/Lifecycle.v ===== *)
(** * Lifecycle: a local volume from creation to the pods and back

    The handlers run against the node of World, where the commands take
    effect.  A local volume is an abstract machine of a few states; the
    handlers implement it, across restarts of the node, and the data a pod
    writes is the data later pods read. *)

From Stdlib Require Import Ascii.
From S2P Require Import Prelude GoStrings Units Effects Secrets Luks Mounts VfsCache MountManager Csi.
From S2P Require Import Controller NodeMounts NodeLuks NodeState Drain NodeServer World.
Import Secrets Luks Mounts VfsCache MountManager Csi K8s NodeMounts NodeLuks NodeState Drain NodeServer World.

Module Lifecycle.

(** ** What the operations of the lower layers do to a host *)

Section ops.
Context (pvs : list pv) (classes : gmap string (gmap string string)) (secrets : gmap (string * string) (gmap string string)).
Abbreviation answer := (node_answers pvs classes secrets).
Notation "p @ w" := (interp answer p w) (at level 9, no associativity).
Implicit Types w : host.

Lemma world_exec b i argv w : (perform (CExec b i argv)) @ w = execute i (decode argv) w.
Proof. exact (interp_perform answer (CExec b i argv) w). Qed.

(** A command that succeeds. *)
Section success.
Context (argv : list string) (stdin : string) (w w' : host) (out : string)
  (Hx : execute stdin (decode argv) w = (w', XExit 0 out "")).
Lemma runBounded_ok t : (runBounded t stdin argv) @ w = (w', Ok tt).
Proof. unfold runBounded. by rewrite interp_bind, world_exec, Hx. Qed.
End success.

Section success_silent.
Context (argv : list string) (w w' : host) (out : string)
  (Hx : execute "" (decode argv) w = (w', XExit 0 out "")).
Lemma cmd_output_ok : (cmd_output argv) @ w = (w', Ok out).
Proof. unfold cmd_output. by rewrite interp_bind, world_exec, Hx. Qed.
Lemma cmd_run_ok : (cmd_run argv) @ w = (w', Ok tt).
Proof. unfold cmd_run. by rewrite interp_bind, cmd_output_ok. Qed.
Lemma cmd_combined_ok : (cmd_combined argv) @ w = (w', (out +s+ "", Ok tt)).
Proof. unfold cmd_combined. by rewrite interp_bind, world_exec, Hx. Qed.
Lemma runCmdBoundedOutput_ok t : (runCmdBoundedOutput t argv) @ w = (w', Ok out).
Proof. unfold runCmdBoundedOutput. by rewrite interp_bind, world_exec, Hx. Qed.
Lemma runCmdBounded_ok t : (runCmdBounded t argv) @ w = (w', Ok tt).
Proof. unfold runCmdBounded. by rewrite interp_bind, runCmdBoundedOutput_ok. Qed.
End success_silent.

Lemma runCryptsetup_ok stdin args w w' out :
  execute stdin (decode (CryptsetupCmd :: args)) w = (w', XExit 0 out "") ->
  (runCryptsetup stdin args) @ w = (w', Ok tt).
Proof. intros Hx. unfold runCryptsetup. by rewrite interp_bind, (runBounded_ok _ _ _ _ _ Hx). Qed.

(** A command that refuses, and changes nothing. *)
Lemma cmd_run_refused argv w c :
  c <> 0 -> execute "" (decode argv) w = (w, XExit c "" "") -> exists e, (cmd_run argv) @ w = (w, Err e).
Proof.
  intros Hc Hx. unfold cmd_run, cmd_output. rewrite !interp_bind, world_exec, Hx. destruct c; [done | ..]; cbn; eauto.
Qed.

(** *** cryptsetup *)

Lemma IsLUKSOpened_world name w :
  files w !! mapper_of name = None ->
  (IsLUKSOpened name) @ w = (w, bool_decide (is_Some (mapped w !! mapper_of name))).
Proof.
  intros Hf. unfold IsLUKSOpened. rewrite interp_bind, interp_perform. cbn.
  fold (GetMappedDevicePath name). fold (mapper_of name). rewrite Hf. by case_bool_decide.
Qed.

Lemma IsLUKSDevice_world f w :
  (IsLUKSDevice f) @ w
  = (w, match files w !! f with Some (File _ (Some _)) => true | _ => false end).
Proof.
  unfold IsLUKSDevice, runBounded. rewrite !interp_bind, world_exec.
  change (decode [CryptsetupCmd; "isLuks"; f]) with (IsLuks f). cbn.
  by destruct (files w !! f) as [[n [l |]] |].
Qed.

(** Opening a container by its passphrase maps it. *)
Lemma OpenLUKS_world f name pass n fs w :
  files w !! mapper_of name = None -> mapped w !! mapper_of name = None ->
  files w !! f = Some (File n (Some (pass, fs))) ->
  (OpenLUKS f name pass) @ w = (map_device (mapper_of name) f n w, Ok tt).
Proof.
  intros Hd Hm Hf. unfold OpenLUKS. rewrite interp_bind, IsLUKSOpened_world, Hm by done. cbn iota.
  rewrite bool_decide_eq_false_2 by apply is_Some_None. rewrite interp_bind.
  erewrite runCryptsetup_ok; [reflexivity |].
  change (decode _) with (LuksOpen f name). cbn. rewrite Hf, Hm. by rewrite bool_decide_eq_true_2.
Qed.

Lemma CloseLUKS_closed name w :
  files w !! mapper_of name = None -> mapped w !! mapper_of name = None ->
  (CloseLUKS name) @ w = (w, Ok tt).
Proof.
  intros Hd Hm. unfold CloseLUKS. rewrite interp_bind, IsLUKSOpened_world, Hm by done.
  by rewrite bool_decide_eq_false_2 by apply is_Some_None.
Qed.

Lemma CloseLUKS_open name f w :
  files w !! mapper_of name = None -> mapped w !! mapper_of name = Some f -> unused (mapper_of name) w = true ->
  (CloseLUKS name) @ w = (unmap_device (mapper_of name) w, Ok tt).
Proof.
  intros Hd Hm Hu. unfold CloseLUKS. rewrite interp_bind, IsLUKSOpened_world, Hm by done.
  rewrite bool_decide_eq_true_2 by by eexists. cbn [negb]. rewrite interp_bind.
  erewrite runCryptsetup_ok; [reflexivity |].
  change (decode _) with (LuksClose name). cbn. by rewrite Hm, Hu.
Qed.

(** A file without a container gets one; a container is only opened. *)
Lemma FormatAndOpenLUKS_new f name pass n w :
  files w !! mapper_of name = None -> mapped w !! mapper_of name = None -> f <> mapper_of name ->
  files w !! f = Some (File n None) -> luks_header < n ->
  (FormatAndOpenLUKS f name pass) @ w
  = (map_device (mapper_of name) f n (on_files (insert f (File n (Some (pass, None)))) w), Ok tt).
Proof.
  intros Hd Hm Hne Hf Hn. unfold FormatAndOpenLUKS. rewrite interp_bind, IsLUKSDevice_world, Hf. cbn iota.
  rewrite interp_bind. erewrite runCryptsetup_ok.
  2: { change (decode _) with (LuksFormat f). cbn [execute]. rewrite Hf. cbn [f_size]. rewrite (proj2 (Z.leb_gt _ _) Hn). reflexivity. }
  eapply OpenLUKS_world; cbn; [by rewrite lookup_insert_ne | done | by rewrite lookup_insert_eq].
Qed.
Lemma FormatAndOpenLUKS_old f name pass n fs w :
  files w !! mapper_of name = None -> mapped w !! mapper_of name = None ->
  files w !! f = Some (File n (Some (pass, fs))) ->
  (FormatAndOpenLUKS f name pass) @ w = (map_device (mapper_of name) f n w, Ok tt).
Proof.
  intros Hd Hm Hf. unfold FormatAndOpenLUKS. rewrite interp_bind, IsLUKSDevice_world, Hf. by eapply OpenLUKS_world.
Qed.

(** *** Mounts *)

Lemma table_depth w p : stack_depth (table w) p = length (default [] (mounts w !! p)).
Proof.
  unfold stack_depth, table. rewrite lookup_fmap. destruct (mounts w !! p); [| done].
  cbn. by rewrite length_rev, length_map.
Qed.

Lemma HostMountDepth_host p w : (HostMountDepth p) @ w = (w, Some (length (default [] (mounts w !! p)))).
Proof. unfold HostMountDepth, HostMountStacksOK. rewrite interp_bind. cbn. by rewrite table_depth. Qed.

Lemma isMountPoint_host p w : (isMountPoint p) @ w = (w, bool_decide (is_Some (mounts w !! p))).
Proof.
  unfold isMountPoint, IsHostMountPoint, HostMounts, HostMountsOK, HostMountStacksOK.
  rewrite !interp_bind. cbn. unfold table, flattenMountStacks. rewrite !lookup_fmap.
  by destruct (mounts w !! p).
Qed.

(** A device path findmnt prints as it is. *)
Definition plain (s : string) : Prop := s <> "" /\ has_space s = false.

Lemma isMountedFrom_world p dev d w :
  top_at w p = Some dev -> plain dev -> (isMountedFrom p d) @ w = (w, bool_decide (dev = d)).
Proof.
  intros Ht Hp. unfold isMountedFrom. rewrite interp_bind.
  erewrite cmd_output_ok. 2: { change (decode _) with (Findmnt p). cbn. by rewrite Ht. }
  cbn. by rewrite trim_space_line by apply Hp.
Qed.

Lemma pop_mount_cons p d l w :
  mounts w !! p = Some (d :: l) ->
  exists w', pop_mount p w = Some w' /\ mounts w' !! p = match l with [] => None | l => Some l end
    /\ on_mounts (delete p) w' = on_mounts (delete p) w.
Proof.
  intros E. unfold pop_mount. rewrite E. destruct l as [| d' l]; eexists; (split; [reflexivity |]); cbn.
  - rewrite lookup_delete_eq. split; [done |]. unfold on_mounts. cbn. by rewrite delete_delete_eq.
  - rewrite lookup_insert_eq. split; [done |]. unfold on_mounts. cbn. by rewrite delete_insert_eq.
Qed.

Lemma unmountHostOnce_world p first w w' :
  pop_mount p w = Some w' -> (unmountHostOnce p first) @ w = (w', Ok tt).
Proof.
  intros E. unfold unmountHostOnce. rewrite interp_bind. destruct first.
  - rewrite interp_bind. erewrite runCmdBounded_ok; [reflexivity |].
    change (decode _) with (Umount p). cbn. by rewrite E.
  - cbn [interp]. rewrite interp_bind. erewrite runCmdBounded_ok; [reflexivity |].
    change (decode _) with (Umount p). cbn. by rewrite E.
Qed.

(** A stack of fewer mounts than rounds is unwound. *)
Lemma unmount_stack_world n first p l w :
  default [] (mounts w !! p) = l -> (length l < n)%nat -> mounts w !! p <> Some [] ->
  (unmount_stack_loop n first p) @ w = (on_mounts (delete p) w, Ok tt).
Proof.
  revert first l w. induction n as [| n IH]; intros first l w El Hn Hne; [lia |].
  cbn [unmount_stack_loop]. rewrite interp_bind, HostMountDepth_host, El. destruct l as [| d l]; cbn [length].
  - destruct (mounts w !! p) as [l |] eqn:E; cbn in El; [by subst l |]. cbn.
    unfold on_mounts. rewrite delete_id by done. by destruct w.
  - destruct (mounts w !! p) as [l' |] eqn:E; cbn in El; [subst l' | done].
    destruct (pop_mount_cons p d l w E) as (w' & Ep & El' & Ew).
    rewrite interp_bind, (unmountHostOnce_world _ _ _ _ Ep). cbn iota. rewrite interp_bind, interp_perform. cbn [node_answers].
    rewrite (IH false l w'); [by rewrite Ew | | cbn in Hn; lia |]; rewrite El'; by destruct l.
Qed.

Lemma unmountPath_host p w :
  mounts w !! p <> Some [] -> (length (default [] (mounts w !! p)) < maxMountStackUnwind)%nat ->
  (unmountPath p) @ w = (on_mounts (delete p) w, Ok tt).
Proof.
  intros Hne Hl. unfold unmountPath. rewrite interp_bind, HostMountDepth_host.
  destruct (default [] (mounts w !! p)) as [| d l] eqn:E; cbn [length].
  - destruct (mounts w !! p) as [l |] eqn:E'; cbn in E; [by subst l |]. cbn.
    unfold on_mounts. rewrite delete_id by done. by destruct w.
  - rewrite interp_bind. unfold unmountHostStack. by rewrite (unmount_stack_world _ _ _ _ _ E Hl Hne).
Qed.

Lemma bindMount_host src path dev ro w :
  top_at w src = Some dev -> (bindMount src path ro) @ w = (push_mount path dev (make_dir path w), Ok tt).
Proof.
  intros Ht. unfold bindMount. rewrite interp_bind.
  rewrite (runCmdBounded_ok _ w (make_dir path w) "") by done. cbn iota. rewrite interp_bind.
  rewrite (runCmdBounded_ok _ (make_dir path w) (push_mount path dev (make_dir path w)) "").
  2: { change (decode _) with (BindMount src path). cbn [execute]. rewrite is_dir_made.
       change (top_at (make_dir path w) src) with (top_at w src). by rewrite Ht. }
  cbn iota. destruct ro; [| done]. rewrite interp_bind.
  rewrite (runCmdBounded_ok _ _ (push_mount path dev (make_dir path w)) ""); [done |].
  change (decode _) with (RemountRo path). cbn [execute].
  unfold top_at, push_mount. cbn [mounts on_mounts]. by rewrite lookup_insert_eq.
Qed.

(** *** Filesystems *)

Lemma formatDevice_formatted dev cap m fs w :
  vc_mount cap = Some m -> fs_on w dev = Some fs -> (formatDevice dev cap) @ w = (w, Ok tt).
Proof.
  intros Hc Hf. unfold formatDevice. rewrite Hc, interp_bind. rewrite (cmd_run_ok _ w w ""); [done |].
  change (decode _) with (Blkid dev). cbn [execute]. by rewrite Hf.
Qed.

Lemma formatDevice_blank dev cap m f w :
  vc_mount cap = Some m -> fs_or_ext4 m ∈ ["ext4"; "ext3"; "xfs"] ->
  fs_on w dev = None -> mapped w !! dev = Some f ->
  (formatDevice dev cap) @ w = (set_fs dev (Fs (fs_or_ext4 m) "" (size_of w dev)) w, Ok tt).
Proof.
  intros Hc Hk Hf Hm. unfold formatDevice. rewrite Hc, interp_bind.
  destruct (cmd_run_refused ["blkid"; dev] w 2) as [e ->]; [done | |].
  { change (decode _) with (Blkid dev). cbn [execute]. by rewrite Hf. }
  cbn [is_ok].
  assert (exists argv, mkfs_argv (fs_or_ext4 m) dev = Some argv /\ decode argv = Mkfs (fs_or_ext4 m) dev) as (argv & -> & Hd).
  { rewrite !elem_of_cons, elem_of_nil in Hk. unfold mkfs_argv.
    destruct Hk as [-> | [-> | [-> |]]]; [.. | done]; eexists; split; reflexivity. }
  rewrite interp_bind. rewrite (cmd_combined_ok _ w (set_fs dev (Fs (fs_or_ext4 m) "" (size_of w dev)) w) ""); [done |].
  rewrite Hd. cbn [execute]. by rewrite Hm.
Qed.

Lemma mount_argv_decode m dev path : decode (mount_argv m dev path) = MountFs (fs_or_ext4 m) dev path.
Proof. unfold mount_argv. by case_bool_decide. Qed.

Lemma mountDevice_world dev path cap m fs w :
  vc_mount cap = Some m -> mounts w !! path = None -> fs_on w dev = Some fs ->
  mountable (fs_or_ext4 m) (fs_kind fs) = true ->
  (mountDevice dev path cap) @ w = (push_mount path dev (make_dir path w), Ok tt).
Proof.
  intros Hc Hp Hf Hk. unfold mountDevice, clear_target. rewrite Hc, !interp_bind, isMountPoint_host, Hp.
  rewrite bool_decide_eq_false_2 by apply is_Some_None. cbn [negb interp]. cbn iota.
  rewrite interp_bind, interp_perform. cbn [node_answers default_reply]. rewrite interp_bind.
  rewrite (cmd_combined_ok _ (make_dir path w) (push_mount path dev (make_dir path w)) ""); [done |].
  rewrite mount_argv_decode. cbn [execute]. change (fs_on (make_dir path w) dev) with (fs_on w dev).
  by rewrite Hf, Hk, is_dir_made.
Qed.

(** *** Sizes *)

Lemma format_int_plain n : 0 <= n -> plain (format_int n).
Proof.
  intros Hn. destruct (decide (n = 0)) as [-> | Hp]; [by vm_compute |].
  assert (Hd : all_digits (format_int n) = true) by (apply format_int_pos_digits; lia).
  split; [apply Units.format_int_nonempty |].
  assert (forall x, all_digits x = true -> ascii_text x = true /\ string_exists is_space x = false) as Hx.
  { unfold all_digits, ascii_text. induction x as [| c x IH]; [done |]. cbn. intros Hx.
    apply negb_true_iff, orb_false_iff in Hx as [Hc Hx]. destruct IH as [H1 H2]; [by apply negb_true_iff |].
    apply negb_true_iff in H1. apply negb_false_iff in Hc. rewrite H1, H2, !orb_false_r.
    by destruct c as [[] [] [] [] [] [] [] []]. }
  rewrite has_space_text; by apply Hx.
Qed.

Lemma ResizeLUKS_world name f pass n fs w :
  files w !! mapper_of name = None -> mapped w !! mapper_of name = Some f -> files w !! f = Some (File n (Some (pass, fs))) ->
  (ResizeLUKS name pass) @ w = (on_sizes (alter (fun '(l, _) => (l, l - luks_header)) (mapper_of name)) w, Ok tt).
Proof.
  intros Hd Hm Hf. unfold ResizeLUKS. rewrite interp_bind, IsLUKSOpened_world, Hm by done.
  rewrite bool_decide_eq_true_2 by by eexists. cbn [negb]. rewrite interp_bind. erewrite runCryptsetup_ok; [reflexivity |].
  change (decode _) with (LuksResize name). cbn. rewrite Hm. cbn. rewrite Hf. cbn. by rewrite bool_decide_eq_true_2.
Qed.

Lemma GetLUKSDeviceSize_world dev f w :
  mapped w !! dev = Some f -> 0 <= size_of w dev < 2 ^ 63 -> (GetLUKSDeviceSize dev) @ w = (w, Ok (size_of w dev)).
Proof.
  intros Hm Hn. unfold GetLUKSDeviceSize. rewrite interp_bind.
  rewrite (cmd_output_ok _ w w (format_int (size_of w dev) +s+ String nl "")).
  2: { change (decode _) with (BlockSize dev). cbn [execute]. by rewrite Hm. }
  cbn iota zeta. rewrite trim_space_line by (apply format_int_plain; lia).  by rewrite parse_format_int by (unfold in_int64; lia).
Qed.

Lemma resizeFilesystem_world dev path fs w :
  fs_on w dev = Some fs -> fs_kind fs ∈ ["ext4"; "ext3"; "xfs"] -> top_at w path = Some dev ->
  (resizeFilesystem dev path) @ w = (grow_fs dev w, Ok tt).
Proof.
  intros Hf Hk Ht. unfold resizeFilesystem. rewrite interp_bind.
  rewrite (cmd_output_ok _ w w (fs_kind fs +s+ String nl "")).
  2: { change (decode _) with (FsType dev). cbn [execute]. by rewrite Hf. }
  cbn iota zeta.
  assert (Hx : exists argv, plain (fs_kind fs) /\ resize_argv (fs_kind fs) dev path = Some argv
    /\ execute "" (decode argv) w = succeed (grow_fs dev w)).
  { rewrite !elem_of_cons, elem_of_nil in Hk.
    destruct Hk as [E | [E | [E |]]]; [.. | done]; rewrite E; eexists; (split; [done |]); (split; [reflexivity |]).
    1, 2: change (decode _) with (Resize2fs dev); cbn [execute]; by rewrite Hf, E.
    change (decode _) with (XfsGrow path). cbn [execute]. by rewrite Ht, Hf, E. }
  destruct Hx as (argv & [Hne Hp] & Hr & Hx). rewrite trim_space_line by done.
  rewrite bool_decide_eq_false_2 by done. rewrite Hr, interp_bind. by rewrite (cmd_combined_ok _ _ _ _ Hx).
Qed.

Lemma applyFsGroupPermissions_world p g mode w : (applyFsGroupPermissions p g mode) @ w = (w, Ok tt).
Proof.
  unfold applyFsGroupPermissions. cbn zeta. rewrite interp_bind, (cmd_combined_ok _ w w "") by done.
  cbn iota. by rewrite interp_bind, (cmd_combined_ok _ w w "").
Qed.

Lemma detach_world file w :
  map_Forall (fun _ g => g <> file) (mapped w) -> (detachLoopDevicesFor file) @ w = (w, tt).
Proof.
  intros Hf. unfold detachLoopDevicesFor, loopDevicesFor. rewrite !interp_bind.
  rewrite (runCmdBoundedOutput_ok _ w w ""); [done |].
  change (decode _) with (LosetupOf file). cbn [execute]. by rewrite bool_decide_eq_true_2.
Qed.

End ops.

(** ** The abstract machine *)

(** What is to be known of a volume: its names, its filesystem, and the pod
    paths it may be published at. *)
Record local_volume : Type := LocalVolume
  { lv_id : string; lv_staging : string; lv_mount : mount_volume; lv_mode : access_mode;
    lv_context : gmap string string; lv_targets : gset string; lv_size : Z; lv_pass : string }.
Definition lv_kind (v : local_volume) : string := fs_or_ext4 (lv_mount v).
Definition lv_cap (v : local_volume) : capability := Capability (Some (lv_mount v)) (lv_mode v).

Definition lv_dev (v : local_volume) : string := mapper_of (GenerateMapperName (lv_id v)).
Definition lv_backing (v : local_volume) : string :=
  GenerateBackingFilePath (path_join [DefaultLocalPath; lv_id v]) (lv_id v).

(** What the filesystem holds, and the bytes of its backing file. *)
Record store : Set := Store { sr_data : string; sr_bytes : Z }.
Definition fresh (v : local_volume) : store := Store "" (lv_size v).
Definition grown (n : Z) (d : store) : store := Store (sr_data d) (Z.max (sr_bytes d) n).
(** The room a filesystem has for data. *)
Definition room (d : store) : Z := sr_bytes d - luks_header.

(** No backing file yet; a container nobody has open; a filesystem staged on
    the node, with the pods that have it (and whether read-only). *)
Inductive phase : Type :=
  | Absent | Closed (d : store) | Staged (d : store) (pods : gmap string bool).
Definition contents (ph : phase) : option store :=
  match ph with Absent => None | Closed d | Staged d _ => Some d end.
Definition is_open (ph : phase) : bool := match ph with Staged _ _ => true | _ => false end.
Definition pods_of (ph : phase) : gmap string bool := match ph with Staged _ pods => pods | _ => ∅ end.

(** The CSI calls, a restart of the node, and a pod writing to its volume.  An
    expansion comes with a path the volume is mounted at. *)
Inductive life_event : Type :=
  | Stage | Publish (target : string) (ro : bool) | Unpublish (target : string) | Unstage
  | Expand (path : string) (bytes : Z) | Reboot | Write (target data : string).

(** What the volume promises: where an event is allowed, and what it does.  A
    volume is published once at a path, unstaged when no pod has it; published
    without having been staged again (after a restart of the node) it is
    mounted as ext4; it is expanded while it is staged, and never shrinks. *)
Definition next (v : local_volume) (ph : phase) (e : life_event) : option phase :=
  match e, ph with
  | Stage, Absent => Some (Staged (fresh v) ∅)
  | Stage, Closed d => Some (Staged d ∅)
  | Stage, Staged _ _ => Some ph
  | Publish t ro, Closed d =>
      if bool_decide (t ∈ lv_targets v) && mountable "ext4" (lv_kind v) then Some (Staged d {[t := ro]}) else None
  | Publish t ro, Staged d pods =>
      if bool_decide (t ∈ lv_targets v /\ pods !! t = None) then Some (Staged d (<[t := ro]> pods)) else None
  | Publish _ _, Absent => None
  | Unpublish t, ph =>
      if bool_decide (t ∈ lv_targets v)
      then Some match ph with Staged d pods => Staged d (delete t pods) | ph => ph end else None
  | Unstage, Staged d pods => if bool_decide (pods = ∅) then Some (Closed d) else None
  | Unstage, ph => Some ph
  | Expand p n, Staged d pods =>
      if bool_decide ((p = lv_staging v \/ p ∈ lv_targets v /\ is_Some (pods !! p)) /\ 0 <= n < 2 ^ 63)
      then Some (Staged (grown n d) pods) else None
  | Expand _ _, _ => None
  | Reboot, Staged d _ => Some (Closed d)
  | Reboot, ph => Some ph
  | Write t data, Staged d pods =>
      if bool_decide (t ∈ lv_targets v /\ pods !! t = Some false) then Some (Staged (Store data (sr_bytes d)) pods) else None
  | Write _ _, _ => None
  end.
Fixpoint lifetime (v : local_volume) (ph : phase) (l : list life_event) : option phase :=
  match l with [] => Some ph | e :: l => ph' ← next v ph e; lifetime v ph' l end.

(** What is left of all of it: the last write, and the largest size. *)
Definition effect (d : store) (e : life_event) : store :=
  match e with Write _ data => Store data (sr_bytes d) | Expand _ n => grown n d | _ => d end.
Definition outcome (d : store) (l : list life_event) : store := fold_left effect l d.

Lemma next_effect v ph e ph' :
  next v ph e = Some ph' ->
  default (fresh v) (contents ph') = effect (default (fresh v) (contents ph)) e.
Proof.
  intros H. destruct e, ph; cbn in *; repeat case_match; simplify_eq; by cbn.
Qed.
Lemma lifetime_outcome v ph l ph' :
  lifetime v ph l = Some ph' ->
  default (fresh v) (contents ph') = outcome (default (fresh v) (contents ph)) l.
Proof.
  revert ph. induction l as [| e l IH]; intros ph; cbn [lifetime outcome fold_left]; [by intros [= <-] |].
  destruct (next v ph e) as [ph1 |] eqn:E; [| done]. cbn. intros ->%IH. by rewrite (next_effect _ _ _ _ E).
Qed.
Lemma outcome_grows d l : sr_bytes d <= sr_bytes (outcome d l).
Proof.
  revert d. induction l as [| e l IH]; intros d; [done |]. specialize (IH (effect d e)).
  change (outcome d (e :: l)) with (outcome (effect d e) l). destruct e; cbn in *; lia.
Qed.

(** ** The node *)

Section volume.
Context (pvs : list pv) (classes : gmap string (gmap string string)) (secrets : gmap (string * string) (gmap string string)).
Abbreviation answer := (node_answers pvs classes secrets).
Notation "p @ w" := (interp answer p w) (at level 9, no associativity).
Context (nodeID : string) (v : local_volume).
Implicit Types w : host.

Abbreviation id := (lv_id v).
Abbreviation staging := (lv_staging v).
Abbreviation dev := (lv_dev v).
Abbreviation backing := (lv_backing v).

Definition stage_of : stage_request := StageReq id staging (Some (lv_cap v)) (lv_context v).
Definition publish_of (t : string) (ro : bool) : publish_request :=
  PublishReq id staging t (Some (lv_cap v)) ro (lv_context v).

Definition expand_of (p : string) (n : Z) : expand_request := ExpandReq id p (Some (CapacityRange n 0)).

(** The node server's memory with the node. *)
Definition handle (e : life_event) (sw : node * host) : (node * host) * result unit status :=
  let '(s, w) := sw in
  let of_run (r : host * (node * result unit status)) := let '(w', (s', x)) := r in ((s', w'), x) in
  match e with
  | Stage => of_run ((NodeStageVolume nodeID true stage_of s) @ w)
  | Publish t ro => of_run ((NodePublishVolume true (publish_of t ro) s) @ w)
  | Unpublish t => let '(w', x) := (NodeUnpublishVolume t) @ w in ((s, w'), x)
  | Unstage => of_run ((NodeUnstageVolume nodeID true id staging s) @ w)
  | Expand p n => let '(w', x) := (NodeExpandVolume true (expand_of p n)) @ w in ((s, w'), match x with Ok _ => Ok tt | Err e => Err e end)
  | Reboot => ((empty_node, Host (files w) ∅ ∅ ∅ (dirs w)), Ok tt)
  | Write t data => ((s, write_at t data w), Ok tt)
  end.
Fixpoint handle_all (l : list life_event) (sw : node * host) : (node * host) * list (result unit status) :=
  match l with
  | [] => (sw, [])
  | e :: l => let '(sw1, x) := handle e sw in let '(sw2, xs) := handle_all l sw1 in (sw2, x :: xs)
  end.

(** The request and the paths make sense, and the cluster has the passphrase. *)
Record shaped : Prop := Shaped
  { sane_name : is_name id; sane_plain : has_space id = false;
    sane_staging : staging <> ""; sane_apart : beneath staging backing = false;
    sane_local : isS3Backend (lv_context v) = false;
    sane_kind : lv_kind v ∈ ["ext4"; "ext3"; "xfs"];
    sane_size : parse_int (if bool_decide (mget (lv_context v) "capacity" = "") then "1073741824"
                           else mget (lv_context v) "capacity") = Some (lv_size v);
    sane_pin : mget (lv_context v) PinnedNodeParam = "" \/ mget (lv_context v) PinnedNodeParam = nodeID;
    sane_pass : forall w, (getPassphraseForRestore true id (lv_context v)) @ w = (w, Ok (lv_pass v));
    sane_grow : exists params, forall w, (GetStorageClassParametersByVolumeID true id) @ w = (w, Ok params)
      /\ (getPassphraseForExpansion true params) @ w = (w, Ok (lv_pass v));
    sane_targets : forall t, t ∈ lv_targets v -> t <> "" /\ beneath staging t = false }.
(** And it is large enough for a container. *)
Record sane : Prop := Sane { sane_shaped :> shaped; sane_room : luks_header < lv_size v }.

(** The node carries the volume in this phase, and nothing else of it. *)
Definition container (d : store) : file := File (sr_bytes d) (Some (lv_pass v, Some (Fs (lv_kind v) (sr_data d) (room d)))).
Record carries (ph : phase) (w : host) : Prop := Carries
  { c_file : files w !! backing = container <$> contents ph;
    c_bytes : forall d, contents ph = Some d -> luks_header < sr_bytes d < 2 ^ 63;
    c_mapped : mapped w !! dev = if is_open ph then Some backing else None;
    c_sizes : sizes w !! dev = match ph with Staged d _ => Some (sr_bytes d, room d) | _ => None end;
    c_staging : mounts w !! staging = if is_open ph then Some [dev] else None;
    c_target : forall t, t ∈ lv_targets v -> mounts w !! t = (fun _ => [dev]) <$> pods_of ph !! t;
    c_only : forall p l, mounts w !! p = Some l -> dev ∈ l -> p = staging \/ p ∈ lv_targets v;
    c_below : forall p, beneath staging p = true -> p <> staging -> mounts w !! p = None;
    c_dev : files w !! dev = None; c_nodev : mapped w !! backing = None;
    c_loop : forall d f, mapped w !! d = Some f -> f = backing -> d = dev }.
(** No S3 volume of that name. *)
Definition local_node (s : node) : Prop :=
  mountManagers (s3SyncMgr s) !! id = None /\ id ∉ backgroundDrains (s3SyncMgr s).

Section names.
Context (Hv : shaped).

Lemma dev_path : dev = "/dev/mapper/luks-" +s+ id.
Proof. apply mapped_path, (sane_name Hv). Qed.

Lemma backing_path : backing = DefaultLocalPath +s+ "/" +s+ id +s+ "/luks-" +s+ id +s+ ".img".
Proof.
  assert (canonical DefaultLocalPath) by by exists ["local-path-provisioner"; "opt"]; vm_compute.
  unfold lv_backing, GenerateBackingFilePath. rewrite (path_join_name DefaultLocalPath) by (done || apply Hv).
  rewrite path_join_name.
  - by rewrite !sapp_assoc.
  - by apply canonical_app; [| apply Hv].
  - apply (luks_name (id +s+ ".img")). rewrite mem_char_app. by rewrite (proj2 (proj2 (proj2 (sane_name Hv)))).
Qed.

Lemma dev_plain : plain dev.
Proof.
  rewrite dev_path. split; [done |]. rewrite has_space_ascii by done. apply (sane_plain Hv).
Qed.

Lemma dev_backing : dev <> backing.
Proof. rewrite dev_path, backing_path. intros [=]. Qed.

Lemma extractFsGroup_host ctx cap : exists g, forall w, (extractFsGroup true ctx cap) @ w = (w, g).
Proof.
  unfold extractFsGroup. destruct (match ctx !! "fsGroup" with Some s => parse_int s | None => None end) as [g |]; [by exists (Some g) |].
  match goal with |- context [match ?x with Some g => Ret _ | None => _ end] => destruct x as [g |] end; [by exists (Some g) |].
  exists None. intros w. unfold extractFsGroupFromPod. cbn [negb]. by case_match.
Qed.

Lemma GetLocalPath_world w : (GetLocalPath id) @ w = (w, path_join [DefaultLocalPath; id]).
Proof. done. Qed.

Definition prepared g : StagingParameters :=
  StagingParams id staging (path_join [DefaultLocalPath; id]) backing (lv_pass v)
     (GenerateMapperName id) dev g (extractFsMode (lv_context v)) (lv_cap v).

Lemma pin_allows :
  negb (bool_decide (mget (st_context stage_of) PinnedNodeParam = ""))
  && negb (bool_decide (mget (st_context stage_of) PinnedNodeParam = nodeID)) = false.
Proof.
  cbn [st_context stage_of]. destruct (sane_pin Hv) as [E | E]; rewrite E; [by rewrite (bool_decide_eq_true_2 ("" = "")) |].
  rewrite (bool_decide_eq_true_2 (nodeID = nodeID)) by done. apply andb_false_r.
Qed.

(** The backing file, where it is missing, is made of the size in the context. *)
Lemma create_world w :
  files w !! backing = None ->
  (CreateBackingFile backing (let c := mget (st_context stage_of) "capacity" in if bool_decide (c = "") then "1073741824" else c)) @ w
  = (on_files (insert backing (File (lv_size v) None)) w, Ok tt).
Proof.
  intros H. cbn [st_context stage_of]. cbn zeta. unfold CreateBackingFile. rewrite interp_bind.
  rewrite (cmd_combined_ok _ _ _ _ w (on_files (insert backing (File (lv_size v) None)) w) "").
  2: { change (decode _) with (Fallocate (if bool_decide (mget (lv_context v) "capacity" = "") then "1073741824"
                           else mget (lv_context v) "capacity") backing).
       cbn [execute]. by rewrite (sane_size Hv), H. }
  cbn iota. rewrite interp_bind. cbn [interp]. rewrite interp_bind, (interp_perform answer (CStat backing)).
  cbn [node_answers on_files files]. by rewrite lookup_insert_eq.
Qed.

Lemma prepare_from w w' :
  (ensureBackingFileExists nodeID stage_of backing) @ (make_dir (path_join [DefaultLocalPath; id]) w) = (w', Ok tt) ->
  exists g, (prepareVolumeStaging nodeID true stage_of (lv_cap v)) @ w = (w', Ok (prepared g)).
Proof.
  intros H. destruct (extractFsGroup_host (lv_context v) (Some (lv_cap v))) as [g Hg]. exists g.
  unfold prepareVolumeStaging. cbn zeta. rewrite interp_bind. cbn [st_context stage_of st_volume]. rewrite Hg, (sane_local Hv).
  rewrite interp_bind, GetLocalPath_world. cbn zeta. rewrite interp_bind, (interp_perform answer (CMkdirAll _)).
  cbn [node_answers default_reply]. rewrite interp_bind. fold (lv_backing v). rewrite H. cbn iota. rewrite interp_bind.
  unfold getPassphraseFromRequest. cbn [st_context stage_of st_volume]. by rewrite (sane_pass Hv).
Qed.

End names.

(** ** Too small for a container *)

Section tiny.
Context (Hv : shaped) (Hsmall : lv_size v <= luks_header).

(** Nothing of the volume but, perhaps, a file that holds no container. *)
Record unformatted (w : host) : Prop := Unformatted
  { u_dev : files w !! dev = None; u_mapped : mapped w !! dev = None; u_nodev : mapped w !! backing = None;
    u_file : files w !! backing = None \/ exists n, files w !! backing = Some (File n None) /\ n <= luks_header }.

Lemma unformatted_dir p w : unformatted w -> unformatted (make_dir p w).
Proof. by intros []. Qed.

Lemma ensure_small w :
  unformatted w ->
  exists n w', (ensureBackingFileExists nodeID stage_of backing) @ w = (w', Ok tt)
    /\ files w' !! backing = Some (File n None) /\ n <= luks_header /\ unformatted w'.
Proof.
  intros [Hd Hm Hn Hf]. pose proof (dev_backing Hv) as Hne.
  assert (Hmade : forall w, files w !! dev = None -> mapped w !! dev = None -> mapped w !! backing = None ->
            let w' := on_files (insert backing (File (lv_size v) None)) w in
            files w' !! backing = Some (File (lv_size v) None) /\ unformatted w').
  { intros w1 H1 H2 H3. cbn zeta. split; [apply lookup_insert_eq |].
    split; cbn; [by rewrite lookup_insert_ne | done | done |]. right. exists (lv_size v). by rewrite lookup_insert_eq. }
  unfold ensureBackingFileExists. cbn zeta. rewrite interp_bind, (interp_perform answer (CStat backing)). cbn [node_answers]. rewrite Hn.
  destruct Hf as [Hf | (n & Hf & Hle)]; rewrite Hf.
  - rewrite bool_decide_eq_false_2 by apply is_Some_None. cbn iota. rewrite (pin_allows Hv). cbn iota.
    rewrite interp_bind, (create_world Hv) by done. destruct (Hmade w Hd Hm Hn). by eexists _, _.
  - cbn [st_size f_size]. destruct (n <? minSize); [| exists n, w; split; [done |]; split; [done |]; split; [done |]; split; eauto].
    rewrite interp_bind, (interp_perform answer (CRemove backing)). cbn [node_answers]. rewrite Hf. cbn iota.
    rewrite interp_bind, (create_world Hv) by (cbn; apply lookup_delete_eq).
    destruct (Hmade (on_files (delete backing) w)) as [H1 H2]; [cbn; by rewrite lookup_delete_ne | done | done |]. by eexists _, _.
Qed.

Lemma stage_small s w :
  unformatted w -> exists w' e, handle Stage (s, w) = ((s, w'), Err e) /\ unformatted w'.
Proof.
  intros H. cbn [handle]. unfold NodeStageVolume, validateStageVolumeRequest. cbn [st_volume st_staging st_cap st_context stage_of].
  rewrite !bool_decide_eq_false_2 by apply (sane_staging Hv) || apply (sane_name Hv).
  assert ((isAlreadyStaged id staging (lv_context v)) @ w = (w, Ok false)) as E.
  { unfold isAlreadyStaged, isVolumeStaged. rewrite (sane_local Hv). cbn [negb]. cbn zeta. rewrite !interp_bind.
    rewrite IsLUKSOpened_world by apply (u_dev _ H). change (mapper_of (GenerateMapperName id)) with dev. rewrite (u_mapped _ H).
    by rewrite bool_decide_eq_false_2 by apply is_Some_None. }
  rewrite interp_mbind, interp_lift, E. cbn iota. destruct (ensure_small _ (unformatted_dir (path_join [DefaultLocalPath; id]) _ H)) as (n & w' & Ee & Hf & Hle & H').
  destruct (prepare_from Hv _ _ Ee) as [g Hg]. rewrite interp_mbind, interp_lift, Hg. cbn iota. rewrite (sane_local Hv), interp_lift.
  assert (exists e, (stage_luks (prepared g)) @ w' = (w', Err e)) as [e ->]; [| by eexists _, _].
  unfold stage_luks, setupLUKSDevice, FormatAndOpenLUKS. cbn [sp_backingFile sp_mapperName sp_passphrase prepared].
  rewrite interp_bind, interp_bind, IsLUKSDevice_world, Hf. cbn iota. rewrite interp_bind. unfold runCryptsetup, runBounded.
  rewrite !interp_bind, world_exec. change (decode (CryptsetupCmd :: ["luksFormat"; "--batch-mode"; backing])) with (LuksFormat backing).
  cbn [execute]. rewrite Hf. cbn [f_size]. rewrite (proj2 (Z.leb_le _ _) Hle). by eexists.
Qed.

(** A volume no larger than the header of a LUKS container, which [CreateVolume]
    makes without complaint, is never staged, however often it is tried. *)
Theorem tiny_volume_never_stages n s w :
  unformatted w -> Forall (fun r => is_ok r = false) (snd (handle_all (repeat Stage n) (s, w))).
Proof.
  revert w. induction n as [| n IH]; intros w H; cbn [repeat handle_all]; [by apply Forall_nil_2 |].
  destruct (stage_small s w H) as (w' & e & -> & H'). specialize (IH w' H').
  destruct (handle_all _ _) as [sw xs]. by apply Forall_cons_2.
Qed.

End tiny.

Section steps.
Context (Hv : sane).

Lemma dev_staged d pods w : carries (Staged d pods) w -> fs_on w dev = Some (Fs (lv_kind v) (sr_data d) (room d)).
Proof.
  intros H. unfold fs_on. rewrite (c_mapped _ _ H). cbn. by rewrite (c_file _ _ H).
Qed.

Lemma isVolumeStaged_world ph w : carries ph w -> (isVolumeStaged id staging) @ w = (w, is_open ph).
Proof.
  intros H. unfold isVolumeStaged. cbn zeta. rewrite interp_bind, IsLUKSOpened_world by apply (c_dev _ _ H).
  change (mapper_of (GenerateMapperName id)) with dev. rewrite (c_mapped _ _ H).
  destruct (is_open ph) eqn:E; [| by rewrite bool_decide_eq_false_2 by apply is_Some_None].
  rewrite bool_decide_eq_true_2 by by eexists. cbn [negb].
  rewrite interp_bind, isMountPoint_host, (c_staging _ _ H), E, bool_decide_eq_true_2 by by eexists. cbn [negb].
  rewrite (isMountedFrom_world _ _ _ _ dev) by (apply (dev_plain Hv) || by unfold top_at; rewrite (c_staging _ _ H), E).
  by rewrite bool_decide_eq_true_2.
Qed.

(** *** What each change of the host makes of the phase *)

Lemma staging_target t : t ∈ lv_targets v -> t <> staging.
Proof.
  intros [_ Ht]%(sane_targets Hv) ->. unfold beneath in Ht. by rewrite bool_decide_eq_true_2 in Ht.
Qed.

Lemma carries_dir ph p w : carries ph w -> carries ph (make_dir p w).
Proof. by intros []. Qed.

Lemma carries_made w :
  carries Absent w -> carries (Closed (fresh v)) (on_files (insert backing (container (fresh v))) w).
Proof.
  intros []. pose proof (dev_backing Hv). split; try done; cbn; try (by simplify_map_eq).
  intros d [= <-]. pose proof (sane_room Hv). destruct (parse_int_range _ _ (sane_size Hv)). by cbn.
Qed.

Lemma carries_open d w :
  carries (Closed d) w -> carries (Staged d ∅) (push_mount staging dev (make_dir staging (map_device dev backing (sr_bytes d) w))).
Proof.
  intros [Hf Hy Hm Hz Hs Ht Ho Hb Hd Hn Hl]. pose proof (dev_backing Hv).
  split; try done; unfold push_mount; cbn in *; try (by simplify_map_eq).
  - intros t Hin. pose proof (staging_target t Hin). rewrite lookup_insert_ne by done. by apply Ht.
  - intros p l [[<- _] | [_ Hp]]%lookup_insert_Some Hin; [by left | by eapply Ho].
  - intros p Hp Hne. rewrite lookup_insert_ne by done. by apply Hb.
  - intros d' f [[<- _] | [_ Hp]]%lookup_insert_Some Hin; [done | by eapply Hl].
Qed.

Lemma carries_published d pods t ro w :
  carries (Staged d pods) w -> t ∈ lv_targets v -> pods !! t = None ->
  carries (Staged d (<[t := ro]> pods)) (push_mount t dev (make_dir t w)).
Proof.
  intros [Hf Hy Hm Hz Hs Ht Ho Hb Hd Hn Hl] Hin Hp. pose proof (staging_target t Hin).
  split; try done; unfold push_mount; cbn in *.
  - by rewrite lookup_insert_ne.
  - intros t' Hin'. destruct (decide (t = t')) as [<- | Hne]; [| by simplify_map_eq; apply Ht].
    simplify_map_eq. by rewrite Ht, Hp by done.
  - intros p l [[<- _] | [_ Hp']]%lookup_insert_Some Hin'; [by right | by eapply Ho].
  - intros p Hp' Hne. rewrite lookup_insert_ne; [by apply Hb |]. intros <-.
    pose proof (proj2 (sane_targets Hv t Hin)). congruence.
Qed.

Lemma carries_unbound ph t w :
  carries ph w -> t ∈ lv_targets v ->
  carries match ph with Staged d pods => Staged d (delete t pods) | ph => ph end (on_mounts (delete t) w).
Proof.
  intros [Hf Hy Hm Hz Hs Ht Ho Hb Hd Hn Hl] Hin. pose proof (staging_target t Hin).
  split; try (by destruct ph); cbn in *.
  - rewrite lookup_delete_ne by done. by destruct ph.
  - intros t' Hin'. destruct (decide (t = t')) as [<- | Hne].
    + rewrite lookup_delete_eq. destruct ph; cbn; by simplify_map_eq.
    + rewrite lookup_delete_ne, Ht by done. destruct ph; cbn; by simplify_map_eq.
  - intros p l [_ Hp]%lookup_delete_Some. by eapply Ho.
  - intros p Hp Hne. destruct (decide (t = p)) as [<- | ?]; [apply lookup_delete_eq |].
    rewrite lookup_delete_ne by done. by apply Hb.
Qed.

Lemma carries_closed d w :
  carries (Staged d ∅) w -> carries (Closed d) (unmap_device dev (on_mounts (delete staging) w)).
Proof.
  intros [Hf Hy Hm Hz Hs Ht Ho Hb Hd Hn Hl]. pose proof (dev_backing Hv). split; try done; cbn in *; try (by simplify_map_eq).
  - intros t Hin. pose proof (staging_target t Hin). rewrite lookup_delete_ne by done. by apply Ht.
  - intros p l [_ Hp]%lookup_delete_Some. by eapply Ho.
  - intros p Hp Hne. rewrite lookup_delete_ne by done. by apply Hb.
  - intros d' f [_ Hp]%lookup_delete_Some. by eapply Hl.
Qed.

Lemma device_unused d w : carries (Staged d ∅) w -> unused dev (on_mounts (delete staging) w) = true.
Proof.
  intros H. apply bool_decide_eq_true_2. cbn. intros p l [Hne Hp]%lookup_delete_Some Hin.
  destruct (c_only _ _ H p l Hp Hin) as [-> | Ht]; [done |].
  rewrite (c_target _ _ H p Ht) in Hp. cbn in Hp. by rewrite lookup_empty in Hp.
Qed.

Lemma carries_swept ph w : is_open ph = false -> carries ph w -> carries ph (remove_all staging w).
Proof.
  intros Ho [Hf Hy Hm Hz Hs Ht Hol Hb Hd Hn Hl].
  assert (Hw : wiped staging w = []).
  { unfold wiped. destruct (List.filter _ _) as [| [p l] r] eqn:E; [done |]. exfalso.
    assert (List.In (p, l) ((p, l) :: r)) as Hin by by left. rewrite <- E in Hin.
    apply filter_In in Hin as [Hin Hp]. apply list_elem_of_In, elem_of_map_to_list in Hin.
    rewrite Ho in Hs. destruct (decide (p = staging)) as [-> | Hne]; [congruence |].
    by rewrite (Hb p Hp Hne) in Hin. }
  unfold remove_all. rewrite Hw. cbn [foldr]. split; try done; cbn; rewrite ?map_lookup_filter, ?Hd; try done.
  rewrite Hf. destruct (contents ph); cbn; [| done]. by rewrite option_guard_True by apply (sane_apart Hv).
Qed.

Lemma carries_rebooted ph w :
  carries ph w ->
  carries match ph with Staged d _ => Closed d | ph => ph end (Host (files w) ∅ ∅ ∅ (dirs w)).
Proof.
  intros [Hf Hy Hm Hz Hs Ht Ho Hb Hd Hn Hl].
  split; cbn; intros; rewrite ?lookup_empty in *; try done; by destruct ph; cbn in *; rewrite ?lookup_empty; auto.
Qed.

Lemma carries_written d pods t data w :
  carries (Staged d pods) w -> is_Some (pods !! t) -> t ∈ lv_targets v ->
  carries (Staged (Store data (sr_bytes d)) pods) (write_at t data w).
Proof.
  intros H [ro Hp] Hin. unfold write_at, top_at. rewrite (c_target _ _ H t Hin). cbn. rewrite Hp. cbn.
  rewrite (dev_staged _ _ _ H). unfold set_fs. rewrite (c_mapped _ _ H). cbn.
  destruct H as [Hf Hy Hm Hz Hs Ht Ho Hb Hd Hn Hl]. pose proof (dev_backing Hv). split; try done; cbn in *.
  - by rewrite lookup_alter_eq, Hf.
  - intros d' [= <-]. by apply (Hy d).
  - by rewrite lookup_alter_ne.
Qed.

(** *** The handlers *)

(** A volume with a container is brought up by opening it; without, it is made first. *)
Lemma mountAndConfigure_world w w1 fs g mode :
  (formatDevice dev (lv_cap v)) @ w = (w1, Ok tt) ->
  mounts w1 !! staging = None -> fs_on w1 dev = Some fs -> fs_kind fs = lv_kind v ->
  (mountAndConfigureVolume (StagingParams id staging (path_join [DefaultLocalPath; id]) backing (lv_pass v)
     (GenerateMapperName id) dev g mode (lv_cap v))) @ w = (push_mount staging dev (make_dir staging w1), Ok tt).
Proof.
  intros Hfmt Hs Hfs Hk. unfold mountAndConfigureVolume. cbn [sp_mappedDevice sp_volumeCapability sp_stagingTargetPath sp_fsGroup sp_fsMode].
  rewrite interp_bind, Hfmt. cbn iota. rewrite interp_bind.
  rewrite (mountDevice_world _ _ _ _ _ _ (lv_mount v) fs) by (done || unfold mountable; by rewrite Hk, bool_decide_eq_true_2).
  cbn iota. destruct g as [g |]; [| done]. by rewrite interp_bind, applyFsGroupPermissions_world.
Qed.

(** The backing file is made where it is missing, and left alone where it is not. *)
Definition with_file (ph : phase) (w : host) : host :=
  match ph with Absent => on_files (insert backing (File (lv_size v) None)) w | _ => w end.

Lemma ensureBackingFile_world ph w :
  carries ph w -> (ensureBackingFileExists nodeID stage_of backing) @ w = (with_file ph w, Ok tt).
Proof.
  intros H. unfold ensureBackingFileExists. cbn zeta. rewrite interp_bind, (interp_perform answer (CStat backing)).
  cbn [node_answers]. rewrite (c_file _ _ H), (c_nodev _ _ H). destruct ph; cbn [contents fmap option_fmap option_map].
  2, 3: cbn [st_size container f_size]; by rewrite (proj2 (Z.ltb_ge _ minSize) (Z.lt_le_incl luks_header _ (proj1 (c_bytes _ _ H _ eq_refl)))).
  rewrite bool_decide_eq_false_2 by apply is_Some_None. cbn iota. rewrite (pin_allows Hv). cbn iota.
  rewrite interp_bind. by rewrite (create_world Hv) by apply (c_file _ _ H).
Qed.

Lemma prepare_world ph w :
  carries ph w ->
  exists g, (prepareVolumeStaging nodeID true stage_of (lv_cap v)) @ w
    = (with_file ph (make_dir (path_join [DefaultLocalPath; id]) w), Ok (prepared g)).
Proof. intros H. by apply (prepare_from Hv), ensureBackingFile_world, carries_dir. Qed.

Lemma stage_luks_closed d w g :
  carries (Closed d) w ->
  (stage_luks (prepared g)) @ w
  = (push_mount staging dev (make_dir staging (map_device dev backing (sr_bytes d) w)), Ok tt).
Proof.
  intros H. pose proof (dev_staged _ _ _ (carries_open _ _ H)) as Hfs.
  unfold stage_luks, setupLUKSDevice. cbn [sp_backingFile sp_mapperName sp_passphrase prepared]. rewrite interp_bind.
  rewrite (FormatAndOpenLUKS_old _ _ _ _ _ _ (sr_bytes d) (Some (Fs (lv_kind v) (sr_data d) (room d))))
    by first [apply (c_dev _ _ H) | apply (c_mapped _ _ H) | apply (c_file _ _ H)].
  cbn iota. rewrite interp_bind. unfold prepared.
  erewrite mountAndConfigure_world; [done | by eapply formatDevice_formatted | apply (c_staging _ _ H) | exact Hfs | done].
Qed.

Lemma stage_luks_absent w g :
  carries Absent w ->
  (stage_luks (prepared g)) @ (with_file Absent w)
  = (push_mount staging dev (make_dir staging (map_device dev backing (lv_size v) (on_files (insert backing (container (fresh v))) w))), Ok tt).
Proof.
  intros H. pose proof (dev_backing Hv) as Hne. unfold stage_luks, setupLUKSDevice.
  cbn [sp_backingFile sp_mapperName sp_passphrase prepared]. rewrite interp_bind.
  rewrite (FormatAndOpenLUKS_new _ _ _ _ _ _ (lv_size v)).
  2: { cbn. rewrite lookup_insert_ne by done. apply (c_dev _ _ H). }
  2: { apply (c_mapped _ _ H). } 2: { done. } 2: { cbn. by rewrite lookup_insert_eq. } 2: { apply (sane_room Hv). }
  cbn iota. rewrite interp_bind. unfold prepared. change (mapper_of (GenerateMapperName id)) with dev.
  erewrite mountAndConfigure_world.
  2: { eapply (formatDevice_blank _ _ _ _ _ _ backing); [done | apply (sane_kind Hv) | |].
       - unfold fs_on. cbn. by rewrite lookup_insert_eq; cbn; rewrite lookup_insert_eq.
       - cbn. by rewrite lookup_insert_eq. }
  - unfold set_fs. cbn. rewrite lookup_insert_eq. unfold push_mount, on_files, map_device, on_mounts, size_of. cbn.
    by rewrite alter_insert_eq, !insert_insert_eq, lookup_insert_eq.
  - unfold set_fs. cbn. rewrite lookup_insert_eq. cbn. apply (c_staging _ _ H).
  - unfold set_fs. cbn. rewrite lookup_insert_eq. unfold fs_on. cbn. rewrite lookup_insert_eq. cbn.
    by rewrite lookup_alter_eq, lookup_insert_eq.
  - done.
Qed.

Lemma isAlreadyStaged_world ph w :
  carries ph w -> (isAlreadyStaged id staging (lv_context v)) @ w = (w, Ok (is_open ph)).
Proof.
  intros H. unfold isAlreadyStaged. rewrite (sane_local Hv). cbn [negb]. by rewrite interp_bind, (isVolumeStaged_world _ _ H).
Qed.

Lemma stage_host ph w s :
  carries ph w ->
  exists w', (NodeStageVolume nodeID true stage_of s) @ w = (w', (s, Ok tt))
    /\ carries (match ph with Absent => Staged (fresh v) ∅ | Closed d => Staged d ∅ | ph => ph end) w'.
Proof.
  intros H. unfold NodeStageVolume, validateStageVolumeRequest. cbn [st_volume st_staging st_cap st_context stage_of].
  rewrite !bool_decide_eq_false_2 by apply (sane_staging Hv) || apply (sane_name Hv).
  rewrite interp_mbind, interp_lift, (isAlreadyStaged_world _ _ H). destruct (prepare_world _ _ H) as [g Hg].
  destruct ph as [| d | d pods]; cbn [is_open]; cbn iota; [| | by exists w];
    rewrite interp_mbind, interp_lift, Hg; cbn iota; rewrite (sane_local Hv), interp_lift.
  - rewrite (stage_luks_absent _ _ (carries_dir _ _ _ H)). eexists. split; [done |]. by apply carries_open, carries_made, carries_dir.
  - cbn [with_file]. rewrite (stage_luks_closed _ _ _ (carries_dir _ _ _ H)). eexists. split; [done |]. by apply carries_open, carries_dir.
Qed.

Lemma restore_world d w :
  carries (Closed d) w -> mountable "ext4" (lv_kind v) = true ->
  (restoreLUKSVolumeStaging true id staging (lv_context v)) @ w
  = (push_mount staging dev (make_dir staging (map_device dev backing (sr_bytes d) w)), Ok tt).
Proof.
  intros H Hk. pose proof (dev_staged _ _ _ (carries_open _ _ H)) as Hfs.
  unfold restoreLUKSVolumeStaging. rewrite interp_bind, GetLocalPath_world. cbn zeta. fold (lv_backing v).
  rewrite interp_bind, (interp_perform answer (CStat backing)). cbn [node_answers].
  rewrite (c_file _ _ H). cbn [contents fmap option_fmap option_map]. rewrite interp_bind, (sane_pass Hv). cbn iota.
  rewrite interp_bind. unfold restoreLUKSDeviceAndMount. cbn zeta. rewrite interp_bind.
  rewrite (OpenLUKS_world _ _ _ _ _ _ (sr_bytes d) (Some (Fs (lv_kind v) (sr_data d) (room d))))
    by first [apply (c_dev _ _ H) | apply (c_mapped _ _ H) | apply (c_file _ _ H)].
  cbn iota. rewrite interp_bind.
  rewrite (mountDevice_world _ _ _ _ _ ext4_capability (MountVolume "ext4" [] "") (Fs (lv_kind v) (sr_data d) (room d)))
    by first [done | apply (c_staging _ _ H) | exact Hfs | exact Hk].
  cbn iota. rewrite interp_bind. destruct (extractFsGroup_host (lv_context v) None) as [[g |] Hg]; rewrite Hg; [| done].
  by rewrite interp_bind, applyFsGroupPermissions_world.
Qed.

Definition staged_phase (ph : phase) : phase := match ph with Closed d => Staged d ∅ | ph => ph end.

Lemma ensureVolumeStaged_host ph t ro w s :
  carries ph w -> ph <> Absent -> (is_open ph = false -> mountable "ext4" (lv_kind v) = true) ->
  exists w', (ensureVolumeStaged true (publish_of t ro) s) @ w = (w', (s, Ok tt)) /\ carries (staged_phase ph) w'.
Proof.
  intros H Hph Hk. unfold ensureVolumeStaged. cbn [pb_volume pb_staging pb_context publish_of]. rewrite (sane_local Hv).
  rewrite interp_mbind, interp_lift, (isVolumeStaged_world _ _ H). destruct ph as [| d | d pods]; [done | |]; cbn [is_open].
  - cbn iota. rewrite interp_lift, (restore_world _ _ H) by by apply Hk. eexists. split; [done |]. by apply carries_open.
  - by exists w.
Qed.

Lemma publish_host ph t ro w s :
  carries ph w -> ph <> Absent -> (is_open ph = false -> mountable "ext4" (lv_kind v) = true) ->
  t ∈ lv_targets v -> pods_of ph !! t = None ->
  exists d w', contents ph = Some d /\ (NodePublishVolume true (publish_of t ro) s) @ w = (w', (s, Ok tt))
    /\ carries (Staged d (<[t := ro]> (pods_of ph))) w'.
Proof.
  intros H Hph Hk Ht Hp. unfold NodePublishVolume, validatePublishVolumeRequest.
  cbn [pb_volume pb_staging pb_target pb_context pb_cap publish_of].
  rewrite !bool_decide_eq_false_2 by (apply (sane_staging Hv) || apply (sane_name Hv) || by apply (sane_targets Hv)).
  destruct (extractFsGroup_host (lv_context v) (Some (lv_cap v))) as [g Hg].
  rewrite interp_mbind, interp_lift, Hg, (sane_local Hv). cbn zeta. rewrite interp_mbind. cbn [ret interp]. rewrite interp_mbind.
  unfold publish. cbn [pb_volume pb_staging pb_target pb_context pb_readonly publish_of]. cbn zeta. rewrite (sane_local Hv).
  destruct (ensureVolumeStaged_host ph t ro w s H Hph Hk) as (w1 & E & H1).
  rewrite interp_mbind, E. cbn iota. rewrite interp_mbind. cbn [ret interp]. rewrite interp_mbind.
  match goal with |- context [interp _ (?p s) w1] => assert ((p s) @ w1 = (w1, (s, tt))) as Eg end.
  { destruct g; [| done]. by rewrite interp_lift, interp_bind, applyFsGroupPermissions_world. }
  rewrite Eg. rewrite interp_mbind, interp_lift. clear Eg E.
  assert (exists d, contents ph = Some d /\ staged_phase ph = Staged d (pods_of ph)) as (d & Ed & Es) by (destruct ph; by eauto).
  rewrite Es in H1. rewrite (bindMount_host _ _ _ _ _ dev); [| unfold top_at; by rewrite (c_staging _ _ H1)].
  cbn iota. eexists d, _. split; [done |]. split; [done |]. by apply carries_published.
Qed.

Lemma unpublish_host ph t w :
  carries ph w -> t ∈ lv_targets v -> (NodeUnpublishVolume t) @ w = (on_mounts (delete t) w, Ok tt).
Proof.
  intros H Ht. unfold NodeUnpublishVolume. rewrite bool_decide_eq_false_2 by by apply (sane_targets Hv).
  rewrite interp_bind, unmountPath_host; [done | ..]; rewrite (c_target _ _ H _ Ht); unfold maxMountStackUnwind; destruct (pods_of ph !! t); cbn; first [lia | done].
Qed.

Lemma cleanupS3Sync_world w s :
  local_node s -> (cleanupS3Sync nodeID true id staging s) @ w = (w, (s, Ok tt)).
Proof.
  intros [Hm Hd]. unfold cleanupS3Sync, isBackgroundDraining, lookup_manager. rewrite interp_mbind.
  rewrite interp_gets, (bool_decide_eq_false_2 (id ∈ backgroundDrains (s3SyncMgr s))) by done.
  assert (Hc : forall w, (HasUnuploadedData id) @ w = (w, false)).
  { intros w'. unfold HasUnuploadedData, hasUnuploadedDataAt. by case_bool_decide. }
  rewrite interp_mbind, interp_lift, interp_bind, Hc. cbn [interp]. cbn iota.
  rewrite interp_mbind, interp_gets, Hm, interp_mbind. case_bool_decide; [done |].
  by rewrite interp_lift, Hc.
Qed.

Lemma unmount_staging_world ph w :
  carries ph w ->
  (unmount_staging staging) @ w = (if is_open ph then on_mounts (delete staging) w else w, Ok tt).
Proof.
  intros H. unfold unmount_staging. rewrite bool_decide_eq_false_2 by apply (sane_staging Hv).
  rewrite interp_bind, isMountPoint_host, (c_staging _ _ H). destruct (is_open ph) eqn:Ho.
  2: by rewrite bool_decide_eq_false_2 by apply is_Some_None.
  rewrite bool_decide_eq_true_2 by by eexists. cbn [negb]. rewrite interp_bind. unfold sync_staging.
  rewrite interp_bind, (cmd_run_ok _ _ _ _ w w "") by done. cbn [is_ok interp]. rewrite interp_bind.
  rewrite unmountPath_host; rewrite ?(c_staging _ _ H), ?Ho; unfold maxMountStackUnwind; cbn; first [lia | done].
Qed.

Lemma cleanup_host ph w :
  carries ph w -> pods_of ph = ∅ ->
  exists w', (cleanupVolumeStaging id staging) @ w = (w', Ok tt)
    /\ carries (match ph with Staged d _ => Closed d | ph => ph end) w'.
Proof.
  intros H Hp. unfold cleanupVolumeStaging. rewrite interp_bind, (unmount_staging_world _ _ H). cbn iota. rewrite interp_bind.
  set (ph' := match ph with Staged d _ => Closed d | ph => ph end).
  assert (exists w1, (CloseLUKS (GenerateMapperName id)) @ (if is_open ph then on_mounts (delete staging) w else w) = (w1, Ok tt)
            /\ carries ph' w1) as (w1 & -> & H1).
  { destruct ph as [| d | d pods]; subst ph'; cbn [is_open].
    1, 2: exists w; split; [apply CloseLUKS_closed; first [apply (c_dev _ _ H) | apply (c_mapped _ _ H)] | done].
    cbn in Hp. subst pods. eexists. split; [| by apply carries_closed]. apply (CloseLUKS_open _ _ _ _ backing);
      [apply (c_dev _ _ H) | apply (c_mapped _ _ H) | by eapply device_unused]. }
  cbn iota. rewrite interp_bind, GetLocalPath_world. cbn iota. rewrite interp_bind. fold (lv_backing v).
  assert (Hc : is_open ph' = false) by by destruct ph.
  rewrite detach_world. 2: { intros d f Hd ->. pose proof (c_loop _ _ H1 _ _ Hd eq_refl) as ->.
    rewrite (c_mapped _ _ H1), Hc in Hd. done. }
  rewrite bool_decide_eq_false_2 by apply (sane_staging Hv). rewrite interp_bind, (interp_perform answer (CRemoveAll staging)).
  eexists. split; [done |]. by apply carries_swept.
Qed.

Lemma unstage_host ph w s :
  carries ph w -> local_node s -> pods_of ph = ∅ ->
  exists w', (NodeUnstageVolume nodeID true id staging s) @ w = (w', (s, Ok tt))
    /\ carries (match ph with Staged d _ => Closed d | ph => ph end) w'.
Proof.
  intros H Hn Hp. unfold NodeUnstageVolume, validateUnstageVolumeRequest.
  rewrite !bool_decide_eq_false_2 by apply (sane_staging Hv) || apply (sane_name Hv).
  rewrite interp_mbind, cleanupS3Sync_world by done. cbn iota. rewrite interp_mbind, interp_lift.
  destruct (cleanup_host _ _ H Hp) as (w' & -> & H'). by exists w'.
Qed.

(** *** Expansion: each layer grows by what the one below it grew. *)

Lemma carries_grown d pods n w w' :
  carries (Staged d pods) w -> n < 2 ^ 63 -> mapped w' = mapped w -> mounts w' = mounts w ->
  files w' = <[backing := container (grown n d)]> (files w) ->
  sizes w' !! dev = Some (sr_bytes (grown n d), room (grown n d)) -> carries (Staged (grown n d) pods) w'.
Proof.
  intros [Hf Hy Hm Hz Hs Ht Ho Hb Hd Hn Hl] Hr Em Eo Ef Es. pose proof (dev_backing Hv).
  split; rewrite ?Em, ?Eo, ?Ef, ?Es; try done; cbn in *; [by simplify_map_eq | | by simplify_map_eq].
  intros d' [= <-]. specialize (Hy d eq_refl). cbn. lia.
Qed.

Lemma ExpandBackingFile_world d pods n w :
  carries (Staged d pods) w -> 0 <= n < 2 ^ 63 ->
  (ExpandBackingFile backing n) @ w
  = (on_files (insert backing (File (sr_bytes (grown n d)) (f_luks (container d)))) w, Ok tt).
Proof.
  intros H Hn. unfold ExpandBackingFile. rewrite interp_bind, (interp_perform answer (CStat backing)). cbn [node_answers].
  rewrite (c_file _ _ H). cbn [contents fmap option_fmap option_map st_size container f_size grown sr_bytes].
  destruct (n <=? sr_bytes d) eqn:E; bools.
  - rewrite Z.max_l by done. cbn [interp f_luks]. unfold on_files. rewrite insert_id; [by destruct w |]. apply (c_file _ _ H).
  - rewrite interp_bind. rewrite (cmd_combined_ok _ _ _ _ w (on_files (insert backing (File (Z.max (sr_bytes d) n) (f_luks (container d)))) w) ""); [done |].
    change (decode _) with (Fallocate (format_int n) backing). cbn [execute].
    rewrite parse_format_int by (unfold in_int64; lia). rewrite (c_file _ _ H). cbn. by rewrite Z.max_comm.
Qed.

Lemma losetup_line_parsed : exists rest,
  trim_space (("/dev/loop0: []: (" +s+ backing +s+ ")") +s+ String nl "") = "/dev/loop0" +s+ String ":" rest
  /\ mem_char nl ("/dev/loop0" +s+ String ":" rest) = false.
Proof.
  exists (" []: (" +s+ backing +s+ ")").
  assert (trim_right (("/dev/loop0: []: (" +s+ backing +s+ ")") +s+ String nl "") = "/dev/loop0: []: (" +s+ backing +s+ ")") as Ht.
  { change ("/dev/loop0: []: (" +s+ backing +s+ ")") with ("/dev/loop0: []: (" +s+ (backing +s+ ")")).
    rewrite !(sapp_assoc). change (")" +s+ String nl "") with (String ")" (String nl "")).
    rewrite <- (sapp_assoc "/dev/loop0: []: (" backing), trim_right_tail by done. by rewrite sapp_assoc. }
  split.
  - unfold trim_space. rewrite <- (sapp_assoc "/dev/loop0: []: (" backing ")") in *. exact Ht.
  - change (mem_char nl (("/dev/loop0: []: (" +s+ backing) +s+ ")") = false).
    rewrite !mem_char_app, (backing_path Hv), !mem_char_app. cbn.
    assert (mem_char nl id = false) as ->; [| done].
    pose proof (has_space_weaken _ (sane_plain Hv)) as Hp. induction (lv_id v) as [| c x IH]; [done |]. cbn in Hp |- *.
    apply orb_false_iff in Hp as [Hc Hp]. rewrite (IH Hp), orb_false_r. unfold is_space in Hc. by destruct (Ascii.eqb_spec c nl) as [-> |].
Qed.

Lemma refreshLoopDevice_world w :
  mapped w !! dev = Some backing -> (refreshLoopDevice backing) @ w = (refresh_loops w, Ok tt).
Proof.
  intros Hm. unfold refreshLoopDevice. rewrite interp_bind.
  rewrite (cmd_output_ok _ _ _ _ w w (("/dev/loop0: []: (" +s+ backing +s+ ")") +s+ String nl "")).
  2: { change (decode _) with (LosetupOf backing). cbn [execute]. rewrite bool_decide_eq_false_2.
       - unfold print. do 2 f_equal. by rewrite !sapp_assoc.
       - intros Hf. by apply (Hf dev backing). }
  cbn iota. destruct losetup_line_parsed as (rest & -> & Hnl). cbn zeta.
  rewrite bool_decide_eq_false_2 by done. rewrite split_no_sep by exact Hnl. cbn [List.find].
  change ("/dev/loop0" +s+ String ":" rest) with ("/dev/loop0" +s+ ":" +s+ rest). rewrite contains_app.
  change ("/dev/loop0" +s+ ":" +s+ rest) with ("/dev/loop0" +s+ String ":" rest). rewrite split_app by done. cbn [hd].
  rewrite interp_bind. rewrite (cmd_run_ok _ _ _ _ w (refresh_loops w) ""); done.
Qed.

(** The layers after the backing file and the loop device have grown. *)
Lemma resized_world d pods n w p :
  carries (Staged d pods) w -> 0 <= n < 2 ^ 63 -> top_at w p = Some dev ->
  let w2 := refresh_loops (on_files (insert backing (File (sr_bytes (grown n d)) (f_luks (container d)))) w) in
  exists w3, (ResizeLUKS (GenerateMapperName id) (lv_pass v)) @ w2 = (w3, Ok tt)
    /\ (GetLUKSDeviceSize dev) @ w3 = (w3, Ok (room (grown n d)))
    /\ (resizeFilesystem dev p) @ w3 = (grow_fs dev w3, Ok tt)
    /\ carries (Staged (grown n d) pods) (grow_fs dev w3).
Proof.
  intros H Hn Hp w2. pose proof (dev_backing Hv) as Hne. pose proof (c_bytes _ _ H d eq_refl) as Hb.
  assert (Hs : sizes w2 !! dev = Some (sr_bytes (grown n d), room d)).
  { unfold w2, refresh_loops, on_sizes. cbn [sizes]. rewrite map_lookup_imap. cbn [sizes on_files]. rewrite (c_sizes _ _ H). cbn.
    unfold bytes_behind. cbn [mapped files on_files]. rewrite (c_mapped _ _ H). cbn. by rewrite lookup_insert_eq. }
  set (w3 := on_sizes (alter (fun '(l, _) => (l, l - luks_header)) dev) w2). exists w3.
  assert (Hf : files w3 !! backing = Some (File (sr_bytes (grown n d)) (f_luks (container d)))) by apply lookup_insert_eq.
  assert (Hs3 : sizes w3 !! dev = Some (sr_bytes (grown n d), room (grown n d))) by (unfold w3; cbn [sizes on_sizes]; by rewrite lookup_alter_eq, Hs).
  assert (Hz : size_of w3 dev = room (grown n d)) by (unfold size_of; by rewrite Hs3).
  assert (Hm : mapped w3 !! dev = Some backing) by apply (c_mapped _ _ H).
  assert (Hfs : fs_on w3 dev = Some (Fs (lv_kind v) (sr_data d) (room d))).
  { unfold fs_on. rewrite Hm. change (Some backing ≫= ?f) with (f backing). cbv beta. by rewrite Hf. }
  split; [| split; [| split]].
  - eapply ResizeLUKS_world; [| apply (c_mapped _ _ H) | exact Hf].
    cbn. rewrite lookup_insert_ne by (by apply not_eq_sym). apply (c_dev _ _ H).
  - rewrite <- Hz. eapply GetLUKSDeviceSize_world; [exact Hm |]. rewrite Hz. unfold room, grown, luks_header in *. cbn. lia.
  - eapply resizeFilesystem_world; [exact Hfs | apply (sane_kind Hv) | exact Hp].
  - unfold grow_fs. rewrite Hfs, Hz. unfold set_fs. rewrite Hm. eapply carries_grown; [exact H | lia | done | done | | exact Hs3].
    unfold w3, w2. cbn. by rewrite alter_insert_eq.
Qed.

Lemma expand_host d pods p n w :
  carries (Staged d pods) w -> p = staging \/ p ∈ lv_targets v /\ is_Some (pods !! p) -> 0 <= n < 2 ^ 63 ->
  exists w', (NodeExpandVolume true (expand_of p n)) @ w = (w', Ok n) /\ carries (Staged (grown n d) pods) w'.
Proof.
  intros H Hp Hn.
  assert (Hne : p <> "") by (destruct Hp as [-> | [Hp _]]; [apply (sane_staging Hv) | by apply (sane_targets Hv)]).
  assert (Ht : top_at w p = Some dev).
  { unfold top_at. destruct Hp as [-> | [Hp [ro Hr]]]; [by rewrite (c_staging _ _ H) |]. rewrite (c_target _ _ H p Hp). cbn. by rewrite Hr. }
  destruct (sane_grow Hv) as (params & Hpar).
  unfold NodeExpandVolume, validateAndPrepareExpansionRequest. cbn [ex_volume ex_path ex_capacity expand_of].
  rewrite !bool_decide_eq_false_2 by (done || apply (sane_name Hv)). rewrite interp_bind, interp_bind, (proj1 (Hpar w)). cbn iota.
  rewrite interp_bind, GetLocalPath_world. cbn zeta. rewrite interp_bind, IsLUKSOpened_world by apply (c_dev _ _ H).
  change (mapper_of (GenerateMapperName id)) with dev. rewrite (c_mapped _ _ H), bool_decide_eq_true_2 by by eexists.
  cbn [interp]. cbn iota. fold (lv_backing v). change (GetMappedDevicePath (GenerateMapperName id)) with dev.
  assert (requested (CapacityRange n 0) = n) as -> by (unfold requested; cbn; destruct (n =? 0) eqn:E; bools; lia).
  rewrite interp_bind. unfold performVolumeExpansion.
  cbn [xp_backingFile xp_requestedBytes xp_scParams xp_mapperName xp_mappedDevice xp_volumePath].
  rewrite interp_bind, (ExpandBackingFile_world _ _ _ _ H Hn). cbn iota. rewrite interp_bind.
  rewrite refreshLoopDevice_world by apply (c_mapped _ _ H). cbn iota.
  destruct (resized_world _ _ n w p H Hn Ht) as (w3 & Hr & Hsz & Hfs & H'). cbn zeta in Hr.
  rewrite interp_bind, (proj2 (Hpar _)). cbn iota. rewrite interp_bind, Hr. cbn iota. rewrite interp_bind, Hsz. cbn iota.
  rewrite wrap64_id by (unfold in_int64, luksHeaderSlack; lia).
  assert ((room (grown n d) <? n - luksHeaderSlack) = false) as -> by (unfold room, grown, luks_header, luksHeaderSlack; cbn; lia).
  rewrite interp_bind, Hfs. by eexists.
Qed.

(** Every allowed event succeeds, and leaves the node carrying the next phase. *)
Lemma local_handle_next ph ph' e s w :
  carries ph w -> local_node s -> next v ph e = Some ph' ->
  exists s' w', handle e (s, w) = ((s', w'), Ok tt) /\ carries ph' w' /\ local_node s'.
Proof.
  intros H Hn. destruct e as [| t ro | t | | p n | | t data]; cbn [next handle].
  - intros Hx. destruct (stage_host _ _ s H) as (w' & -> & H'). exists s, w'. split; [done |]. split; [| done].
    destruct ph; by injection Hx as <-.
  - intros Hx. assert (Hp : t ∈ lv_targets v /\ ph <> Absent /\ pods_of ph !! t = None
      /\ (is_open ph = false -> mountable "ext4" (lv_kind v) = true)
      /\ forall d, contents ph = Some d -> ph' = Staged d (<[t := ro]> (pods_of ph))).
    { destruct ph as [| d | d pods]; [done | |].
      - destruct (bool_decide (t ∈ lv_targets v) && mountable "ext4" (lv_kind v)) eqn:E; [| done]. injection Hx as <-.
        apply andb_prop in E as [E ?]. apply bool_decide_eq_true_1 in E. cbn.
        split; [done |]. split; [done |]. split; [by rewrite lookup_empty |]. split; [done |]. by intros d' [= <-].
      - case_bool_decide as E; [| done]. injection Hx as <-. destruct E. cbn.
        split; [done |]. split; [done |]. split; [done |]. split; [done |]. by intros d' [= <-]. }
    destruct Hp as (Ht & Ha & Hp & Hk & He). destruct (publish_host _ t ro _ s H Ha Hk Ht Hp) as (d & w' & Ed & -> & H').
    exists s, w'. by rewrite (He d Ed).
  - case_bool_decide as Ht; [| done]. intros [= <-]. rewrite (unpublish_host _ _ _ H Ht). eexists s, _.
    split; [done |]. split; [by apply carries_unbound | done].
  - intros Hx. assert (Hp : pods_of ph = ∅ /\ ph' = match ph with Staged d _ => Closed d | ph => ph end).
    { destruct ph as [| d | d pods]; try by injection Hx as <-. case_bool_decide; [| done]. by injection Hx as <-. }
    destruct Hp as [Hp ->]. destruct (unstage_host _ _ s H Hn Hp) as (w' & -> & H'). by exists s, w'.
  - intros Hx. destruct ph as [| d | d pods]; try done. case_bool_decide as E; [| done]. injection Hx as <-. destruct E as [Hp Hr].
    destruct (expand_host _ _ _ _ _ H Hp Hr) as (w' & -> & H'). by exists s, w'.
  - intros Hx. eexists _, _. split; [done |]. split; [| by split].
    apply carries_rebooted in H. destruct ph; by injection Hx as <-.
  - intros Hx. destruct ph as [| d | d pods]; try done. case_bool_decide as E; [| done]. injection Hx as <-.
    destruct E as [Ht Hp]. eexists s, _. split; [done |]. split; [| done]. by eapply carries_written.
Qed.

Lemma local_handle_all_next ph ph' evs s w :
  carries ph w -> local_node s -> lifetime v ph evs = Some ph' ->
  exists s' w' rs, handle_all evs (s, w) = ((s', w'), rs) /\ Forall (eq (Ok tt)) rs /\ length rs = length evs
    /\ carries ph' w' /\ local_node s'.
Proof.
  revert ph s w. induction evs as [| e evs IH]; intros ph s w H Hn; cbn [lifetime handle_all].
  - intros [= <-]. by exists s, w, [].
  - intros Hl. destruct (next v ph e) as [ph1 |] eqn:E; [cbn in Hl | done].
    destruct (local_handle_next _ _ _ _ _ H Hn E) as (s1 & w1 & -> & H1 & Hn1).
    destruct (IH _ _ _ H1 Hn1 Hl) as (s2 & w2 & rs & -> & Hr & Hlen & H2). exists s2, w2, (Ok tt :: rs).
    split; [done |]. split; [by constructor |]. cbn. by rewrite Hlen.
Qed.

Lemma read_published d pods t ro w :
  carries (Staged d pods) w -> t ∈ lv_targets v -> pods !! t = Some ro ->
  read_at w t = Some (sr_data d) /\ capacity_at w t = Some (room d).
Proof.
  intros H Ht Hp. unfold read_at, capacity_at, top_at. rewrite (c_target _ _ H t Ht). cbn. rewrite Hp. cbn.
  by rewrite (dev_staged _ _ _ H).
Qed.

(** Nothing to restore from. *)
Lemma restore_missing w :
  carries Absent w -> exists e, (restoreLUKSVolumeStaging true id staging (lv_context v)) @ w = (w, Err e).
Proof.
  intros H. unfold restoreLUKSVolumeStaging. rewrite interp_bind, GetLocalPath_world. cbn zeta. fold (lv_backing v).
  rewrite interp_bind, (interp_perform answer (CStat backing)). cbn [node_answers].
  rewrite (c_file _ _ H), (c_nodev _ _ H). cbn. eauto.
Qed.

(** Opening and closing again changes nothing. *)
Lemma open_close d w : carries (Closed d) w -> unmap_device dev (map_device dev backing (sr_bytes d) w) = w.
Proof.
  intros H. unfold unmap_device. cbn. rewrite !delete_insert_id by apply (c_mapped _ _ H) || apply (c_sizes _ _ H). by destruct w.
Qed.

Lemma mountDevice_refused path cap m fs w :
  vc_mount cap = Some m -> mounts w !! path = None -> fs_on w dev = Some fs ->
  mountable (fs_or_ext4 m) (fs_kind fs) = false ->
  exists e, (mountDevice dev path cap) @ w = (make_dir path w, Err e).
Proof.
  intros Hc Hp Hf Hk. unfold mountDevice, clear_target. rewrite Hc, !interp_bind, isMountPoint_host, Hp.
  rewrite bool_decide_eq_false_2 by apply is_Some_None. cbn [negb interp]. cbn iota.
  rewrite interp_bind, interp_perform. cbn [node_answers default_reply]. rewrite interp_bind.
  unfold cmd_combined. rewrite interp_bind, world_exec, mount_argv_decode. cbn [execute].
  change (fs_on (make_dir path w) dev) with (fs_on w dev). rewrite Hf, Hk. cbn. eauto.
Qed.

Lemma restore_unmountable d w :
  carries (Closed d) w -> mountable "ext4" (lv_kind v) = false ->
  exists e, (restoreLUKSVolumeStaging true id staging (lv_context v)) @ w = (make_dir staging w, Err e).
Proof.
  intros H Hk. unfold restoreLUKSVolumeStaging. rewrite interp_bind, GetLocalPath_world. cbn zeta. fold (lv_backing v).
  rewrite interp_bind, (interp_perform answer (CStat backing)). cbn [node_answers].
  rewrite (c_file _ _ H). cbn [contents fmap option_fmap option_map]. rewrite interp_bind, (sane_pass Hv). cbn iota.
  rewrite interp_bind. unfold restoreLUKSDeviceAndMount. cbn zeta. rewrite interp_bind.
  rewrite (OpenLUKS_world _ _ _ _ _ _ (sr_bytes d) (Some (Fs (lv_kind v) (sr_data d) (room d))))
    by first [apply (c_dev _ _ H) | apply (c_mapped _ _ H) | apply (c_file _ _ H)].
  cbn iota. rewrite interp_bind. change (mapper_of (GenerateMapperName id)) with dev. change (GetMappedDevicePath (GenerateMapperName id)) with dev.
  set (w1 := map_device dev backing (sr_bytes d) w).
  destruct (mountDevice_refused staging ext4_capability (MountVolume "ext4" [] "") (Fs (lv_kind v) (sr_data d) (room d)) w1) as [e ->];
    [done | apply (c_staging _ _ H) | exact (dev_staged _ _ _ (carries_open _ _ H)) | exact Hk |].
  cbn iota. rewrite interp_bind, (CloseLUKS_open _ _ _ _ backing);
    [| apply (c_dev _ _ H) | cbn; apply lookup_insert_eq | apply bool_decide_eq_true_2; cbn; intros p l Hp Hin].
  - change (mapper_of (GenerateMapperName id)) with dev. subst w1.
    change (unmap_device dev (make_dir staging ?x)) with (make_dir staging (unmap_device dev x)). rewrite (open_close _ _ H). cbn. eauto.
  - destruct (c_only _ _ H p l Hp Hin) as [-> | Ht].
    + by rewrite (c_staging _ _ H) in Hp.
    + rewrite (c_target _ _ H p Ht) in Hp. cbn in Hp. by rewrite lookup_empty in Hp.
Qed.

End steps.

(** C5: a local volume keeps what is written to it.  On a node whose commands
    do what they say, every sequence of stage, publish, unpublish, expand and
    unstage calls that the volume's machine allows succeeds, whatever restarts
    of the node come in between, and leaves the node (files, LUKS mappings, the
    sizes of the layers, mounts) as the machine says; every pod that has the
    volume then reads what was last written to it, by whichever pod and before
    whichever restart, on a filesystem of the largest size ever asked for. *)
Theorem local_volume_lifecycle ph ph' evs s w :
  sane -> carries ph w -> local_node s -> lifetime v ph evs = Some ph' ->
  let '((s', w'), rs) := handle_all evs (s, w) in
  Forall (eq (Ok tt)) rs /\ length rs = length evs /\ carries ph' w'
  /\ let d := outcome (default (fresh v) (contents ph)) evs in
     forall t ro, t ∈ lv_targets v -> pods_of ph' !! t = Some ro ->
       read_at w' t = Some (sr_data d) /\ capacity_at w' t = Some (room d).
Proof.
  intros Hv H Hn Hl. destruct (local_handle_all_next Hv _ _ _ _ _ H Hn Hl) as (s' & w' & rs & -> & Hr & Hlen & H' & _).
  split; [done |]. split; [done |]. split; [done |]. rewrite <- (lifetime_outcome _ _ _ _ Hl). cbn zeta. intros t ro Ht Hp.
  destruct ph' as [| d | d pods]; cbn in Hp; [by rewrite lookup_empty in Hp .. |]. by eapply read_published.
Qed.

(** A publish that has nothing to serve (no backing file; after a restart of the
    node, a filesystem that is not mounted as ext4), an expansion of a volume
    that is not open. *)
Definition refused (ph : phase) (e : life_event) : Prop :=
  match e with
  | Publish t _ => t ∈ lv_targets v /\ (ph = Absent \/ (exists d, ph = Closed d) /\ mountable "ext4" (lv_kind v) = false)
  | Expand _ _ => is_open ph = false
  | _ => False
  end.

(** What a refused call leaves behind: a publish of a container that is there
    made the staging directory. *)
Definition after_refusal (ph : phase) (e : life_event) (w : host) : host :=
  match e, ph with Publish _ _, Closed _ => make_dir staging w | _, _ => w end.

Lemma publish_refused ph t ro s w :
  sane -> carries ph w -> refused ph (Publish t ro) ->
  exists e, handle (Publish t ro) (s, w) = ((s, after_refusal ph (Publish t ro) w), Err e).
Proof.
  intros Hv H [Ht Hc]. cbn [handle].
  assert (He : exists e, (ensureVolumeStaged true (publish_of t ro) s) @ w = (after_refusal ph (Publish t ro) w, (s, Err e))).
  { unfold ensureVolumeStaged. cbn [pb_volume pb_staging pb_context publish_of]. rewrite (sane_local Hv), interp_mbind, interp_lift.
    rewrite (isVolumeStaged_world Hv _ _ H). destruct Hc as [-> | [[d ->] Hk]]; cbn [is_open]; cbn iota; rewrite interp_lift.
    - destruct (restore_missing _ H) as [e ->]. by exists e.
    - destruct (restore_unmountable Hv _ _ H Hk) as [e ->]. by exists e. }
  destruct He as [e He]. destruct (extractFsGroup_host (lv_context v) (Some (lv_cap v))) as [g Hg].
  eexists. unfold NodePublishVolume, validatePublishVolumeRequest. cbn [pb_volume pb_staging pb_target pb_context pb_cap publish_of].
  rewrite !bool_decide_eq_false_2 by (apply (sane_staging Hv) || apply (sane_name Hv) || by apply (sane_targets Hv)).
  rewrite interp_mbind, interp_lift, Hg, (sane_local Hv). cbn zeta. rewrite interp_mbind. cbn [ret interp]. rewrite interp_mbind.
  unfold publish. by rewrite interp_mbind, He.
Qed.

Lemma expand_refused ph p n s w :
  sane -> carries ph w -> is_open ph = false -> exists e, handle (Expand p n) (s, w) = ((s, w), Err e).
Proof.
  intros Hv H Ho. cbn [handle]. unfold NodeExpandVolume, validateAndPrepareExpansionRequest. cbn [ex_volume ex_path ex_capacity expand_of].
  rewrite (bool_decide_eq_false_2 (id = "")) by apply (sane_name Hv). case_bool_decide; [by eexists |].
  destruct (sane_grow Hv) as (params & Hpar). rewrite interp_bind, interp_bind, (proj1 (Hpar w)). cbn iota.
  rewrite interp_bind, GetLocalPath_world. cbn zeta. rewrite interp_bind, IsLUKSOpened_world by apply (c_dev _ _ H).
  change (mapper_of (GenerateMapperName id)) with dev. rewrite (c_mapped _ _ H), Ho, bool_decide_eq_false_2 by apply is_Some_None.
  by eexists.
Qed.

(** C40: a call that cannot be served is an error, and undoes what it did.  On a
    node whose commands do what they say ([World]): a publish where there is no
    backing file, or, after a restart of the node, where the filesystem cannot
    be mounted as ext4 (xfs), and an expansion while the volume is not open,
    all fail, and leave the memory of the server, the files, the LUKS mappings
    (that of the xfs volume is closed again), the sizes and the mounts exactly
    as they were; all that is left is the staging directory the publish of the
    xfs volume made. *)
Theorem refused_call_changes_nothing ph e s w :
  sane -> carries ph w -> refused ph e -> exists err, handle e (s, w) = ((s, after_refusal ph e w), Err err).
Proof.
  intros Hv H Hr. destruct e; try done; [by apply publish_refused |].
  destruct (expand_refused ph path bytes s w Hv H Hr) as [err ->]. by exists err.
Qed.

End volume.

(** ** A volume and its life *)

Definition demo_volume : local_volume :=
  LocalVolume "pvc-1" "/staging/pvc-1" (MountVolume "" ["noatime"] "") SINGLE_NODE_WRITER
    {["fsGroup" := "1000"]} {["/pods/a"; "/pods/b"]} 1073741824 "secret".
Definition demo_pvs : list pv :=
  [PV "pvc-1" ∅ "luks" (Some (CSISource DriverName "pvc-1" None)) None].
Definition demo_classes : gmap string (gmap string string) :=
  {["luks" := {[SecretNameKey := "keys"; SecretNamespaceKey := "kube-system"]}]}.
Definition demo_secrets : gmap (string * string) (gmap string string) :=
  {[("kube-system", "keys") := {["passphrase" := "secret"]}]}.
Definition bare_host : host := Host ∅ ∅ ∅ ∅ ∅.

Lemma demo_volume_sane : sane demo_pvs demo_classes demo_secrets "node-a" demo_volume.
Proof.
  split; [split |]; try done.
  - by left.
  - by left.
  - eexists. by split.
  - intros t. cbn [lv_targets demo_volume]. rewrite elem_of_union, !elem_of_singleton. by intros [-> | ->].
Qed.
Lemma bare_host_carries : carries demo_volume Absent bare_host.
Proof. split; try done; intros; cbn in *; by rewrite lookup_empty in *. Qed.

Definition demo_life : list life_event :=
  [Stage; Stage; Publish "/pods/a" false; Publish "/pods/b" true; Write "/pods/a" "data"; Unpublish "/pods/a";
   Expand "/pods/b" 4294967296; Unpublish "/pods/b"; Unpublish "/pods/b"; Unstage; Unstage; Stage; Publish "/pods/a" false;
   Expand "/staging/pvc-1" 2147483648; Reboot; Publish "/pods/b" true].

Lemma local_volume_lifecycle_witness :
  let w := snd (fst (handle_all demo_pvs demo_classes demo_secrets "node-a" demo_volume demo_life (empty_node, bare_host))) in
  read_at w "/pods/b" = Some "data" /\ capacity_at w "/pods/b" = Some (4294967296 - luks_header).
Proof.
  pose proof (local_volume_lifecycle demo_pvs demo_classes demo_secrets "node-a" demo_volume Absent
    (Staged (Store "data" 4294967296) {["/pods/b" := true]}) demo_life empty_node bare_host demo_volume_sane bare_host_carries
    ltac:(split; [reflexivity | apply not_elem_of_empty]) ltac:(vm_compute; reflexivity)) as H.
  destruct (handle_all _ _ _ _ _ _ _) as [[s' w'] rs]. destruct H as (_ & _ & _ & H).
  apply (H "/pods/b" true); [by vm_compute | reflexivity].
Defined.


Definition xfs_volume : local_volume :=
  LocalVolume "pvc-1" "/staging/pvc-1" (MountVolume "xfs" [] "") SINGLE_NODE_WRITER ∅ {["/pods/a"]} 1073741824 "secret".

Lemma xfs_sane : sane demo_pvs demo_classes demo_secrets "node-a" xfs_volume.
Proof.
  split; [split |]; try done.
  - do 2 right. by left.
  - by left.
  - eexists. by split.
  - intros t. cbn [lv_targets xfs_volume]. rewrite elem_of_singleton. by intros ->.
Qed.

Lemma refused_call_changes_nothing_witness :
  let handle_all := handle_all demo_pvs demo_classes demo_secrets "node-a" xfs_volume in
  let handle := handle demo_pvs demo_classes demo_secrets "node-a" xfs_volume in
  let '(sw, _) := handle_all [Stage; Publish "/pods/a" false; Reboot] (empty_node, bare_host) in
  (exists e, handle (Publish "/pods/a" false) sw = ((fst sw, make_dir "/staging/pvc-1" (snd sw)), Err e))
  /\ (exists e, handle (Expand "/pods/a" 4294967296) sw = (sw, Err e)).
Proof.
  cbn zeta.
  destruct (local_handle_all_next demo_pvs demo_classes demo_secrets "node-a" xfs_volume xfs_sane Absent (Closed (fresh xfs_volume))
    [Stage; Publish "/pods/a" false; Reboot] empty_node bare_host) as (s & w & rs & -> & _ & _ & H & _).
  - split; try done; intros; cbn in *; by rewrite lookup_empty in *.
  - split; [reflexivity | apply not_elem_of_empty].
  - by vm_compute.
  - pose proof (refused_call_changes_nothing demo_pvs demo_classes demo_secrets "node-a" xfs_volume (Closed (fresh xfs_volume))) as Hr. split.
    + apply (Hr (Publish "/pods/a" false) s w xfs_sane H). split; [by vm_compute |]. right. by split; [eexists |].
    + by apply (Hr (Expand "/pods/a" 4294967296) s w xfs_sane H).
Defined.

End Lifecycle.
