(* ===== verification/Provision.v ===== *)
(** * Provision: from CreateVolume to the node

    The controller's answer travels through the PV and kubelet to the node
    plugin.  Here the two meet: the message [CreateVolume] returns is a
    well-formed local volume (Lifecycle) exactly on the node it is pinned to. *)

From S2P Require Import Prelude GoStrings Effects Secrets Csi Controller NodeLuks NodeState Drain NodeServer World Lifecycle.
Import Secrets Csi K8s Controller NodeLuks NodeState Drain NodeServer World Lifecycle.

Module Provision.

Section provision.
Context (pvs : list pv) (classes : gmap string (gmap string string)) (secrets : gmap (string * string) (gmap string string)).
Context (req : create_request) (vol : volume).
Context (staging : string) (m : mount_volume) (mode : access_mode) (targets : gset string) (pass : string).

Abbreviation params := (cr_parameters req).

(** The volume as kubelet asks the node for it. *)
Definition created : local_volume :=
  LocalVolume (v_id vol) staging m mode (v_context vol) targets (v_capacity vol) pass.

(** The segments a node reports of itself. *)
Definition node_topology (nodeID : string) : gmap string string :=
  snd (snd (snd (run quiet_env (NodeGetInfo nodeID empty_node) []))).

(** The way of a local volume through the cluster: it is created from the
    parameters of a StorageClass, which name a secret with a passphrase; the
    provisioner makes a PV of that class with the volume's handle; kubelet uses
    one of the capabilities it was created for, on sensible paths. *)
Record provisioned : Prop := Provisioned
  { pr_created : CreateVolume req = Ok vol;
    pr_local : mget params StorageBackendParam <> "s3";
    pr_cap : exists caps, cr_caps req = Some caps /\ Capability (Some m) mode ∈ caps;
    pr_fs : fs_type m <> "ext2";
    pr_name : is_name (cr_name req) /\ has_space (cr_name req) = false;
    pr_capacity : params !! "capacity" = None /\ in_int64 (v_capacity vol) /\ luks_header < v_capacity vol;
    pr_pv : exists p, List.find (fun p => match pv_csi p with Some c => bool_decide (csi_handle c = cr_name req) | None => false end) pvs = Some p
            /\ pv_storage_class p <> "" /\ classes !! pv_storage_class p = Some params;
    pr_secret : let sp := ExtractSecretParams (Some params) ∅ in
      HasLUKSSecret sp = true /\ HasS3Secret sp = false /\ pass <> "" /\
      exists data, secrets !! (Namespace (LUKSSecret sp), Name (LUKSSecret sp)) = Some data
        /\ data !! (if bool_decide (PassphraseKey sp = "") then DefaultPassphraseKey else PassphraseKey sp) = Some pass;
    pr_staging : staging <> "" /\ beneath staging (lv_backing created) = false;
    pr_targets : forall t, t ∈ targets -> t <> "" /\ beneath staging t = false }.

Lemma pick_created ctx key dflt :
  (forall v, ctx !! key = Some v -> params !! key = Some v) ->
  pick ctx (Some params) key dflt = pick ∅ (Some params) key dflt.
Proof.
  intros H. unfold pick. rewrite lookup_empty. destruct (ctx !! key) as [x |] eqn:E; [| done].
  by rewrite (H x eq_refl).
Qed.

Lemma node_topology_is nodeID : node_topology nodeID = {[TopologyKeyNode := nodeID]}.
Proof. done. Qed.

Context (Hp : provisioned).

Lemma context_lookup k : k <> PinnedNodeParam -> k <> "capacity" -> v_context vol !! k = params !! k.
Proof.
  intros H1 H2. destruct (CreateVolume_local _ _ (pr_created Hp) (pr_local Hp)) as (node & caps & _ & _ & _ & _ & ->).
  cbn. rewrite lookup_insert_ne, lookup_union, lookup_singleton_ne by done. by destruct (params !! k).
Qed.

Lemma secret_params : ExtractSecretParams (Some params) (v_context vol) = ExtractSecretParams (Some params) ∅.
Proof.
  assert (H : forall k v, k <> PinnedNodeParam -> k <> "capacity" -> v_context vol !! k = Some v -> params !! k = Some v)
    by (intros k v H1 H2; by rewrite context_lookup).
  unfold ExtractSecretParams. by rewrite !(pick_created (v_context vol)) by (intros x; by apply H).
Qed.

Lemma secret_fetched w :
  interp (node_answers pvs classes secrets) (passphrase_of true (ExtractSecretParams (Some params) ∅)) w = (w, Ok pass).
Proof.
  destruct (pr_secret Hp) as (Hl & Hs & Hne & data & Hdata & Hkey). cbn zeta in Hl, Hs, Hdata, Hkey.
  unfold passphrase_of, FetchVolumeSecrets, fetchPassphrase. cbn [negb]. rewrite Hl, Hs.
  rewrite !interp_bind, (interp_perform _ (CGetSecret _ _)). cbn [node_answers interp]. rewrite Hdata. cbn [found]. rewrite Hkey.
  cbn [bind interp Passphrase]. by rewrite bool_decide_eq_false_2.
Qed.

Lemma passphrase_found w :
  interp (node_answers pvs classes secrets) (getPassphraseForRestore true (lv_id created) (v_context vol)) w = (w, Ok pass).
Proof.
  destruct (pr_pv Hp) as (p & Hfind & Hclass & Hparams). cbn [created lv_id].
  destruct (CreateVolume_local _ _ (pr_created Hp) (pr_local Hp)) as (node & caps & _ & _ & _ & _ & E).
  assert (v_id vol = cr_name req) as -> by by rewrite E.
  unfold getPassphraseForRestore, getPVByVolumeID, getStorageClassParameters. cbn [negb]. rewrite interp_bind.
  rewrite interp_bind, (interp_perform _ CListPVs). cbn [node_answers interp]. rewrite Hfind. rewrite interp_bind.
  rewrite bool_decide_eq_false_2 by done. rewrite interp_bind, (interp_perform _ (CGetStorageClass _)).
  cbn [node_answers interp]. rewrite Hparams. cbn [found]. rewrite secret_params.
  apply secret_fetched.
Qed.

(** The parameters of its class name the same secret when the volume grows. *)
Lemma passphrase_found_again w :
  let answer := node_answers pvs classes secrets in
  interp answer (GetStorageClassParametersByVolumeID true (lv_id created)) w = (w, Ok params)
  /\ interp answer (getPassphraseForExpansion true params) w = (w, Ok pass).
Proof.
  destruct (pr_pv Hp) as (p & Hfind & Hclass & Hparams). cbn [created lv_id].
  destruct (CreateVolume_local _ _ (pr_created Hp) (pr_local Hp)) as (node & caps & _ & _ & _ & _ & E).
  assert (v_id vol = cr_name req) as -> by by rewrite E. cbn zeta. split.
  - unfold GetStorageClassParametersByVolumeID, getPVByVolumeID, getStorageClassParameters. cbn [negb]. rewrite interp_bind.
    rewrite interp_bind, (interp_perform _ CListPVs). cbn [node_answers interp]. rewrite Hfind.
    rewrite !bool_decide_eq_false_2 by done. rewrite interp_bind, interp_bind, (interp_perform _ (CGetStorageClass _)).
    cbn [node_answers interp]. by rewrite Hparams.
  - apply secret_fetched.
Qed.

Lemma kind_supported : lv_kind created ∈ ["ext4"; "ext3"; "xfs"].
Proof.
  destruct (pr_cap Hp) as (caps & Hcaps & Hin).
  destruct (CreateVolume_local _ _ (pr_created Hp) (pr_local Hp)) as (node & caps' & _ & Hcaps' & Hval & _).
  assert (caps' = caps) as -> by congruence. rewrite validate_caps in Hval.
  destruct (Hval _ Hin) as (m' & [= <-] & Hfs & _). pose proof (pr_fs Hp) as Hn. cbn in Hfs.
  unfold lv_kind, fs_or_ext4. cbn [created lv_mount].
  repeat (apply elem_of_cons in Hfs as [Hfs | Hfs]; [rewrite Hfs in *; by (done || (cbn; set_solver)) |]).
  by apply not_elem_of_nil in Hfs.
Qed.

(** A created volume is well formed on a node that its context's pin allows. *)
Lemma created_sane nodeID :
  mget (v_context vol) PinnedNodeParam = nodeID -> sane pvs classes secrets nodeID created.
Proof.
  intros Hpin. pose proof passphrase_found as Hpass. pose proof kind_supported as Hkind.
  destruct (pr_capacity Hp) as (Hc & Hr & Hm). destruct (pr_name Hp) as [Hn Hn'].
  destruct (CreateVolume_local _ _ (pr_created Hp) (pr_local Hp)) as (node & caps & _ & _ & _ & _ & E).
  split; [| done].
  split; cbn [created lv_id lv_staging lv_mount lv_mode lv_context lv_targets lv_size lv_pass];
    try (rewrite E; done) || apply (pr_staging Hp) || done.
  - unfold isS3Backend. rewrite context_lookup by done. pose proof (pr_local Hp) as Hl. unfold mget in Hl.
    destruct (params !! StorageBackendParam); [by apply bool_decide_eq_false_2 | done].
  - assert (mget (v_context vol) "capacity" = format_int (v_capacity vol)) as ->.
    { rewrite E. unfold mget. cbn. by rewrite lookup_insert_ne, lookup_union, Hc, lookup_singleton_eq by done. }
    rewrite bool_decide_eq_false_2; [by apply parse_format_int |].
    intros Hq. apply parse_format_int in Hr. by rewrite Hq in Hr.
  - by right.
  - exists params. apply passphrase_found_again.
  - apply (pr_targets Hp).
Qed.

(** Elsewhere, where there is no backing file, staging is refused, and all it
    leaves is the volume's empty directory. *)
Definition elsewhere (w : host) : host := make_dir (path_join [DefaultLocalPath; lv_id created]) w.

Lemma refused_elsewhere own nodeID w s :
  sane pvs classes secrets own created ->
  mget (v_context vol) PinnedNodeParam <> "" -> mget (v_context vol) PinnedNodeParam <> nodeID ->
  carries created Absent w ->
  exists e, Lifecycle.handle pvs classes secrets nodeID created Stage (s, w) = ((s, elsewhere w), Err e).
Proof.
  intros Hv Hne Hother H. cbn [Lifecycle.handle]. unfold NodeStageVolume, validateStageVolumeRequest. fold (stage_of created).
  change (st_volume (stage_of created)) with (lv_id created). change (st_staging (stage_of created)) with (lv_staging created).
  change (st_cap (stage_of created)) with (Some (lv_cap created)). change (st_context (stage_of created)) with (lv_context created).
  rewrite (bool_decide_eq_false_2 (lv_id created = "")) by apply (sane_name _ _ _ _ _ Hv).
  rewrite (bool_decide_eq_false_2 (lv_staging created = "")) by apply (sane_staging _ _ _ _ _ Hv).
  rewrite interp_mbind, interp_lift, (isAlreadyStaged_world _ _ _ _ _ Hv _ _ H). cbn [is_open]. cbn iota.
  rewrite interp_mbind, interp_lift.
  assert (exists e, interp (node_answers pvs classes secrets) (prepareVolumeStaging nodeID true (stage_of created) (lv_cap created)) w
            = (elsewhere w, Err e)) as [e ->]; [| by eexists].
  unfold prepareVolumeStaging. cbn zeta. cbn [st_context stage_of st_volume].
  destruct (extractFsGroup_host pvs classes secrets (lv_context created) (Some (lv_cap created)) ) as [g Hg].
  rewrite interp_bind, Hg, (sane_local _ _ _ _ _ Hv), interp_bind, GetLocalPath_world. cbn zeta.
  rewrite interp_bind, (interp_perform _ (CMkdirAll _)). cbn [node_answers]. rewrite interp_bind.
  fold (lv_backing created). unfold ensureBackingFileExists. cbn zeta. rewrite interp_bind, (interp_perform _ (CStat (lv_backing created))).
  cbn [node_answers]. pose proof (carries_dir _ _ (path_join [DefaultLocalPath; lv_id created]) _ H) as H1.
  rewrite (c_file _ _ _ H1), (c_nodev _ _ _ H1). cbn [contents fmap option_fmap option_map].
  rewrite bool_decide_eq_false_2 by apply is_Some_None. cbn iota. cbn [st_context stage_of lv_context created].
  rewrite !bool_decide_eq_false_2 by done. cbn. by eexists.
Qed.

End provision.

(** C6: what the controller creates is a well-formed volume for the node plugin,
    on its node and only there.  A local volume that [CreateVolume] made,
    provisioned as the cluster does it, is a sane volume of the node machine on
    exactly the node whose topology segment the answer names; there every
    sequence of calls the volume's machine allows succeeds and every pod reads
    what was last written, on a filesystem that fills a backing file of at least
    the size created; on any other node that does not have its backing file,
    staging is refused: the memory of the server, the files, the mappings and
    the mounts of the node stay as they were, and all that is left is the
    volume's directory below the local path, which is made before the pin is
    looked at.  The commands of both nodes do what they say ([World]). *)
Theorem created_volume_fits_its_node pvs classes secrets req vol staging m mode targets pass :
  provisioned pvs classes secrets req vol staging m mode targets pass ->
  let v := created vol staging m mode targets pass in
  forall nodeID,
    (sane pvs classes secrets nodeID v <-> node_topology nodeID ∈ v_topology vol)
    /\ forall s w, carries v Absent w ->
       (node_topology nodeID ∈ v_topology vol -> forall evs ph, local_node v s -> lifetime v Absent evs = Some ph ->
          let '((s', w'), rs) := handle_all pvs classes secrets nodeID v evs (s, w) in
          Forall (eq (Ok tt)) rs /\ carries v ph w'
          /\ let d := outcome (Store "" (v_capacity vol)) evs in
             v_capacity vol <= sr_bytes d
             /\ forall t ro, t ∈ targets -> pods_of ph !! t = Some ro ->
                  read_at w' t = Some (sr_data d) /\ capacity_at w' t = Some (room d))
       /\ (node_topology nodeID ∉ v_topology vol ->
          exists e, Lifecycle.handle pvs classes secrets nodeID v Stage (s, w)
            = ((s, make_dir (path_join [DefaultLocalPath; lv_id v]) w), Err e)).
Proof.
  intros Hp v nodeID.
  destruct (CreateVolume_local _ _ (pr_created _ _ _ _ _ _ _ _ _ _ Hp) (pr_local _ _ _ _ _ _ _ _ _ _ Hp))
    as (node & caps & Hne & _ & _ & _ & E).
  assert (Hpin : mget (v_context vol) PinnedNodeParam = node) by (rewrite E; unfold mget; cbn; by rewrite lookup_insert_eq).
  assert (Ht : node_topology nodeID ∈ v_topology vol <-> nodeID = node).
  { rewrite E, node_topology_is. cbn [v_topology]. rewrite list_elem_of_singleton. split; [| by intros ->].
    intros Hq%(f_equal (lookup TopologyKeyNode)). rewrite !lookup_singleton_eq in Hq. congruence. }
  pose proof (created_sane pvs classes secrets req vol staging m mode targets pass Hp node Hpin) as Hown.
  split; [| intros s w Hw; split].
  - rewrite Ht. split; [| by intros ->]. intros Hs. destruct (sane_pin _ _ _ _ _ Hs) as [Hq | Hq]; change (lv_context v) with (v_context vol) in Hq; congruence.
  - rewrite Ht. intros -> evs ph Hl Hlife.
    destruct (local_handle_all_next pvs classes secrets node v Hown _ _ _ _ _ Hw Hl Hlife) as (s' & w' & rs & -> & Hr & _ & H' & _).
    split; [done | split; [done |]]. cbn zeta. split; [apply (outcome_grows (Store "" (v_capacity vol))) |].
    change (Store "" (v_capacity vol)) with (default (fresh v) (contents Absent)). rewrite <- (lifetime_outcome _ _ _ _ Hlife).
    intros t ro Hin Hpods.
    destruct ph as [| d | d pods]; cbn in Hpods; [by rewrite lookup_empty in Hpods .. |]. by eapply read_published.
  - rewrite Ht. intros Hn. eapply refused_elsewhere; [exact Hown | congruence | congruence | exact Hw].
Qed.

(** ** A volume on its way *)

Definition demo_params : gmap string string := {[SecretNameKey := "keys"; SecretNamespaceKey := "kube-system"]}.
Definition demo_request : create_request :=
  CreateReq "pvc-1" (Some [Capability (Some (MountVolume "" ["noatime"] "")) SINGLE_NODE_WRITER])
    (Some (CapacityRange 1073741824 0)) demo_params
    (Topology [node_topology "node-b"; node_topology "node-a"] [node_topology "node-a"]).
Definition demo_created : volume :=
  Volume "pvc-1" 1073741824 (<[PinnedNodeParam := "node-a"]> (demo_params ∪ {["capacity" := "1073741824"]}))
    [node_topology "node-a"].

Lemma demo_provisioned :
  provisioned demo_pvs {["luks" := demo_params]} demo_secrets demo_request demo_created "/staging/pvc-1"
    (MountVolume "" ["noatime"] "") SINGLE_NODE_WRITER {["/pods/a"]} "secret".
Proof.
  split.
  - reflexivity.
  - done.
  - by eexists; split; [| left].
  - done.
  - done.
  - split; [reflexivity | done].
  - eexists. split; [reflexivity |]. split; [done | reflexivity].
  - split; [reflexivity | split; [reflexivity | split; [done |]]]. eexists. split; reflexivity.
  - done.
  - by intros t ->%elem_of_singleton.
Qed.

Lemma created_volume_fits_its_node_witness :
  let v := created demo_created "/staging/pvc-1" (MountVolume "" ["noatime"] "") SINGLE_NODE_WRITER {["/pods/a"]} "secret" in
  (exists e, Lifecycle.handle demo_pvs {["luks" := demo_params]} demo_secrets "node-b" v Stage (empty_node, bare_host)
             = ((empty_node, make_dir "/opt/local-path-provisioner/pvc-1" bare_host), Err e))
  /\ read_at (snd (fst (handle_all demo_pvs {["luks" := demo_params]} demo_secrets "node-a" v
       [Stage; Publish "/pods/a" false; Write "/pods/a" "data"; Expand "/pods/a" 2147483648; Reboot; Publish "/pods/a" true]
       (empty_node, bare_host)))) "/pods/a" = Some "data".
Proof.
  intros v. pose proof (created_volume_fits_its_node _ _ _ _ _ _ _ _ _ _ demo_provisioned) as H. cbn zeta in H. fold v in H.
  assert (Hc : carries v Absent bare_host) by (split; try done; intros; cbn in *; by rewrite lookup_empty in *).
  split.
  - apply (H "node-b"); [exact Hc |]. apply (bool_decide_unpack _). by vm_compute.
  - destruct (H "node-a") as [_ Ha]. specialize (proj1 (Ha empty_node bare_host Hc)) as Hr.
    specialize (Hr ltac:(apply (bool_decide_unpack _); by vm_compute)
      [Stage; Publish "/pods/a" false; Write "/pods/a" "data"; Expand "/pods/a" 2147483648; Reboot; Publish "/pods/a" true]
      (Staged (Store "data" 2147483648) {["/pods/a" := true]}) ltac:(split; [reflexivity | apply not_elem_of_empty]) ltac:(vm_compute; reflexivity)).
    destruct (handle_all _ _ _ _ _ _ _) as [[s' w'] rs]. destruct Hr as (_ & _ & _ & Hr).
    apply (Hr "/pods/a" true); [by apply elem_of_singleton | reflexivity].
Defined.

(** A request for one mebibyte is granted, and its volume cannot be staged. *)
Definition tiny_request : create_request :=
  CreateReq (cr_name demo_request) (cr_caps demo_request) (Some (CapacityRange 1048576 0)) demo_params (cr_topology demo_request).

Lemma tiny_volume_created_not_staged :
  exists vol, CreateVolume tiny_request = Ok vol
  /\ let v := created vol "/staging/pvc-1" (MountVolume "" ["noatime"] "") SINGLE_NODE_WRITER {["/pods/a"]} "secret" in
     forall n, Forall (fun r => is_ok r = false)
       (snd (handle_all demo_pvs {["luks" := demo_params]} demo_secrets "node-a" v (repeat Stage n) (empty_node, bare_host))).
Proof.
  eexists. split; [reflexivity |]. intros v n. apply tiny_volume_never_stages.
  - split; try done.
    + by left.
    + by right.
    + by eexists.
    + subst v. cbn [lv_targets created]. by intros t ->%elem_of_singleton.
  - done.
  - split; [.. | left]; done.
Qed.

End Provision.
