(* ===== verification/Cloud.v ===== *)
(** * Cloud: a node that answers for an S3 volume

    The counterpart of World for a volume in a bucket: a clock, the session
    rclone serves, the host's mounts, the write-back cache on disk with the
    items not yet uploaded, the bucket, the drain markers and the map of VFS
    names.  Uploads happen while time passes, one item a second, as long as a
    session serves the volume. *)

From S2P Require Import Prelude GoStrings Effects Luks VfsNames VfsCache World.
Import VfsNames VfsCache World.

Module Cloud.

(** A session: its mountpoint, and the remote it serves. *)
Record session : Set := Session { se_path : string; se_fs : string }.

(** [dirty]: the writes only the cache holds, oldest first; [uploaded]: the cached
    items already uploaded; [sent]: what reached the bucket, in order.
    [tab]: the sessions bound at a path, the topmost first. *)
Record cloud : Type := Cloud
  { clock : Z; live : option session; tab : gmap string (list string);
    dirty : list string; uploaded : list string; sent : list string;
    marked : bool; names : gmap string string }.

Definition set_live l (w : cloud) : cloud := Cloud (clock w) l (tab w) (dirty w) (uploaded w) (sent w) (marked w) (names w).
Definition on_tab f (w : cloud) : cloud := Cloud (clock w) (live w) (f (tab w)) (dirty w) (uploaded w) (sent w) (marked w) (names w).
Definition set_marked b (w : cloud) : cloud := Cloud (clock w) (live w) (tab w) (dirty w) (uploaded w) (sent w) b (names w).
Definition set_vfs_names m (w : cloud) : cloud := Cloud (clock w) (live w) (tab w) (dirty w) (uploaded w) (sent w) (marked w) m.
(** A removal of the cache directory takes with it what was not uploaded. *)
Definition wipe_cache (w : cloud) : cloud := Cloud (clock w) (live w) (tab w) [] [] (sent w) (marked w) (names w).
Definition write_item (x : string) (w : cloud) : cloud :=
  Cloud (clock w) (live w) (tab w) (dirty w ++ [x]) (uploaded w) (sent w) (marked w) (names w).

Definition uploads (d : Z) : nat := Z.to_nat (d / second).
Definition pass (d : Z) (w : cloud) : cloud :=
  let n := match live w with Some _ => uploads d | None => O end in
  Cloud (clock w + d) (live w) (tab w) (drop n (dirty w)) (uploaded w ++ take n (dirty w))
        (sent w ++ take n (dirty w)) (marked w) (names w).
(** The node restarts: its sessions and mounts are gone, the disk is not. *)
Definition reboot (w : cloud) : cloud :=
  Cloud (clock w) None ∅ (dirty w) (uploaded w) (sent w) (marked w) (names w).

Definition top (w : cloud) (p : string) : option string := l ← tab w !! p; head l.
Definition serves (w : cloud) (p : string) : bool :=
  match live w, top w p with Some s, Some q => bool_decide (se_path s = q) | _, _ => false end.
Definition push_bind (p q : string) : cloud -> cloud :=
  on_tab (fun t => <[p := q :: default [] (t !! p)]> t).
Definition pop_bind (p : string) (w : cloud) : option cloud :=
  match tab w !! p with
  | Some (_ :: []) => Some (on_tab (delete p) w)
  | Some (_ :: l) => Some (on_tab (insert p l) w)
  | _ => None
  end.

Definition fuse_table (w : cloud) : stacks :=
  (fun l => rev (map (fun q => {| Dev := q; FSType := "fuse.rclone" |}) l)) <$> tab w.

(** ** Commands *)

Definition shell (c : cmd) (w : cloud) : cloud * exec_reply :=
  match c with
  | BindMount src p => match top w src with Some q => (push_bind p q w, XExit 0 "" "") | None => (push_bind p "rootfs" w, XExit 0 "" "") end
  | Umount p => match pop_bind p w with Some w' => (w', XExit 0 "" "") | None => (w, XExit 32 "" "") end
  | RemountRo _ | LosetupOf _ | MakeDir _ | Harmless => (w, XExit 0 "" "") (* directories are not tracked *)
  | _ => (w, XExit 1 "" "")
  end.

Section volume.
(** The volume, and the objects of the API server. *)
Context (v : string) (pvs : list pv) (classes : gmap string (gmap string string)) (secrets : gmap (string * string) (gmap string string)).

Definition meta_root : string := path_join [VFSCacheBasePath; "vfsMeta"; v].
Definition marker : string := path_join [drainPendingDir; v].
(** Kubelet's directory for the volumes of the driver, with one for this volume;
    its name, a hash of the handle, is the handle here. *)
Definition plugin_dir : string := "/var/lib/kubelet/plugins/kubernetes.io/csi/lukscryptwalker.csi.k8s.io".
Definition cache_paths : list string := [VFSCacheBasePath +s+ "/vfs/" +s+ v; VFSCacheBasePath +s+ "/vfsMeta/" +s+ v].

Definition meta_of (x : string) : string := meta_root +s+ "/" +s+ x.
Definition cached (w : cloud) : list string := dirty w ++ uploaded w.

(** *** librclone *)

Definition str_param (k : string) (params : list (string * pval)) : string :=
  match List.find (fun '(k', _) => bool_decide (k' = k)) params with Some (_, PStr s) => s | _ => "" end.
Definition answered (fields : list (string * json)) : rpc_reply := RpcDone 200 (BodyJson fields).

Definition librclone (method : string) (params : list (string * pval)) (w : cloud) : cloud * rpc_reply :=
  if bool_decide (method = "mount/listmounts") then
    (w, answered [("mountPoints", JArr match live w with Some s => [JObj [("MountPoint", JStr (se_path s))]] | None => [] end)])
  else if bool_decide (method = "vfs/list") then
    (w, answered [("vfses", JArr match live w with Some s => [JStr (se_fs s)] | None => [] end)])
  else if bool_decide (method = "vfs/stats") then
    (w, match live w with
        | Some _ => answered [("diskCache", JObj [("uploadsInProgress", JNum 0); ("uploadsQueued", JNum (Z.of_nat (length (dirty w))))])]
        | None => RpcDone 500 (BodyJson [("error", JStr "no VFS found")])
        end)
  else if bool_decide (method = "mount/mount") then
    (set_live (Some (Session (str_param "mountPoint" params) (str_param "fs" params))) w, RpcDone 200 BodyEmpty)
  else if bool_decide (method = "mount/unmount") then
    match live w with
    | Some s => if bool_decide (se_path s = str_param "mountPoint" params)
                then (set_live None w, RpcDone 200 BodyEmpty)
                else (w, RpcDone 404 (BodyJson [("error", JStr "mount not found")]))
    | None => (w, RpcDone 404 (BodyJson [("error", JStr "mount not found")]))
    end
  else (w, RpcDone 200 BodyEmpty).

(** *** Everything else *)

Definition cloud_answers : handler cloud := fun c w =>
  match c return cloud * reply c with
  | CNow => (w, clock w)
  | CSleep d => (pass d w, tt)
  | CExec _ _ argv => shell (decode argv) w
  | CRpc m params _ => librclone m params w
  | CHostMounts => (w, Some (fuse_table w))
  | CMountedDeviceB p _ =>
      (w, match live w with
          | Some s => if bool_decide (se_path s = p) then Done (Ok (p, true)) else Done (Err ENOENT)
          | None => Done (Err ENOENT)
          end)
  | CBindB src p _ =>
      match live w with
      | Some s => if bool_decide (se_path s = src) then (push_bind p src w, Done (Ok tt)) else (w, Done (Err ENOENT))
      | None => (w, Done (Err ENOENT))
      end
  | CUnmountB p _ _ => match pop_bind p w with Some w' => (w', Done (Ok tt)) | None => (w, Done (Err EINVAL)) end
  | CStatfsB p _ => (w, Done (if serves w p then Ok tt else Err ENOTCONN))
  | CReadDirRawB p _ _ => (w, Done (if serves w p then Ok [] else Err ENOTCONN))
  (* the cache on disk *)
  | CReadDir p =>
      (w, if bool_decide (p = path_join [VFSCacheBasePath; "vfsMeta"]) then Ok [DirEnt v true false false]
          else if bool_decide (p = plugin_dir) then Ok [DirEnt v true false false]
          else if bool_decide (p = drainPendingDir) then Ok (if marked w then [DirEnt v false true false] else [])
          else Err ENOENT)
  | CStat p => (w, if bool_decide (p = plugin_dir) then Ok (FStat 0 true 0) else Err ENOENT)
  | CWalkDir r =>
      (w, if bool_decide (r = meta_root) then VDir r :: map (fun x => VFile (meta_of x)) (cached w) else [VErr r ENOENT])
  | CReadMeta p =>
      (w, Ok (Some (Meta 0 (bool_decide (p ∈ map meta_of (dirty w))) [])))
  | CRemoveAll p =>
      (if bool_decide (p ∈ cache_paths) then wipe_cache w
       else match top w p with Some _ => wipe_cache (Cloud (clock w) (live w) (tab w) [] [] [] (marked w) (names w)) | None => w end, Ok tt)
  | CRemove p => (if bool_decide (p = marker) then set_marked false w else w, Ok tt)
  | CWriteFile p _ => (if bool_decide (p = marker) then set_marked true w else w, Ok tt)
  | CReadNameMap _ => (w, Ok (Some (names w)))
  (* kubelet's notes of its volumes: this is the only one *)
  | CReadJson _ => (w, Ok (Some (JObj [("driverName", JStr "lukscryptwalker.csi.k8s.io"); ("volumeHandle", JStr v)])))
  | CWriteNameMap _ m => (set_vfs_names m w, Ok tt)
  (* the API server *)
  | CListPVs => (w, Ok pvs)
  | CGetPV name => (w, found (List.find (fun p => bool_decide (pv_name p = name)) pvs))
  | CGetStorageClass name => (w, found (classes !! name))
  | CGetSecret ns name => (w, found (secrets !! (ns, name)))
  | c => (w, default_reply c)
  end.

End volume.

End Cloud.
