(* ===== verification/CloudOps.v ===== *)
(** * CloudOps: what the lower layers do on the node of Cloud

    librclone's answers, the mounts of a session, the cache on disk, the wait
    for the uploads and the unmount, each as the state it leads to. *)

From Stdlib Require Import Ascii.
From S2P Require Import Prelude GoStrings Effects Secrets Rpc RcloneConfig Luks Mounts VfsNames VfsCache.
From S2P Require Import Session MountManager Csi Controller NodeMounts NodeLuks NodeState Drain S3Live NodeServer World Cloud.
Import Secrets Rpc Mounts VfsNames VfsCache Session MountManager Csi K8s NodeMounts NodeLuks NodeState Drain S3Live NodeServer.
Import World Cloud.

Module CloudOps.

(** ** What the operations of the lower layers do to the node *)

Section ops.
Context (v : string) (pvs : list pv) (classes : gmap string (gmap string string)) (secrets : gmap (string * string) (gmap string string)).
Abbreviation answer := (cloud_answers v pvs classes secrets).
Notation "p @ w" := (interp answer p w) (at level 9, no associativity).
Implicit Types w : cloud.

(** *** librclone *)

Lemma rpc_world m params t w w' b :
  librclone m params w = (w', RpcDone 200 b) ->
  (RPCWithTimeout m params t) @ w = (w', (Some (MkRPCResult (body_output b) 200), None)).
Proof.
  intros E. unfold RPCWithTimeout, callLibrclone. rewrite !interp_bind, (interp_perform answer (CRpc m params t)).
  cbn [cloud_answers]. by rewrite E.
Qed.

Lemma config_world m params t w :
  m = "config/create" \/ m = "config/delete" ->
  (RPCWithTimeout m params t) @ w = (w, (Some (MkRPCResult (body_output BodyEmpty) 200), None)).
Proof. intros [-> | ->]; by apply rpc_world. Qed.

Lemma DeleteNamedConfigs_world l w : (RcloneConfig.DeleteNamedConfigs l) @ w = (w, tt).
Proof.
  unfold RcloneConfig.DeleteNamedConfigs, RPC. induction l as [| n l IH]; [done |]. cbn [for_each].
  rewrite !interp_bind, config_world by by right. apply IH.
Qed.
Lemma CreateNamedS3Config_world n c w : (RcloneConfig.CreateNamedS3Config n c) @ w = (w, Ok tt).
Proof.
  unfold RcloneConfig.CreateNamedS3Config, RPC. rewrite interp_bind, config_world by by right. cbn zeta iota.
  by rewrite interp_bind, config_world by by left.
Qed.
Lemma CreateNamedCryptConfig_world n p c w :
  RcloneConfig.Password c <> "" -> (RcloneConfig.CreateNamedCryptConfig n p c) @ w = (w, Ok tt).
Proof.
  intros Hc. unfold RcloneConfig.CreateNamedCryptConfig, RPC. rewrite bool_decide_eq_false_2 by done.
  rewrite interp_bind, config_world by by right. cbn zeta iota. by rewrite interp_bind, config_world by by left.
Qed.

Definition listed w : list string := match live w with Some s => sessionsOf v [se_path s] | None => [] end.
Lemma liveSessions_world w : (liveSessions v) @ w = (w, Some (listed w)).
Proof.
  unfold liveSessions. rewrite interp_bind. erewrite rpc_world by reflexivity. unfold listed.
  by destruct (live w) as [s |].
Qed.

Lemma listed_le w p : live w = Some p -> listed w = [] \/ listed w = [se_path p].
Proof.
  intros E. unfold listed, sessionsOf. rewrite E. cbn [List.filter]. destruct (has_prefix _ _); [by right | by left].
Qed.

Lemma librclone_unmount params w :
  librclone "mount/unmount" params w
  = match live w with
    | Some s => if bool_decide (se_path s = str_param "mountPoint" params)
                then (set_live None w, RpcDone 200 BodyEmpty)
                else (w, RpcDone 404 (BodyJson [("error", JStr "mount not found")]))
    | None => (w, RpcDone 404 (BodyJson [("error", JStr "mount not found")]))
    end.
Proof. done. Qed.

Lemma unmountSession_world p w :
  live w = Some p -> (unmountSession (se_path p)) @ w = (set_live None w, true).
Proof.
  intros E. unfold unmountSession. rewrite interp_bind. erewrite rpc_world.
  2: { rewrite librclone_unmount, E, bool_decide_eq_true_2 by done. reflexivity. }
  done.
Qed.

Lemma ShutdownSessions_world p w :
  live w = Some p -> se_path p <> "" -> (ShutdownSessions v [se_path p]) @ w = (set_live None w, 1).
Proof.
  intros E Hp. unfold ShutdownSessions. rewrite interp_bind, liveSessions_world. change (default [] (Some (listed w))) with (listed w).
  assert (add_known (listed w) [se_path p] = [se_path p]) as ->.
  { cbn [add_known]. rewrite (bool_decide_eq_false_2 (se_path p = "")) by done. cbn [negb andb].
    destruct (listed_le w p E) as [-> | ->]; [done |].
    by rewrite (bool_decide_eq_true_2 (se_path p ∈ [se_path p])) by by left. }
  cbn [end_sessions]. by rewrite interp_bind, (unmountSession_world _ _ E).
Qed.

(** *** Mounts *)

Lemma fuse_table_lookup w p :
  flattenMountStacks (fuse_table w) !! p = (fun l => match l with [] => "" | _ => "fuse.rclone" end) <$> tab w !! p.
Proof.
  unfold flattenMountStacks, fuse_table. rewrite !lookup_fmap. destruct (tab w !! p) as [[| q l] |]; [done | | done].
  cbn. f_equal. unfold topmost. by rewrite rev_app_distr, rev_involutive.
Qed.

Lemma isMountPoint_world p w : (IsHostMountPoint p) @ w = (w, bool_decide (is_Some (tab w !! p))).
Proof.
  unfold IsHostMountPoint, HostMounts, HostMountsOK, HostMountStacksOK. rewrite !interp_bind. cbn.
  f_equal. change (default ∅ (Some (flattenMountStacks (fuse_table w)))) with (flattenMountStacks (fuse_table w)).
  rewrite fuse_table_lookup. by destruct (tab w !! p).
Qed.

Lemma HostMountDepth_world p w : (HostMountDepth p) @ w = (w, Some (length (default [] (tab w !! p)))).
Proof.
  unfold HostMountDepth, HostMountStacksOK. rewrite interp_bind. cbn. unfold stack_depth, fuse_table.
  rewrite lookup_fmap. destruct (tab w !! p); [| done]. cbn. by rewrite length_rev, length_map.
Qed.

Lemma HostFUSEMountState_world p w :
  (forall l, tab w !! p = Some l -> l <> []) ->
  (HostFUSEMountState p) @ w = (w, (bool_decide (is_Some (tab w !! p)), true)).
Proof.
  intros Hne. unfold HostFUSEMountState, HostMountsOK, HostMountStacksOK. rewrite !interp_bind. cbn.
  unfold is_fuse. rewrite fuse_table_lookup. destruct (tab w !! p) as [[| q l] |] eqn:E; cbn; [by destruct (Hne [] eq_refl) | done | done].
Qed.

Lemma HostMountsKnown_world w : (HostMountsKnown) @ w = (w, true).
Proof. done. Qed.

Lemma verify_world p w :
  (forall l, tab w !! p = Some l -> l <> []) ->
  exists r, (verifyS3StagingLive p) @ w = (w, r) /\ is_ok r = serves w p.
Proof.
  intros Hne. unfold verifyS3StagingLive. rewrite interp_bind, HostFUSEMountState_world by done. cbn [negb].
  assert (Hs : tab w !! p = None -> serves w p = false).
  { intros E. unfold serves, top. rewrite E. by destruct (live w). }
  destruct (tab w !! p) as [l |] eqn:E.
  - rewrite bool_decide_eq_true_2 by by eexists. cbn [negb]. rewrite interp_bind.
    unfold statfsBounded. rewrite (interp_perform answer (CStatfsB p (5 * second))). cbn [cloud_answers].
    destruct (serves w p); cbn; eauto.
  - rewrite bool_decide_eq_false_2 by apply is_Some_None. cbn [negb]. rewrite Hs by done. cbn. eauto.
Qed.

Lemma pop_bind_one p q w : tab w !! p = Some [q] -> pop_bind p w = Some (on_tab (delete p) w).
Proof. intros E. unfold pop_bind. by rewrite E. Qed.

(** The staging path carries one bind, or none. *)
Lemma unbindStaging_world mm q w :
  tab w !! mountPoint mm = Some [q] -> (unbindStaging mm) @ w = (on_tab (delete (mountPoint mm)) w, tt).
Proof.
  intros E. unfold unbindStaging, maxStagingUnwind. cbn [unbind_loop]. unfold unmountBounded.
  rewrite !interp_bind, (interp_perform answer (CUnmountB (mountPoint mm) false bindTimeout)). cbn [cloud_answers].
  rewrite (pop_bind_one _ _ _ E). cbn [interp syscallBounded].
  rewrite !interp_bind, (interp_perform answer (CUnmountB (mountPoint mm) false bindTimeout)). cbn [cloud_answers].
  unfold pop_bind. cbn [tab on_tab]. rewrite lookup_delete_eq. by cbn.
Qed.

Lemma runCmdBounded_world t argv w w' out :
  shell (decode argv) w = (w', XExit 0 out "") -> (runCmdBounded t argv) @ w = (w', Ok tt).
Proof.
  intros E. unfold runCmdBounded, runCmdBoundedOutput.
  rewrite !interp_bind, (interp_perform answer (CExec (Some t) "" argv)). cbn [cloud_answers]. by rewrite E.
Qed.

Lemma bindMount_world src p q ro w :
  top w src = Some q -> (bindMount src p ro) @ w = (push_bind p q w, Ok tt).
Proof.
  intros E. unfold bindMount. rewrite interp_bind, (runCmdBounded_world _ _ w w "") by done. cbn iota.
  rewrite interp_bind, (runCmdBounded_world _ _ w (push_bind p q w) "").
  2: { change (decode _) with (BindMount src p). cbn [shell]. by rewrite E. }
  cbn iota. destruct ro; [| done]. by rewrite interp_bind, (runCmdBounded_world _ _ _ (push_bind p q w) "").
Qed.

Lemma unmountPath_world p w :
  tab w !! p = None \/ (exists q, tab w !! p = Some [q]) ->
  (unmountPath p) @ w = (on_tab (delete p) w, Ok tt).
Proof.
  intros [E | [q E]]; unfold unmountPath; rewrite interp_bind, HostMountDepth_world, E.
  - cbn. unfold on_tab. rewrite delete_id by done. by destruct w.
  - change (length (default [] (Some [q]))) with 1%nat. cbn iota.
    rewrite interp_bind. unfold unmountHostStack, maxMountStackUnwind. cbn [unmount_stack_loop].
    rewrite interp_bind, HostMountDepth_world, E. change (length (default [] (Some [q]))) with 1%nat. cbn iota.
    unfold unmountHostOnce. rewrite !interp_bind, (runCmdBounded_world _ _ w (on_tab (delete p) w) "").
    2: { change (decode _) with (Umount p). cbn [shell]. by rewrite (pop_bind_one _ _ _ E). }
    cbn [interp is_ok]. cbn iota. rewrite interp_bind, (interp_perform answer CInvalidateMounts). cbn [cloud_answers].
    rewrite interp_bind, HostMountDepth_world. cbn [tab on_tab]. by rewrite lookup_delete_eq.
Qed.

(** *** The cache on disk *)

Definition unsent w : bool := negb (bool_decide (dirty w = [])).

Lemma isCacheItemDirty_world p w : (isCacheItemDirty p) @ w = (w, bool_decide (p ∈ map (meta_of v) (dirty w))).
Proof. done. Qed.

Lemma dirty_walk_clean l w :
  dirty w = [] -> (dirty_walk (map (fun x => VFile (meta_of v x)) l)) @ w = (w, Ok false).
Proof.
  intros E. induction l as [| x l IH]; [done |]. cbn [map dirty_walk]. rewrite interp_bind, isCacheItemDirty_world, E. apply IH.
Qed.

Lemma hasDirty_world w : (hasDirtyCacheItemsAt VFSCacheBasePath v) @ w = (w, unsent w).
Proof.
  unfold hasDirtyCacheItemsAt. rewrite interp_bind, (interp_perform answer (CWalkDir _)). cbn [cloud_answers].
  rewrite bool_decide_eq_true_2 by done. cbn iota. cbn [dirty_walk]. rewrite interp_bind. unfold cached, unsent.
  destruct (dirty w) as [| x l] eqn:E.
  - cbn [app]. by rewrite dirty_walk_clean.
  - cbn [app map dirty_walk]. rewrite interp_bind, isCacheItemDirty_world, E.
    by rewrite (bool_decide_eq_true_2 (meta_of v x ∈ _)) by by left.
Qed.

Lemma HasUnuploadedData_world w :
  v <> "" -> volumeIDOfVFSName v = v -> (HasUnuploadedData v) @ w = (w, unsent w).
Proof.
  intros Hv Hn. unfold HasUnuploadedData, hasUnuploadedDataAt. rewrite bool_decide_eq_false_2 by done.
  rewrite interp_bind, (interp_perform answer (CReadDir _)). cbn [cloud_answers].
  rewrite bool_decide_eq_true_2 by done. cbn [any_dirty de_isdir de_name]. rewrite Hn, bool_decide_eq_true_2 by done.
  cbn [negb orb]. rewrite interp_bind, hasDirty_world. by destruct (unsent w).
Qed.

(** What is in the cache is valid: nothing is removed before a mount. *)
Lemma ValidateVFSCache_world w : (ValidateVFSCache v) @ w = (w, tt).
Proof.
  unfold ValidateVFSCache, validateVFSCacheAt. cbn zeta. rewrite interp_bind, (interp_perform answer (CWalkDir _)). cbn [cloud_answers].
  rewrite bool_decide_eq_true_2 by done. cbn [for_each]. rewrite interp_bind. cbn [interp].
  induction (cached w) as [| x l IH]; [done |]. cbn [map for_each]. rewrite interp_bind.
  assert (forall p, (validate_item VFSCacheBasePath v (meta_root v) (path_join [VFSCacheBasePath; "vfs"; v]) p) @ w = (w, tt)) as Hx.
  { intros p. unfold validate_item. destruct (rel_under _ _) as [rel |]; [| done]. cbn zeta. rewrite interp_bind. unfold corruptReason.
    rewrite interp_bind, (interp_perform answer (CReadMeta _)). cbn [cloud_answers m_Rs]. rewrite interp_bind, (interp_perform answer (CStat _)).
    cbn [cloud_answers]. by case_bool_decide. }
  fold (meta_root v). rewrite Hx. apply IH.
Qed.

Lemma cleanupVFSCacheDir_world mm w :
  vfsName mm = v -> volumeID mm = v -> v <> "" ->
  exists m, (cleanupVFSCacheDir mm) @ w = (set_vfs_names m (wipe_cache w), tt) /\ (names w !! v = m !! v \/ m !! v = None).
Proof.
  intros En Ev Hv. unfold cleanupVFSCacheDir. rewrite En, bool_decide_eq_false_2 by done. unfold cache_dir, meta_dir. rewrite En, Ev.
  rewrite interp_bind, (interp_perform answer (CRemoveAll _)). cbn [cloud_answers].
  rewrite bool_decide_eq_true_2 by by left. cbn iota.
  rewrite interp_bind, (interp_perform answer (CRemoveAll _)). cbn [cloud_answers].
  rewrite bool_decide_eq_true_2 by by right; left. cbn iota.
  unfold RemoveVFSName, LoadVFSNameMap. rewrite !interp_bind, (interp_perform answer (CReadNameMap _)). cbn [cloud_answers interp].
  destruct (names (wipe_cache (wipe_cache w)) !! v) as [n |] eqn:E.
  - unfold writeVFSNameMap. rewrite interp_bind. eexists. split; [reflexivity |]. right. apply lookup_delete_eq.
  - exists (names w). split; [by destruct w |]. by left.
Qed.

(** *** The upload queue *)

(** Everything uploaded, at time [t]. *)
Definition flushed (t : Z) w : cloud :=
  Cloud t (live w) (tab w) [] (uploaded w ++ dirty w) (sent w ++ dirty w) (marked w) (names w).

Lemma flushed_pass t d w : is_Some (live w) -> flushed t (pass d w) = flushed t w.
Proof.
  intros [s E]. unfold flushed, pass. cbn. rewrite E. by rewrite <- !app_assoc, take_drop.
Qed.

Definition queue_json (n : nat) : list (string * json) :=
  [("diskCache", JObj [("uploadsInProgress", JNum 0); ("uploadsQueued", JNum (Z.of_nat n))])].
Lemma stats_world s params t w :
  live w = Some s ->
  (RPCWithTimeout "vfs/stats" params t) @ w = (w, (Some (MkRPCResult (Some (queue_json (length (dirty w)))) 200), None)).
Proof.
  intros E. apply (rpc_world _ _ _ w w (BodyJson (queue_json (length (dirty w))))).
  change (librclone "vfs/stats" params w)
    with (w, match live w with Some _ => answered (queue_json (length (dirty w))) | None => RpcDone 500 (BodyJson [("error", JStr "no VFS found")]) end).
  by rewrite E.
Qed.

Lemma IsUploadQueueEmpty_world s mm w :
  live w = Some s -> is_Some (tab w !! mountPoint mm) -> (IsUploadQueueEmpty mm) @ w = (w, negb (unsent w)).
Proof.
  intros E Hm. unfold IsUploadQueueEmpty, MountManager.isMountPoint. rewrite interp_bind, isMountPoint_world, bool_decide_eq_true_2 by done.
  cbn [negb]. rewrite interp_bind, (stats_world _ _ _ _ E). cbn iota. unfold unsent. by destruct (dirty w).
Qed.

(** The poll ends with everything uploaded when time enough is left. *)
Lemma wait_loop_world s n fuel mm deadline w :
  live w = Some s -> sessionPath mm <> "" -> (length (dirty w) <= 2 * n)%nat -> (n < fuel)%nat ->
  clock w + Z.of_nat n * pollInterval < deadline ->
  exists t, (wait_loop fuel mm deadline) @ w = (flushed t w, true).
Proof.
  intros E Hs. revert n w E. induction fuel as [| fuel IH]; intros n w E Hl Hf Hd; [lia |].
  cbn [wait_loop]. rewrite interp_bind, (interp_perform answer CNow). cbn [cloud_answers].
  destruct (deadline <=? clock w) eqn:Ed; [unfold pollInterval, second in *; bools; lia |].
  rewrite bool_decide_eq_false_2 by done. rewrite interp_bind. cbn [interp]. cbn iota.
  rewrite interp_bind, (interp_perform answer CNow). cbn [cloud_answers].
  destruct (Z.min rpcStatsTimeout (deadline - clock w) <=? 0) eqn:Eb;
    [unfold pollInterval, rpcStatsTimeout, minute, second in *; bools; lia |].
  cbn zeta iota. rewrite interp_bind, (stats_world _ _ _ _ E). cbn iota.
  change (match disk_cache (Some (MkRPCResult (Some (queue_json (length (dirty w)))) 200)) with
          | Some dc => queue_of dc | None => (0, 0) end) with (0, Z.of_nat (length (dirty w))).
  cbn iota. change (0 =? 0) with true. cbn [andb].
  destruct (Z.of_nat (length (dirty w)) =? 0) eqn:E0.
  - bools. destruct (dirty w) as [| x l] eqn:El; [| cbn in E0; lia]. exists (clock w). cbn. f_equal.
    unfold flushed. rewrite El, !app_nil_r. by destruct w; cbn in *; subst.
  - rewrite interp_bind, (interp_perform answer (CSleep pollInterval)). cbn [cloud_answers]. destruct (IH (pred n) (pass pollInterval w)) as [t Ht]; [done | bools | bools; lia | |].
    + unfold pass. cbn [dirty]. rewrite E, length_drop. change (uploads pollInterval) with 2%nat. lia.
    + unfold pass. cbn [clock]. unfold pollInterval, second in *. bools. lia.
    + exists t. rewrite Ht. rewrite flushed_pass; [done | by eexists].
Qed.

Lemma waitForPendingUploads_world s mm budget w :
  live w = Some s -> sessionPath mm <> "" -> 0 <= wrap64 (writeBackWait mm * second) ->
  wrap64 (writeBackWait mm * second) + (Z.of_nat (length (dirty w)) + 2) * second <= budget ->
  exists t, (waitForPendingUploads mm budget) @ w = (flushed t w, true).
Proof.
  intros E Hs H0 Hb. unfold waitForPendingUploads.
  destruct (budget <=? 0) eqn:Ez; [unfold second in *; bools; lia |].
  rewrite interp_bind, (interp_perform answer CNow). cbn [cloud_answers]. cbv zeta.
  set (f := Z.min _ budget). assert (f = wrap64 (writeBackWait mm * second)) as Ef by (unfold f, second in *; lia).
  rewrite interp_bind, (interp_perform answer (CSleep f)). cbn [cloud_answers].
  assert (Hl : (length (dirty (pass f w)) <= length (dirty w))%nat) by (cbn; rewrite E, length_drop; lia).
  set (n := ((length (dirty w) + 1) / 2)%nat).
  assert (length (dirty w) <= 2 * n < length (dirty w) + 2)%nat as [Hn1 Hn2].
  { pose proof (Nat.div_mod (length (dirty w) + 1) 2 ltac:(lia)). pose proof (Nat.mod_upper_bound (length (dirty w) + 1) 2 ltac:(lia)).
    unfold n. lia. }
  destruct (wait_loop_world s n (wait_fuel budget) mm (clock w + budget) (pass f w)) as [t Ht]; [done | done | lia | | |].
  - unfold wait_fuel. enough (Z.of_nat n <= budget / pollInterval) by lia.
    apply Z.div_le_lower_bound; unfold pollInterval, second in *; bools; lia.
  - cbn [clock pass]. unfold pollInterval, second in *. lia.
  - exists t. rewrite Ht. rewrite flushed_pass; [done | by eexists].
Qed.

(** The unmount of a session whose queue drains in time uploads everything. *)
Lemma unmount_world s mm budget w :
  live w = Some s -> sessionPath mm = se_path s -> se_path s <> "" -> mounted mm = true ->
  tab w !! mountPoint mm = Some [se_path s] -> vfsName mm = v -> volumeID mm = v -> v <> "" ->
  0 <= wrap64 (writeBackWait mm * second) ->
  wrap64 (writeBackWait mm * second) + (Z.of_nat (length (dirty w)) + 2) * second <= budget ->
  exists t m mm', (unmount mm budget) @ w
    = (Cloud t None (delete (mountPoint mm) (tab w)) [] [] (sent w ++ dirty w) (marked w) m, (mm', true))
    /\ (names w !! v = m !! v \/ m !! v = None).
Proof.
  intros E Hp Hne Hm Ht En Ev Hv H0 Hb. unfold unmount. rewrite Hm, interp_bind. cbn [interp]. cbn iota.
  rewrite interp_bind. set (mm1 := StopCacheMonitor mm).
  destruct (waitForPendingUploads_world s mm1 budget w E) as [t Hw]; [by change (sessionPath mm <> ""); rewrite Hp | exact H0 | exact Hb |].
  rewrite Hw, interp_bind, (unbindStaging_world _ (se_path s)) by done. rewrite interp_bind.
  change (volumeID mm1) with (volumeID mm). rewrite Ev. change (sessionPath mm1) with (sessionPath mm). rewrite Hp.
  rewrite ShutdownSessions_world by done. rewrite interp_bind, DeleteNamedConfigs_world. rewrite interp_bind.
  rewrite interp_bind. unfold hasDirtyCacheOnDisk. change (vfsName (set_session mm1 "")) with (vfsName mm).
  rewrite En, bool_decide_eq_false_2 by done. rewrite hasDirty_world.
  match goal with |- context [unsent ?w'] => change (unsent w') with (negb (bool_decide (@nil string = []))) end.
  rewrite bool_decide_eq_true_2 by done. cbn [negb interp]. cbn iota. rewrite interp_bind.
  destruct (cleanupVFSCacheDir_world (set_session mm1 "") (set_live None (on_tab (delete (mountPoint mm1)) (flushed t w)))) as (m & Hc & Hn);
    [done | done | done |].
  rewrite Hc. cbn [interp]. eexists t, m, _. split; [| exact Hn]. done.
Qed.

End ops.

End CloudOps.
