(* ===== verification/S3Life.v ===== *)
(** * S3Life: an S3 volume from staging to the bucket

    The handlers run against the node of Cloud.  What a pod writes goes
    through the cache to the bucket; the volume is not given up before all of
    it is there, whatever restarts come in between. *)

From Stdlib Require Import Ascii.
From S2P Require Import Prelude GoStrings Effects Secrets Rpc RcloneConfig Luks Mounts VfsNames VfsCache.
From S2P Require Import Session MountManager Csi Controller NodeMounts NodeLuks NodeState Drain S3Live NodeServer World Cloud CloudOps.
Import Secrets Rpc Mounts VfsNames VfsCache Session MountManager Csi K8s NodeMounts NodeLuks NodeState Drain S3Live NodeServer.
Import World Cloud CloudOps.

Module S3Life.

(** ** The volume *)

Record s3_volume : Type := S3Volume
  { sv_id : string; sv_staging : string; sv_cap : capability; sv_context : gmap string string;
    sv_targets : gset string; sv_secrets : VolumeSecrets }.

Lemma clean_nonempty p : clean p <> "".
Proof.
  unfold clean. destruct (decide (p = "")); [done |]. destruct (has_prefix "/" p); [done |].
  by destruct (decide (_ = "")).
Qed.
Lemma path_join_nonempty a b : b <> "" -> path_join [a; b] <> "".
Proof.
  intros Hb. unfold path_join. cbn [List.filter]. rewrite (bool_decide_eq_false_2 (b = "")) by done. cbn [negb].
  destruct (negb (bool_decide (a = ""))); apply clean_nonempty.
Qed.

(** ** The abstract machine

    Not mounted (and whether an unfinished drain is on record); mounted, with
    the pods that have it; draining, with the pods that came back meanwhile;
    or waiting to be mounted again for its upload. *)
Inductive mode : Type :=
  | Off (on_record : bool) | On (pods : gset string) | Draining (pods : gset string) | Resuming.
(** What reached the bucket, and the writes only the node holds. *)
Record phase : Type := Phase { ph_sent : list string; ph_pend : list string; ph_mode : mode }.
Definition is_up (m : mode) : bool := match m with On _ | Draining _ => true | _ => false end.
Definition is_draining (m : mode) : bool := match m with Draining _ | Resuming => true | _ => false end.
Definition pods_of (m : mode) : gset string := match m with On pods | Draining pods => pods | _ => ∅ end.
Definition with_pods (f : gset string -> gset string) (m : mode) : mode :=
  match m with On pods => On (f pods) | Draining pods => Draining (f pods) | m => m end.

Inductive life_event : Type :=
  | Stage | Publish (target : string) (ro : bool) | Unpublish (target : string) | Unstage
  | Drained | Reboot | Wait (d : Z) | Write (target item : string).

(** Room enough in the six hours of a drain for what is pending. *)
Definition drainable (flush : Z) (pend : list string) : bool :=
  flush + (Z.of_nat (length pend) + 2) * second <=? maxDrainWait.

(** Where an event is allowed, what it does, and the code of the error where the
    call fails: an unstage is refused as long as something is pending, and a
    volume mounted only for its upload is not handed out. *)
Definition next (V : s3_volume) (flush : Z) (ph : phase) (e : life_event) : option (phase * option code) :=
  let '(Phase sent pend m) := ph in
  let ok ph := Some (ph, None) in
  match e with
  | Stage =>
      match m with
      | Off _ => ok (Phase sent pend (On ∅))
      | Resuming => Some (ph, Some Internal)
      | m => ok (Phase sent pend m)
      end
  | Publish t _ =>
      if bool_decide (t ∈ sv_targets V /\ t ∉ pods_of m) then
        match m with
        | Off _ => ok (Phase sent pend (On {[t]}))
        | Resuming => Some (ph, Some Internal)
        | m => ok (Phase sent pend (with_pods (fun p => {[t]} ∪ p) m))
        end
      else None
  | Unpublish t =>
      if bool_decide (t ∈ sv_targets V) then ok (Phase sent pend (with_pods (fun p => p ∖ {[t]}) m)) else None
  | Unstage =>
      match m, pend with
      | Off m, [] => ok (Phase sent [] (Off m))
      | Off m, pend => Some (Phase sent pend Resuming, Some FailedPrecondition)
      | On pods, [] => if bool_decide (pods = ∅) then ok (Phase sent [] (Off false)) else None
      | On pods, pend => if bool_decide (pods = ∅) then Some (Phase sent pend (Draining ∅), Some FailedPrecondition) else None
      | m, pend => Some (Phase sent pend m, Some FailedPrecondition)
      end
  | Drained =>
      if is_draining m && bool_decide (pods_of m = ∅) && drainable flush pend
      then ok (Phase (sent ++ pend) [] (Off false)) else None
  | Reboot => ok (Phase sent pend (Off match m with Off b => b | On _ => false | _ => true end))
  | Wait d =>
      if 0 <=? d then
        let n := if is_up m then uploads d else O in
        ok (Phase (sent ++ take n pend) (drop n pend) m)
      else None
  | Write t x => if bool_decide (t ∈ sv_targets V /\ t ∈ pods_of m) then ok (Phase sent (pend ++ [x]) m) else None
  end.
Fixpoint lifetime (V : s3_volume) (flush : Z) (ph : phase) (l : list life_event) : option (phase * list (option code)) :=
  match l with
  | [] => Some (ph, [])
  | e :: l => '(ph1, b) ← next V flush ph e; '(ph2, bs) ← lifetime V flush ph1 l; Some (ph2, b :: bs)
  end.

(** The writes of a sequence of events, in order. *)
Definition written (l : list life_event) : list string :=
  omap (fun e => match e with Write _ x => Some x | _ => None end) l.

(** The machine loses nothing, and gives the volume up only when all is sent. *)
Lemma next_conserves V f ph e ph' b :
  next V f ph e = Some (ph', b) ->
  ph_sent ph' ++ ph_pend ph' = ph_sent ph ++ ph_pend ph ++ written [e]
  /\ (e = Unstage -> b = None -> ph_pend ph' = []).
Proof.
  destruct ph as [sent pend m]. destruct e; cbn [next].
  - intros Hx. destruct m; simplify_eq; cbn; by rewrite app_nil_r.
  - case_bool_decide; [| done]. intros Hx. destruct m; simplify_eq; cbn; by rewrite app_nil_r.
  - case_bool_decide; [| done]. intros [= <- <-]. cbn. by rewrite app_nil_r.
  - intros Hx. assert (ph_sent ph' = sent /\ ph_pend ph' = pend /\ (b = None -> pend = [])) as (Es & Ep & Eb).
    { destruct m, pend; try case_bool_decide; by simplify_eq. }
    rewrite Es, Ep. cbn. rewrite app_nil_r. by split.
  - destruct (is_draining m && _ && _); [| done]. intros [= <- <-]. cbn. by rewrite !app_nil_r.
  - intros [= <- <-]. cbn. by rewrite app_nil_r.
  - destruct (0 <=? d); [| done]. intros [= <- <-]. cbn. by rewrite app_nil_r, <- app_assoc, take_drop.
  - case_bool_decide; [| done]. intros [= <- <-]. cbn. done.
Qed.

Lemma lifetime_conserves V f ph l ph' bs :
  lifetime V f ph l = Some (ph', bs) -> ph_sent ph' ++ ph_pend ph' = ph_sent ph ++ ph_pend ph ++ written l.
Proof.
  revert ph bs. induction l as [| e l IH]; intros ph bs; cbn [lifetime].
  - intros [= <- <-]. cbn. by rewrite app_nil_r.
  - destruct (next V f ph e) as [[ph1 b] |] eqn:E; [| done]. cbn.
    destruct (lifetime V f ph1 l) as [[ph2 bs2] |] eqn:El; [| done]. cbn. intros [= <- <-].
    rewrite (IH _ _ El), (app_assoc (ph_sent ph1)), (proj1 (next_conserves _ _ _ _ _ _ E)), <- !app_assoc.
    f_equal. f_equal. by destruct e.
Qed.

(** A successful unstage comes from a volume with nothing pending. *)
Lemma lifetime_unstaged V f ph l ph' codes :
  lifetime V f ph l = Some (ph', codes) -> list.last l = Some Unstage -> list.last codes = Some None -> ph_pend ph' = [].
Proof.
  revert ph codes. induction l as [| e l IH]; intros ph codes; [done |]. cbn [lifetime].
  destruct (next V f ph e) as [[ph1 b] |] eqn:E; [| done]. cbn.
  destruct (lifetime V f ph1 l) as [[ph2 bs] |] eqn:El; [| done]. cbn. intros [= -> <-].
  destruct l as [| e' l].
  - cbn in El. injection El as -> <-. cbn. intros [= ->] [= ->]. by apply (next_conserves _ _ _ _ _ _ E).
  - destruct bs as [| b' bs]; [| by apply (IH _ _ El)]. exfalso. clear -El. cbn [lifetime] in El.
    destruct (next V f ph1 e') as [[ph3 b3] |]; [| done]. cbn in El.
    by destruct (lifetime V f ph3 l) as [[ph4 bs4] |].
Qed.

Lemma lifetime_app V f ph l1 l2 ph1 c1 ph2 c2 :
  lifetime V f ph l1 = Some (ph1, c1) -> lifetime V f ph1 l2 = Some (ph2, c2) ->
  lifetime V f ph (l1 ++ l2) = Some (ph2, c1 ++ c2).
Proof.
  revert ph c1. induction l1 as [| e l1 IH]; intros ph c1.
  { cbn. by intros [= -> <-]. }
  cbn [lifetime app]. destruct (next V f ph e) as [[ph0 b] |]; [| done]. cbn.
  destruct (lifetime V f ph0 l1) as [[ph3 bs] |] eqn:El; [| done]. cbn. intros [= -> <-] H2.
  by rewrite (IH _ _ El H2).
Qed.

(** Asked for again and restarted in any order, drained, and accepted. *)
Definition asks_again (e : life_event) : bool := match e with Unstage | Reboot => true | _ => false end.
Definition refusal (e : life_event) : option code := match e with Unstage => Some FailedPrecondition | _ => None end.

Lemma unstage_refused V f sent pend m :
  pods_of m = ∅ -> pend <> [] ->
  exists m', is_draining m' = true /\ pods_of m' = ∅
    /\ next V f (Phase sent pend m) Unstage = Some (Phase sent pend m', Some FailedPrecondition).
Proof.
  intros Hp Hne. destruct pend as [| x pend]; [done |]. destruct m as [b | pods | pods |]; cbn in Hp; subst.
  - by exists Resuming.
  - exists (Draining ∅). split; [done |]. split; [done |]. cbn. by rewrite bool_decide_eq_true_2.
  - by exists (Draining ∅).
  - by exists Resuming.
Qed.
Lemma lifetime_refused V f sent pend l m :
  pods_of m = ∅ -> pend <> [] -> forallb asks_again l = true ->
  exists m', pods_of m' = ∅ /\ lifetime V f (Phase sent pend m) l = Some (Phase sent pend m', map refusal l).
Proof.
  intros Hp Hne. revert m Hp. induction l as [| e l IH]; intros m Hp Hl; [by exists m |].
  cbn [forallb] in Hl. apply andb_true_iff in Hl as [He Hl].
  assert (exists m1, pods_of m1 = ∅ /\ next V f (Phase sent pend m) e = Some (Phase sent pend m1, refusal e)) as (m1 & Hp1 & E1).
  { destruct e; try done; [| by eexists (Off _)].
    destruct (unstage_refused V f sent pend m Hp Hne) as (m1 & _ & H). by exists m1. }
  destruct (IH m1 Hp1 Hl) as (m' & Hp' & E). exists m'. split; [done |]. cbn [lifetime map]. rewrite E1. cbn. by rewrite E.
Qed.
Lemma lifetime_completes V f sent pend m l :
  pods_of m = ∅ -> pend <> [] -> drainable f pend = true -> forallb asks_again l = true ->
  lifetime V f (Phase sent pend m) (l ++ [Unstage; Drained; Unstage])
  = Some (Phase (sent ++ pend) [] (Off false), map refusal l ++ [Some FailedPrecondition; None; None]).
Proof.
  intros Hp Hne Hb Hl. destruct (lifetime_refused V f sent pend l m Hp Hne Hl) as (m1 & Hp1 & E1).
  destruct (unstage_refused V f sent pend m1 Hp1 Hne) as (m2 & Hd2 & Hp2 & E2).
  apply (lifetime_app V f _ _ _ _ _ _ _ E1). cbn [lifetime]. rewrite E2. cbn -[next].
  cbn [next]. by rewrite Hd2, Hb, Hp2, bool_decide_eq_true_2.
Qed.

Section volume.
Context (pvs : list pv) (classes : gmap string (gmap string string)) (secrets : gmap (string * string) (gmap string string)).
Context (nodeID : string) (V : s3_volume).
Abbreviation id := (sv_id V).
Abbreviation staging := (sv_staging V).
Abbreviation ctx := (sv_context V).
Abbreviation answer := (cloud_answers id pvs classes secrets).
Notation "p @ w" := (interp answer p w) (at level 9, no associativity).
Implicit Types w : cloud.

(** A manager before and after its mount, with the group of the files. *)
Definition manager (g : option Z) : MountManager :=
  MM (getS3ConfigFromSecrets (sv_secrets V))
     (RcloneConfig.DeriveRcloneCryptConfig (Passphrase (sv_secrets V))
        (if bool_decide (mget ctx S3PathPrefixParam = "") then id else mget ctx S3PathPrefixParam))
     (getVFSCacheConfig ctx) id staging "" (s3BasePathOf id (mget ctx S3PathPrefixParam)) false
     id (id +s+ "-s3") id g g 0 false.
Definition up (g : option Z) (p : string) : MountManager :=
  set_monitoring (set_mounted (set_session (manager g) p) true) true.

(** The wait for the write-back before the queue is polled. *)
Abbreviation flush := (wrap64 (writeBackWait (manager None) * second)).

Definition stage_of : stage_request := StageReq id staging (Some (sv_cap V)) ctx.
Definition publish_of (t : string) (ro : bool) : publish_request :=
  PublishReq id staging t (Some (sv_cap V)) ro ctx.

Record sane : Prop := Sane
  { sane_name : is_name id; sane_plain : volumeIDOfVFSName id = id;
    sane_staging : staging <> ""; sane_apart : staging ∉ cache_paths id;
    sane_s3 : isS3Backend ctx = true;
    sane_pass : Passphrase (sv_secrets V) <> "";
    (* an empty queue can be confirmed within ShortDrainWait: see [slow_write_back] *)
    sane_flush : 0 <= flush <= 58 * second;
    sane_kubelet : has_prefix (drainMountBase +s+ "/") staging = false;
    sane_secrets : forall w, (volume_secrets true id ctx) @ w = (w, Ok (sv_secrets V));
    sane_force : forall w, (forceUnstageRequested true id) @ w = (w, false);
    sane_context : forall w, (getS3VolumeContext true id) @ w = (w, Some ctx);
    sane_targets : forall t, t ∈ sv_targets V -> t <> "" /\ t <> staging }.

Definition answers (c : option code) (r : result unit status) : Prop :=
  match c with None => r = Ok tt | Some c => exists msg, r = Err (Prelude.Status c msg) end.
Lemma answers_last codes rs : Forall2 answers codes rs -> list.last rs = Some (Ok tt) -> list.last codes = Some None.
Proof.
  induction 1 as [| c r codes rs Hr Hrs IH]; [done |]. destruct Hrs as [| c' r' codes rs Hr' Hrs]; [| exact IH].
  cbn. intros [= ->]. destruct c; [| done]. by destruct Hr.
Qed.

(** The node server's memory with the node.  A restart reads the markers of the
    drains it interrupted; a pod's write goes to the mount it has. *)
Definition handle (e : life_event) (sw : node * cloud) : (node * cloud) * result unit status :=
  let '(s, w) := sw in
  let of_run (r : cloud * (node * result unit status)) := let '(w', (s', x)) := r in ((s', w'), x) in
  match e with
  | Stage => of_run ((NodeStageVolume nodeID true stage_of s) @ w)
  | Publish t ro => of_run ((NodePublishVolume true (publish_of t ro) s) @ w)
  | Unpublish t => let '(w', x) := (NodeUnpublishVolume t) @ w in ((s, w'), x)
  | Unstage => of_run ((NodeUnstageVolume nodeID true id staging s) @ w)
  | Drained => let '(w', (s', _)) := (run_drain true id s) @ w in ((s', w'), Ok tt)
  | Reboot => let '(w', (s', _)) := (loadPendingDrains empty_node) @ (reboot w) in ((s', w'), Ok tt)
  | Wait d => ((s, pass d w), Ok tt)
  | Write t x => ((s, if serves w t then write_item x w else w), Ok tt)
  end.
Fixpoint handle_all (l : list life_event) (sw : node * cloud) : (node * cloud) * list (result unit status) :=
  match l with
  | [] => (sw, [])
  | e :: l => let '(sw1, x) := handle e sw in let '(sw2, xs) := handle_all l sw1 in (sw2, x :: xs)
  end.

Definition named w : Prop := names w !! id = None \/ names w !! id = Some id.

Section steps.
Context (Hv : sane).

Lemma NewMountManager_world g w :
  named w ->
  (NewMountManager (getS3ConfigFromSecrets (sv_secrets V)) id staging (Some (getVFSCacheConfig ctx))
     (mget ctx S3PathPrefixParam) (Passphrase (sv_secrets V)) g) @ w = (w, manager g).
Proof.
  intros Hn. unfold NewMountManager, LoadVFSNameMap. rewrite !interp_bind, (interp_perform answer (CReadNameMap _)).
  cbn [cloud_answers interp]. cbn zeta iota.
  assert (generationOfVFSName id (mget (names w) id) = 0) as ->; [| done].
  unfold mget, generationOfVFSName. destruct Hn as [-> | ->]; cbn [default].
  - done.
  - change (default "" (Some id)) with id. rewrite (bool_decide_eq_true_2 (id = id)) by done. by rewrite orb_true_r.
Qed.

Lemma ensureExclusive_world mm w :
  live w = None -> (ensureExclusiveVFSName mm) @ w = (w, (mm, Ok tt)).
Proof.
  intros E. unfold ensureExclusiveVFSName, ensure_fuel. generalize 17%nat as n. intros n. cbn [ensure_loop].
  unfold countRegisteredVFS, RegisteredVFSNames. rewrite !interp_bind. erewrite rpc_world; [| change (librclone "vfs/list" [] w) with (w, answered [("vfses", JArr match live w with Some s => [JStr (se_fs s)] | None => [] end)]); rewrite E; reflexivity].
  done.
Qed.

Definition session_dir w : string := path_join [session_parent id; id +s+ "@" +s+ format_int (clock w)].
Lemma session_dir_nonempty w : session_dir w <> "".
Proof.
  apply path_join_nonempty. intros E. apply (f_equal String.length) in E. rewrite slen_app in E. cbn in E. lia.
Qed.
Lemma newSessionDir_world w : (newSessionDir id id) @ w = (w, Ok (session_dir w)).
Proof.
  unfold newSessionDir, mkdirAllBounded. cbn zeta. rewrite !interp_bind, (interp_perform answer (CMkdirAllB _ _)). cbn [cloud_answers default_reply interp].
  cbn iota. rewrite interp_bind, (interp_perform answer (CChmod _)). cbn [cloud_answers default_reply]. unfold session_fuel. generalize 63%nat as n. intros n. cbn [newSessionDir_loop].
  rewrite interp_bind, (interp_perform answer CNow). cbn [cloud_answers]. cbn zeta. rewrite interp_bind, (interp_perform answer (CMkdir _)). done.
Qed.

Lemma mountUsable_world mm q w :
  tab w !! mountPoint mm = Some [q] -> serves w (mountPoint mm) = true -> (mountUsable mm q) @ w = (w, Ok tt).
Proof.
  intros Ht Hs. unfold mountUsable, HostMountStacksOK. rewrite interp_bind, (interp_perform answer CHostMounts). cbn [cloud_answers].
  cbn iota. unfold fuse_table at 1. rewrite lookup_fmap, Ht.
  change (List.rev (default [] ((fun l => rev (map (fun q => {| Dev := q; FSType := "fuse.rclone" |}) l)) <$> Some [q])))
    with [{| Dev := q; FSType := "fuse.rclone" |}].
  cbn iota. cbn [FSType Dev]. change (contains "fuse.rclone" "fuse") with true. cbn [negb].
  rewrite bool_decide_eq_true_2 by done. cbn [negb]. unfold readDirBounded.
  rewrite interp_bind, (interp_perform answer (CReadDirRawB _ _ _)). cbn [cloud_answers]. by rewrite Hs.
Qed.

(** The session is bound at the staging path and serves there. *)
Lemma waitForMountReady_world mm w s :
  live w = Some s -> sessionPath mm = se_path s -> tab w !! mountPoint mm = None ->
  (waitForMountReady mm) @ w = (push_bind (mountPoint mm) (se_path s) w, Ok tt).
Proof.
  intros E Hp Ht. unfold waitForMountReady. rewrite interp_bind, (interp_perform answer CNow). cbn [cloud_answers].
  unfold ready_fuel at 1. generalize 41%nat as n. intros n. cbn [ready_loop]. rewrite interp_bind, (interp_perform answer CNow). cbn [cloud_answers].
  assert ((clock w + mountReadyTimeout <=? clock w) = false) as -> by (unfold mountReadyTimeout, second; lia).
  unfold mountedDevice. rewrite !interp_bind, (interp_perform answer (CMountedDeviceB _ _)). cbn [cloud_answers].
  rewrite E, Hp, bool_decide_eq_true_2 by done. cbn [interp]. cbn iota. unfold expose. rewrite interp_bind.
  unfold bindBounded. rewrite interp_bind, (interp_perform answer (CBindB _ _ _)). cbn [cloud_answers].
  rewrite E, Hp, bool_decide_eq_true_2 by done. cbn [interp syscallBounded]. cbn iota.
  unfold ready_fuel. generalize 41%nat as k. intros k. cbn [expose_loop]. rewrite interp_bind, (interp_perform answer CNow). cbn [cloud_answers].
  change (clock (push_bind _ _ w)) with (clock w).
  assert ((clock w + mountReadyTimeout <=? clock w) = false) as -> by (unfold mountReadyTimeout, second; lia).
  rewrite interp_bind, (interp_perform answer CInvalidateMounts). cbn [cloud_answers default_reply].
  set (w1 := push_bind (mountPoint mm) (se_path s) w).
  assert (Ht1 : tab w1 !! mountPoint mm = Some [se_path s]).
  { unfold w1, push_bind. cbn. rewrite Ht. apply lookup_insert_eq. }
  rewrite interp_bind, mountUsable_world; [done | exact Ht1 |].
  unfold serves, top. change (live w1) with (live w). rewrite E, Ht1. cbn. by apply bool_decide_eq_true_2.
Qed.

Lemma SweepDeadSessions_world w : live w = None -> (SweepDeadSessions id) @ w = (w, tt).
Proof.
  intros E. unfold SweepDeadSessions. rewrite interp_bind, liveSessions_world. cbn iota zeta.
  rewrite interp_bind, (interp_perform answer (CReadDir _)). cbn [cloud_answers].
  rewrite (session_parent_eq _ (sane_name Hv)). by rewrite !bool_decide_eq_false_2.
Qed.
Lemma SaveVFSName_world n w : (SaveVFSName id n) @ w = (set_vfs_names (<[id := n]> (names w)) w, tt).
Proof. done. Qed.
Lemma warn_world mm w : (warnOnDuplicateVFS mm) @ w = (w, tt).
Proof.
  unfold warnOnDuplicateVFS. rewrite interp_bind. erewrite rpc_world by reflexivity. done.
Qed.

Lemma setFuseFds_world w : setFuseFdsCloexec @ w = (w, tt).
Proof. unfold setFuseFdsCloexec. rewrite interp_bind, (interp_perform answer (CReadDir _)). cbn [cloud_answers]. by rewrite !bool_decide_eq_false_2 by done. Qed.
Lemma hasStale_world mm w : (hasStaleVFSCache mm) @ w = (w, false).
Proof. unfold hasStaleVFSCache. by case_bool_decide. Qed.

Lemma Mount_world gl g w :
  live w = None -> tab w !! staging = None ->
  exists gl' p, p <> "" /\ (Mount gl (manager g)) @ w
    = (Cloud (clock w) (Some (Session p (id +s+ ":"))) (<[staging := [p]]> (tab w)) (dirty w) (uploaded w) (sent w) (marked w)
         (<[id := id]> (names w)), (gl', up g p, Ok tt)).
Proof.
  intros E Ht. unfold Mount, IsMounted. change (mounted (manager g)) with false. rewrite interp_bind. cbn [interp]. cbn iota.
  rewrite interp_bind. unfold MountManager.isMountPoint. change (mountPoint (manager g)) with staging. rewrite isMountPoint_world, Ht.
  rewrite bool_decide_eq_false_2 by apply is_Some_None. rewrite interp_bind. cbn [interp]. cbn iota.
  rewrite interp_bind, ensureExclusive_world by done. cbn iota. rewrite interp_bind. change (vfsName (manager g)) with id.
  rewrite ValidateVFSCache_world. unfold mount_session. unfold mkdirAllBounded.
  rewrite !interp_bind, (interp_perform answer (CMkdirAllB _ _)). cbn [cloud_answers default_reply interp]. cbn iota.
  change (volumeID (manager g)) with id. change (vfsName (manager g)) with id. rewrite interp_bind.
  rewrite SweepDeadSessions_world by done. rewrite interp_bind, newSessionDir_world. cbn iota.
  rewrite interp_bind, CreateNamedS3Config_world. cbn iota.
  rewrite interp_bind, CreateNamedCryptConfig_world by apply (sane_pass Hv). cbn iota.
  destruct (buildVFSOpt gl (manager g)) as [gl' opts]. cbn zeta. rewrite interp_bind.
  set (p := session_dir w). set (w1 := set_live (Some (Session p (id +s+ ":"))) w).
  erewrite rpc_world.
  2: { match goal with |- librclone "mount/mount" ?ps _ = _ =>
         change (librclone "mount/mount" ps w) with (w1, RpcDone 200 BodyEmpty) end. reflexivity. }
  cbn iota. rewrite interp_bind, setFuseFds_world. rewrite interp_bind, SaveVFSName_world. change (vfsName (set_session (manager g) p)) with id.
  rewrite interp_bind, warn_world.
  set (w2 := set_vfs_names (<[id := id]> (names w1)) w1). rewrite interp_bind.
  rewrite (waitForMountReady_world (set_session (manager g) p) w2 (Session p (id +s+ ":"))) by done.
  cbn iota. exists gl', p. split; [apply session_dir_nonempty |]. rewrite interp_bind, hasStale_world. cbn [interp]. unfold push_bind, on_tab, w2, w1. cbn.
  rewrite Ht. done.
Qed.

(** ** The node and the volume's phase *)

Record carries_at (g : option Z) (p : string) (ph : phase) (s : node) (w : cloud) : Prop := Carries
  { c_path : p <> ""; c_sent : sent w = ph_sent ph; c_pend : dirty w = ph_pend ph;
    c_live : live w = if is_up (ph_mode ph) then Some (Session p (id +s+ ":")) else None;
    c_tab : tab w !! staging = if is_up (ph_mode ph) then Some [p] else None;
    c_target : forall t, t ∈ sv_targets V ->
      tab w !! t = if bool_decide (t ∈ pods_of (ph_mode ph)) then Some [p] else None;
    c_named : named w;
    c_manager : mountManagers (s3SyncMgr s) !! id = if is_up (ph_mode ph) then Some (up g p) else None;
    c_draining : bool_decide (id ∈ backgroundDrains (s3SyncMgr s)) = is_draining (ph_mode ph);
    c_task : drain_of id (tasks (s3SyncMgr s)) = match ph_mode ph with
      | Draining _ => Some (DrainTask id) | Resuming => Some (ResumeTask id staging ctx) | _ => None end;
    c_marked : marked w = match ph_mode ph with Off b => b | On _ => false | _ => true end;
    c_pending : match ph_mode ph with
      | Off b => bool_decide (id ∈ pendingDrains (s3SyncMgr s)) = b
      | On _ => id ∉ pendingDrains (s3SyncMgr s)
      | _ => True end }.
Definition carries (ph : phase) (s : node) (w : cloud) : Prop := exists g p, carries_at g p ph s w.

Lemma serves_staging g p ph s w : carries_at g p ph s w -> serves w staging = is_up (ph_mode ph).
Proof.
  intros H. unfold serves, top. rewrite (c_live _ _ _ _ _ H), (c_tab _ _ _ _ _ H).
  destruct (is_up (ph_mode ph)); [| done]. by apply bool_decide_eq_true_2.
Qed.
Lemma serves_target g p ph s w t :
  carries_at g p ph s w -> t ∈ sv_targets V -> t ∈ pods_of (ph_mode ph) -> serves w t = true.
Proof.
  intros H Ht Hp. unfold serves, top. rewrite (c_live _ _ _ _ _ H), (c_target _ _ _ _ _ H t Ht), bool_decide_eq_true_2 by done.
  destruct (ph_mode ph); cbn in Hp |- *; try (by apply elem_of_empty in Hp); by apply bool_decide_eq_true_2.
Qed.

Lemma verify_staging g p ph s w :
  carries_at g p ph s w -> exists r, (verifyS3StagingLive staging) @ w = (w, r) /\ is_ok r = is_up (ph_mode ph).
Proof.
  intros H. rewrite <- (serves_staging _ _ _ _ _ H). apply verify_world. intros l. rewrite (c_tab _ _ _ _ _ H).
  destruct (is_up _); [by intros [= <-] | done].
Qed.

(** *** Mounting *)

Lemma mountS3Volume_world g s w :
  live w = None -> tab w !! staging = None -> named w ->
  exists gl p, p <> "" /\ (mountS3Volume true id staging ctx g s) @ w
    = (Cloud (clock w) (Some (Session p (id +s+ ":"))) (<[staging := [p]]> (tab w)) (dirty w) (uploaded w) (sent w) (marked w)
         (<[id := id]> (names w)), (on_managers (insert id (up g p)) (set_globals gl s), Ok tt)).
Proof.
  intros E Ht Hn. unfold mountS3Volume. rewrite interp_mbind, interp_lift, (sane_secrets Hv). cbn iota.
  rewrite interp_mbind, interp_lift, NewMountManager_world by done. rewrite interp_mbind, interp_gets.
  destruct (Mount_world (rclone_globals s) g w E Ht) as (gl & p & Hp & Hm). exists gl, p. split; [done |].
  rewrite interp_mbind, interp_lift, Hm. cbn iota. rewrite interp_mbind, interp_modify. cbn iota.
  by rewrite interp_mbind, interp_modify.
Qed.

Lemma ClearDrainPending_world w : (ClearDrainPending id) @ w = (set_marked false w, tt).
Proof.
  unfold ClearDrainPending. rewrite interp_bind, (interp_perform answer (CRemove _)). cbn [cloud_answers].
  by rewrite bool_decide_eq_true_2.
Qed.
Lemma SaveDrainPending_world w : (SaveDrainPending id) @ w = (set_marked true w, tt).
Proof.
  unfold SaveDrainPending. rewrite interp_bind, (interp_perform answer (CMkdirAll _)). cbn [cloud_answers default_reply].
  rewrite interp_bind, (interp_perform answer (CWriteFile _ _)). cbn [cloud_answers]. by rewrite bool_decide_eq_true_2.
Qed.

(** A volume that is not mounted is set up, and the record of an unfinished
    drain withdrawn. *)
Lemma setupS3Sync_exact g0 p0 sent pend b fsGroup s w :
  carries_at g0 p0 (Phase sent pend (Off b)) s w ->
  exists s' w', (setupS3Sync true id staging ctx fsGroup s) @ w = (w', (s', Ok tt)) /\ carries (Phase sent pend (On ∅)) s' w'
  /\ forall t, t <> staging -> tab w' !! t = tab w !! t.
Proof.
  intros H. unfold setupS3Sync, waitForBackgroundDrain, isBackgroundDraining.
  rewrite interp_mbind, interp_mbind, interp_gets, (c_draining _ _ _ _ _ H). cbn [is_draining ph_mode negb ret interp]. cbn iota.
  unfold hasPendingDrain. rewrite interp_mbind, interp_gets, (c_pending _ _ _ _ _ H), interp_mbind.
  set (s1 := if b then on_pending (fun p => p ∖ {[id]}) s else s). set (w1 := set_marked false w).
  match goal with |- context [interp _ (?q s) w] => assert ((q s) @ w = (w1, (s1, tt))) as -> end.
  { pose proof (c_marked _ _ _ _ _ H) as Hm. cbn in Hm. destruct b.
    - by rewrite interp_mbind, interp_modify, interp_lift, ClearDrainPending_world.
    - unfold w1, s1. cbn. do 2 f_equal. destruct w; cbn in *; by subst. }
  unfold reexposeLiveSession, lookup_manager. rewrite interp_mbind, interp_mbind, interp_gets.
  assert (mountManagers (s3SyncMgr s1) !! id = None) as ->.
  { pose proof (c_manager _ _ _ _ _ H). by destruct b. }
  cbn [ret interp]. cbn iota. rewrite interp_mbind.
  destruct (mountS3Volume_world fsGroup s1 w1 (c_live _ _ _ _ _ H) (c_tab _ _ _ _ _ H) (c_named _ _ _ _ _ H)) as (gl & p & Hp & ->).
  cbn iota. rewrite interp_mbind. unfold ask. rewrite interp_lift, interp_perform. cbn [cloud_answers]. rewrite interp_mbind, interp_modify.
  eexists _, _. split; [reflexivity |]. split; [| intros t Ht; cbn; by rewrite lookup_insert_ne].
  exists fsGroup, p. destruct H as []. split; try done; cbn in *.
  - by rewrite lookup_insert_eq.
  - intros t Ht. rewrite lookup_insert_ne by (by apply not_eq_sym, (sane_targets Hv t Ht)). by apply c_target0.
  - right. apply lookup_insert_eq.
  - by rewrite lookup_insert_eq.
  - by destruct b.
  - by destruct b.
  - destruct b; cbn; [set_solver |]. by apply (bool_decide_eq_false_1 (id ∈ pendingDrains (s3SyncMgr s))).
Qed.
Lemma setupS3Sync_world g0 p0 sent pend b fsGroup s w :
  carries_at g0 p0 (Phase sent pend (Off b)) s w ->
  exists s' w', (setupS3Sync true id staging ctx fsGroup s) @ w = (w', (s', Ok tt)) /\ carries (Phase sent pend (On ∅)) s' w'.
Proof. intros H. destruct (setupS3Sync_exact _ _ _ _ _ fsGroup _ _ H) as (s' & w' & ? & ? & _). by exists s', w'. Qed.

(** *** Stage and publish *)

Lemma extractFsGroup_world cap w : exists g, (extractFsGroup true ctx cap) @ w = (w, g).
Proof.
  unfold extractFsGroup. destruct (match ctx !! "fsGroup" with Some s => parse_int s | None => None end) as [g |]; [by exists (Some g) |].
  match goal with |- context [match ?x with Some g => Ret _ | None => _ end] => destruct x as [g |] end; [by exists (Some g) |].
  exists None. unfold extractFsGroupFromPod. cbn [negb]. by case_match.
Qed.

Lemma carries_setup f ph s w : carries ph s w -> carries ph (on_setup f s) w.
Proof. intros (g & p & []). exists g, p. by split. Qed.

Definition staged (m : mode) : mode := match m with Off _ => On ∅ | m => m end.

Lemma stage_world ph s w :
  carries ph s w ->
  ph_mode ph <> Resuming ->
  exists s' w', (NodeStageVolume nodeID true stage_of s) @ w = (w', (s', Ok tt))
    /\ carries (Phase (ph_sent ph) (ph_pend ph) (staged (ph_mode ph))) s' w'.
Proof.
  intros (g & p & H) Hm. unfold NodeStageVolume, validateStageVolumeRequest. cbn [st_volume st_staging st_cap st_context stage_of].
  rewrite !bool_decide_eq_false_2 by (apply (sane_staging Hv) || apply (sane_name Hv)). cbn iota.
  rewrite interp_mbind, interp_lift. unfold isAlreadyStaged. rewrite (sane_s3 Hv). cbn [negb]. rewrite interp_bind.
  destruct (verify_staging _ _ _ _ _ H) as ([u | e] & -> & Hr).
  - cbn [interp]. cbn iota. exists s, w. split; [done |]. exists g, p. destruct ph as [sent pend m]. by destruct m.
  - rewrite interp_bind, HostMountsKnown_world. cbn [interp]. cbn iota.
    destruct (extractFsGroup_world (Some (sv_cap V)) w) as [fg Hg].
    unfold prepareVolumeStaging. cbn zeta. rewrite interp_mbind, interp_lift, interp_bind. cbn [st_context stage_of]. rewrite Hg, (sane_s3 Hv).
    cbn [interp]. cbn iota. rewrite interp_mbind. unfold markVolumeSetupInProgress. rewrite interp_modify. cbn iota. rewrite interp_mbind.
    unfold setupS3Volume, ask. rewrite interp_mbind, interp_lift, interp_perform. cbn [cloud_answers default_reply sp_stagingTargetPath sp_fsGroup].
    rewrite interp_mbind. destruct ph as [sent pend [b | pods | pods |]]; cbn in Hr; try done.
    assert (Hs : exists g p, carries_at g p (Phase sent pend (Off b)) (on_setup (fun d => {[id]} ∪ d) s) w) by (apply carries_setup; by exists g, p).
    destruct Hs as (g' & p' & Hs). destruct (setupS3Sync_world _ _ _ _ _ fg _ _ Hs) as (s' & w' & E & H').
    cbn [st_staging stage_of]. rewrite E. cbn iota. cbn [ret interp]. cbn iota.
    rewrite interp_mbind. unfold markVolumeSetupComplete. rewrite interp_modify.
    eexists _, _. split; [reflexivity |]. by apply carries_setup.
Qed.

Lemma ensureVolumeStaged_world ph t ro s w :
  carries ph s w -> ph_mode ph <> Resuming ->
  exists s' w', (ensureVolumeStaged true (publish_of t ro) s) @ w = (w', (s', Ok tt))
    /\ carries (Phase (ph_sent ph) (ph_pend ph) (staged (ph_mode ph))) s' w'.
Proof.
  intros (g & p & H) Hm. unfold ensureVolumeStaged. cbn [pb_volume pb_staging pb_context pb_cap publish_of]. rewrite (sane_s3 Hv).
  rewrite interp_mbind, interp_lift. destruct (verify_staging _ _ _ _ _ H) as ([u | e] & -> & Hr).
  - exists s, w. split; [done |]. exists g, p. destruct ph as [sent pend m]. by destruct m.
  - rewrite interp_mbind, interp_lift, HostMountsKnown_world. cbn [negb].
    unfold restoreS3VolumeStaging, ask. rewrite interp_mbind, interp_lift, interp_perform. cbn [cloud_answers default_reply].
    destruct (extractFsGroup_world (Some (sv_cap V)) w) as [fg Hg]. rewrite interp_mbind, interp_lift, Hg, interp_mbind.
    destruct ph as [sent pend [b | pods | pods |]]; cbn in Hr; try done.
    destruct (setupS3Sync_world _ _ _ _ _ fg _ _ H) as (s' & w' & -> & H'). by exists s', w'.
Qed.

Lemma carries_bound ph t s w g p :
  carries_at g p ph s w -> is_up (ph_mode ph) = true -> t ∈ sv_targets V -> t ∉ pods_of (ph_mode ph) ->
  carries (Phase (ph_sent ph) (ph_pend ph) (with_pods (fun q => {[t]} ∪ q) (ph_mode ph))) s (push_bind t p w).
Proof.
  intros H Hu Ht Hp. pose proof (proj2 (sane_targets Hv t Ht)) as Hne. exists g, p. destruct ph as [sent pend m]. cbn in *.
  pose proof (c_target _ _ _ _ _ H) as Hc. cbn in Hc. destruct H as [].
  split; cbn [ph_sent ph_pend ph_mode] in *; try assumption; try (destruct m; assumption).
  - cbn [push_bind on_tab tab]. rewrite lookup_insert_ne by done. by destruct m.
  - cbn [push_bind on_tab tab]. intros t' Ht'. destruct (decide (t = t')) as [<- | Hn].
    + rewrite lookup_insert_eq, (Hc t Ht), (bool_decide_eq_false_2 (t ∈ pods_of m)) by done. rewrite bool_decide_eq_true_2; [done |].
      destruct m; cbn in *; [done | set_solver | set_solver | done].
    + rewrite lookup_insert_ne, (Hc t' Ht') by done.
      rewrite (bool_decide_ext (t' ∈ pods_of m) (t' ∈ pods_of (with_pods (fun q => {[t]} ∪ q) m))); [done |].
      destruct m; cbn in *; [done | set_solver | set_solver | done].
Qed.

Lemma publish_world ph t ro s w :
  carries ph s w -> ph_mode ph <> Resuming -> t ∈ sv_targets V -> t ∉ pods_of (ph_mode ph) ->
  exists s' w', (NodePublishVolume true (publish_of t ro) s) @ w = (w', (s', Ok tt))
    /\ carries (Phase (ph_sent ph) (ph_pend ph) (with_pods (fun q => {[t]} ∪ q) (staged (ph_mode ph)))) s' w'.
Proof.
  intros H Hm Ht Hp. unfold NodePublishVolume, validatePublishVolumeRequest.
  cbn [pb_volume pb_staging pb_target pb_context pb_cap publish_of].
  rewrite !bool_decide_eq_false_2 by (apply (sane_staging Hv) || apply (sane_name Hv) || by apply (sane_targets Hv)). cbn iota.
  destruct (extractFsGroup_world (Some (sv_cap V)) w) as [fg Hg].
  rewrite interp_mbind, interp_lift, Hg, (sane_s3 Hv). cbn zeta. rewrite interp_mbind.
  unfold markVolumeSetupInProgress. rewrite interp_modify. cbn iota. rewrite interp_mbind.
  set (s0 := on_setup (fun d => {[id]} ∪ d) s). assert (H0 : carries ph s0 w) by by apply carries_setup.
  unfold publish. cbn [pb_volume pb_staging pb_target pb_context pb_readonly publish_of]. cbn zeta. rewrite (sane_s3 Hv).
  destruct (ensureVolumeStaged_world ph t ro s0 w H0 Hm) as (s1 & w1 & E & g & p & H1).
  rewrite interp_mbind, E. cbn iota. rewrite interp_mbind, interp_lift.
  assert (Hu : is_up (staged (ph_mode ph)) = true) by by destruct (ph_mode ph).
  destruct (verify_staging _ _ _ _ _ H1) as ([u | e] & -> & Hr); cbn in Hr; [| congruence]. cbn iota.
  rewrite interp_mbind. match goal with |- context [interp _ (?q s1) w1] => assert ((q s1) @ w1 = (w1, (s1, tt))) as -> by by destruct fg end.
  cbn iota. rewrite interp_mbind, interp_lift, (bindMount_world _ _ _ _ _ _ p).
  2: { unfold top. rewrite (c_tab _ _ _ _ _ H1). cbn. by rewrite Hu. }
  cbn iota. cbn [ret interp]. rewrite interp_mbind. unfold markVolumeSetupComplete. rewrite interp_modify.
  eexists _, _. split; [reflexivity |]. apply carries_setup.
  apply (carries_bound (Phase (ph_sent ph) (ph_pend ph) (staged (ph_mode ph))) t s1 w1 g p H1 Hu Ht).
  cbn. destruct (ph_mode ph); cbn in *; set_solver.
Qed.

(** A volume that waits for its upload is not mounted for a pod meanwhile. *)
Lemma setupS3Sync_resuming g p ph fsGroup s w :
  carries_at g p ph s w -> ph_mode ph = Resuming ->
  exists e, (setupS3Sync true id staging ctx fsGroup s) @ w = (w, (s, Err e)).
Proof.
  intros H Hm. unfold setupS3Sync, waitForBackgroundDrain, isBackgroundDraining.
  rewrite interp_mbind, interp_mbind, interp_gets, (c_draining _ _ _ _ _ H), Hm. cbn [is_draining negb]. cbn iota.
  rewrite interp_mbind. unfold ask. rewrite interp_lift, interp_perform. cbn [cloud_answers default_reply]. cbn iota.
  cbn [ret interp negb]. by eexists.
Qed.

Lemma stage_resuming ph s w :
  carries ph s w -> ph_mode ph = Resuming ->
  exists s' r, (NodeStageVolume nodeID true stage_of s) @ w = (w, (s', r)) /\ answers (Some Internal) r /\ carries ph s' w.
Proof.
  intros (g & p & H) Hm. unfold NodeStageVolume, validateStageVolumeRequest. cbn [st_volume st_staging st_cap st_context stage_of].
  rewrite !bool_decide_eq_false_2 by (apply (sane_staging Hv) || apply (sane_name Hv)). cbn iota.
  rewrite interp_mbind, interp_lift. unfold isAlreadyStaged. rewrite (sane_s3 Hv). cbn [negb]. rewrite interp_bind.
  destruct (verify_staging _ _ _ _ _ H) as ([u | e] & -> & Hr); [by rewrite Hm in Hr |].
  rewrite interp_bind, HostMountsKnown_world. cbn [interp]. cbn iota.
  destruct (extractFsGroup_world (Some (sv_cap V)) w) as [fg Hg].
  unfold prepareVolumeStaging. cbn zeta. rewrite interp_mbind, interp_lift, interp_bind. cbn [st_context stage_of]. rewrite Hg, (sane_s3 Hv).
  cbn [interp]. cbn iota. rewrite interp_mbind. unfold markVolumeSetupInProgress. rewrite interp_modify. cbn iota. rewrite interp_mbind.
  unfold setupS3Volume, ask. rewrite interp_mbind, interp_lift, interp_perform. cbn [cloud_answers default_reply sp_stagingTargetPath sp_fsGroup].
  rewrite interp_mbind. set (s1 := on_setup _ s).
  assert (Hs : carries ph s1 w) by (apply carries_setup; by exists g, p). destruct Hs as (g' & p' & Hs).
  destruct (setupS3Sync_resuming _ _ _ fg _ _ Hs Hm) as [e' E]. cbn [st_staging stage_of]. rewrite E. cbn iota. cbn [ret interp]. cbn iota.
  rewrite interp_mbind. unfold markVolumeSetupComplete. rewrite interp_modify. eexists _, _. split; [reflexivity |].
  split; [by eexists |]. apply carries_setup. by exists g', p'.
Qed.

Lemma publish_resuming ph t ro s w :
  carries ph s w -> ph_mode ph = Resuming -> t ∈ sv_targets V ->
  exists s' r, (NodePublishVolume true (publish_of t ro) s) @ w = (w, (s', r)) /\ answers (Some Internal) r /\ carries ph s' w.
Proof.
  intros H Hm Ht. unfold NodePublishVolume, validatePublishVolumeRequest.
  cbn [pb_volume pb_staging pb_target pb_context pb_cap publish_of].
  rewrite !bool_decide_eq_false_2 by (apply (sane_staging Hv) || apply (sane_name Hv) || by apply (sane_targets Hv)). cbn iota.
  destruct (extractFsGroup_world (Some (sv_cap V)) w) as [fg Hg].
  rewrite interp_mbind, interp_lift, Hg, (sane_s3 Hv). cbn zeta. rewrite interp_mbind.
  unfold markVolumeSetupInProgress. rewrite interp_modify. cbn iota. rewrite interp_mbind.
  set (s1 := on_setup (fun d => {[id]} ∪ d) s). assert (H1 : carries ph s1 w) by by apply carries_setup. destruct H1 as (g & p & H1).
  unfold publish. cbn [pb_volume pb_staging pb_target pb_context pb_readonly publish_of]. cbn zeta. rewrite interp_mbind.
  unfold ensureVolumeStaged. cbn [pb_volume pb_staging pb_context pb_cap publish_of]. rewrite (sane_s3 Hv).
  rewrite interp_mbind, interp_lift. destruct (verify_staging _ _ _ _ _ H1) as ([u | e] & -> & Hr); [by rewrite Hm in Hr |].
  rewrite interp_mbind, interp_lift, HostMountsKnown_world. cbn [negb].
  unfold restoreS3VolumeStaging, ask. rewrite interp_mbind, interp_lift, interp_perform. cbn [cloud_answers default_reply].
  destruct (extractFsGroup_world (Some (sv_cap V)) w) as [fg' Hg']. rewrite interp_mbind, interp_lift, Hg', interp_mbind.
  destruct (setupS3Sync_resuming _ _ _ fg' _ _ H1 Hm) as [e' ->]. cbn iota. cbn [ret interp]. cbn iota.
  rewrite interp_mbind. unfold markVolumeSetupComplete. rewrite interp_modify. eexists _, _. split; [reflexivity |].
  split; [by eexists |]. apply carries_setup. by exists g, p.
Qed.

(** *** Unpublish *)

Lemma unpublish_world ph t s w :
  carries ph s w -> t ∈ sv_targets V ->
  (NodeUnpublishVolume t) @ w = (on_tab (delete t) w, Ok tt)
  /\ carries (Phase (ph_sent ph) (ph_pend ph) (with_pods (fun q => q ∖ {[t]}) (ph_mode ph))) s (on_tab (delete t) w).
Proof.
  intros (g & p & H) Ht. destruct (sane_targets Hv t Ht) as [Hne Hs]. pose proof (c_target _ _ _ _ _ H) as Hc. split.
  { unfold NodeUnpublishVolume. rewrite bool_decide_eq_false_2 by done. rewrite interp_bind, unmountPath_world; [done |].
    rewrite (Hc t Ht). case_bool_decide; [right; by eexists | by left]. }
  exists g, p. destruct ph as [sent pend m]. cbn [ph_sent ph_pend ph_mode] in *. destruct H as [].
  split; cbn [ph_sent ph_pend ph_mode] in *; try assumption; try (destruct m; assumption).
  - cbn [on_tab tab]. rewrite lookup_delete_ne by done. by destruct m.
  - cbn [on_tab tab]. intros t' Ht'. destruct (decide (t = t')) as [<- | Hn].
    + rewrite lookup_delete_eq, bool_decide_eq_false_2; [done |]. destruct m; cbn; set_solver.
    + rewrite lookup_delete_ne, (Hc t' Ht') by done.
      rewrite (bool_decide_ext (t' ∈ pods_of m) (t' ∈ pods_of (with_pods (fun q => q ∖ {[t]}) m))); [done |].
      destruct m; cbn in *; [done | set_solver | set_solver | done].
Qed.

(** *** Unstage *)

Lemma cleanup_world w : tab w !! staging = None -> (cleanupVolumeStaging id staging) @ w = (w, Ok tt).
Proof.
  intros Ht. unfold cleanupVolumeStaging, unmount_staging. rewrite bool_decide_eq_false_2 by apply (sane_staging Hv).
  unfold NodeMounts.isMountPoint. rewrite !interp_bind, isMountPoint_world, Ht, bool_decide_eq_false_2 by apply is_Some_None.
  cbn [negb interp]. cbn iota. unfold Luks.CloseLUKS, Luks.IsLUKSOpened.
  rewrite !interp_bind, (interp_perform answer (CStat _)). cbn [cloud_answers].
  change (path_join ["/dev/mapper"; _]) with (Luks.GetMappedDevicePath (Luks.GenerateMapperName id)).
  rewrite (Luks.mapped_path _ (sane_name Hv)), (bool_decide_eq_false_2 (_ = plugin_dir)) by done. cbn [interp is_ok negb]. cbn iota.
  unfold GetLocalPath, local_root. rewrite !interp_bind, (interp_perform answer (CGetenv _)). cbn [cloud_answers default_reply interp]. cbn iota zeta.
  rewrite interp_bind. unfold detachLoopDevicesFor, loopDevicesFor, runCmdBoundedOutput.
  rewrite !interp_bind, (interp_perform answer (CExec _ _ _)). cbn [cloud_answers].
  match goal with |- context [shell (decode ["losetup"; "-j"; ?f])] => change (decode ["losetup"; "-j"; f]) with (LosetupOf f) end.
  cbn [shell interp]. cbn iota. change (parseLosetupJ "") with (@nil string). cbn [for_each interp].
  rewrite interp_bind, (interp_perform answer (CRemoveAll _)). cbn [cloud_answers].
  rewrite bool_decide_eq_false_2 by apply (sane_apart Hv). unfold top. by rewrite Ht.
Qed.

Lemma getPV_world w : exists r, (getPVByVolumeID true id) @ w = (w, r).
Proof. unfold getPVByVolumeID. cbn [negb]. by eexists. Qed.
Lemma report_world reason w : (report true id reason) @ w = (w, tt).
Proof.
  unfold report, pvcRef. cbn [negb]. rewrite !interp_bind. destruct (getPV_world w) as [r ->]. cbn [interp]. done.
Qed.

Lemma startBackgroundDrain_world s w :
  id ∉ backgroundDrains (s3SyncMgr s) ->
  (startBackgroundDrain id s) @ w = (set_marked true w, (on_drains (fun d => {[id]} ∪ d) s, true)).
Proof.
  intros H. unfold startBackgroundDrain, isBackgroundDraining. rewrite interp_mbind, interp_gets, bool_decide_eq_false_2 by done.
  cbn iota. rewrite interp_mbind, interp_modify. cbn iota. by rewrite interp_mbind, interp_lift, SaveDrainPending_world.
Qed.

Lemma drain_of_app l t :
  drain_of id l = None -> task_volume t = id -> drain_of id (l ++ [t]) = Some t.
Proof.
  unfold drain_of. intros Hl Ht. induction l as [| u l IH]; cbn in *.
  - by rewrite bool_decide_eq_true_2.
  - destruct (bool_decide (task_volume u = id)); [done |]. by apply IH.
Qed.
Lemma drain_of_filter l : drain_of id (List.filter (fun u => negb (bool_decide (task_volume u = id))) l) = None.
Proof.
  unfold drain_of. induction l as [| u l IH]; [done |]. cbn [List.filter].
  destruct (bool_decide (task_volume u = id)) eqn:E; cbn [negb]; [done |]. cbn [List.find]. by rewrite E.
Qed.

Lemma unsent_pend g p ph s w : carries_at g p ph s w -> unsent w = negb (bool_decide (ph_pend ph = [])).
Proof. intros H. unfold unsent. by rewrite (c_pend _ _ _ _ _ H). Qed.

Lemma not_forced b s w :
  (lift (busy <- (if (b : bool) then Ret true else HasUnuploadedData id) ;;
         if (busy : bool) then forceUnstageRequested true id else Ret false) s) @ w = (w, (s, false)).
Proof.
  rewrite interp_lift, interp_bind. destruct b; cbn [interp].
  - by rewrite (sane_force Hv).
  - rewrite HasUnuploadedData_world by apply Hv. destruct (unsent w); [by rewrite (sane_force Hv) | done].
Qed.

(** The outcome of the S3 half of an unstage. *)
Definition refused (r : result unit gerr) : Prop := exists e, r = Err e /\ errors_is e SUnuploadedData = true.

Lemma cleanup_draining g p ph s w :
  carries_at g p ph s w -> is_draining (ph_mode ph) = true ->
  exists r, (cleanupS3Sync nodeID true id staging s) @ w = (w, (s, r)) /\ refused r.
Proof.
  intros H Hd. unfold cleanupS3Sync, isBackgroundDraining. rewrite interp_mbind, interp_gets, (c_draining _ _ _ _ _ H), Hd.
  cbn iota. rewrite interp_mbind, (not_forced true). eexists. split; [reflexivity |]. eexists. split; [reflexivity |]. done.
Qed.

Lemma cleanup_off g p sent pend b s w :
  carries_at g p (Phase sent pend (Off b)) s w ->
  exists s' w' r, (cleanupS3Sync nodeID true id staging s) @ w = (w', (s', r))
    /\ match pend with
       | [] => r = Ok tt /\ s' = s /\ w' = w
       | _ => refused r /\ carries (Phase sent pend Resuming) s' w'
       end.
Proof.
  intros H. unfold cleanupS3Sync, isBackgroundDraining, lookup_manager. rewrite interp_mbind, interp_gets, (c_draining _ _ _ _ _ H).
  cbn [is_draining ph_mode]. rewrite interp_mbind, (not_forced false). cbn iota.
  rewrite interp_mbind, interp_gets, (c_manager _ _ _ _ _ H). cbn [is_up ph_mode]. rewrite interp_mbind.
  rewrite bool_decide_eq_false_2 by apply (sane_staging Hv).
  rewrite interp_lift, HasUnuploadedData_world by apply Hv. rewrite (unsent_pend _ _ _ _ _ H). cbn [ph_pend].
  destruct pend as [| x pend]; cbn iota.
  { rewrite bool_decide_eq_true_2 by done. cbn [negb]. eexists _, _, _. split; [reflexivity |]. by repeat split. }
  rewrite bool_decide_eq_false_2 by done. cbn [negb]. rewrite interp_mbind. unfold resumeStrandedDrain.
  rewrite bool_decide_eq_false_2 by apply (sane_staging Hv).
  rewrite interp_mbind, interp_lift, (sane_context Hv). cbn iota. rewrite interp_mbind.
  rewrite startBackgroundDrain_world by (apply (bool_decide_eq_false_1 _ (c_draining _ _ _ _ _ H))).
  cbn [negb]. rewrite interp_mbind, interp_lift. unfold reportUnuploadedData. rewrite report_world. cbn iota.
  unfold spawn. rewrite interp_modify. eexists _, _, _. split; [reflexivity |]. split; [by eexists |].
  exists g, p. destruct H as []. split; cbn [ph_sent ph_pend ph_mode] in *; try assumption; try done; cbn.
  - by apply bool_decide_eq_true_2, elem_of_union_l, elem_of_singleton.
  - by apply drain_of_app.
Qed.

Lemma flush_up g p : wrap64 (writeBackWait (up g p) * second) = flush.
Proof. done. Qed.

(** The manager's unmount, where the pending writes fit in the budget. *)
Definition mounted_at (p : string) (sent pend : list string) w : Prop :=
  p <> "" /\ live w = Some (Session p (id +s+ ":")) /\ tab w !! staging = Some [p]
  /\ Cloud.sent w = sent /\ dirty w = pend /\ named w.
Lemma carries_mounted g p ph s w :
  carries_at g p ph s w -> is_up (ph_mode ph) = true -> mounted_at p (ph_sent ph) (ph_pend ph) w.
Proof. intros [] Hu. rewrite Hu in *. done. Qed.

Lemma unmount_up g p sent pend w budget :
  mounted_at p sent pend w ->
  flush + (Z.of_nat (length pend) + 2) * second <= budget ->
  exists t m mm', (unmount (up g p) budget) @ w
    = (Cloud t None (delete staging (tab w)) [] [] (sent ++ pend) (marked w) m, (mm', true))
    /\ (m !! id = None \/ m !! id = Some id).
Proof.
  intros (Hp & Hl & Ht & <- & <- & Hnm) Hb.
  destruct (unmount_world id pvs classes secrets (Session p (id +s+ ":")) (up g p) budget w) as (t & m & mm' & Hr & Hn); try done.
  - apply (sane_name Hv).
  - rewrite flush_up. apply (sane_flush Hv).
  - exists t, m, mm'. split; [exact Hr |].
    destruct Hn as [Hn | Hn]; [rewrite <- Hn; destruct Hnm; auto | by left].
Qed.

Lemma cleanup_on g p sent pend pods s w :
  carries_at g p (Phase sent pend (On pods)) s w -> pods ∩ sv_targets V = ∅ ->
  exists s' w' r, (cleanupS3Sync nodeID true id staging s) @ w = (w', (s', r))
    /\ match pend with
       | [] => r = Ok tt /\ carries (Phase sent [] (Off false)) s' w'
       | _ => refused r /\ carries (Phase sent pend (Draining ∅)) s' w'
       end.
Proof.
  intros H Hpods. unfold cleanupS3Sync, isBackgroundDraining, lookup_manager. rewrite interp_mbind, interp_gets, (c_draining _ _ _ _ _ H).
  cbn [is_draining ph_mode]. rewrite interp_mbind, (not_forced false). cbn iota.
  rewrite interp_mbind, interp_gets, (c_manager _ _ _ _ _ H). cbn [is_up ph_mode]. rewrite interp_mbind, interp_lift.
  assert (Htg : forall t, t ∈ sv_targets V -> tab w !! t = None).
  { intros t Ht. rewrite (c_target _ _ _ _ _ H t Ht), bool_decide_eq_false_2; [done |]. cbn. set_solver. }
  rewrite (IsUploadQueueEmpty_world _ _ _ _ (Session p (id +s+ ":"))).
  2: { apply (c_live _ _ _ _ _ H). } 2: { change (mountPoint (up g p)) with staging. rewrite (c_tab _ _ _ _ _ H). by eexists. }
  rewrite (unsent_pend _ _ _ _ _ H). cbn [ph_pend]. destruct pend as [| x pend]; cbn iota.
  - rewrite bool_decide_eq_true_2 by done. cbn [negb]. rewrite interp_mbind, interp_lift. unfold UnmountWithin.
    destruct (unmount_up g p sent [] w ShortDrainWait) as (t & m & mm' & -> & Hn); [by apply (carries_mounted _ _ _ _ _ H) | |].
    { cbn [length]. pose proof (sane_flush Hv). unfold ShortDrainWait, second in *. lia. }
    cbn iota. rewrite interp_mbind, interp_modify. cbn [snd negb andb]. eexists _, _, _. split; [reflexivity |]. split; [done |].
    exists g, p. destruct H as []. split; cbn [ph_sent ph_pend ph_mode] in *; try assumption; try done; cbn.
    + by rewrite app_nil_r.
    + apply lookup_delete_eq.
    + intros t' Ht'. rewrite lookup_delete_ne by (by apply not_eq_sym, (sane_targets Hv)). by rewrite Htg, bool_decide_eq_false_2.
    + apply lookup_delete_eq.
    + by apply bool_decide_eq_false_2.
  - rewrite bool_decide_eq_false_2 by done. cbn [negb]. rewrite interp_mbind.
    rewrite startBackgroundDrain_world by (apply (bool_decide_eq_false_1 _ (c_draining _ _ _ _ _ H))).
    cbn iota. rewrite interp_mbind. unfold spawn. rewrite interp_modify. eexists _, _, _. split; [reflexivity |]. split; [by eexists |].
    exists g, p. destruct H as []. split; cbn [ph_sent ph_pend ph_mode] in *; try assumption; try done; cbn.
    + by apply bool_decide_eq_true_2, elem_of_union_l, elem_of_singleton.
    + by apply drain_of_app.
Qed.

(** An unstage is refused exactly while something is pending. *)
Lemma unstage_world ph ph' b f s w :
  carries ph s w -> next V f ph Unstage = Some (ph', b) ->
  exists s' w' r, (NodeUnstageVolume nodeID true id staging s) @ w = (w', (s', r))
    /\ answers b r /\ carries ph' s' w'.
Proof.
  intros (g & p & H) Hn. unfold NodeUnstageVolume, validateUnstageVolumeRequest.
  rewrite !bool_decide_eq_false_2 by (apply (sane_staging Hv) || apply (sane_name Hv)). cbn iota. rewrite interp_mbind.
  assert (Hc : exists s' w' r, (cleanupS3Sync nodeID true id staging s) @ w = (w', (s', r))
            /\ carries ph' s' w' /\ match b with None => r = Ok tt /\ tab w' !! staging = None | Some c => c = FailedPrecondition /\ refused r end).
  { destruct ph as [sent pend [m | pods | pods |]]; cbn [next] in Hn.
    - destruct (cleanup_off _ _ _ _ _ _ _ H) as (s' & w' & r & E & Hr). exists s', w', r. split; [done |].
      destruct pend; injection Hn as <- <-.
      + destruct Hr as (-> & -> & ->). split; [by exists g, p |]. split; [done |]. apply (c_tab _ _ _ _ _ H).
      + destruct Hr. by split.
    - assert (pods = ∅ /\ ph' = Phase sent pend match pend with [] => Off false | _ => Draining ∅ end /\ b = match pend with [] => None | _ => Some FailedPrecondition end)
        as (-> & -> & ->) by (destruct pend; case_bool_decide; by simplify_eq).
      destruct (cleanup_on _ _ _ _ _ _ _ H) as (s' & w' & r & E & Hr); [set_solver |]. exists s', w', r. split; [done |].
      destruct pend.
      + destruct Hr as (-> & g' & p' & H'). split; [by exists g', p' |].
        split; [done |]. apply (c_tab _ _ _ _ _ H').
      + destruct Hr. by split.
    - destruct (cleanup_draining _ _ _ _ _ H) as (r & E & Hr); [done |]. exists s, w, r.
      assert (ph' = Phase sent pend (Draining pods) /\ b = Some FailedPrecondition) as [-> ->] by (destruct pend; by simplify_eq).
      split; [done |]. split; [by exists g, p | done].
    - destruct (cleanup_draining _ _ _ _ _ H) as (r & E & Hr); [done |]. exists s, w, r.
      assert (ph' = Phase sent pend Resuming /\ b = Some FailedPrecondition) as [-> ->] by (destruct pend; by simplify_eq).
      split; [done |]. split; [by exists g, p | done]. }
  destruct Hc as (s' & w' & r & -> & Hc & Hr). exists s', w'. destruct b as [c |].
  - destruct Hr as [-> (e & -> & ->)]. eexists. split; [reflexivity |]. split; [by eexists | done].
  - destruct Hr as [-> Ht]. cbn iota. rewrite interp_mbind, interp_lift, cleanup_world by done. by exists (Ok tt).
Qed.

(** *** The drain goroutine *)

Definition drain_done (s : node) : node :=
  on_tasks (List.filter (fun u => negb (bool_decide (task_volume u = id))))
    (on_pending (fun p => p ∖ {[id]}) (on_drains (fun d => d ∖ {[id]}) (on_managers (delete id) s))).

Lemma finish_world s w :
  (finishBackgroundDrain id true s) @ w
  = (set_marked false w, (on_pending (fun p => p ∖ {[id]}) (on_drains (fun d => d ∖ {[id]}) s), tt)).
Proof.
  unfold finishBackgroundDrain. rewrite interp_mbind, interp_modify. cbn iota. rewrite interp_mbind, interp_modify. cbn iota.
  by rewrite interp_lift, ClearDrainPending_world.
Qed.

(** Both drains end with everything in the bucket; pods still on the mount are
    left on a dead one. *)
Lemma drain_world g p sent pend pods s w :
  carries_at g p (Phase sent pend (Draining pods)) s w -> drainable flush pend = true ->
  exists t m, (run_drain true id s) @ w
    = (Cloud t None (delete staging (tab w)) [] [] (sent ++ pend) false m, (drain_done s, tt))
    /\ (m !! id = None \/ m !! id = Some id).
Proof.
  intros H Hb. unfold run_drain. rewrite interp_mbind, interp_gets, (c_task _ _ _ _ _ H). cbn [ph_mode].
  unfold finish_task. rewrite interp_mbind. cbn [run_task]. unfold drain_task, lookup_manager.
  rewrite interp_mbind, interp_gets, (c_manager _ _ _ _ _ H). cbn [is_up ph_mode]. rewrite interp_mbind, interp_lift. unfold Unmount.
  unfold drainable in Hb. apply Z.leb_le in Hb.
  destruct (unmount_up g p sent pend w maxDrainWait (carries_mounted _ _ _ _ _ H eq_refl) Hb) as (t & m & mm' & -> & Hn). cbn iota. cbn [snd].
  rewrite interp_mbind, interp_modify. cbn iota. rewrite interp_mbind. cbn [ret interp]. cbn iota.
  rewrite finish_world. cbn iota. rewrite interp_modify. exists t, m. split; [done | exact Hn].
Qed.

Lemma resume_world g p sent pend s w :
  carries_at g p (Phase sent pend Resuming) s w -> drainable flush pend = true ->
  exists t m mm gl, (run_drain true id s) @ w
    = (Cloud t None (delete staging (tab w)) [] [] (sent ++ pend) false m, (drain_done (on_managers (insert id mm) (set_globals gl s)), tt))
    /\ (m !! id = None \/ m !! id = Some id).
Proof.
  intros H Hb. unfold run_drain. rewrite interp_mbind, interp_gets, (c_task _ _ _ _ _ H). cbn [ph_mode].
  unfold finish_task. rewrite interp_mbind. cbn [run_task]. unfold resume_task. rewrite interp_mbind.
  destruct (mountS3Volume_world None s w (c_live _ _ _ _ _ H) (c_tab _ _ _ _ _ H) (c_named _ _ _ _ _ H)) as (gl & p1 & Hp1 & ->).
  cbn iota. unfold lookup_manager. rewrite interp_mbind, interp_gets. cbn [on_managers on_s3 set_globals s3SyncMgr mountManagers].
  rewrite lookup_insert_eq. rewrite interp_mbind, interp_lift. unfold Unmount.
  unfold drainable in Hb. apply Z.leb_le in Hb.
  match goal with |- context [interp _ (unmount _ _) ?w1] =>
    destruct (unmount_up None p1 sent pend w1 maxDrainWait) as (t & m & mm' & -> & Hn) end;
    [| exact Hb |].
  { split; [done |]. split; [done |]. cbn. split; [by apply lookup_insert_eq |]. rewrite (c_sent _ _ _ _ _ H), (c_pend _ _ _ _ _ H).
    split; [done |]. split; [done |]. right. apply lookup_insert_eq. }
  cbn iota. cbn [snd tab marked]. rewrite interp_mbind, interp_modify. cbn iota. rewrite interp_mbind. cbn [ret interp]. cbn iota.
  rewrite (sane_kubelet Hv). rewrite interp_mbind. cbn [ret interp]. cbn iota. rewrite finish_world. cbn iota. rewrite interp_modify.
  exists t, m, (up None p1), gl. split; [| exact Hn]. by rewrite delete_insert_eq.
Qed.

(** Where no pod is left, the volume is off the node and all of it sent. *)
Lemma drained_world sent pend m s w :
  carries (Phase sent pend m) s w -> is_draining m = true -> pods_of m ∩ sv_targets V = ∅ ->
  drainable flush pend = true ->
  exists s' w', (run_drain true id s) @ w = (w', (s', tt)) /\ carries (Phase (sent ++ pend) [] (Off false)) s' w'.
Proof.
  intros (g & p & H) Hd Hpods Hb.
  assert (Hr : exists t n s1, (run_drain true id s) @ w
      = (Cloud t None (delete staging (tab w)) [] [] (sent ++ pend) false n, (drain_done s1, tt))
      /\ (n !! id = None \/ n !! id = Some id)).
  { destruct m as [b | pods | pods |]; try done.
    - destruct (drain_world _ _ _ _ _ _ _ H Hb) as (t & n & E & Hn). by exists t, n, s.
    - destruct (resume_world _ _ _ _ _ _ H Hb) as (t & n & mm & gl & E & Hn). by eexists t, n, _. }
  destruct Hr as (t & n & s1 & -> & Hn). eexists _, _. split; [reflexivity |].
  exists g, p. split; cbn [ph_sent ph_pend ph_mode is_up pods_of is_draining live tab Cloud.sent dirty marked]; try done.
  - apply (c_path _ _ _ _ _ H).
  - apply lookup_delete_eq.
  - intros t' Ht'. rewrite lookup_delete_ne by (by apply not_eq_sym, (sane_targets Hv)).
    rewrite (c_target _ _ _ _ _ H t' Ht'). cbn [ph_mode]. by rewrite !bool_decide_eq_false_2 by set_solver.
  - cbn. by rewrite lookup_delete_eq.
  - apply bool_decide_eq_false_2. cbn. set_solver.
  - apply drain_of_filter.
  - apply bool_decide_eq_false_2. cbn. set_solver.
Qed.

(** *** Restarts, time, and the pods *)

Lemma reboot_world ph s w :
  carries ph s w ->
  exists s' w', (loadPendingDrains empty_node) @ (reboot w) = (w', (s', tt))
    /\ carries (Phase (ph_sent ph) (ph_pend ph) (Off match ph_mode ph with Off b => b | On _ => false | _ => true end)) s' w'.
Proof.
  intros (g & p & H). unfold loadPendingDrains. rewrite interp_mbind, interp_lift. unfold ListDrainPending.
  rewrite interp_bind, (interp_perform answer (CReadDir _)). cbn [cloud_answers].
  rewrite !(bool_decide_eq_false_2 (drainPendingDir = _)), (bool_decide_eq_true_2 (drainPendingDir = _)) by done.
  cbn [interp marked reboot]. cbn iota. rewrite interp_modify. eexists _, _. split; [reflexivity |].
  exists g, p. pose proof (c_marked _ _ _ _ _ H) as Hm. destruct H as [].
  split; cbn [ph_sent ph_pend ph_mode is_up pods_of is_draining] in *; try assumption; try done.
  rewrite Hm. destruct (match ph_mode ph with Off b => b | On _ => false | _ => true end); cbn.
  - apply bool_decide_eq_true_2. set_solver.
  - apply bool_decide_eq_false_2. set_solver.
Qed.

Lemma wait_world d ph s w :
  carries ph s w -> 0 <= d ->
  let n := if is_up (ph_mode ph) then uploads d else O in
  carries (Phase (ph_sent ph ++ take n (ph_pend ph)) (drop n (ph_pend ph)) (ph_mode ph)) s (pass d w).
Proof.
  intros (g & p & H) Hd n. exists g, p. assert (match live w with Some _ => uploads d | None => O end = n) as En.
  { unfold n. rewrite (c_live _ _ _ _ _ H). by destruct (is_up _). }
  destruct H as []. split; cbn [ph_sent ph_pend ph_mode] in *; try assumption.
  - unfold pass. cbn [Cloud.sent]. by rewrite En, c_sent0, c_pend0.
  - unfold pass. cbn [dirty]. by rewrite En, c_pend0.
Qed.

Lemma write_world x t ph s w :
  carries ph s w -> t ∈ sv_targets V -> t ∈ pods_of (ph_mode ph) ->
  serves w t = true /\ carries (Phase (ph_sent ph) (ph_pend ph ++ [x]) (ph_mode ph)) s (write_item x w).
Proof.
  intros (g & p & H) Ht Hp. split; [by eapply serves_target |]. exists g, p. destruct H as [].
  split; cbn [ph_sent ph_pend ph_mode] in *; try assumption. cbn. by rewrite c_pend0.
Qed.

(** Every allowed event ends as the machine says, and leaves the node carrying
    the next phase. *)
Lemma handle_next ph ph' b e s w :
  carries ph s w -> next V flush ph e = Some (ph', b) ->
  exists s' w' r, handle e (s, w) = ((s', w'), r) /\ answers b r /\ carries ph' s' w'.
Proof.
  intros H Hn. destruct e as [| t ro | t | | | | d | t x].
  - destruct ph as [sent pend m]. assert (m = Resuming \/ m <> Resuming) as [-> | Em] by (destruct m; auto).
    + destruct (stage_resuming _ _ _ H eq_refl) as (s' & r & E & Hr & H'). cbn [handle]. rewrite E.
      injection Hn as <- <-. by eexists _, _, _.
    + destruct (stage_world _ _ _ H Em) as (s' & w' & E & H'). cbn [handle]. rewrite E. eexists _, _, _. split; [reflexivity |].
      assert (ph' = Phase sent pend (staged m) /\ b = None) as [-> ->]; [| done].
      cbn [next] in Hn. destruct m; cbn in *; by simplify_eq.
  - destruct ph as [sent pend m]. cbn [next] in Hn. case_bool_decide as Ht; [| done]. destruct Ht as [Ht Hp].
    assert (m = Resuming \/ m <> Resuming) as [-> | Em] by (destruct m; auto).
    + destruct (publish_resuming _ t ro _ _ H eq_refl Ht) as (s' & r & E & Hr & H'). cbn [handle]. rewrite E.
      injection Hn as <- <-. by eexists _, _, _.
    + destruct (publish_world _ t ro _ _ H Em Ht Hp) as (s' & w' & E & H'). cbn [handle]. rewrite E.
      eexists _, _, _. split; [reflexivity |].
      assert (ph' = Phase sent pend (with_pods (fun q => {[t]} ∪ q) (staged m)) /\ b = None) as [-> ->]; [| done].
      destruct m; cbn in *; simplify_eq; try done. by rewrite union_empty_r_L.
  - destruct ph as [sent pend m]. cbn [next] in Hn. case_bool_decide as Ht; [| done]. injection Hn as <- <-.
    destruct (unpublish_world _ t _ _ H Ht) as [E H']. cbn [handle]. rewrite E. by eexists _, _, _.
  - destruct (unstage_world _ _ _ _ _ _ H Hn) as (s' & w' & r & E & Hr & H'). cbn [handle]. rewrite E. by eexists _, _, _.
  - destruct ph as [sent pend m]. cbn [next] in Hn.
    destruct (is_draining m && bool_decide (pods_of m = ∅) && drainable _ pend) eqn:Ed; [| done]. injection Hn as <- <-.
    apply andb_prop in Ed as [[Ed Ep]%andb_prop Eb]. apply bool_decide_eq_true_1 in Ep.
    destruct (drained_world _ _ _ _ _ H Ed ltac:(rewrite Ep; set_solver) Eb) as (s' & w' & E & H').
    cbn [handle]. rewrite E. by eexists _, _, _.
  - destruct (reboot_world _ _ _ H) as (s' & w' & E & H'). cbn [handle]. rewrite E. eexists _, _, _. split; [reflexivity |].
    destruct ph as [sent pend m]. cbn [next] in Hn. by injection Hn as <- <-.
  - destruct ph as [sent pend m]. cbn [next] in Hn. destruct (0 <=? d) eqn:Ed; [| done]. injection Hn as <- <-. bools.
    cbn [handle]. eexists _, _, _. split; [reflexivity |]. split; [done |]. by apply (wait_world d _ _ _ H).
  - destruct ph as [sent pend m]. cbn [next] in Hn. case_bool_decide as Ht; [| done]. injection Hn as <- <-. destruct Ht as [Ht Hp].
    destruct (write_world x t _ _ _ H Ht Hp) as [E H']. cbn [handle]. rewrite E. by eexists _, _, _.
Qed.

Lemma handle_all_next ph ph' codes evs s w :
  carries ph s w -> lifetime V flush ph evs = Some (ph', codes) ->
  exists s' w' rs, handle_all evs (s, w) = ((s', w'), rs) /\ Forall2 answers codes rs /\ carries ph' s' w'.
Proof.
  revert ph codes s w. induction evs as [| e evs IH]; intros ph codes s w H; cbn [lifetime handle_all].
  - intros [= <- <-]. by exists s, w, [].
  - intros Hl. destruct (next V flush ph e) as [[ph1 b] |] eqn:E; [| done]. cbn in Hl.
    destruct (lifetime V flush ph1 evs) as [[ph2 bs] |] eqn:El; [| done]. cbn in Hl. injection Hl as <- <-.
    destruct (handle_next _ _ _ _ _ _ H E) as (s1 & w1 & r & -> & Hr & H1).
    destruct (IH _ _ _ _ H1 El) as (s2 & w2 & rs & -> & Hrs & H2). exists s2, w2, (r :: rs).
    split; [done |]. split; [by constructor | done].
Qed.

End steps.

(** C4: nothing written to an S3 volume is lost, and it is given up only when
    all of it is in the bucket.  On a node whose commands and rclone do what
    they say, for every sequence of stage, publish, unpublish and unstage
    calls, pod writes, passing time, ends of drains and restarts of the node
    that the volume's machine allows: each call succeeds or is refused as the
    machine says; what reached the bucket followed by what the cache still
    holds is what was there before followed by what was written, in order; a
    successful unstage leaves nothing in the cache; and every pod that has the
    volume is served. *)
Theorem s3_volume_lifecycle ph ph' codes evs s w :
  sane -> carries ph s w -> lifetime V flush ph evs = Some (ph', codes) ->
  let '((s', w'), rs) := handle_all evs (s, w) in
  Forall2 answers codes rs /\ carries ph' s' w'
  /\ Cloud.sent w' ++ dirty w' = Cloud.sent w ++ dirty w ++ written evs
  /\ (list.last evs = Some Unstage -> list.last rs = Some (Ok tt) -> dirty w' = [])
  /\ (forall t, t ∈ sv_targets V -> t ∈ pods_of (ph_mode ph') -> serves w' t = true).
Proof.
  intros Hv H Hl. destruct (handle_all_next Hv _ _ _ _ _ _ H Hl) as (s' & w' & rs & -> & Hr & g' & p' & H').
  destruct H as (g & p & H). split; [done |]. split; [by exists g', p' |]. split; [| split].
  - rewrite (c_sent _ _ _ _ _ H'), (c_pend _ _ _ _ _ H'), (c_sent _ _ _ _ _ H), (c_pend _ _ _ _ _ H).
    by eapply lifetime_conserves.
  - intros He Hok. rewrite (c_pend _ _ _ _ _ H'). eapply lifetime_unstaged; [exact Hl | exact He |].
    eapply answers_last; [exact Hr | exact Hok].
  - intros t Ht Hp. by eapply serves_target.
Qed.

(** C7: an unstage that is refused does not stay so.  When the pods are gone and
    the node holds writes that six hours can upload, then however often and in
    whatever order the unstage is asked for and the node restarts: every unstage
    before the drain is through is refused with FAILED_PRECONDITION; and when
    the drain that the last of them started ends, the next one succeeds, with
    everything in the bucket in order, the cache empty and the session gone.  On
    a node whose commands and rclone do what they say (the world of Cloud). *)
Theorem unstage_completes l sent pend m s w :
  sane -> carries (Phase sent pend m) s w -> pods_of m = ∅ -> pend <> [] -> drainable flush pend = true ->
  forallb asks_again l = true ->
  let '((s', w'), rs) := handle_all (l ++ [Unstage; Drained; Unstage]) (s, w) in
  Forall2 answers (map refusal l ++ [Some FailedPrecondition; None; None]) rs
  /\ Cloud.sent w' = sent ++ pend /\ dirty w' = [] /\ live w' = None
  /\ carries (Phase (sent ++ pend) [] (Off false)) s' w'.
Proof.
  intros Hv H Hp Hne Hb Hl. set (evs := l ++ _).
  destruct (handle_all_next Hv _ _ _ evs _ _ H (lifetime_completes V flush sent pend m l Hp Hne Hb Hl))
    as (s' & w' & rs & -> & Hr & g & p & H').
  split; [done |]. split; [| split; [| split]].
  - apply (c_sent _ _ _ _ _ H').
  - apply (c_pend _ _ _ _ _ H').
  - apply (c_live _ _ _ _ _ H').
  - by exists g, p.
Qed.

(** C38: the drain of a volume takes its mount away from a pod that came back.
    While a drain waits for the uploads, the staging path is still mounted, so
    a stage call finds the volume staged and a publish binds it into the pod;
    when the drain is through it ends the session, and the pod, which nobody
    unpublished, is left on a dead mount that no manager knows of. *)
Theorem returning_pod_loses_its_mount sent pend t ro s w :
  sane -> carries (Phase sent pend (Draining ∅)) s w -> t ∈ sv_targets V -> drainable flush pend = true ->
  let '((s', w'), rs) := handle_all [Stage; Publish t ro; Drained] (s, w) in
  rs = [Ok tt; Ok tt; Ok tt] /\ is_Some (tab w' !! t) /\ serves w' t = false
  /\ mountManagers (s3SyncMgr s') !! id = None.
Proof.
  intros Hv H Ht Hb.
  destruct (stage_world Hv _ _ _ H ltac:(done)) as (s1 & w1 & E1 & H1). cbn [ph_sent ph_pend ph_mode staged] in H1.
  destruct (publish_world Hv _ t ro _ _ H1 ltac:(done) Ht ltac:(cbn; set_solver)) as (s2 & w2 & E2 & g & p & H2).
  cbn [ph_sent ph_pend ph_mode staged with_pods] in H2.
  destruct (drain_world Hv _ _ _ _ _ _ _ H2 Hb) as (tm & nm & E3 & _).
  assert (F1 : handle Stage (s, w) = ((s1, w1), Ok tt)) by (cbn [handle]; by rewrite E1).
  assert (F2 : handle (Publish t ro) (s1, w1) = ((s2, w2), Ok tt)) by (cbn [handle]; by rewrite E2).
  cbn [handle_all]. rewrite F1, F2. cbn [handle]. rewrite E3. split; [done |].
  pose proof (c_target _ _ _ _ _ H2 t Ht) as Hc. cbn [ph_mode pods_of] in Hc. rewrite bool_decide_eq_true_2 in Hc by set_solver.
  split; [| split].
  - cbn [tab]. rewrite lookup_delete_ne by (by apply not_eq_sym, (sane_targets Hv)). by rewrite Hc.
  - done.
  - cbn. by rewrite lookup_delete_eq.
Qed.

(** Where the write-back delay takes all of the short wait, an empty queue is
    never confirmed: every first unstage of a clean volume ends in a remount and
    a second drain. *)
Theorem slow_write_back_never_confirms mm w :
  ShortDrainWait <= wrap64 (writeBackWait mm * second) ->
  (waitForPendingUploads mm ShortDrainWait) @ w = (pass ShortDrainWait w, false).
Proof.
  intros Hf. unfold waitForPendingUploads. change (ShortDrainWait <=? 0) with false. cbn iota.
  rewrite interp_bind, (interp_perform answer CNow). cbn [cloud_answers]. cbn zeta.
  rewrite Z.min_r by done. rewrite interp_bind, (interp_perform answer (CSleep _)). cbn [cloud_answers].
  unfold wait_fuel. cbn [wait_loop]. rewrite interp_bind, (interp_perform answer CNow). cbn [cloud_answers].
  change (clock (pass ShortDrainWait w)) with (clock w + ShortDrainWait). by rewrite Z.leb_refl.
Qed.


End volume.

(** ** A volume and its life *)

Definition demo_context : gmap string string := {[StorageBackendParam := "s3"; VFSWriteBackParam := "5s"]}.
Definition demo_pvs : list pv :=
  [PV "pvc-1" ∅ "s3" (Some (CSISource DriverName "pvc-1" (Some demo_context))) None].
Definition demo_classes : gmap string (gmap string string) :=
  {["s3" := {[SecretNameKey := "keys"; SecretNamespaceKey := "kube-system";
              S3SecretName := "bucket"; S3SecretNamespace := "kube-system"]}]}.
Definition demo_secrets : gmap (string * string) (gmap string string) :=
  {[("kube-system", "keys") := {["passphrase" := "secret"]};
    ("kube-system", "bucket") := {[S3BucketKey := "data"; S3RegionKey := "eu"; S3AccessKeyIDKey := "id"; S3SecretAccessKeyKey := "key"]}]}.
Definition demo_volume : s3_volume :=
  S3Volume "pvc-1" "/staging/pvc-1" (Capability (Some (MountVolume "" [] "")) SINGLE_NODE_WRITER) demo_context
    {["/pods/a"; "/pods/b"]}
    (MkVolumeSecrets "secret" "passphrase" "data" "eu" "" false "id" "key" "keys" "kube-system" "bucket" "kube-system").
Definition bare_node : cloud := Cloud 0 None ∅ [] [] [] false ∅.

Lemma demo_sane : sane demo_pvs demo_classes demo_secrets demo_volume.
Proof.
  split; try done.
  - apply (bool_decide_eq_true_1 (_ ∉ _)). by vm_compute.
  - intros t. cbn [sv_targets demo_volume]. rewrite elem_of_union, !elem_of_singleton. by intros [-> | ->].
Qed.
Lemma bare_carries : carries demo_volume (Phase [] [] (Off false)) empty_node bare_node.
Proof. exists None, "/session". split; try done. by left. Qed.

(** A pod writes; the volume is asked back, the node restarts with the upload
    unfinished, and the volume is staged for another pod. *)
Definition demo_life : list life_event :=
  [Stage; Publish "/pods/a" false; Write "/pods/a" "x"; Write "/pods/a" "y"; Wait second; Unpublish "/pods/a"; Unstage; Unstage;
   Reboot; Unstage; Stage; Drained; Unstage; Stage; Publish "/pods/b" true].
Definition demo_end : phase := Phase ["x"; "y"] [] (On {["/pods/b"]}).

Lemma s3_volume_lifecycle_witness :
  let '((s', w'), rs) := handle_all demo_pvs demo_classes demo_secrets "node-a" demo_volume demo_life (empty_node, bare_node) in
  Cloud.sent w' ++ dirty w' = ["x"; "y"] /\ serves w' "/pods/b" = true.
Proof.
  pose proof (s3_volume_lifecycle demo_pvs demo_classes demo_secrets "node-a" demo_volume (Phase [] [] (Off false))
    demo_end
    [None; None; None; None; None; None; Some FailedPrecondition; Some FailedPrecondition; None; Some FailedPrecondition;
     Some Internal; None; None; None; None]
    demo_life empty_node bare_node demo_sane bare_carries ltac:(vm_compute; reflexivity)) as H.
  destruct (handle_all _ _ _ _ _ _ _) as [[s' w'] rs]. destruct H as (_ & _ & H & _ & Hs). split; [exact H |].
  apply Hs; cbn; set_solver.
Defined.

Lemma unstage_completes_witness :
  exists s w, let '((s', w'), rs) := handle_all demo_pvs demo_classes demo_secrets "node-a" demo_volume
      [Unstage; Unstage; Reboot; Reboot; Unstage; Drained; Unstage] (s, w) in
    Forall2 answers [Some FailedPrecondition; Some FailedPrecondition; None; None; Some FailedPrecondition; None; None] rs
    /\ Cloud.sent w' = ["x"].
Proof.
  destruct (handle_all_next demo_pvs demo_classes demo_secrets "node-a" demo_volume demo_sane (Phase [] [] (Off false))
    (Phase [] ["x"] (On ∅)) [None; None; None; None] [Stage; Publish "/pods/a" false; Write "/pods/a" "x"; Unpublish "/pods/a"]
    empty_node bare_node bare_carries ltac:(vm_compute; reflexivity)) as (s & w & rs & _ & _ & H). exists s, w.
  pose proof (unstage_completes demo_pvs demo_classes demo_secrets "node-a" demo_volume [Unstage; Unstage; Reboot; Reboot] [] ["x"]
    (On ∅) s w demo_sane H ltac:(reflexivity) ltac:(discriminate) ltac:(vm_compute; reflexivity) ltac:(reflexivity)) as Hu.
  change ([Unstage; Unstage; Reboot; Reboot] ++ [Unstage; Drained; Unstage])
    with [Unstage; Unstage; Reboot; Reboot; Unstage; Drained; Unstage] in Hu.
  destruct (handle_all _ _ _ _ _ _ _) as [[s' w'] rs']. destruct Hu as (Hr & Hs & _). by split.
Defined.

Lemma returning_pod_loses_its_mount_witness :
  exists s w, let '((_, w'), rs) := handle_all demo_pvs demo_classes demo_secrets "node-a" demo_volume
      [Stage; Publish "/pods/b" false; Drained] (s, w) in
    rs = [Ok tt; Ok tt; Ok tt] /\ serves w' "/pods/b" = false.
Proof.
  destruct (handle_all_next demo_pvs demo_classes demo_secrets "node-a" demo_volume demo_sane (Phase [] [] (Off false))
    (Phase [] ["x"] (Draining ∅)) [None; None; None; None; Some FailedPrecondition]
    [Stage; Publish "/pods/a" false; Write "/pods/a" "x"; Unpublish "/pods/a"; Unstage]
    empty_node bare_node bare_carries ltac:(vm_compute; reflexivity)) as (s & w & rs & _ & _ & H). exists s, w.
  pose proof (returning_pod_loses_its_mount demo_pvs demo_classes demo_secrets "node-a" demo_volume [] ["x"] "/pods/b" false s w demo_sane H
    ltac:(cbn; set_solver) ltac:(vm_compute; reflexivity)) as Hu.
  destruct (handle_all _ _ _ _ _ _ _) as [[s' w'] rs']. destruct Hu as (Hr & _ & Hs & _). by split.
Defined.

End S3Life.
