(* ===== verification/Heal.v ===== *)
(** * Heal: the checker and a mount that died

    An S3 session can end without the driver: what is left is a dead mount at
    the staging path and in the pods.  Against the node of Cloud, one tick of
    the periodic checker (Checker) brings the volume back: it drops the dead
    session's manager, unmounts what is left of it and mounts anew. *)

From Stdlib Require Import Ascii.
From S2P Require Import Prelude GoStrings Effects Secrets Rpc RcloneConfig Luks Mounts VfsNames VfsCache.
From S2P Require Import Session MountManager Csi Controller NodeMounts NodeLuks NodeState Drain S3Live NodeServer Consumers Checker.
From S2P Require Import World Cloud CloudOps S3Life.
Import Secrets Rpc Mounts VfsNames VfsCache Session MountManager Csi K8s NodeMounts NodeLuks NodeState Drain S3Live NodeServer Consumers Checker.
Import World Cloud CloudOps S3Life.

Module Heal.

(** The session is gone; the mounts that showed it are not. *)
Definition crash (w : cloud) : cloud := set_live None w.

Section volume.
Context (pvs : list pv) (classes : gmap string (gmap string string)) (secrets : gmap (string * string) (gmap string string)).
Context (nodeID : string) (V : s3_volume).
Abbreviation id := (sv_id V).
Abbreviation staging := (sv_staging V).
Abbreviation ctx := (sv_context V).
Abbreviation answer := (cloud_answers id pvs classes secrets).
Notation "p @ w" := (interp answer p w) (at level 9, no associativity).
Implicit Types w : cloud.
Context (Hv : sane pvs classes secrets V).

(** What a lazy unmount of [p] leaves. *)
Definition detached (p : string) (w : cloud) : cloud := default w (pop_bind p w).

Lemma unmountSession_dead p w : live w = None -> exists b, (unmountSession p) @ w = (detached p w, b).
Proof.
  intros E. unfold unmountSession, RPCWithTimeout, callLibrclone. rewrite !interp_bind, (interp_perform answer (CRpc _ _ _)).
  cbn [cloud_answers]. rewrite librclone_unmount, E. cbn [interp body_output]. cbn iota.
  change (400 <=? 404) with true. cbn iota. rewrite interp_bind.
  match goal with |- context [sanitize ?m] => change (sanitize m) with (@Ret string "mount not found") end.
  cbn [interp]. cbn iota. unfold unmountBounded. rewrite !interp_bind, (interp_perform answer (CUnmountB _ _ _)). cbn [cloud_answers].
  unfold detached. destruct (pop_bind p w); cbn [syscallBounded default interp]; cbn iota; unfold removeSessionDir;
    rewrite !interp_bind, (interp_perform answer (CRemoveB _ _)); by eexists.
Qed.

Lemma ShutdownSessions_dead p w : live w = None -> p <> "" -> exists n, (ShutdownSessions id [p]) @ w = (detached p w, n).
Proof.
  intros E Hp. unfold ShutdownSessions. rewrite interp_bind, liveSessions_world. unfold listed. rewrite E.
  assert (add_known (default [] (Some [])) [p] = [p]) as ->.
  { cbn [default add_known]. rewrite (bool_decide_eq_false_2 (p = "")) by done. by rewrite bool_decide_eq_false_2 by apply not_elem_of_nil. }
  cbn [end_sessions]. rewrite interp_bind. destruct (unmountSession_dead p w E) as [b ->]. by eexists.
Qed.

(** The abort of a connection is no file of the cache. *)
Lemma writeFUSEAbort_world m w : (writeFUSEAbort m) @ w = (w, Ok tt).
Proof.
  unfold writeFUSEAbort. cbn zeta. rewrite interp_bind, (interp_perform answer (CWriteFile _ _)). cbn [cloud_answers].
  rewrite bool_decide_eq_false_2; [done |]. unfold marker. rewrite path_join_name; [done | | apply (sane_name _ _ _ _ Hv)].
  by eexists; split; [| split; [reflexivity |]].
Qed.

Lemma abortFUSEConnection_world p w : (abortFUSEConnection p) @ w = (w, tt).
Proof.
  unfold abortFUSEConnection, HostMountStacksOK. rewrite interp_bind, (interp_perform answer CInvalidateMounts). cbn [cloud_answers default_reply].
  rewrite interp_bind, (interp_perform answer CHostMounts). cbn [cloud_answers]. rewrite interp_bind. cbn [interp].
  induction (fuse_minors _) as [| m l IH]; [done |]. cbn [for_each]. rewrite !interp_bind, writeFUSEAbort_world. exact IH.
Qed.

Lemma umount_world p w : exists r, (runCmdBounded (30 * second) ["umount"; "-l"; p]) @ w = (detached p w, r).
Proof.
  unfold runCmdBounded, runCmdBoundedOutput. rewrite !interp_bind, (interp_perform answer (CExec _ _ _)). cbn [cloud_answers].
  change (decode ["umount"; "-l"; p]) with (Umount p). cbn [shell]. unfold detached. destruct (pop_bind p w); by eexists.
Qed.

(** *** What the crash leaves *)

(** The volume without its pods: what the checker deals with. *)
Definition alone : s3_volume := S3Volume id staging (sv_cap V) ctx ∅ (sv_secrets V).

Abbreviation on_pods pods sent pend := (Phase sent pend (On pods)).

Lemma alone_sane : sane pvs classes secrets alone.
Proof. destruct Hv. by split; cbn; try (intros ? ?%not_elem_of_empty). Qed.

Lemma carries_alone sent pend pods s w :
  carries V (on_pods pods sent pend) s w -> carries alone (on_pods ∅ sent pend) s w.
Proof. intros (g & p & []). exists g, p. by split. Qed.

(** Only the server's record of S3 volumes matters. *)
Lemma carries_mgr U ph s s' w : s3SyncMgr s' = s3SyncMgr s -> carries U ph s w -> carries U ph s' w.
Proof. intros E (g & p & []). exists g, p. by split; rewrite ?E. Qed.

Lemma detached_tab p w :
  exists t, detached p w = on_tab (fun _ => t) w
  /\ (forall q, q <> p -> t !! q = tab w !! q)
  /\ (forall x, tab w !! p = Some [x] -> t !! p = None) /\ (tab w !! p = None -> t !! p = None).
Proof.
  unfold detached, pop_bind. destruct (tab w !! p) as [[| x [| y l]] |] eqn:E; cbn [default].
  - exists (tab w). by destruct w.
  - exists (delete p (tab w)). split; [done |]. split; [intros q Hq; by rewrite lookup_delete_ne | by rewrite lookup_delete_eq].
  - exists (<[p := y :: l]> (tab w)). split; [done |]. split; [intros q Hq; by rewrite lookup_insert_ne | done].
  - exists (tab w). by destruct w.
Qed.

(** The two unmounts of a repair, of the dead session's mountpoint and of the
    staging path, leave the latter free, and one bind or none elsewhere. *)
Definition single (t : gmap string (list string)) (q : string) : Prop := t !! q = None \/ exists x, t !! q = Some [x].

Lemma cleared p w :
  tab w !! staging = Some [p] ->
  exists t, detached staging (detached p w) = on_tab (fun _ => t) w /\ t !! staging = None
  /\ forall q, q <> staging -> single (tab w) q -> single t q.
Proof.
  intros E. destruct (detached_tab p w) as (t1 & -> & H1 & H2 & H3).
  destruct (detached_tab staging (on_tab (fun _ => t1) w)) as (t2 & -> & K1 & K2 & K3). cbn [tab on_tab] in *.
  exists t2. split; [done |]. split.
  - destruct (decide (p = staging)) as [-> | Hn]; [by apply K3, (H2 staging) |]. apply (K2 p). by rewrite H1.
  - intros q Hq Hs. unfold single. rewrite K1 by done. destruct (decide (q = p)) as [-> | Hn]; [| by rewrite H1].
    left. destruct Hs as [Hs | [x Hs]]; [by apply H3 | by apply (H2 x)].
Qed.

(** *** The repair *)

Lemma consumerRestartAllowed_world s w :
  exists s' b, (consumerRestartAllowed id s) @ w = (w, (s', b)) /\ s3SyncMgr s' = s3SyncMgr s.
Proof.
  unfold consumerRestartAllowed, registrationHealthy. rewrite interp_mbind, interp_gets.
  destruct (negb (negb (regUnhealthy s))); [by exists s, false |]. rewrite interp_mbind, interp_gets, interp_mbind.
  assert (exists b, (match consumerRestartTimes (chk s) !! id with
                     | Some t => now <~ ask CNow;; ret (now - t <? consumerRestartCooldown)
                     | None => ret false end s) @ w = (w, (s, b))) as [[|] ->].
  { destruct (consumerRestartTimes (chk s) !! id); [| by exists false]. unfold ask. rewrite interp_mbind, interp_lift, interp_perform.
    by eexists. }
  - by exists s, false.
  - unfold ask. rewrite interp_mbind, interp_lift, interp_perform. cbn [cloud_answers]. rewrite interp_mbind, interp_modify.
    by eexists _, true.
Qed.

Lemma refs_world w : exists ns claim vol, (resolveVolumeRefs true id) @ w = (w, (ns, claim, vol)).
Proof.
  unfold resolveVolumeRefs. cbn [negb]. rewrite interp_bind. destruct (getPV_world pvs classes secrets V w) as [r ->]. cbn [interp].
  destruct r as [v | e]; [destruct (pv_claim v) as [[ns c] |] |]; by eexists _, _, _.
Qed.

(** What a crash leaves is cleared, and the volume set up again. *)
Lemma remount_world g p sent pend s w :
  carries_at alone g p (on_pods ∅ sent pend) s w ->
  exists s' w', (remount nodeID true id staging ctx s) @ (crash w) = (w', (s', tt))
  /\ carries alone (on_pods ∅ sent pend) s' w' /\ (forall q, q <> staging -> single (tab w) q -> single (tab w') q).
Proof.
  intros H. unfold remount. rewrite interp_mbind, interp_lift. destruct (refs_world (crash w)) as (ns & claim & vol & ->).
  rewrite interp_mbind, interp_lift.
  assert ((podsUsingPVC nodeID true ns claim) @ (crash w) = (crash w, [])) as -> by (unfold podsUsingPVC; by destruct (_ || _ || _)).
  unfold drop_manager, lookup_manager. rewrite !interp_mbind, interp_gets. pose proof (c_manager _ _ _ _ _ _ H) as Hm. cbn in Hm.
  rewrite Hm, interp_mbind, interp_modify. cbn [ret interp]. change (sessionPath (up alone g p)) with p.
  rewrite interp_mbind, interp_lift. destruct (ShutdownSessions_dead p (crash w)) as [n ->]; [done | apply (c_path _ _ _ _ _ _ H) |].
  rewrite interp_mbind, interp_lift, abortFUSEConnection_world. rewrite interp_mbind, interp_lift.
  destruct (umount_world staging (detached p (crash w))) as [x ->].
  destruct (cleared p (crash w)) as (t & -> & Hs & Ht); [apply (c_tab _ _ _ _ _ _ H) |].
  rewrite interp_mbind, interp_lift. unfold Session.mkdirAllBounded.
  match goal with |- context [interp answer ?q ?u] => assert (exists x, q @ u = (u, x)) as [y ->] by by eexists end.
  rewrite interp_mbind.
  assert (H' : carries_at alone g p (Phase sent pend (Off false)) (on_managers (delete id) s) (on_tab (fun _ => t) (crash w))).
  { destruct H as []. split; try done; cbn in *; try done.
    - apply lookup_delete_eq.
    - by apply bool_decide_eq_false_2. }
  destruct (setupS3Sync_exact pvs classes secrets alone alone_sane _ _ _ _ _ (fsGroupFromPods []) _ _ H') as (s' & w' & E & Hc & Hq).
  change (sv_id alone) with id in E. change (sv_staging alone) with staging in E. change (sv_context alone) with ctx in E.
  rewrite E. destruct (consumerRestartAllowed_world s' w') as (s2 & b & E2 & Hs2). rewrite interp_mbind, E2.
  exists s2, w'. split; [done |]. split; [by eapply carries_mgr |].
  intros q Hne Hsq. unfold single. rewrite Hq by done. cbn. by apply Ht.
Qed.

Lemma now_world (s : node) w : (ask CNow s) @ w = (w, (s, clock w)).
Proof. done. Qed.

(** A repair of the volume is not held back by the attempts before it. *)
Definition due (s : node) w : Prop :=
  ra_count (attempt_of id s) < reconcileFreeAttempts
  \/ reconcile_wait (ra_count (attempt_of id s)) <= clock w - ra_last (attempt_of id s).

Lemma reconcileAllowed_world s w :
  due s w -> exists s', (reconcileAllowed id s) @ w = (w, (s', true)) /\ s3SyncMgr s' = s3SyncMgr s.
Proof.
  intros Hd. unfold due, attempt_of in Hd. unfold reconcileAllowed. rewrite interp_mbind, interp_gets. set (a := default _ _) in *.
  rewrite interp_mbind.
  assert (((if reconcileFreeAttempts <=? ra_count a then now <~ ask CNow;; ret (now - ra_last a <? reconcile_wait (ra_count a))
            else ret false) s) @ w = (w, (s, false))) as ->.
  { destruct (reconcileFreeAttempts <=? ra_count a) eqn:E; [| done]. rewrite interp_mbind, now_world.
    cbn [ret interp]. do 3 f_equal. bools. lia. }
  rewrite interp_mbind, now_world, interp_mbind, interp_modify. by eexists.
Qed.

Lemma reportMountLifetime_world s w :
  exists s', (reportMountLifetime id s) @ w = (w, (s', tt)) /\ s3SyncMgr s' = s3SyncMgr s /\ chk s' = chk s.
Proof.
  unfold reportMountLifetime. rewrite interp_mbind, interp_gets. destruct (mountedAt s !! id); [| by exists s].
  rewrite interp_mbind, interp_modify. by eexists.
Qed.

Lemma volume_of_dir dir w : (getVolumeIDFromVolData dir) @ w = (w, id).
Proof. done. Qed.

Lemma reconcile_world g p sent pend s w :
  carries_at alone g p (on_pods ∅ sent pend) s w ->
  exists s' w', (reconcileS3Mount nodeID true id staging ctx false s) @ (crash w) = (w', (s', tt))
  /\ carries alone (on_pods ∅ sent pend) s' w' /\ (forall q, q <> staging -> single (tab w) q -> single (tab w') q).
Proof.
  intros H. unfold reconcileS3Mount, markVolumeSetupInProgress. rewrite interp_mbind, interp_modify, interp_mbind. cbn [ret interp].
  rewrite interp_mbind.
  assert (H1 : carries_at alone g p (on_pods ∅ sent pend) (on_setup (fun d => {[id]} ∪ d) s) w) by (destruct H; by split).
  destruct (remount_world _ _ _ _ _ _ H1) as (s' & w' & -> & Hc & Hq). unfold markVolumeSetupComplete. rewrite interp_modify.
  eexists _, w'. split; [done |]. split; [| done]. by apply carries_setup.
Qed.

(** The checker's look at the staging directory of the volume. *)
Lemma check_world g p sent pend plugin names e s w :
  carries_at alone g p (on_pods ∅ sent pend) s w -> de_isdir e = true ->
  staging = path_join [path_join [plugin; de_name e]; "globalmount"] ->
  id ∉ volumesInSetup (s3SyncMgr s) -> due s w ->
  exists s' w', (check_entry nodeID true plugin names e s) @ (crash w) = (w', (s', tt))
  /\ carries alone (on_pods ∅ sent pend) s' w' /\ (forall q, q <> staging -> single (tab w) q -> single (tab w') q).
Proof.
  intros H Hd Hp Hset Hdue. unfold check_entry. rewrite Hd. cbn [negb]. cbn zeta. rewrite interp_mbind. unfold diagnose. cbn zeta.
  rewrite <- Hp, interp_mbind, interp_lift. unfold statfsBounded. rewrite (interp_perform answer (CStatfsB _ _)). cbn [cloud_answers].
  change (serves (crash w) staging) with false. cbn iota. change (isMountDeadErr ENOTCONN) with true. cbn [ret interp]. cbn iota.
  unfold repair_entry. cbn zeta. rewrite <- Hp, interp_mbind, interp_lift, volume_of_dir.
  rewrite bool_decide_eq_false_2 by apply (sane_name _ _ _ _ Hv). unfold isVolumeSetupInProgress, isBackgroundDraining.
  rewrite interp_mbind, interp_gets, interp_mbind, interp_gets. rewrite (bool_decide_eq_false_2 (id ∈ volumesInSetup _)) by done.
  pose proof (c_draining _ _ _ _ _ _ H) as Hdr. cbn in Hdr. rewrite Hdr. cbn [orb].
  rewrite interp_mbind, interp_lift, (sane_context _ _ _ _ Hv). rewrite interp_mbind. cbn [ret interp negb].
  rewrite interp_mbind. destruct (reportMountLifetime_world s (crash w)) as (s1 & -> & E1 & Ec). rewrite interp_mbind.
  destruct (reconcileAllowed_world s1 (crash w)) as (s2 & -> & E2).
  { unfold due, attempt_of in *. by rewrite Ec. }
  cbn [negb]. apply (reconcile_world g p). destruct H as []. by split; rewrite ?E2, ?E1.
Qed.

(** *** The tick around it *)

Lemma resolveKubeletRoot_world s w :
  exists s' r, (resolveKubeletRoot s) @ w = (w, (s', r)) /\ s3SyncMgr s' = s3SyncMgr s /\ chk s' = chk s
  /\ r = default DefaultKubeletRoot (kubeletRootCache s).
Proof.
  unfold resolveKubeletRoot. rewrite interp_mbind, interp_gets. destruct (kubeletRootCache s) as [r |]; [by exists s, r |].
  rewrite interp_mbind, interp_lift. unfold runCmdBoundedOutput. rewrite !interp_bind, (interp_perform answer (CExec _ _ _)).
  cbn [cloud_answers]. change (decode _) with Unknown. cbn [shell interp]. cbn iota. rewrite interp_mbind, interp_modify. by eexists _, _.
Qed.

Lemma RegisteredVFSNames_world w : exists l, RegisteredVFSNames @ w = (w, l).
Proof. unfold RegisteredVFSNames. rewrite interp_bind. erewrite rpc_world by reflexivity. by eexists. Qed.

(** The sweep of the staging directories, of which the node has one. *)
Lemma cleanupStaleS3Mounts_world g p sent pend (ParseFloat : string -> option QArith_base.Q) s w :
  carries_at alone g p (on_pods ∅ sent pend) s w ->
  staging = path_join [path_join [plugin_dir; id]; "globalmount"] -> default DefaultKubeletRoot (kubeletRootCache s) = DefaultKubeletRoot ->
  id ∉ volumesInSetup (s3SyncMgr s) -> due s w ->
  exists s' w', (cleanupStaleS3Mounts nodeID true ParseFloat s) @ (crash w) = (w', (s', tt))
  /\ carries alone (on_pods ∅ sent pend) s' w' /\ (forall q, q <> staging -> single (tab w) q -> single (tab w') q).
Proof.
  intros H Hp Hr Hset Hdue. unfold cleanupStaleS3Mounts. rewrite interp_mbind, interp_lift.
  assert (exists q, (nodeIOStalled ParseFloat) @ (crash w) = (crash w, (q, false))) as [q ->] by by eexists.
  cbn [snd]. cbn iota. rewrite interp_mbind, interp_lift, HostMountsKnown_world. cbn [negb].
  rewrite interp_mbind, interp_lift. destruct (RegisteredVFSNames_world (crash w)) as [names ->].
  rewrite interp_mbind. destruct (resolveKubeletRoot_world s (crash w)) as (s1 & r & -> & E1 & Ec & ->). rewrite Hr.
  change (csiPluginPath DefaultKubeletRoot) with plugin_dir. unfold check_entries, ask.
  rewrite interp_mbind, interp_lift, (interp_perform answer (CStat _)). cbn [cloud_answers]. rewrite bool_decide_eq_true_2 by done.
  rewrite interp_mbind, interp_lift, (interp_perform answer (CReadDir _)). cbn [cloud_answers].
  rewrite bool_decide_eq_false_2, bool_decide_eq_true_2 by done. cbn [mfor_each]. rewrite interp_mbind.
  destruct (check_world g p sent pend plugin_dir names (DirEnt id true false false) s1 w) as (s' & w' & -> & Hc & Hq); [| done | done | | |].
  - destruct H. by split; rewrite ?E1.
  - by rewrite E1.
  - unfold due, attempt_of in *. by rewrite Ec.
  - by exists s', w'.
Qed.

Lemma staged_ids_world plugin entries seen w : exists ids, (staged_ids plugin entries seen) @ w = (w, ids).
Proof.
  revert seen. induction entries as [| e entries IH]; intros seen; cbn [staged_ids]; [by eexists |].
  destruct (negb (de_isdir e)); [apply IH |]. rewrite interp_bind, volume_of_dir. apply IH.
Qed.

Lemma stagedVolumeIDs_world s w : exists s' ids, (stagedVolumeIDs s) @ w = (w, (s', ids)) /\ s3SyncMgr s' = s3SyncMgr s.
Proof.
  unfold stagedVolumeIDs, ask. rewrite interp_mbind. destruct (resolveKubeletRoot_world s w) as (s1 & r & -> & E & _).
  rewrite interp_mbind, interp_lift, interp_perform. cbn [cloud_answers].
  destruct (if bool_decide _ then _ else _) as [entries | []]; [| by exists s1; eexists ..].
  rewrite interp_mbind, interp_lift. destruct (staged_ids_world (csiPluginPath r) entries ∅ w) as [ids ->]. by exists s1; eexists.
Qed.

(** A volume that is mounted is not stranded. *)
Lemma recoverStrandedVolumes_world ph s w :
  carries alone ph s w -> is_up (ph_mode ph) = true ->
  exists s', (recoverStrandedVolumes true s) @ w = (w, (s', tt)) /\ s3SyncMgr s' = s3SyncMgr s.
Proof.
  intros (g & p & H) Hup. unfold recoverStrandedVolumes. rewrite interp_mbind, interp_lift.
  assert (exists l, VolumesWithUnuploadedData @ w = (w, l) /\ forall x, x ∈ l -> x = id) as (l & -> & Hl).
  { unfold VolumesWithUnuploadedData, volumesWithUnuploadedDataAt. rewrite interp_bind, (interp_perform answer (CReadDir _)). cbn [cloud_answers].
    rewrite bool_decide_eq_true_2 by done. cbn [dirty_volumes de_isdir de_name negb]. rewrite decide_False by apply not_elem_of_nil.
    rewrite !interp_bind, hasDirty_world, (sane_plain _ _ _ _ Hv).
    destruct (unsent w); cbn [interp dirty_volumes]; eexists; (split; [reflexivity |]); intros x;
      rewrite sort_strings_elem; set_solver. }
  case_bool_decide; [by exists s |]. rewrite interp_mbind. destruct (stagedVolumeIDs_world s w) as (s1 & [ids |] & -> & E); [| by exists s1].
  exists s1. split; [| done]. pose proof (c_manager _ _ _ _ _ _ H) as Hm. rewrite Hup, <- E in Hm. cbn in Hm. clear - Hl Hm.
  induction l as [| x l IH]; [done |]. cbn [mfor_each]. rewrite interp_mbind, (Hl x) by by left.
  assert ((recover_stranded true ids id s1) @ w = (w, (s1, tt))) as ->.
  { unfold recover_stranded, isVolumeSetupInProgress, isBackgroundDraining, lookup_manager.
    rewrite interp_mbind, interp_gets, interp_mbind, interp_gets. destruct (_ || _); [done |].
    by rewrite interp_mbind, interp_gets, Hm. }
  apply IH. intros y Hy. apply Hl. by right.
Qed.

(** *** The pods *)

Abbreviation handle_all := (S3Life.handle_all pvs classes secrets nodeID V).

(** An unpublish takes the one bind of the pod, dead or alive. *)
Lemma unpublish_single t s w :
  t ∈ sv_targets V -> single (tab w) t ->
  handle pvs classes secrets nodeID V (Unpublish t) (s, w) = ((s, on_tab (delete t) w), Ok tt).
Proof.
  intros Ht Hs. cbn [handle]. unfold NodeUnpublishVolume.
  rewrite bool_decide_eq_false_2 by apply (sane_targets _ _ _ _ Hv t Ht). by rewrite interp_bind, unmountPath_world.
Qed.

Lemma unpublish_all l s w :
  (forall t, t ∈ l -> t ∈ sv_targets V) -> (forall t, t ∈ l -> single (tab w) t) ->
  exists f, handle_all (map Unpublish l) (s, w) = ((s, on_tab f w), map (fun _ => Ok tt) l)
  /\ forall t, f (tab w) !! t = if bool_decide (t ∈ l) then None else tab w !! t.
Proof.
  revert w. induction l as [| t l IH]; intros w Hl Hs.
  - exists (fun t => t). split; [by destruct w |]. intros t. by rewrite bool_decide_eq_false_2 by apply not_elem_of_nil.
  - cbn [map S3Life.handle_all]. rewrite unpublish_single; [| apply Hl; by left | apply Hs; by left].
    destruct (IH (on_tab (delete t) w)) as (f & E & Hf).
    { intros t' Ht'. apply Hl. by right. }
    { intros t' Ht'. unfold single. cbn. destruct (decide (t = t')) as [<- | Hn]; [left; apply lookup_delete_eq |].
      rewrite lookup_delete_ne by done. apply Hs. by right. }
    rewrite E. exists (fun m => f (delete t m)). split; [done |]. intros t'.
    change (delete t (tab w)) with (tab (on_tab (delete t) w)). rewrite Hf. cbn.
    destruct (decide (t = t')) as [<- | Hn].
    + rewrite lookup_delete_eq, (bool_decide_eq_true_2 (t ∈ t :: l)) by by left. by case_bool_decide.
    + rewrite lookup_delete_ne by done. rewrite (bool_decide_ext (t' ∈ l) (t' ∈ t :: l)); [done |].
      rewrite elem_of_cons. naive_solver.
Qed.

Lemma carries_whole sent pend s w f :
  carries alone (on_pods ∅ sent pend) s w -> (forall q, q ∉ sv_targets V -> f (tab w) !! q = tab w !! q) ->
  (forall q, q ∈ sv_targets V -> f (tab w) !! q = None) -> carries V (on_pods ∅ sent pend) s (on_tab f w).
Proof.
  intros (g & p & []) Hout Hin. exists g, p. split; try done; cbn in *.
  rewrite Hout; [done |]. intros Ht. by apply (sane_targets _ _ _ _ Hv) in Ht as [_ ?].
Qed.

(** C8: One tick of the checker repairs a mount that died.  This is shown on a
    node that has one volume, staged in kubelet's default plugin directory, in
    a directory of the volume's name, and whose rclone, commands and API server
    do what they are asked for (the world of Cloud).  The session of the mounted
    volume is gone and the mounts at the staging path and in the pods are left
    behind; the volume is not being set up, its back-off allows a repair, the
    API server lists no pod of it, and the tick is not one of every tenth,
    which start with more work.  Then the tick mounts the volume again: the
    staging path serves, no write was lost from the cache and none is sent
    twice.  The dead mounts in the pods go with their unpublish calls, each of
    which succeeds, and the node then carries the volume as if freshly staged,
    so that the next publish is served. *)
Theorem dead_mount_is_repaired sent pend pods (ParseFloat : string -> option QArith_base.Q) tick s w :
  carries V (on_pods pods sent pend) s w -> tick mod 10 <> 0 ->
  staging = path_join [path_join [plugin_dir; id]; "globalmount"] -> default DefaultKubeletRoot (kubeletRootCache s) = DefaultKubeletRoot ->
  id ∉ volumesInSetup (s3SyncMgr s) -> due s w ->
  let '(w1, (s1, _)) := (checker_tick nodeID true ParseFloat tick s) @ (crash w) in
  let '((s2, w2), rs) := handle_all (map Unpublish (elements (sv_targets V))) (s1, w1) in
  serves (crash w) staging = false /\ serves w1 staging = true
  /\ Cloud.sent w1 = sent /\ dirty w1 = pend
  /\ Forall (eq (Ok tt)) rs /\ carries V (on_pods ∅ sent pend) s2 w2.
Proof.
  intros H Ht Hp Hr Hset Hdue. pose proof H as (g & p & Hg). destruct (carries_alone _ _ _ _ _ H) as (g' & p' & Ha).
  unfold checker_tick. rewrite interp_mbind, (proj2 (Z.eqb_neq _ 0) Ht). cbn [ret interp]. cbn iota. rewrite interp_mbind.
  destruct (cleanupStaleS3Mounts_world g' p' sent pend ParseFloat s w Ha Hp Hr Hset Hdue) as (s0 & w1 & -> & H0 & Hs).
  destruct (recoverStrandedVolumes_world _ s0 w1 H0 eq_refl) as (s1 & -> & E). pose proof (carries_mgr _ _ _ _ _ E H0) as H1.
  destruct (unpublish_all (elements (sv_targets V)) s1 w1) as (f & -> & Hf).
  { intros t Hin. by apply elem_of_elements. }
  { intros t Hin. apply elem_of_elements in Hin. apply Hs; [by apply (sane_targets _ _ _ _ Hv) |]. unfold single.
    rewrite (c_target _ _ _ _ _ _ Hg t Hin). case_bool_decide; [right; by eexists | by left]. }
  pose proof H1 as (g1 & p1 & Hg1). split; [done |]. split; [exact (serves_staging alone _ _ _ _ _ Hg1) |].
  split; [apply (c_sent _ _ _ _ _ _ Hg1) |]. split; [apply (c_pend _ _ _ _ _ _ Hg1) |]. split.
  - clear Hf. induction (elements _) as [| t l IH]; [by apply Forall_nil_2 | by apply Forall_cons_2].
  - apply carries_whole; [done | |]; intros q Hq; rewrite Hf.
    + by rewrite bool_decide_eq_false_2 by (by rewrite elem_of_elements).
    + by rewrite bool_decide_eq_true_2 by by apply elem_of_elements.
Qed.

End volume.

(** A volume with a pod and a write not yet uploaded. *)
Definition healed_volume : s3_volume :=
  S3Volume "pvc-1" (plugin_dir +s+ "/pvc-1/globalmount") (sv_cap demo_volume) demo_context (sv_targets demo_volume) (sv_secrets demo_volume).
Definition serving_node : node := on_managers (insert "pvc-1" (up healed_volume None "/session")) empty_node.
Definition serving_cloud : cloud :=
  Cloud 0 (Some (Session "/session" "pvc-1:")) {[plugin_dir +s+ "/pvc-1/globalmount" := ["/session"]; "/pods/a" := ["/session"]]}
    ["x"] [] [] false {["pvc-1" := "pvc-1"]}.

Lemma healed_sane : sane demo_pvs demo_classes demo_secrets healed_volume.
Proof.
  split; try done.
  - apply (bool_decide_eq_true_1 (_ ∉ _)). by vm_compute.
  - intros t. cbn [sv_targets healed_volume demo_volume]. rewrite elem_of_union, !elem_of_singleton. by intros [-> | ->].
Qed.
Lemma serving_carries : carries healed_volume (Phase [] ["x"] (On {["/pods/a"]})) serving_node serving_cloud.
Proof.
  exists None, "/session". split; try done.
  - intros t. cbn [sv_targets healed_volume demo_volume]. rewrite elem_of_union, !elem_of_singleton. by intros [-> | ->].
  - by right.
Qed.

Lemma dead_mount_is_repaired_witness :
  let '(w1, (s1, _)) := interp (cloud_answers "pvc-1" demo_pvs demo_classes demo_secrets)
      (checker_tick "node-a" true (fun _ => None) 1 serving_node) (crash serving_cloud) in
  serves w1 (plugin_dir +s+ "/pvc-1/globalmount") = true /\ dirty w1 = ["x"].
Proof.
  pose proof (dead_mount_is_repaired demo_pvs demo_classes demo_secrets "node-a" healed_volume healed_sane [] ["x"] {["/pods/a"]}
    (fun _ => None) 1 serving_node serving_cloud serving_carries ltac:(done)
    ltac:(vm_compute; reflexivity) eq_refl ltac:(apply not_elem_of_empty) ltac:(by left)) as H.
  change (sv_id healed_volume) with "pvc-1" in H.
  destruct (interp _ _ _) as [w1 [s1 u]]. destruct (S3Life.handle_all _ _ _ _ _ _ _) as [[s2 w2] rs].
  destruct H as (_ & H & _ & Hd & _). by split.
Defined.

End Heal.
