(* ===== verification/Interleave.v ===== *)
(** * Interleave: concurrent operations on one S3 volume

    The handlers of Drain, NodeServer and Checker run to their end there.  In
    the driver they run in goroutines of their own and meet in the volume's
    mutex ([lockVolume]), its drain slot ([backgroundDrains]), its setup mark
    and its entry in [mountManagers].  Here are their synchronisation
    skeletons: every access to these four, in the order of the code and each
    atomic as the code's own mutexes make it; what a handler does besides is
    reduced to the choices that decide its branches.  Refine shows that the
    detailed handlers follow these skeletons.  Volumes share none of the four,
    so one volume is enough. *)

From S2P Require Import Prelude.

Module Interleave.

(** ** Goroutines *)

(** One access to the shared state, or one choice of the world's. *)
Inductive action : Set :=
  | Lock | Unlock (* [lockVolume] and its release *)
  | Mark | Unmark (* [markVolumeSetupInProgress], [markVolumeSetupComplete] *)
  | InSetup (* [isVolumeSetupInProgress] *)
  | Draining (* [isBackgroundDraining] *)
  | AwaitDrain (* the [select] of [waitForBackgroundDrain] *)
  | ClaimDrain (* [startBackgroundDrain] *)
  | EndDrain (* [finishBackgroundDrain] *)
  | HasManager (* a read of [mountManagers] *)
  | DropManager (* [delete(mountManagers, ...)] *)
  | MountBegin | MountEnd (* [mountS3Volume]; its manager is entered when it succeeded *)
  | UnmountBegin | UnmountEnd (* [Unmount], [UnmountWithin]: whether it drained *)
  | Reexpose (* [reexposeLiveSession] of a manager that is there: whether it is live again *)
  | TearDown (* the forced unmount, and [ShutdownSessions] of the repair *)
  | Choose (* anything else the code branches on *).

(** A goroutine: a tree of actions with yes/no answers, and the goroutines it
    starts. *)
Inductive proc : Set :=
  | Done
  | Do (a : action) (k : bool -> proc)
  | Go (p k : proc).

Definition act (a : action) (p : proc) : proc := Do a (fun _ => p).

Declare Scope proc_scope.
Delimit Scope proc_scope with proc.
Notation "a '?>' p '|>' q" := (Do a (fun b : bool => if b then p else q))
  (at level 60, p at level 60, q at level 60, right associativity) : proc_scope.
Notation "a '>>' p" := (act a p) (at level 60, right associativity) : proc_scope.
#[local] Open Scope proc_scope.

(** ** Drain goroutines *)

(** The goroutine of [cleanupS3Sync]. *)
Definition drain_thread : proc :=
  HasManager ?> UnmountBegin >> UnmountEnd >> DropManager >> EndDrain >> Done
  |> EndDrain >> Done.

(** The goroutine of [resumeStrandedDrain]. *)
Definition resume_thread : proc :=
  MountBegin >> MountEnd ?> (HasManager ?> UnmountBegin >> UnmountEnd >> DropManager >> EndDrain >> Done
                             |> EndDrain >> Done)
  |> EndDrain >> Done.

(** [resumeStrandedDrain], whose volume context may be missing; then [k]. *)
Definition resume_steps (k : proc) : proc :=
  Choose ?> (ClaimDrain ?> Go resume_thread k |> k) |> k.

(** ** Set-up and clean-up, run under the lock *)

(** [setupS3Sync]: the wait for a drain, the live session, the mount; then
    [k], which is told whether it succeeded. *)
Definition mount_steps (k : bool -> proc) : proc := MountBegin >> Do MountEnd k.
Definition reexpose_steps (k : bool -> proc) : proc := HasManager ?> Do Reexpose k |> k false.
Definition setup_steps (k : bool -> proc) : proc :=
  let rest := reexpose_steps (fun live => if live then k true else mount_steps k) in
  Draining ?> (Draining ?> (AwaitDrain ?> rest |> k false) |> rest) |> rest.

(** [cleanupS3Sync], [staged] when a staging path was given. *)
Definition forced_steps (k : proc) : proc :=
  HasManager ?> DropManager >> TearDown >> k |> DropManager >> k.
Definition unforced_steps (staged : bool) (k : proc) : proc :=
  Draining ?> k
  |> HasManager ?> (Choose ?> UnmountBegin >> Do UnmountEnd (fun drained =>
                                DropManager >> (if negb drained && staged then resume_steps k else k))
                    |> ClaimDrain >> Go drain_thread k)
     |> (if staged then Choose ?> resume_steps k |> k else k).
Definition cleanup_steps (staged : bool) (k : proc) : proc :=
  let rest := unforced_steps staged k in
  let forced := Choose ?> forced_steps k |> rest in
  Draining ?> forced |> Choose ?> forced |> rest.

(** ** The operations *)

(** [NodeStageVolume] of an S3 volume that is not staged yet. *)
Definition stage_thread : proc :=
  Lock >> Mark >> Choose ?> setup_steps (fun _ => Unmark >> Unlock >> Done) |> Unmark >> Unlock >> Done.

(** [NodePublishVolume] of an S3 volume. *)
Definition publish_thread : proc :=
  let last := Unmark >> Unlock >> Done in
  Lock >> Mark >> Choose ?> last |> setup_steps (fun _ => last).

Definition unstage_thread : proc := Lock >> cleanup_steps true (Unlock >> Done).

(** [reclaimOrphanedVolume]. *)
Definition orphan_thread : proc := Lock >> cleanup_steps false (Unlock >> Done).

(** One volume of [sweepDeadSessions]. *)
Definition sweep_thread : proc := Draining ?> Done |> Lock >> Choose ?> Unlock >> Done |> Unlock >> Done.

(** The part of [cleanupStaleS3Mounts] about one volume, and
    [reconcileS3Mount]. *)
Definition reconcile_thread (missing : bool) : proc :=
  let last := Unmark >> Unlock >> Done in
  let remount := HasManager >> DropManager >> TearDown
                 >> setup_steps (fun ok => if ok then last else HasManager >> DropManager >> last) in
  Lock >> Mark >> (if missing then reexpose_steps (fun live => if live then last else remount) else remount).
Definition check_thread (missing : bool) : proc :=
  InSetup ?> Done |> Draining ?> Done |> Choose ?> reconcile_thread missing |> Done.

(** One volume of [recoverStrandedVolumes]. *)
Definition recover_thread : proc :=
  InSetup ?> Done |> Draining ?> Done |> HasManager ?> Done |> Choose ?> Done |> resume_steps Done.

(** Everything that takes the volume's lock. *)
Definition locking : list proc :=
  [stage_thread; publish_thread; unstage_thread; orphan_thread; sweep_thread; check_thread true; check_thread false].

(** ** Runs *)

Record shared : Set := Shared { lock : option nat; mark : bool; slot : bool; manager : bool }.
Definition idle : shared := Shared None false false false.

(** Goroutine [i] performs an action and is answered [b]. *)
Inductive fires (i : nat) : action -> bool -> shared -> shared -> Prop :=
  | fire_lock s b : lock s = None -> fires i Lock b s (Shared (Some i) (mark s) (slot s) (manager s))
  | fire_unlock s b : fires i Unlock b s (Shared None (mark s) (slot s) (manager s))
  | fire_mark s b : fires i Mark b s (Shared (lock s) true (slot s) (manager s))
  | fire_unmark s b : fires i Unmark b s (Shared (lock s) false (slot s) (manager s))
  | fire_in_setup s : fires i InSetup (mark s) s s
  | fire_draining s : fires i Draining (slot s) s s
  | fire_drained s : slot s = false -> fires i AwaitDrain true s s
  | fire_timeout s : fires i AwaitDrain false s s
  | fire_claim s : fires i ClaimDrain (negb (slot s)) s (Shared (lock s) (mark s) true (manager s))
  | fire_end_drain s b : fires i EndDrain b s (Shared (lock s) (mark s) false (manager s))
  | fire_has_manager s : fires i HasManager (manager s) s s
  | fire_drop s b : fires i DropManager b s (Shared (lock s) (mark s) (slot s) false)
  | fire_mount_begin s b : fires i MountBegin b s s
  | fire_mount_end s b : fires i MountEnd b s (Shared (lock s) (mark s) (slot s) (b || manager s))
  | fire_unmount_begin s b : fires i UnmountBegin b s s
  | fire_unmount_end s b : fires i UnmountEnd b s s
  | fire_reexpose s b : fires i Reexpose b s s
  | fire_tear_down s b : fires i TearDown b s s
  | fire_choose s b : fires i Choose b s s.

Record config : Set := Config { threads : list proc; state : shared }.

(** A step of a run in which the operations of [ops] may start at any time. *)
Inductive step (ops : list proc) : config -> config -> Prop :=
  | step_start p c : p ∈ ops -> step ops c (Config (threads c ++ [p]) (state c))
  | step_act i a k b s' c :
      threads c !! i = Some (Do a k) -> fires i a b (state c) s' ->
      step ops c (Config (<[i := k b]> (threads c)) s')
  | step_go i p k c :
      threads c !! i = Some (Go p k) ->
      step ops c (Config (<[i := k]> (threads c) ++ [p]) (state c)).

Inductive reachable (ops : list proc) : config -> Prop :=
  | reach_init : reachable ops (Config [] idle)
  | reach_step c c' : reachable ops c -> step ops c c' -> reachable ops c'.

(** The same with a witness: whether the last attempt to expose the session of
    the manager again failed. *)
Definition watch (a : action) (b failed : bool) : bool :=
  match a with Reexpose => negb b | MountEnd => negb b && failed | _ => failed end.
Inductive watched (ops : list proc) : config -> bool -> Prop :=
  | watch_init : watched ops (Config [] idle) false
  | watch_start p c failed : watched ops c failed -> p ∈ ops -> watched ops (Config (threads c ++ [p]) (state c)) failed
  | watch_act i a k b s' c failed :
      watched ops c failed -> threads c !! i = Some (Do a k) -> fires i a b (state c) s' ->
      watched ops (Config (<[i := k b]> (threads c)) s') (watch a b failed)
  | watch_go i p k c failed :
      watched ops c failed -> threads c !! i = Some (Go p k) ->
      watched ops (Config (<[i := k]> (threads c) ++ [p]) (state c)) failed.

Lemma reachable_watched ops c : reachable ops c -> exists failed, watched ops c failed.
Proof.
  induction 1 as [| c c' _ [failed Hw] Hs]; [eexists; constructor |].
  destruct Hs; eexists; [by eapply watch_start | by eapply watch_act | by eapply watch_go].
Qed.

(** What goroutine [p] is in the middle of. *)
Definition mounting (p : proc) : bool := match p with Do MountEnd _ => true | _ => false end.
Definition unmounting (p : proc) : bool := match p with Do UnmountEnd _ => true | _ => false end.

(** ** Ownership

    What a goroutine owns, as ghost state: the lock, the drain slot, the setup
    mark; that it holds the lock and has seen the slot free since; the section
    it is inside of; and what it knows of the manager, as long as it may mount:
    that there is none, or that its session could not be exposed again. *)

Inductive section : Set := Outside | Mounting | Unmounting.
#[global] Instance section_eq_dec : EqDecision section.
Proof. solve_decision. Defined.
Inductive knowledge : Set := Unknown | NoManager | TurnedDown.
#[global] Instance knowledge_eq_dec : EqDecision knowledge.
Proof. solve_decision. Defined.

Record own : Set := Own { has_lock : bool; has_slot : bool; has_mark : bool; clear : bool; inside : section; known : knowledge }.
#[global] Instance own_eq_dec : EqDecision own.
Proof. solve_decision. Defined.
Definition nothing : own := Own false false false false Outside Unknown.

(** The right to mount and to unmount: the slot, or the lock while the slot is
    known to be free. *)
Definition may_mount (o : own) : bool := has_slot o || (has_lock o && clear o).
Definition outside (o : own) : bool := bool_decide (inside o = Outside).
Definition knows_why (o : own) : bool := bool_decide (known o <> Unknown).

Definition with_lock (b : bool) (o : own) : own := Own b (has_slot o) (has_mark o) false (inside o) Unknown.
Definition with_slot (b : bool) (o : own) : own :=
  Own (has_lock o) b (has_mark o) false (inside o) (if b then known o else Unknown).
Definition with_mark (b : bool) (o : own) : own := Own (has_lock o) (has_slot o) b (clear o) (inside o) (known o).
Definition seen_free (o : own) : own := Own (has_lock o) (has_slot o) (has_mark o) (has_lock o) (inside o) (known o).
Definition enter (i : section) (o : own) : own := Own (has_lock o) (has_slot o) (has_mark o) (clear o) i (known o).
Definition learn (x : knowledge) (o : own) : own :=
  Own (has_lock o) (has_slot o) (has_mark o) (clear o) (inside o) (if may_mount o then x else Unknown).
(** What a goroutine starts with that is handed the drain slot. *)
Definition heir (o : own) : own :=
  Own false true false false Outside match known o with NoManager => NoManager | _ => Unknown end.

(** What an action needs, and what its answer gives. *)
Definition needs (a : action) (o : own) : bool :=
  match a with
  | Lock => negb (has_lock o) && negb (has_slot o) && outside o
  | Unlock => has_lock o && negb (has_mark o) && outside o
  | Mark | Unmark | Reexpose => has_lock o
  | ClaimDrain => has_lock o && negb (has_slot o) && outside o
  | EndDrain => has_slot o && outside o
  | MountBegin => outside o && may_mount o && knows_why o
  | MountEnd => bool_decide (inside o = Mounting) && knows_why o
  | UnmountBegin => outside o && may_mount o
  | UnmountEnd => bool_decide (inside o = Unmounting)
  | HasManager | DropManager => outside o
  | Draining | AwaitDrain | InSetup | TearDown | Choose => true
  end.
Definition gives (a : action) (b : bool) (o : own) : own :=
  match a with
  | Lock => with_lock true o
  | Unlock => with_lock false o
  | Mark => with_mark true o
  | Unmark => with_mark false o
  | Draining => if b then o else seen_free o
  | AwaitDrain => if b then seen_free o else o
  | ClaimDrain => if b then with_slot true o else o
  | EndDrain => with_slot false o
  | HasManager => learn (if b then Unknown else NoManager) o
  | DropManager => learn NoManager o
  | Reexpose => learn (if b then Unknown else TurnedDown) o
  | MountBegin => enter Mounting o
  | MountEnd => learn Unknown (enter Outside o)
  | UnmountBegin => enter Unmounting o
  | UnmountEnd => enter Outside o
  | InSetup | TearDown | Choose => o
  end.

(** The ownership discipline.  A claim of a slot that was seen free under the
    lock succeeds. *)
Fixpoint obeys (o : own) (p : proc) : bool :=
  match p with
  | Done => bool_decide (o = nothing)
  | Go q k => has_slot o && outside o && obeys (heir o) q && obeys (with_slot false o) k
  | Do a k =>
      needs a o && obeys (gives a true o) (k true)
      && (match a with ClaimDrain => clear o | _ => false end || obeys (gives a false o) (k false))
  end.

Example locking_obeys : forallb (obeys nothing) locking = true.
Proof. reflexivity. Qed.
Example recovery_does_not : obeys nothing recover_thread = false.
Proof. reflexivity. Qed.

(** Who owns what, in a configuration. *)
Record owns (f : nat -> own) (c : config) : Prop := Owns
  { own_obeys : forall i p, threads c !! i = Some p -> obeys (f i) p = true;
    own_none : forall i, threads c !! i = None -> f i = nothing;
    own_lock : forall i, has_lock (f i) = true <-> lock (state c) = Some i;
    own_slot : slot (state c) = true <-> exists i, has_slot (f i) = true;
    own_one_slot : forall i j, has_slot (f i) = true -> has_slot (f j) = true -> i = j;
    own_mark : mark (state c) = true <-> exists i, has_mark (f i) = true;
    own_marked : forall i, has_mark (f i) = true -> has_lock (f i) = true;
    own_clear : forall i, clear (f i) = true -> has_lock (f i) = true /\ slot (state c) = false;
    own_inside : forall i, inside (f i) <> Outside -> may_mount (f i) = true }.

Definition upd (f : nat -> own) (i : nat) (o : own) (j : nat) : own := if decide (j = i) then o else f j.
Lemma upd_eq f i o : upd f i o i = o.
Proof. unfold upd. by rewrite decide_True. Qed.
Lemma upd_ne f i o j : j <> i -> upd f i o j = f j.
Proof. unfold upd. intros H. by rewrite decide_False. Qed.

(** Goroutine [i] moves on to [p], now owning [o]. *)
Lemma owns_move f c i a k p o s' :
  owns f c -> threads c !! i = Some (Do a k) -> obeys o p = true ->
  (has_lock o = true <-> lock s' = Some i) ->
  (forall j, j <> i -> has_lock (f j) = true <-> lock s' = Some j) ->
  (slot s' = true <-> has_slot o = true \/ exists j, j <> i /\ has_slot (f j) = true) ->
  (has_slot o = true -> forall j, j <> i -> has_slot (f j) = false) ->
  (mark s' = true <-> has_mark o = true \/ exists j, j <> i /\ has_mark (f j) = true) ->
  (has_mark o = true -> has_lock o = true) ->
  (clear o = true -> has_lock o = true /\ slot s' = false) ->
  (forall j, j <> i -> clear (f j) = true -> slot s' = false) ->
  (inside o <> Outside -> may_mount o = true) ->
  owns (upd f i o) (Config (<[i := p]> (threads c)) s').
Proof.
  intros [H1 H2 H3 H4 H5 H6 H7 H8 H9] Hi Hp L1 L2 S1 S2 M1 M2 C1 C2 I1.
  assert (Hlt : (i < length (threads c))%nat) by by eapply lookup_lt_Some.
  split; cbn [threads state].
  - intros j q Hj. destruct (decide (j = i)) as [-> | Hne].
    + rewrite list_lookup_insert_eq in Hj by done. injection Hj as <-. by rewrite upd_eq.
    + rewrite list_lookup_insert_ne in Hj by done. rewrite upd_ne by done. by apply H1.
  - intros j Hj. destruct (decide (j = i)) as [-> | Hne].
    + by rewrite list_lookup_insert_eq in Hj.
    + rewrite list_lookup_insert_ne in Hj by done. rewrite upd_ne by done. by apply H2.
  - intros j. destruct (decide (j = i)) as [-> | Hne]; [by rewrite upd_eq | rewrite upd_ne by done; auto].
  - rewrite S1. split.
    + intros [H | (j & Hne & Hj)]; [exists i; by rewrite upd_eq | exists j; by rewrite upd_ne].
    + intros [j Hj]. destruct (decide (j = i)) as [-> | Hne]; [left; by rewrite upd_eq in Hj |].
      right. exists j. by rewrite upd_ne in Hj.
  - intros j j' Hj Hj'. destruct (decide (j = i)) as [-> | Hne], (decide (j' = i)) as [-> | Hne']; try done;
      rewrite ?upd_eq in *; rewrite ?upd_ne in * by done.
    + by rewrite S2 in Hj'.
    + by rewrite S2 in Hj.
    + by apply H5.
  - rewrite M1. split.
    + intros [H | (j & Hne & Hj)]; [exists i; by rewrite upd_eq | exists j; by rewrite upd_ne].
    + intros [j Hj]. destruct (decide (j = i)) as [-> | Hne]; [left; by rewrite upd_eq in Hj |].
      right. exists j. by rewrite upd_ne in Hj.
  - intros j. destruct (decide (j = i)) as [-> | Hne]; [by rewrite upd_eq | rewrite upd_ne by done; auto].
  - intros j. destruct (decide (j = i)) as [-> | Hne]; [by rewrite upd_eq | rewrite upd_ne by done].
    intros Hc. split; [by apply H8 | by eapply C2].
  - intros j. destruct (decide (j = i)) as [-> | Hne]; [by rewrite upd_eq | rewrite upd_ne by done; auto].
Qed.

Lemma or_others (P : nat -> Prop) i : (exists j, P j) <-> P i \/ exists j, j <> i /\ P j.
Proof.
  split; [| intros [H | (j & _ & H)]; eauto]. intros [j H]. destruct (decide (j = i)) as [-> | Hne]; eauto.
Qed.

Section moves.
Context (f : nat -> own) (c : config) (i : nat) (a : action) (k : bool -> proc) (p : proc).
Context (Ho : owns f c) (Hi : threads c !! i = Some (Do a k)).

Lemma slot_split : slot (state c) = true <-> has_slot (f i) = true \/ exists j, j <> i /\ has_slot (f j) = true.
Proof. rewrite (own_slot _ _ Ho). apply (or_others (fun j => has_slot (f j) = true)). Qed.
Lemma mark_split : mark (state c) = true <-> has_mark (f i) = true \/ exists j, j <> i /\ has_mark (f j) = true.
Proof. rewrite (own_mark _ _ Ho). apply (or_others (fun j => has_mark (f j) = true)). Qed.
Lemma slot_alone : has_slot (f i) = true -> forall j, j <> i -> has_slot (f j) = false.
Proof.
  intros Hs j Hne. apply not_true_is_false. intros E. by destruct (Hne (own_one_slot _ _ Ho _ _ E Hs)).
Qed.
Lemma lock_alone : has_lock (f i) = true -> forall j, j <> i -> has_lock (f j) = false.
Proof.
  intros Hl j Hne. apply not_true_is_false. intros E%(own_lock _ _ Ho). apply (own_lock _ _ Ho) in Hl. congruence.
Qed.
Lemma mark_alone : has_lock (f i) = true -> forall j, j <> i -> has_mark (f j) = false.
Proof.
  intros Hl j Hne. apply not_true_is_false. intros E%(own_marked _ _ Ho). by rewrite lock_alone in E.
Qed.

(** The lock, the slot and the mark stay as they are. *)
Lemma owns_quiet o s' :
  obeys o p = true -> lock s' = lock (state c) -> slot s' = slot (state c) -> mark s' = mark (state c) ->
  has_lock o = has_lock (f i) -> has_slot o = has_slot (f i) -> has_mark o = has_mark (f i) ->
  (clear o = true -> has_lock (f i) = true /\ slot (state c) = false) ->
  (inside o <> Outside -> may_mount o = true) ->
  owns (upd f i o) (Config (<[i := p]> (threads c)) s').
Proof.
  intros Hp El Es Em Ol Os Om Hc HI.
  eapply owns_move; rewrite ?El, ?Es, ?Em, ?Ol, ?Os, ?Om; try done; try apply Ho.
  - intros j _. apply Ho.
  - apply slot_split.
  - apply slot_alone.
  - apply mark_split.
  - intros j _ Hj. exact (proj2 (own_clear _ _ Ho j Hj)).
Qed.

Lemma owns_lock_taken m :
  lock (state c) = None -> has_slot (f i) = false -> inside (f i) = Outside -> obeys (with_lock true (f i)) p = true ->
  owns (upd f i (with_lock true (f i))) (Config (<[i := p]> (threads c)) (Shared (Some i) (mark (state c)) (slot (state c)) m)).
Proof.
  intros Hl Hs Hin Hp. eapply owns_move; eauto; cbn [with_lock has_lock has_slot has_mark clear inside lock slot mark]; try done.
  - intros j Hj. rewrite (own_lock _ _ Ho), Hl. split; congruence.
  - apply slot_split.
  - by rewrite Hs.
  - apply mark_split.
  - intros j _ Hj. exact (proj2 (own_clear _ _ Ho j Hj)).
Qed.

Lemma owns_lock_dropped m :
  has_lock (f i) = true -> has_mark (f i) = false -> inside (f i) = Outside -> obeys (with_lock false (f i)) p = true ->
  owns (upd f i (with_lock false (f i))) (Config (<[i := p]> (threads c)) (Shared None (mark (state c)) (slot (state c)) m)).
Proof.
  intros Hl Hm Hin Hp. eapply owns_move; eauto; cbn [with_lock has_lock has_slot has_mark clear inside lock slot mark]; try done.
  - intros j Hj. by rewrite (lock_alone Hl j Hj).
  - apply slot_split.
  - apply slot_alone.
  - apply mark_split.
  - intros j _ Hj. exact (proj2 (own_clear _ _ Ho j Hj)).
Qed.

Lemma owns_marked b m :
  has_lock (f i) = true -> obeys (with_mark b (f i)) p = true ->
  owns (upd f i (with_mark b (f i))) (Config (<[i := p]> (threads c)) (Shared (lock (state c)) b (slot (state c)) m)).
Proof.
  intros Hl Hp. eapply owns_move; eauto; cbn [with_mark has_lock has_slot has_mark clear inside lock slot mark]; try done; try apply Ho.
  - intros j _. apply Ho.
  - apply slot_split.
  - apply slot_alone.
  - split; [by left |]. intros [H | (j & Hj & H)]; [done |]. by rewrite (mark_alone Hl j Hj) in H.
  - intros j _ Hj. exact (proj2 (own_clear _ _ Ho j Hj)).
Qed.

Lemma owns_slot_taken m :
  has_lock (f i) = true -> slot (state c) = false -> inside (f i) = Outside -> obeys (with_slot true (f i)) p = true ->
  owns (upd f i (with_slot true (f i))) (Config (<[i := p]> (threads c)) (Shared (lock (state c)) (mark (state c)) true m)).
Proof.
  intros Hl Hs Hin Hp.
  assert (Hno : forall j, has_slot (f j) = false).
  { intros j. apply not_true_is_false. intros E. assert (slot (state c) = true) by (apply (own_slot _ _ Ho); eauto). congruence. }
  eapply owns_move; eauto; cbn [with_slot has_lock has_slot has_mark clear inside lock slot mark]; try done; try apply Ho.
  - intros j _. apply Ho.
  - split; [by left | done].
  - apply mark_split.
  - intros j Hj Hc. destruct (own_clear _ _ Ho j Hc) as [E _]. by rewrite (lock_alone Hl j Hj) in E.
Qed.

Lemma owns_slot_freed m :
  has_slot (f i) = true -> inside (f i) = Outside -> obeys (with_slot false (f i)) p = true ->
  owns (upd f i (with_slot false (f i))) (Config (<[i := p]> (threads c)) (Shared (lock (state c)) (mark (state c)) false m)).
Proof.
  intros Hs Hin Hp.
  eapply owns_move; eauto; cbn [with_slot has_lock has_slot has_mark clear inside lock slot mark]; try done; try apply Ho.
  - intros j _. apply Ho.
  - split; [done |]. intros [H | (j & Hj & H)]; [done |]. by rewrite (slot_alone Hs j Hj) in H.
  - apply mark_split.
Qed.

End moves.

Lemma outside_true o : outside o = true <-> inside o = Outside.
Proof. apply bool_decide_eq_true. Qed.

(** What the discipline says of an answered action. *)
Lemma obeys_answer o a k b :
  obeys o (Do a k) = true -> (a = ClaimDrain -> b = false -> clear o = false) ->
  needs a o = true /\ obeys (gives a b o) (k b) = true.
Proof.
  cbn [obeys]. intros [[Hn Ht]%andb_true_iff Hf]%andb_true_iff Hc. split; [done |]. destruct b; [done |].
  apply orb_true_iff in Hf as [Hf |]; [| done]. destruct a; try done. by rewrite Hc in Hf.
Qed.

Lemma seen_free_may o : (inside o <> Outside -> may_mount o = true) -> inside (seen_free o) <> Outside -> may_mount (seen_free o) = true.
Proof.
  intros H Hin. specialize (H Hin). unfold may_mount in *. cbn. destruct (has_slot o), (has_lock o); done.
Qed.
#[local] Hint Resolve seen_free_may : core.

Lemma claim_refused i s s' : fires i ClaimDrain false s s' -> slot s = true.
Proof. inversion 1; subst. by apply negb_false_iff. Qed.

(** An answered action preserves ownership. *)
Lemma owns_act f c i a k b s' :
  owns f c -> threads c !! i = Some (Do a k) -> fires i a b (state c) s' ->
  owns (upd f i (gives a b (f i))) (Config (<[i := k b]> (threads c)) s').
Proof.
  intros Ho Hi Hf. pose proof (own_obeys _ _ Ho _ _ Hi) as Hob. pose proof (own_clear _ _ Ho i) as Hc.
  pose proof (own_inside _ _ Ho i) as HI. apply (obeys_answer _ _ _ b) in Hob as [Hn Hob].
  2: { intros -> ->. destruct (clear (f i)); [| done]. destruct Hc as [_ Hc]; [done |]. apply claim_refused in Hf. congruence. }
  inversion Hf; subst; cbn [needs gives] in *; bools; rewrite ?outside_true in *.
  all: try (eapply owns_quiet; eauto; fail).
  - by eapply owns_lock_taken.
  - by eapply owns_lock_dropped.
  - by eapply owns_marked.
  - by eapply owns_marked.
  - destruct (slot (state c)) eqn:Es; eapply owns_quiet; eauto; rewrite Es; auto.
  - destruct (slot (state c)) eqn:Es; cbn [negb] in *; [| by eapply owns_slot_taken].
    eapply owns_quiet; eauto. by rewrite Es.
  - by eapply owns_slot_freed.
Qed.

Lemma owns_start f c p : owns f c -> obeys nothing p = true -> owns f (Config (threads c ++ [p]) (state c)).
Proof.
  intros [H1 H2 H3 H4 H5 H6 H7 H8 H9] Hp. split; cbn [threads state]; try done.
  - intros i q Hi. apply lookup_app_Some in Hi as [Hi | [Hlen Hi]]; [by apply H1 |].
    apply list_lookup_singleton_Some in Hi as [Hz <-]. rewrite H2; [done |]. apply lookup_ge_None. lia.
  - intros i Hi%lookup_ge_None. apply H2, lookup_ge_None. rewrite length_app in Hi. lia.
Qed.

(** Goroutine [i] hands the drain slot to the new goroutine [n]. *)
Definition handed (f : nat -> own) (i n : nat) : nat -> own := upd (upd f i (with_slot false (f i))) n (heir (f i)).

Section handed.
Context (f : nat -> own) (i n : nat) (Hn : f n = nothing).

Lemma handed_cases j :
  (j = n /\ handed f i n j = heir (f i) /\ f j = nothing)
  \/ (j = i /\ handed f i n j = with_slot false (f j))
  \/ (j <> n /\ j <> i /\ handed f i n j = f j).
Proof.
  unfold handed. destruct (decide (j = n)) as [-> |]; [left; by rewrite upd_eq |]. rewrite upd_ne by done.
  destruct (decide (j = i)) as [-> |]; [right; left; by rewrite upd_eq | right; right; by rewrite upd_ne].
Qed.
Lemma handed_lock j : has_lock (handed f i n j) = has_lock (f j).
Proof. by destruct (handed_cases j) as [(_ & -> & ->) | [(_ & ->) | (_ & _ & ->)]]. Qed.
Lemma handed_mark j : has_mark (handed f i n j) = has_mark (f j).
Proof. by destruct (handed_cases j) as [(_ & -> & ->) | [(_ & ->) | (_ & _ & ->)]]. Qed.

End handed.

Lemma owns_go f c i p k :
  owns f c -> threads c !! i = Some (Go p k) ->
  owns (handed f i (length (threads c))) (Config (<[i := k]> (threads c) ++ [p]) (state c)).
Proof.
  intros Ho Hi. pose proof (own_obeys _ _ Ho _ _ Hi) as Hob. cbn [obeys] in Hob.
  apply andb_true_iff in Hob as [Hob Hk]. apply andb_true_iff in Hob as [Hob Hp].
  apply andb_true_iff in Hob as [Hs Hin%outside_true].
  set (n := length (threads c)). assert (Hlt : (i < n)%nat) by by eapply lookup_lt_Some.
  assert (Hn : f n = nothing) by by apply Ho, lookup_ge_None.
  pose proof (handed_cases f i n Hn) as Hcase. pose proof (handed_lock f i n Hn) as Hlock.
  pose proof (handed_mark f i n Hn) as Hmark.
  assert (Hslot : forall j, has_slot (handed f i n j) = true <-> j = n).
  { intros j. destruct (Hcase j) as [(-> & -> & _) | [(-> & ->) | (Hne & Hni & ->)]]; [done | cbn; split; [done | lia] |].
    split; [| done]. intros E. by destruct (Hni (own_one_slot _ _ Ho j i E Hs)). }
  split; cbn [threads state].
  - intros j q Hj. apply lookup_app_Some in Hj as [Hj | [Hlen Hj]].
    + assert (j < n)%nat by (apply lookup_lt_Some in Hj; by rewrite length_insert in Hj).
      destruct (Hcase j) as [(-> & _) | [(-> & ->) | (_ & Hni & ->)]]; [lia | |].
      * rewrite list_lookup_insert_eq in Hj by done. by injection Hj as <-.
      * rewrite list_lookup_insert_ne in Hj by done. by apply Ho.
    + apply list_lookup_singleton_Some in Hj as [Hz <-]. rewrite length_insert in Hz, Hlen.
      replace j with n by (unfold n in *; lia). unfold handed. by rewrite upd_eq.
  - intros j Hj%lookup_ge_None. rewrite length_app, length_insert in Hj. cbn in Hj. unfold n in *.
    destruct (Hcase j) as [(-> & _) | [(-> & _) | (_ & _ & ->)]]; [lia.. |]. apply Ho, lookup_ge_None. lia.
  - intros j. rewrite Hlock. apply Ho.
  - split; [intros _; exists n; by apply Hslot | intros _; apply (own_slot _ _ Ho); eauto].
  - by intros j j' ->%Hslot ->%Hslot.
  - setoid_rewrite Hmark. apply Ho.
  - intros j. rewrite Hmark, Hlock. apply Ho.
  - intros j. rewrite Hlock. destruct (Hcase j) as [(_ & -> & _) | [(_ & ->) | (_ & _ & ->)]]; [done.. | apply Ho].
  - intros j. destruct (Hcase j) as [(_ & -> & _) | [(-> & ->) | (_ & _ & ->)]]; [done | cbn; by rewrite Hin | apply Ho].
Qed.

Lemma owns_init : owns (fun _ => nothing) (Config [] idle).
Proof. split; cbn; try done; (split; [done |]); by intros [? ?]. Qed.

(** Operations that obey the discipline own what they use, however they are
    interleaved. *)
Lemma obeying_own ops c : forallb (obeys nothing) ops = true -> reachable ops c -> exists f, owns f c.
Proof.
  intros Hops Hr. induction Hr as [| c c' _ [f Hf] Hs]; [eexists; apply owns_init |].
  destruct Hs as [p c Hp | i a k b s' c Hi Hb | i p k c Hi].
  - exists f. apply owns_start; [done |]. eapply forallb_forall; [exact Hops | by apply list_elem_of_In].
  - eexists. by apply owns_act.
  - eexists. by apply owns_go.
Qed.

(** ** No two mounts at once *)

Definition busy (p : proc) : bool := mounting p || unmounting p.

Lemma busy_may_mount f c i p : owns f c -> threads c !! i = Some p -> busy p = true -> may_mount (f i) = true.
Proof.
  intros Ho Hi Hb. apply (own_inside _ _ Ho). pose proof (own_obeys _ _ Ho _ _ Hi) as Hp.
  destruct p as [| [] k | p k]; try done; cbn [obeys needs] in Hp; bools; congruence.
Qed.

Lemma one_may_mount f c i j : owns f c -> may_mount (f i) = true -> may_mount (f j) = true -> i = j.
Proof.
  intros Ho Hi Hj.
  assert (Hls : forall i j, has_slot (f i) = true -> clear (f j) = true -> i = j).
  { intros x y Hx [_ Hy]%(own_clear _ _ Ho). assert (slot (state c) = true) by (apply (own_slot _ _ Ho); eauto). congruence. }
  unfold may_mount in *. apply orb_true_iff in Hi as [Hi | [Hi Ci]%andb_true_iff], Hj as [Hj | [Hj Cj]%andb_true_iff].
  - by eapply (own_one_slot _ _ Ho).
  - by apply Hls.
  - symmetry. by apply Hls.
  - apply (own_lock _ _ Ho) in Hi, Hj. congruence.
Qed.

(** *** What a goroutine knows of the manager

    It stays true: nobody else mounts or exposes a session meanwhile. *)
Definition informed (o : own) (s : shared) (failed : bool) : Prop :=
  match known o with
  | Unknown => True
  | NoManager => may_mount o = true /\ manager s = false
  | TurnedDown => may_mount o = true /\ has_lock o = true /\ failed = true
  end.

Lemma fires_manager i a b s s' :
  fires i a b s s' ->
  manager s' = match a with DropManager => false | MountEnd => b || manager s | _ => manager s end.
Proof. by inversion 1. Qed.

(** The goroutine that acts. *)
Lemma informed_self i a b s s' o failed :
  fires i a b s s' -> needs a o = true -> (inside o <> Outside -> may_mount o = true) ->
  informed o s failed -> informed (gives a b o) s' (watch a b failed).
Proof.
  intros Hf Hn HI Hk. unfold informed in *. rewrite (fires_manager _ _ _ _ _ Hf).
  assert (Hm : a = HasManager -> manager s = b) by (intros ->; by inversion Hf).
  destruct a; cbn [gives watch] in *; try done;
    destruct o as [[] [] m [] n []]; try destruct b; cbn in *; intuition congruence.
Qed.

(** Every other goroutine. *)
Lemma informed_other f c i j a b s' failed :
  owns f c -> i <> j -> fires i a b (state c) s' -> needs a (f i) = true ->
  informed (f j) (state c) failed -> informed (f j) s' (watch a b failed).
Proof.
  intros Ho Hne Hf Hn. unfold informed. rewrite (fires_manager _ _ _ _ _ Hf).
  assert (Hmount : a = MountEnd -> may_mount (f j) = true -> False).
  { intros -> Hj. cbn [needs] in Hn. bools. apply Hne. eapply one_may_mount; [exact Ho | | exact Hj]. apply (own_inside _ _ Ho). congruence. }
  assert (Hlock : a = Reexpose -> has_lock (f j) = true -> False).
  { intros -> Hj. cbn [needs] in Hn. by rewrite (lock_alone _ _ _ Ho Hj i Hne) in Hn. }
  destruct (known (f j)); [done | |].
  - intros [Hj Hm]. split; [done |]. destruct a; try done. by destruct Hmount.
  - intros (Hj & Hl & ->). splits; [done.. |]. destruct a; try done; [by destruct Hmount | by destruct Hlock].
Qed.

Lemma obeying_informed ops c failed :
  forallb (obeys nothing) ops = true -> watched ops c failed ->
  exists f, owns f c /\ forall i, informed (f i) (state c) failed.
Proof.
  intros Hops Hw. induction Hw as [| p c failed _ [f [Ho Hk]] Hp | i a k b s' c failed _ [f [Ho Hk]] Hi Hf | i p k c failed _ [f [Ho Hk]] Hi].
  - exists (fun _ => nothing). split; [apply owns_init | done].
  - exists f. split; [| done]. apply owns_start; [done |]. eapply forallb_forall; [exact Hops | by apply list_elem_of_In].
  - eexists. split; [by apply owns_act |]. pose proof (own_obeys _ _ Ho _ _ Hi) as Hn. cbn [obeys] in Hn. bools.
    intros j. destruct (decide (j = i)) as [-> | Hne]; [rewrite upd_eq | rewrite upd_ne by done].
    + eapply informed_self; [done | done | apply (own_inside _ _ Ho) | apply Hk].
    + eapply informed_other; eauto.
  - eexists. split; [by eapply owns_go |]. intros j. cbn [state].
    assert (Hn : f (length (threads c)) = nothing) by (apply (own_none _ _ Ho), lookup_ge_None; lia).
    destruct (handed_cases f i _ Hn j) as [(-> & -> & _) | [(-> & ->) | (_ & _ & ->)]]; [| done | apply Hk].
    specialize (Hk i). unfold informed in *. cbn. destruct (known (f i)); naive_solver.
Qed.

(** C9: a volume is never mounted twice at once, nor over a session that is
    live.  This is about the operations that take the volume's lock, the CSI
    calls for it, the repair of its mount and the sweeps, with the drain
    goroutines they start.  However they are interleaved, and whatever the world
    answers them: no two goroutines are mounting or unmounting the volume at the
    same time (a forced unmount and the teardown of a repair apart); while one
    mounts it, there is no manager for it, or the last attempt to expose the
    session of that manager again failed; and when all have ended, the lock, the
    setup mark and the drain slot are free again.  The recovery of stranded
    volumes does not take the lock, and is no part of it: see
    [recovery_can_mount_twice]. *)
Theorem mounts_exclude_each_other c failed :
  watched locking c failed ->
  (forall i j p q, threads c !! i = Some p -> threads c !! j = Some q -> busy p = true -> busy q = true -> i = j)
  /\ (forall i p, threads c !! i = Some p -> mounting p = true -> manager (state c) = false \/ failed = true)
  /\ (Forall (fun p => p = Done) (threads c) -> lock (state c) = None /\ mark (state c) = false /\ slot (state c) = false).
Proof.
  intros Hr. destruct (obeying_informed locking c failed locking_obeys Hr) as (f & Ho & Hk). split; [| split].
  - intros i j p q Hi Hj Hp Hq. eapply (one_may_mount f c); eauto using busy_may_mount.
  - intros i p Hi Hp. pose proof (own_obeys _ _ Ho _ _ Hi) as Hn. destruct p as [| [] k | p k]; try done.
    cbn [obeys needs] in Hn. unfold knows_why in Hn. bools. specialize (Hk i). unfold informed in Hk. destruct (known (f i)); [done | by left; apply Hk | by right; apply Hk].
  - intros Hd. assert (Hno : forall i, f i = nothing).
    { intros i. destruct (threads c !! i) as [p |] eqn:Hi; [| by apply Ho].
      assert (p = Done) as -> by exact (list.Forall_lookup_1 _ _ _ _ Hd Hi).
      pose proof (own_obeys _ _ Ho i _ Hi) as H. by apply bool_decide_eq_true in H. }
    splits; [| apply not_true_is_false; intros [i Hi]%(own_mark _ _ Ho); by rewrite Hno in Hi
      | apply not_true_is_false; intros [i Hi]%(own_slot _ _ Ho); by rewrite Hno in Hi].
    destruct (lock (state c)) as [i |] eqn:Hl; [| done]. apply (own_lock _ _ Ho) in Hl. by rewrite Hno in Hl.
Qed.

(** ** No deadlock

    What is needed of the lock alone; the recovery keeps to it as well. *)
Fixpoint lock_ok (held : bool) (p : proc) : bool :=
  match p with
  | Done => negb held
  | Go q k => lock_ok false q && lock_ok held k
  | Do Lock k => negb held && lock_ok true (k true) && lock_ok true (k false)
  | Do Unlock k => held && lock_ok false (k true) && lock_ok false (k false)
  | Do _ k => lock_ok held (k true) && lock_ok held (k false)
  end.

(** Every operation on a volume, the recovery with them. *)
Definition operations : list proc := recover_thread :: locking.
Example operations_lock_ok : forallb (lock_ok false) operations = true.
Proof. reflexivity. Qed.

Definition holds (c : config) (i : nat) : bool := bool_decide (lock (state c) = Some i).
Record locked (c : config) : Prop := Locked
  { locked_ok : forall i p, threads c !! i = Some p -> lock_ok (holds c i) p = true;
    locked_by : forall i, lock (state c) = Some i -> is_Some (threads c !! i) }.

Lemma lock_ok_both h a k b : lock_ok h (Do a k) = true -> a <> Lock -> a <> Unlock -> lock_ok h (k b) = true.
Proof. intros H Hl Hu. destruct a; try done; cbn [lock_ok] in H; bools; by destruct b. Qed.
Lemma fires_lock i a b s s' :
  fires i a b s s' -> lock s' = match a with Lock => Some i | Unlock => None | _ => lock s end.
Proof. by inversion 1. Qed.
Lemma fires_held i b s s' : fires i Lock b s s' -> lock s = None.
Proof. by inversion 1. Qed.

Lemma locked_act c i a k b s' :
  locked c -> threads c !! i = Some (Do a k) -> fires i a b (state c) s' ->
  locked (Config (<[i := k b]> (threads c)) s').
Proof.
  intros [Hk Hb] Hi Hf. pose proof (Hk _ _ Hi) as Ha. pose proof (fires_lock _ _ _ _ _ Hf) as El.
  assert (Hlt : (i < length (threads c))%nat) by by eapply lookup_lt_Some.
  split; cbn [threads state].
  - intros j p Hj. unfold holds. cbn [state]. rewrite El. destruct (decide (j = i)) as [-> | Hne].
    + rewrite list_lookup_insert_eq in Hj by done. injection Hj as <-.
      destruct a; try (by eapply lock_ok_both); cbn [lock_ok] in Ha; bools; [rewrite bool_decide_eq_true_2 by done | rewrite bool_decide_eq_false_2 by done]; by destruct b.
    + rewrite list_lookup_insert_ne in Hj by done. pose proof (Hk _ _ Hj) as Hp. unfold holds in Hp. destruct a; try done.
      * rewrite bool_decide_eq_false_2 by congruence. by rewrite (fires_held _ _ _ _ Hf) in Hp.
      * cbn [lock_ok] in Ha. unfold holds in Ha. bools. rewrite bool_decide_eq_false_2 by done.
        rewrite bool_decide_eq_false_2 in Hp by congruence. done.
  - intros j Hj. apply lookup_lt_is_Some. rewrite length_insert. rewrite El in Hj.
    destruct a; try (by apply lookup_lt_is_Some, Hb); by injection Hj as <-.
Qed.
Lemma locked_append c p : locked c -> lock_ok false p = true -> locked (Config (threads c ++ [p]) (state c)).
Proof.
  intros [Hk Hb] Hp. split; cbn [threads state].
  - intros i q Hi. unfold holds. cbn [state]. apply lookup_app_Some in Hi as [Hi | [Hlen Hi]]; [by apply Hk |].
    apply list_lookup_singleton_Some in Hi as [_ <-]. rewrite bool_decide_eq_false_2; [done |].
    intros [? ?%lookup_lt_Some]%Hb. lia.
  - intros i Hi. apply lookup_lt_is_Some. rewrite length_app. apply Hb, lookup_lt_is_Some in Hi. lia.
Qed.
Lemma locked_go c i p k : locked c -> threads c !! i = Some (Go p k) -> locked (Config (<[i := k]> (threads c) ++ [p]) (state c)).
Proof.
  intros Hl Hi. pose proof (locked_ok _ Hl _ _ Hi) as H. cbn [lock_ok] in H. bools.
  apply (locked_append (Config (<[i := k]> (threads c)) (state c))); [| done]. destruct Hl as [Hk Hb]. split.
  - intros j q Hj. change (<[i := k]> (threads c) !! j = Some q) in Hj. destruct (decide (j = i)) as [-> | Hne].
    + pose proof (lookup_lt_Some _ _ _ Hi) as Hlt. rewrite list_lookup_insert_eq in Hj by done. by injection Hj as <-.
    + rewrite list_lookup_insert_ne in Hj by done. by apply Hk.
  - intros j Hj. apply lookup_lt_is_Some. change (j < length (<[i := k]> (threads c)))%nat. rewrite length_insert. by apply lookup_lt_is_Some, Hb.
Qed.
Lemma reachable_locked ops c : forallb (lock_ok false) ops = true -> reachable ops c -> locked c.
Proof.
  intros Hops. induction 1 as [| c c' _ IH Hs]; [by split |].
  destruct Hs as [p c Hp | i a k b s' c Hi Hb | i p k c Hi]; [| by eapply locked_act | by eapply locked_go].
  apply locked_append; [done |]. eapply forallb_forall; [exact Hops | by apply list_elem_of_In].
Qed.

(** A step of goroutine [i]. *)
Inductive moves (i : nat) : config -> config -> Prop :=
  | move_act a k b s' c :
      threads c !! i = Some (Do a k) -> fires i a b (state c) s' -> moves i c (Config (<[i := k b]> (threads c)) s')
  | move_go p k c :
      threads c !! i = Some (Go p k) -> moves i c (Config (<[i := k]> (threads c) ++ [p]) (state c)).
Lemma step_moves c c' : step [] c c' -> exists i, moves i c c'.
Proof.
  destruct 1 as [p c Hp | i a k b s' c Hi Hb | i p k c Hi]; [by apply not_elem_of_nil in Hp | exists i; by eapply move_act | exists i; by eapply move_go].
Qed.
Lemma moves_step i c c' : moves i c c' -> step [] c c'.
Proof. destruct 1; [by eapply step_act | by eapply step_go]. Qed.

(** The steps a goroutine can take, with those it starts. *)
Fixpoint size (p : proc) : nat :=
  match p with Done => O | Do _ k => S (Nat.max (size (k true)) (size (k false))) | Go q k => S (size q + size k) end.
Definition work (c : config) : nat := sum_list_with size (threads c).

Lemma sum_insert (l : list proc) (i : nat) p q :
  l !! i = Some p -> (sum_list_with size (<[i := q]> l) + size p = sum_list_with size l + size q)%nat.
Proof.
  intros Hi. rewrite insert_take_drop by exact (lookup_lt_Some _ _ _ Hi). rewrite <- (take_drop_middle l i p Hi) at 3.
  rewrite !sum_list_with_app. cbn [sum_list_with]. lia.
Qed.
Lemma moves_work i c c' : moves i c c' -> (work c' < work c)%nat.
Proof.
  destruct 1 as [a k b s' c Hi _ | p k c Hi]; unfold work; cbn [threads]; rewrite ?sum_list_with_app; cbn;
    [pose proof (sum_insert _ _ _ (k b) Hi) as H; destruct b | pose proof (sum_insert _ _ _ k Hi) as H]; cbn [size] in H; lia.
Qed.

(** Every action but the taking of a held lock is answered. *)
Lemma action_answered i a s : a <> Lock \/ lock s = None -> exists b s', fires i a b s s'.
Proof.
  intros H. destruct a; try (eexists true, _; by constructor); try (eexists _, _; by constructor).
  - destruct H as [H | H]; [done |]. eexists true, _. by constructor.
Qed.
Lemma can_move c i p : threads c !! i = Some p -> p <> Done -> (forall k, p = Do Lock k -> lock (state c) = None) -> exists c', moves i c c'.
Proof.
  destruct p as [| a k | q k]; intros Hi Hp Hl; [done | | eexists; by eapply move_go].
  destruct (action_answered i a (state c)) as (b & s' & Hf); [| eexists; by eapply move_act].
  destruct (decide (lock (state c) = None)) as [E |]; [by right |]. left. intros ->. by destruct (Hl k eq_refl).
Qed.

(** C20: the operations on a volume never deadlock, and every one ends.  This is
    about all of them, the recovery of stranded volumes included, however they
    are interleaved.  A goroutine that has not ended can take a step, unless it
    is about to take the volume's lock while another one holds it, and that one
    can take a step: only the lock ever makes one wait, and its holder never
    waits.  And when no new operation starts, no run takes more steps than the
    goroutines have left in them, and one that cannot go on has ended them
    all. *)
Theorem operations_never_deadlock c :
  reachable operations c ->
  (forall i p, threads c !! i = Some p -> p <> Done ->
     (exists c', moves i c c')
     \/ (exists k j c', p = Do Lock k /\ lock (state c) = Some j /\ j <> i /\ moves j c c'))
  /\ (forall n c', relations.nsteps (step []) n c c' -> (n + work c' <= work c)%nat)
  /\ (forall c', rtc (step []) c c' -> (forall c2, ~ step [] c' c2) -> Forall (fun p => p = Done) (threads c')).
Proof.
  assert (Hwait : forall c, locked c -> forall i p, threads c !! i = Some p -> p <> Done ->
     (exists c', moves i c c') \/ (exists k j c', p = Do Lock k /\ lock (state c) = Some j /\ j <> i /\ moves j c c')).
  { clear c. intros c Hl i p Hi Hp. destruct (decide (lock (state c) = None)) as [E | E]; [left; by eapply can_move |].
    destruct (lock (state c)) as [j |] eqn:Ej; [| done]. destruct (locked_by _ Hl j Ej) as [q Hj].
    pose proof (locked_ok _ Hl _ _ Hj) as Hq. unfold holds in Hq. rewrite bool_decide_eq_true_2 in Hq by done.
    assert (exists c', moves j c c') as [c' Hm].
    { eapply can_move; [exact Hj | by intros -> | by intros k ->]. }
    destruct (decide (i = j)) as [-> | Hne]; [left; by exists c' |].
    destruct p as [| [] k | p k]; try (left; by eapply can_move). right. by exists k, j, c'. }
  intros Hr. split; [apply Hwait; by eapply reachable_locked; [apply operations_lock_ok |] |]. split.
  - clear Hr. intros n c' Hn. induction Hn as [| n c c1 c' Hs _ IH]; [lia |].
    apply step_moves in Hs as [i Hs%moves_work]. lia.
  - intros c' Hs Hend. assert (Hl : locked c').
    { eapply (reachable_locked operations); [done |]. clear Hend. revert Hr. induction Hs as [| c c1 c' Hs _ IH]; [done |].
      intros Hr. apply IH. eapply reach_step; [done |]. destruct Hs as [p c Hp | |]; [by apply not_elem_of_nil in Hp | by eapply step_act | by eapply step_go]. }
    apply list.Forall_lookup_2. intros i p Hi. assert (Hp : p = Done \/ p <> Done) by (destruct p; auto). destruct Hp as [| Hp]; [done |]. exfalso.
    destruct (Hwait c' Hl i p Hi Hp) as [[c2 H] | (_ & j & c2 & _ & _ & _ & H)]; by apply moves_step, Hend in H.
Qed.

(** ** Schedules *)

(** What goroutine [i] is answered when the world's choice is [b]. *)
Definition answer (i : nat) (a : action) (b : bool) (s : shared) : option (bool * shared) :=
  match a with
  | Lock => match lock s with None => Some (b, Shared (Some i) (mark s) (slot s) (manager s)) | Some _ => None end
  | Unlock => Some (b, Shared None (mark s) (slot s) (manager s))
  | Mark => Some (b, Shared (lock s) true (slot s) (manager s))
  | Unmark => Some (b, Shared (lock s) false (slot s) (manager s))
  | InSetup => Some (mark s, s)
  | Draining => Some (slot s, s)
  | AwaitDrain => if slot s then Some (false, s) else Some (b, s)
  | ClaimDrain => Some (negb (slot s), Shared (lock s) (mark s) true (manager s))
  | EndDrain => Some (b, Shared (lock s) (mark s) false (manager s))
  | HasManager => Some (manager s, s)
  | DropManager => Some (b, Shared (lock s) (mark s) (slot s) false)
  | MountEnd => Some (b, Shared (lock s) (mark s) (slot s) (b || manager s))
  | MountBegin | UnmountBegin | UnmountEnd | Reexpose | TearDown | Choose => Some (b, s)
  end.

Lemma answer_fires i a b s b' s' : answer i a b s = Some (b', s') -> fires i a b' s s'.
Proof.
  destruct a; cbn; try (intros [= <- <-]; constructor).
  - destruct (lock s) eqn:E; [done |]. intros [= <- <-]. by constructor.
  - destruct (slot s) eqn:E; intros [= <- <-]; [constructor | destruct b; by constructor].
Qed.

(** One entry of a schedule: the [n]th operation starts, or goroutine [i] goes
    on, the world choosing [b]. *)
Inductive turn : Set := Start (n : nat) | Turn (i : nat) (b : bool).

Definition take (ops : list proc) (t : turn) (c : config) : option config :=
  match t with
  | Start n => p ← ops !! n; Some (Config (threads c ++ [p]) (state c))
  | Turn i b =>
      match threads c !! i with
      | Some (Do a k) => '(b', s') ← answer i a b (state c); Some (Config (<[i := k b']> (threads c)) s')
      | Some (Go p k) => Some (Config (<[i := k]> (threads c) ++ [p]) (state c))
      | _ => None
      end
  end.
Fixpoint follow (ops : list proc) (l : list turn) (c : config) : option config :=
  match l with [] => Some c | t :: l => c' ← take ops t c; follow ops l c' end.

Lemma take_step ops t c c' : take ops t c = Some c' -> step ops c c'.
Proof.
  destruct t as [n | i b]; cbn.
  - intros (p & Hp & [= <-])%bind_Some. apply step_start. by eapply list_elem_of_lookup_2.
  - destruct (threads c !! i) as [[| a k | p k] |] eqn:Hi; try done.
    + intros ([b' s'] & Ha%answer_fires & [= <-])%bind_Some. by eapply step_act.
    + intros [= <-]. by apply step_go.
Qed.
Lemma follow_reaches ops l c c' : reachable ops c -> follow ops l c = Some c' -> reachable ops c'.
Proof.
  revert c. induction l as [| t l IH]; cbn; intros c Hc; [by intros [= <-] |].
  intros (c1 & Ht & Hl)%bind_Some. apply (IH c1); [| done]. eapply reach_step; [done | by eapply take_step].
Qed.

(** The same with what [watch] says. *)
Fixpoint follow_watched (ops : list proc) (l : list turn) (c : config) (failed : bool) : option (config * bool) :=
  match l with
  | [] => Some (c, failed)
  | t :: l =>
      let seen := match t with
                  | Turn i b => match threads c !! i with
                                | Some (Do a _) => '(b', _) ← answer i a b (state c); Some (watch a b' failed)
                                | _ => Some failed
                                end
                  | Start _ => Some failed
                  end in
      c' ← take ops t c; failed' ← seen; follow_watched ops l c' failed'
  end.
Lemma follow_watched_reaches ops l c failed c' failed' :
  watched ops c failed -> follow_watched ops l c failed = Some (c', failed') -> watched ops c' failed'.
Proof.
  revert c failed. induction l as [| t l IH]; cbn; intros c failed Hc; [by intros [= <- <-] |].
  intros (c1 & Ht & (x & Hx & Hl)%bind_Some)%bind_Some. apply (IH c1 x); [| done]. destruct t as [n | i b]; cbn in Ht.
  - injection Hx as <-. apply bind_Some in Ht as (p & Hp & [= <-]). apply watch_start; [done |]. by eapply list_elem_of_lookup_2.
  - destruct (threads c !! i) as [[| a k | p k] |] eqn:Hi; try done.
    + apply bind_Some in Ht as ([b' s'] & Ha & [= <-]). rewrite Ha in Hx. injection Hx as <-.
      eapply watch_act; [done | done | by eapply answer_fires].
    + injection Ht as <-. injection Hx as <-. by apply watch_go.
Qed.

(** The volume is staged, unstaged with uploads in progress, and staged again
    while its drain is unmounting: the second staging waits. *)
Definition drain_then_stage : list turn :=
  Start 0 :: repeat (Turn 0 true) 9
  ++ Start 2 :: [Turn 1 true; Turn 1 true; Turn 1 false; Turn 1 true; Turn 1 true; Turn 1 false; Turn 1 true; Turn 1 true; Turn 1 true]
  ++ [Turn 2 true; Turn 2 true]
  ++ Start 0 :: repeat (Turn 3 true) 5.
Definition waiting : config := default (Config [] idle) (follow locking drain_then_stage (Config [] idle)).

Lemma waiting_watched : watched locking waiting false.
Proof.
  apply (follow_watched_reaches _ drain_then_stage (Config [] idle) false); [constructor | vm_compute; reflexivity].
Qed.

Lemma mounts_exclude_each_other_witness :
  existsb unmounting (threads waiting) = true
  /\ forall i j p q, threads waiting !! i = Some p -> threads waiting !! j = Some q -> busy p = true -> busy q = true -> i = j.
Proof.
  split; [vm_compute; reflexivity |]. exact (proj1 (mounts_exclude_each_other waiting false waiting_watched)).
Defined.

(** A volume with a manager whose session could not be exposed again is mounted
    anew. *)
Definition stage_dead : list turn :=
  Start 0 :: repeat (Turn 0 true) 9
  ++ Start 0 :: map (Turn 1) [true; true; true; false; true; false; true].
Example dead_session_mounted_anew :
  match follow_watched locking stage_dead (Config [] idle) false with
  | Some (c, failed) => existsb mounting (threads c) && manager (state c) && failed
  | None => false
  end = true.
Proof. vm_compute. reflexivity. Qed.

(** Two calls for the volume: the second waits for the lock, which the first has. *)
Definition queued : config := default (Config [] idle) (follow operations [Start 1; Turn 0 true; Start 3] (Config [] idle)).

Lemma operations_never_deadlock_witness :
  match threads queued !! 1%nat with Some (Do Lock _) => lock (state queued) = Some 0%nat | _ => False end
  /\ (forall p, threads queued !! 1%nat = Some p -> p <> Done ->
        (exists c', moves 1 queued c')
        \/ (exists k j c', p = Do Lock k /\ lock (state queued) = Some j /\ j <> 1%nat /\ moves j queued c')).
Proof.
  split; [vm_compute; reflexivity |].
  assert (Hr : reachable operations queued).
  { apply (follow_reaches _ [Start 1; Turn 0 true; Start 3] (Config [] idle)); [constructor | vm_compute; reflexivity]. }
  exact (proj1 (operations_never_deadlock queued Hr) 1%nat).
Defined.

(** ** The recovery of stranded volumes *)

Definition recovery_races_stage : list turn :=
  Start 0 :: [Turn 0 true; Turn 0 true; Turn 0 true; Turn 0 false; Turn 0 true]
  ++ Start 1 :: repeat (Turn 1 true) 6
  ++ [Turn 0 true; Turn 0 true; Turn 2 true].

(** The recovery of stranded volumes can mount a volume twice.  It takes
    the drain slot without the volume's lock, so when a staging has passed the
    wait for drains, the recovery still finds no drain and no mount, and both
    mount the volume at once; under the lock, as every other operation, it
    could not. *)
Theorem recovery_can_mount_twice :
  (exists c p q, reachable (recover_thread :: locking) c
     /\ threads c !! 1%nat = Some p /\ threads c !! 2%nat = Some q /\ mounting p = true /\ mounting q = true)
  /\ obeys nothing (Lock >> InSetup ?> Unlock >> Done |> Draining ?> Unlock >> Done |> HasManager ?> Unlock >> Done
       |> Choose ?> Unlock >> Done |> resume_steps (Unlock >> Done)) = true.
Proof.
  split; [| reflexivity].
  set (c := default (Config [] idle) (follow (recover_thread :: locking) recovery_races_stage (Config [] idle))).
  exists c, (default Done (threads c !! 1%nat)), (default Done (threads c !! 2%nat)).
  split; [| by vm_compute].
  apply (follow_reaches _ recovery_races_stage (Config [] idle)); [constructor | vm_compute; reflexivity].
Qed.

End Interleave.
