(* ===== verification/Refine.v ===== *)
(** * Refine: the handlers follow their skeletons

    Interleave reduces each operation to its accesses to the lock, the setup
    mark, the drain slot and the manager of one volume.  Here the detailed
    handlers of Drain, NodeServer and Checker are shown to be runs of these
    skeletons: a forward simulation, proved with a logic of its own in which
    a part of a handler takes a goroutine from one point of its skeleton to
    another. *)

From Stdlib Require Import QArith.
From stdpp Require Import relations.
From S2P Require Import Prelude GoStrings Effects MountManager Mounts VfsNames VfsCache Session Luks Csi Endpoint Controller NodeMounts.
From S2P Require Import NodeLuks NodeState Drain S3Live NodeServer Consumers Checker Registration Invariant System Interleave.
Import Mounts MountManager VfsCache Csi K8s NodeMounts NodeLuks NodeState Drain S3Live NodeServer Consumers Checker Registration.
Import Invariant System Interleave.

#[local] Open Scope Z_scope.

Module Refine.
#[local] Open Scope proc_scope.

(** ** What the skeletons see of a server *)

(** The goroutines of volume [v] that have not ended. *)
Definition tasks_of (v : string) (s : node) : list task :=
  List.filter (fun t => bool_decide (task_volume t = v)) (tasks (s3SyncMgr s)).
Definition goroutine (t : task) : proc :=
  match t with DrainTask _ => drain_thread | ResumeTask _ _ _ => resume_thread end.

Definition draining (v : string) (s : node) : bool := bool_decide (v ∈ backgroundDrains (s3SyncMgr s)).
Definition in_setup (v : string) (s : node) : bool := bool_decide (v ∈ volumesInSetup (s3SyncMgr s)).
Definition managed (v : string) (s : node) : bool := bool_decide (is_Some (mountManagers (s3SyncMgr s) !! v)).

(** The shared state of [v] when [l] holds its lock. *)
Definition shown (v : string) (l : option nat) (s : node) : shared :=
  Shared l (in_setup v s) (draining v s) (managed v s).

(** The goroutines of a run that have not ended. *)
Definition ended (p : proc) : bool := match p with Done => true | _ => false end.
Definition live (l : list proc) : list proc := List.filter (fun p => negb (ended p)) l.

(** A run stands where the server stands between two events: nobody holds the
    lock and only the drain goroutines go on. *)
Definition follows (v : string) (s : node) (c : config) : Prop :=
  state c = shown v None s /\ live (threads c) = map goroutine (tasks_of v s).

(** The skeletons of the operations an event may run on [v]. *)
Definition skeletons (v : string) (e : node_event) : list proc :=
  match e with
  | Stage req => if bool_decide (st_volume req = v) then [stage_thread] else []
  | Publish req => if bool_decide (pb_volume req = v) then [publish_thread] else []
  | Unstage w _ => if bool_decide (w = v) then [unstage_thread] else []
  | CheckerTick _ => [orphan_thread; check_thread true; check_thread false; recover_thread]
  | _ => []
  end.
(** Those of the start-up work. *)
Definition startup_skeletons : list proc := [orphan_thread; check_thread true; check_thread false].

(** ** Lists of goroutines *)

Lemma live_app l1 l2 : live (l1 ++ l2) = live l1 ++ live l2.
Proof. apply filter_app. Qed.
Lemma live_goroutines l : live (map goroutine l) = map goroutine l.
Proof. induction l as [| [] l IH]; cbn; [done | ..]; unfold live in *; by rewrite IH. Qed.
Lemma live_one l q : live l = [q] -> exists a b, l = a ++ q :: b /\ live a = [] /\ live b = [].
Proof.
  induction l as [| p l IH]; [done |]. unfold live. cbn. fold (live l). destruct (ended p) eqn:Hp; cbn.
  - intros (a & b & -> & Ha & Hb)%IH. exists (p :: a), b. split; [done |]. unfold live. cbn. by rewrite Hp.
  - intros [= -> Hl]. exists [], l. done.
Qed.

(** Of two goroutines not ended, the other can be looked at. *)
Lemma swap_focus pre p post q :
  live (pre ++ post) = [q] ->
  exists pre' post', pre ++ p :: post = pre' ++ q :: post' /\ live (pre' ++ post') = live [p].
Proof.
  rewrite live_app. intros H.
  assert (Hc : (live pre = [q] /\ live post = []) \/ (live pre = [] /\ live post = [q])).
  { destruct (live pre) as [| x l]; [by right |]. left. injection H as -> H. by apply app_eq_nil in H as [-> ->]. }
  destruct Hc as [[Hq Hn] | [Hn Hq]]; apply live_one in Hq as (a & b & -> & Ha & Hb).
  - exists a, (b ++ p :: post). rewrite <- !app_assoc. split; [done |].
    change (p :: post) with ([p] ++ post). by rewrite !live_app, Ha, Hb, Hn, app_nil_r.
  - exists (pre ++ p :: a), b. rewrite <- !app_assoc. split; [done |].
    change (p :: a) with ([p] ++ a). by rewrite !live_app, Ha, Hb, Hn, !app_nil_r.
Qed.

(** ** The frame *)

(** What the skeletons see of [s]. *)
Definition see (v : string) (s : node) : shared * list task := (shown v None s, tasks_of v s).

Lemma see_shown v s s' l : see v s' = see v s -> shown v l s' = shown v l s.
Proof. unfold see, shown. by intros [= -> -> -> _]. Qed.
Lemma see_s3 v s s' : s3SyncMgr s' = s3SyncMgr s -> see v s' = see v s.
Proof. unfold see, shown, in_setup, draining, managed, tasks_of. by intros ->. Qed.
(** As many goroutines as slots: at most one. *)
Definition one_task (v : string) (s : node) : Prop := length (tasks_of v s) = Nat.b2n (draining v s).

Lemma one_task_see v s s' : see v s' = see v s -> one_task v s -> one_task v s'.
Proof. unfold see, one_task, shown. intros [= _ -> _ ->]. done. Qed.
Lemma drain_inv_one_task v s : drain_inv s -> one_task v s.
Proof.
  intros [Hn Hd]. unfold one_task, draining, tasks_of. rewrite (bool_decide_ext _ _ (Hd v)). clear Hd.
  induction (tasks (s3SyncMgr s)) as [| t l IH]; [done |]. cbn in *. apply list.NoDup_cons in Hn as [Hn1 Hn2].
  specialize (IH Hn2). destruct (decide (task_volume t = v)) as [<- | Ht].
  - rewrite bool_decide_eq_true_2 by done. cbn. rewrite IH, bool_decide_eq_false_2 by exact Hn1.
    by rewrite bool_decide_eq_true_2 by (by left).
  - rewrite bool_decide_eq_false_2, IH by done. f_equal. apply bool_decide_ext. rewrite elem_of_cons. naive_solver.
Qed.

(** ** Operations on another volume *)

Section other.
Context (clientset : bool) (v w : string) (Hw : w <> v).
Abbreviation spares := (keeps (see v)).

Lemma see_eq s s' :
  in_setup v s' = in_setup v s -> draining v s' = draining v s -> managed v s' = managed v s -> tasks_of v s' = tasks_of v s ->
  see v s' = see v s.
Proof. unfold see, shown. by intros -> -> -> ->. Qed.

Lemma other_insert mm : spares (modify (on_managers (insert w mm))).
Proof. apply keeps_modify. intros s. apply see_eq; try done. unfold managed. cbn. by rewrite lookup_insert_ne. Qed.
Lemma other_delete : spares (modify (on_managers (delete w))).
Proof. apply keeps_modify. intros s. apply see_eq; try done. unfold managed. cbn. by rewrite lookup_delete_ne. Qed.
Lemma other_mark : spares (markVolumeSetupInProgress w).
Proof. apply keeps_modify. intros s. apply see_eq; try done. apply bool_decide_ext. cbn. set_solver. Qed.
Lemma other_unmark : spares (markVolumeSetupComplete w).
Proof. apply keeps_modify. intros s. apply see_eq; try done. apply bool_decide_ext. cbn. set_solver. Qed.
Lemma other_claim : spares (modify (on_drains (fun d => {[w]} ∪ d))).
Proof. apply keeps_modify. intros s. apply see_eq; try done. apply bool_decide_ext. cbn. set_solver. Qed.
Lemma other_end : spares (modify (on_drains (fun d => d ∖ {[w]}))).
Proof. apply keeps_modify. intros s. apply see_eq; try done. apply bool_decide_ext. cbn. set_solver. Qed.
Lemma other_spawn t : task_volume t = w -> spares (spawn t).
Proof.
  intros Ht. apply keeps_modify. intros s. apply see_eq; try done. unfold tasks_of. cbn. rewrite filter_app. cbn.
  rewrite bool_decide_eq_false_2 by congruence. apply app_nil_r.
Qed.
Lemma other_finished : spares (modify (on_tasks (List.filter (fun u => negb (bool_decide (task_volume u = w)))))).
Proof.
  apply keeps_modify. intros s. apply see_eq; try done. unfold tasks_of. cbn.
  induction (tasks (s3SyncMgr s)) as [| t l IH]; [done |]. cbn.
  destruct (decide (task_volume t = w)) as [E | E].
  - rewrite bool_decide_eq_true_2 by done. cbn. rewrite IH, bool_decide_eq_false_2 by congruence. done.
  - rewrite bool_decide_eq_false_2 by done. cbn. by rewrite IH.
Qed.
#[local] Hint Resolve other_insert other_delete other_mark other_unmark other_claim other_end other_finished : keeps.
#[local] Hint Extern 1 (keeps (see v) (spawn _)) => by apply other_spawn : keeps.

Lemma other_mount p ctx g : spares (mountS3Volume clientset w p ctx g).
Proof. unfold mountS3Volume. keeps. Qed.
#[local] Hint Resolve other_mount : keeps.
Lemma other_task t : task_volume t = w -> spares (finish_task clientset t).
Proof.
  intros Ht. unfold finish_task. rewrite Ht. apply keeps_bind; [| intros ?; keeps].
  destruct t as [x | x staging ctx]; cbn in *; subst x; unfold drain_task, resume_task, finishBackgroundDrain, lookup_manager; keeps.
Qed.
Lemma other_drain : spares (run_drain clientset w).
Proof.
  intros s h. unfold run_drain. do 2 wm_step. unfold drain_of. destruct (List.find _ _) as [t |] eqn:E; [| done].
  apply List.find_some in E as [_ E%bool_decide_eq_true]. by apply other_task.
Qed.
#[local] Hint Resolve other_drain : keeps.
Lemma other_setup p ctx g : spares (setupS3Sync clientset w p ctx g).
Proof. unfold setupS3Sync, waitForBackgroundDrain, isBackgroundDraining, hasPendingDrain. keeps. Qed.
Lemma other_resume staging : spares (resumeStrandedDrain clientset w staging).
Proof. unfold resumeStrandedDrain, startBackgroundDrain, isBackgroundDraining. keeps. Qed.
#[local] Hint Resolve other_setup other_resume : keeps.
Lemma other_cleanup nodeID staging : spares (cleanupS3Sync nodeID clientset w staging).
Proof.
  unfold cleanupS3Sync, forceCleanupS3Sync, startBackgroundDrain, isBackgroundDraining, lookup_manager. keeps.
Qed.

End other.

(** ** What leaves the S3 volumes alone *)

Abbreviation spares_s3 := (keeps s3SyncMgr).

Lemma resolve_s3 : spares_s3 resolveKubeletRoot.
Proof. unfold resolveKubeletRoot. keeps. Qed.
Lemma responsive_s3 p : spares_s3 (mountVFSResponsive p).
Proof. unfold mountVFSResponsive. keeps. Qed.
Lemma registry_s3 d names : spares_s3 (vfsRegistryMissing d names).
Proof. unfold vfsRegistryMissing, isVolumeSetupInProgress, isBackgroundDraining, expectedFSName, lookup_manager. keeps. Qed.
Lemma allowed_s3 v : spares_s3 (reconcileAllowed v).
Proof. unfold reconcileAllowed. keeps. Qed.
Lemma lifetime_s3 v : spares_s3 (reportMountLifetime v).
Proof. unfold reportMountLifetime. keeps. Qed.
Lemma serving_s3 p : spares_s3 (ensureStagingServing p).
Proof. unfold ensureStagingServing. keeps. Qed.
#[local] Hint Resolve resolve_s3 responsive_s3 registry_s3 serving_s3 : keeps.
Lemma diagnose_s3 d names : spares_s3 (diagnose d names).
Proof. unfold diagnose. keeps. Qed.
Lemma rebind_s3 p u n : spares_s3 (rebindConsumerMount p u n).
Proof. unfold rebindConsumerMount. keeps. Qed.
Lemma unbind_s3 u n : spares_s3 (unbindTerminatingConsumer u n).
Proof. unfold unbindTerminatingConsumer. keeps. Qed.
Lemma healthy_s3 u n p : spares_s3 (consumerMountHealthy u n p).
Proof. unfold consumerMountHealthy. keeps. Qed.
Lemma restart_allowed_s3 v : spares_s3 (consumerRestartAllowed v).
Proof. unfold consumerRestartAllowed, registrationHealthy. keeps. Qed.
Lemma restart_pods_s3 clientset v : spares_s3 (restartPodsWithStaleS3Mount clientset v).
Proof. unfold restartPodsWithStaleS3Mount. keeps. Qed.
#[local] Hint Resolve rebind_s3 unbind_s3 healthy_s3 restart_allowed_s3 : keeps.
Lemma reattach_s3 clientset c n p b q : spares_s3 (reattach clientset c n p b q).
Proof. unfold reattach. keeps. Qed.
Lemma consumers_s3 nodeID clientset : spares_s3 (repairStrandedConsumers nodeID clientset).
Proof.
  unfold repairStrandedConsumers, consumerBinds, stagedVolumesByPV.
  assert (H : forall todo n staged, spares_s3 (repair_binds nodeID clientset staged n todo)).
  { induction todo as [| [b devs] todo IH]; intros n staged; cbn [repair_binds]; [keeps |].
    apply keeps_bind; [| intros ?; apply IH].
    unfold repair_bind, isVolumeSetupInProgress, isBackgroundDraining, picked_up. keeps. }
  keeps.
Qed.
Lemma staged_ids_s3 : spares_s3 stagedVolumeIDs.
Proof. unfold stagedVolumeIDs. keeps. Qed.
Lemma sessions_s3 : spares_s3 sweepDeadSessions.
Proof. unfold sweepDeadSessions, isBackgroundDraining. keeps. Qed.
Lemma registration_s3 nodeID clientset parse_other endpoint start : spares_s3 (refresh_registration nodeID clientset parse_other endpoint start).
Proof. unfold refresh_registration, isDriverRegistered, kubeletHandshakeCurrent, recordRegistrationTransition. keeps. Qed.

(** ** The simulation

    A run that starts in [c0] and in which the operations of [ops] may start. *)

Section simulation.
Context (clientset : bool) (v : string) (ops : list proc) (c0 : config).

(** A goroutine of the run stands at [p], holding the lock if [b], beside the
    goroutines [o]. *)
Definition doing (b : bool) (p : proc) (o : list proc) (s : node) : Prop :=
  exists c l pre post,
    rtc (step ops) c0 c /\ threads c = pre ++ p :: post /\ live (pre ++ post) = o
    /\ state c = shown v l s /\ bool_decide (is_Some l) = b.
Definition working (b : bool) (p : proc) (s : node) : Prop :=
  one_task v s /\ doing b p (map goroutine (tasks_of v s)) s.
Definition resting (s : node) : Prop := one_task v s /\ exists c, rtc (step ops) c0 c /\ follows v s c.

Lemma doing_see b p o s s' : see v s' = see v s -> doing b p o s -> doing b p o s'.
Proof.
  intros E (c & l & pre & post & H1 & H2 & H3 & H4 & H5). exists c, l, pre, post. splits; try done.
  by rewrite (see_shown v s s').
Qed.
Lemma working_see b p s s' : see v s' = see v s -> working b p s -> working b p s'.
Proof.
  intros E [H1 H2]. split; [by eapply one_task_see |]. apply (doing_see _ _ _ s); [done |]. by injection E as _ _ _ ->.
Qed.
Lemma resting_see s s' : see v s' = see v s -> resting s -> resting s'.
Proof.
  intros E (H1 & c & H2 & H3 & H4). split; [by eapply one_task_see |]. exists c. splits; [done |]. split.
  - by rewrite H3, <- (see_shown v s s').
  - by injection E as _ _ _ ->.
Qed.

(** *** Steps of the goroutine *)

Lemma doing_act b b' a k x o s s' :
  doing b (Do a k) o s ->
  (forall i l, bool_decide (is_Some l) = b ->
     exists l', bool_decide (is_Some l') = b' /\ fires i a x (shown v l s) (shown v l' s')) ->
  doing b' (k x) o s'.
Proof.
  intros (c & l & pre & post & H1 & H2 & H3 & H4 & H5) Hf. destruct (Hf (length pre) l H5) as (l' & H6 & H7).
  exists (Config (<[length pre := k x]> (threads c)) (shown v l' s')), l', pre, post. splits; try done; cbn.
  - eapply rtc_r; [exact H1 |]. eapply step_act; [| by rewrite H4]. rewrite H2. by apply list_lookup_middle.
  - rewrite H2, insert_app_r_alt, Nat.sub_diag by done. done.
Qed.

(** The same, holding the lock or not as before. *)
Lemma doing_step b a k x o s s' :
  doing b (Do a k) o s -> (forall i l, fires i a x (shown v l s) (shown v l s')) -> doing b (k x) o s'.
Proof. intros H Hf. eapply doing_act; [exact H |]. intros i l Hl. by exists l. Qed.

Lemma doing_go b p k o s : doing b (Go p k) o s -> doing b k (o ++ live [p]) s.
Proof.
  intros (c & l & pre & post & H1 & H2 & H3 & H4 & H5).
  exists (Config (<[length pre := k]> (threads c) ++ [p]) (state c)), l, pre, (post ++ [p]). splits; try done; cbn.
  - eapply rtc_r; [exact H1 |]. eapply step_go. rewrite H2. by apply list_lookup_middle.
  - rewrite H2, insert_app_r_alt, Nat.sub_diag by done. cbn. by rewrite <- app_assoc.
  - by rewrite app_assoc, live_app, H3.
Qed.

(** Another goroutine goes on. *)
Lemma doing_swap b p q s : doing b p [q] s -> doing b q (live [p]) s.
Proof.
  intros (c & l & pre & post & H1 & H2 & H3 & H4 & H5).
  destruct (swap_focus pre p post q H3) as (pre' & post' & E & Hl).
  exists c, l, pre', post'. splits; try done. by rewrite H2, E.
Qed.

Lemma working_start p s : resting s -> p ∈ ops -> working false p s.
Proof.
  intros (H1 & c & H2 & H3 & H4) Hp. split; [done |].
  exists (Config (threads c ++ [p]) (state c)), None, (threads c), []. splits; try done; cbn.
  - eapply rtc_r; [exact H2 |]. by apply step_start.
  - by rewrite app_nil_r.
Qed.
Lemma working_done s : working false Done s -> resting s.
Proof.
  intros [H1 (c & l & pre & post & H2 & H3 & H4 & H5 & H6)]. split; [done |]. exists c. splits; [done |]. split.
  - rewrite H5. f_equal. destruct l; [| done]. by rewrite bool_decide_eq_true_2 in H6.
  - rewrite H3, <- H4, !live_app. done.
Qed.

(** *** Accesses *)

(** An action that touches nothing shared may be answered [x]. *)
Definition silent (a : action) (x : bool) : Prop :=
  match a with
  | MountBegin | UnmountBegin | UnmountEnd | Reexpose | TearDown | Choose => True
  | AwaitDrain => x = false
  | _ => False
  end.

Lemma doing_silent b a k x o s :
  silent a x -> doing b (Do a k) o s -> doing b (k x) o s.
Proof. intros Ha H. apply (doing_step b a k x o s s H). intros i l. destruct a; try done; cbn in Ha; subst; constructor. Qed.
Lemma doing_draining b k o s : doing b (Do Draining k) o s -> doing b (k (draining v s)) o s.
Proof. intros H. apply (doing_step _ _ _ _ _ _ _ H). intros i l. exact (fire_draining i (shown v l s)). Qed.
Lemma doing_in_setup b k o s : doing b (Do InSetup k) o s -> doing b (k (in_setup v s)) o s.
Proof. intros H. apply (doing_step _ _ _ _ _ _ _ H). intros i l. exact (fire_in_setup i (shown v l s)). Qed.
Lemma doing_manager b k o s : doing b (Do HasManager k) o s -> doing b (k (managed v s)) o s.
Proof. intros H. apply (doing_step _ _ _ _ _ _ _ H). intros i l. exact (fire_has_manager i (shown v l s)). Qed.
Lemma doing_drained b k o s : draining v s = false -> doing b (Do AwaitDrain k) o s -> doing b (k true) o s.
Proof. intros Hd H. apply (doing_step _ _ _ _ _ _ _ H). intros i l. by apply fire_drained. Qed.

Lemma managed_delete s : managed v (on_managers (delete v) s) = false.
Proof. apply bool_decide_eq_false. cbn. rewrite lookup_delete_eq. by intros [? ?]. Qed.
Lemma managed_insert mm s : managed v (on_managers (insert v mm) s) = true.
Proof. apply bool_decide_eq_true. cbn. rewrite lookup_insert_eq. eauto. Qed.

Lemma in_setup_mark s : in_setup v (on_setup (fun d => {[v]} ∪ d) s) = true.
Proof. apply bool_decide_eq_true. cbn. set_solver. Qed.
Lemma in_setup_unmark s : in_setup v (on_setup (fun d => d ∖ {[v]}) s) = false.
Proof. apply bool_decide_eq_false. cbn. set_solver. Qed.
Lemma draining_claim s : draining v (on_drains (fun d => {[v]} ∪ d) s) = true.
Proof. apply bool_decide_eq_true. cbn. set_solver. Qed.
Lemma draining_end s : draining v (on_drains (fun d => d ∖ {[v]}) s) = false.
Proof. apply bool_decide_eq_false. cbn. set_solver. Qed.

Lemma doing_drop b k x o s : doing b (Do DropManager k) o s -> doing b (k x) o (on_managers (delete v) s).
Proof.
  intros H. apply (doing_step _ _ _ _ _ _ _ H). intros i l. unfold shown. rewrite managed_delete.
  exact (fire_drop i (shown v l s) x).
Qed.
Lemma doing_mounted b k o s mm : doing b (Do MountEnd k) o s -> doing b (k true) o (on_managers (insert v mm) s).
Proof.
  intros H. apply (doing_step _ _ _ _ _ _ _ H). intros i l. unfold shown. rewrite managed_insert.
  exact (fire_mount_end i (shown v l s) true).
Qed.
Lemma doing_mount_failed b k o s : doing b (Do MountEnd k) o s -> doing b (k false) o s.
Proof. intros H. apply (doing_step _ _ _ _ _ _ _ H). intros i l. exact (fire_mount_end i (shown v l s) false). Qed.

Lemma doing_mark b k x o s : doing b (Do Mark k) o s -> doing b (k x) o (on_setup (fun d => {[v]} ∪ d) s).
Proof.
  intros H. apply (doing_step _ _ _ _ _ _ _ H). intros i l. unfold shown. rewrite in_setup_mark.
  exact (fire_mark i (shown v l s) x).
Qed.
Lemma doing_unmark b k x o s : doing b (Do Unmark k) o s -> doing b (k x) o (on_setup (fun d => d ∖ {[v]}) s).
Proof.
  intros H. apply (doing_step _ _ _ _ _ _ _ H). intros i l. unfold shown. rewrite in_setup_unmark.
  exact (fire_unmark i (shown v l s) x).
Qed.
Lemma doing_claim b k o s : draining v s = false -> doing b (Do ClaimDrain k) o s -> doing b (k true) o (on_drains (fun d => {[v]} ∪ d) s).
Proof.
  intros Hd H. apply (doing_step _ _ _ _ _ _ _ H). intros i l. pose proof (fire_claim i (shown v l s)) as Hf.
  unfold shown in *. cbn in Hf. by rewrite draining_claim, Hd in *.
Qed.
Lemma doing_claimed b k o s : draining v s = true -> doing b (Do ClaimDrain k) o s -> doing b (k false) o s.
Proof.
  intros Hd H. apply (doing_step _ _ _ _ _ _ _ H). intros i l. pose proof (fire_claim i (shown v l s)) as Hf.
  unfold shown in *. cbn in Hf. by rewrite Hd in *.
Qed.
Lemma doing_end_drain b k x o s : doing b (Do EndDrain k) o s -> doing b (k x) o (on_drains (fun d => d ∖ {[v]}) s).
Proof.
  intros H. apply (doing_step _ _ _ _ _ _ _ H). intros i l. unfold shown. rewrite draining_end.
  exact (fire_end_drain i (shown v l s) x).
Qed.

Lemma working_lock k x s : working false (Do Lock k) s -> working true (k x) s.
Proof.
  intros [H1 H2]. split; [done |]. apply (doing_act _ true _ _ x _ _ _ H2). intros i l Hl. exists (Some i). split; [done |].
  destruct l; [by rewrite bool_decide_eq_true_2 in Hl |]. exact (fire_lock i (shown v None s) x eq_refl).
Qed.
Lemma working_unlock b k x s : working b (Do Unlock k) s -> working false (k x) s.
Proof.
  intros [H1 H2]. split; [done |]. apply (doing_act _ false _ _ x _ _ _ H2). intros i l Hl. exists None. split; [done |].
  exact (fire_unlock i (shown v l s) x).
Qed.

(** *** Programs

    [m] takes a goroutine from [P] to [K a], where [a] is what it returns:
    [sim] whatever the other goroutines are, and without a change of the
    drains; [wsim] beside the volume's drain, which may meanwhile end. *)

Definition drains (s : node) : bool * list task := (draining v s, tasks_of v s).
Definition sim {A} (P : proc) (m : M A) (K : A -> proc) : Prop :=
  forall b o s h, doing b P o s -> wpc anything (m s) (fun _ r => doing b (K (snd r)) o (fst r) /\ drains (fst r) = drains s) h.
Definition wsim {A} (b : bool) (P : proc) (m : M A) (K : A -> proc) : Prop :=
  forall s h, working b P s -> wpc anything (m s) (fun _ r => working b (K (snd r)) (fst r)) h.

Lemma working_doing b p p' s s' :
  drains s' = drains s -> (forall o, doing b p o s -> doing b p' o s') -> working b p s -> working b p' s'.
Proof. intros [= E1 E2] Hd [H1 H2]. unfold working, one_task in *. rewrite E1, E2. split; [done |]. by apply Hd. Qed.
Lemma sim_wsim {A} b P (m : M A) K : sim P m K -> wsim b P m K.
Proof.
  intros Hm s h [H1 H2]. eapply wpc_post; [by apply Hm |]. intros h' r [H3 E].
  unfold working, one_task. injection E as -> ->. by split.
Qed.

Lemma sim_bind {A B} P (m : M A) (f : A -> M B) K K' :
  sim P m K -> (forall a, sim (K a) (f a) K') -> sim P (mbind m f) K'.
Proof.
  intros Hm Hf b o s h H. apply wpm_bind. eapply wpc_post; [by apply Hm |]. intros h' [s' a] [H' E].
  eapply wpc_post; [by apply Hf |]. intros h'' r [Hr E']. split; [done |]. by rewrite E'.
Qed.
Lemma wsim_bind {A B} b P (m : M A) (f : A -> M B) K K' :
  wsim b P m K -> (forall a, wsim b (K a) (f a) K') -> wsim b P (mbind m f) K'.
Proof.
  intros Hm Hf s h H. apply wpm_bind. eapply wpc_post; [by apply Hm |]. intros h' [s' a] H'. by apply Hf.
Qed.
Lemma sim_keeps {A} P (m : M A) : keeps (see v) m -> sim P m (fun _ => P).
Proof.
  intros Hm b o s h H. eapply wpc_post; [apply Hm |]. intros h' r E. split; [exact (doing_see _ _ _ _ _ E H) |].
  unfold drains. unfold see, shown in E. by injection E as _ -> _ ->.
Qed.
Lemma wsim_keeps {A} b P (m : M A) : keeps (see v) m -> wsim b P m (fun _ => P).
Proof. intros Hm. by apply sim_wsim, sim_keeps. Qed.
(** A part that changes nothing the skeleton sees. *)
Lemma sim_skip {A B} P (m : M A) (f : A -> M B) K : keeps (see v) m -> (forall a, sim P (f a) K) -> sim P (mbind m f) K.
Proof. intros Hm Hf. eapply sim_bind; [by apply sim_keeps | exact Hf]. Qed.
Lemma wsim_skip {A B} b P (m : M A) (f : A -> M B) K :
  keeps (see v) m -> (forall a, wsim b P (f a) K) -> wsim b P (mbind m f) K.
Proof. intros Hm Hf. eapply wsim_bind; [by apply wsim_keeps | exact Hf]. Qed.
Lemma sim_ret {A} (a : A) P K : P = K a -> sim P (ret a) K.
Proof. by intros -> b o s h H. Qed.
Lemma wsim_ret {A} b (a : A) P K : P = K a -> wsim b P (ret a) K.
Proof. by intros -> s h H. Qed.

(** The choices of the world. *)
Lemma sim_silent {A} a k x (m : M A) K :
  silent a x ->
  sim (k x) m K -> sim (Do a k) m K.
Proof. intros Ha Hm b o s h H. apply Hm. by eapply doing_silent. Qed.
Lemma wsim_silent {A} b a k x (m : M A) K :
  silent a x ->
  wsim b (k x) m K -> wsim b (Do a k) m K.
Proof. intros Ha Hm s h [H1 H2]. apply Hm. split; [done |]. by eapply doing_silent. Qed.

(** Reads of the shared state. *)
Lemma sim_lookup {A} (f : option MountManager -> M A) k K :
  (forall mm, sim (k (bool_decide (is_Some mm))) (f mm) K) -> sim (Do HasManager k) (mbind (lookup_manager v) f) K.
Proof. intros Hf b o s h H. unfold lookup_manager. do 2 wm_step. apply Hf. by apply doing_manager in H. Qed.
Lemma wsim_lookup {A} b (f : option MountManager -> M A) k K :
  (forall mm, wsim b (k (bool_decide (is_Some mm))) (f mm) K) -> wsim b (Do HasManager k) (mbind (lookup_manager v) f) K.
Proof. intros Hf s h [H1 H2]. unfold lookup_manager. do 2 wm_step. apply Hf. split; [done |]. by apply doing_manager in H2. Qed.
Lemma sim_drop {A} (f : unit -> M A) k x K :
  sim (k x) (f tt) K -> sim (Do DropManager k) (mbind (modify (on_managers (delete v))) f) K.
Proof.
  intros Hf b o s h H. do 2 wm_step. eapply wpc_post; [eapply Hf; by apply doing_drop |].
  intros h' r [Hr E]. split; [done |]. exact E.
Qed.
Lemma wsim_drop {A} b (f : unit -> M A) k x K :
  wsim b (k x) (f tt) K -> wsim b (Do DropManager k) (mbind (modify (on_managers (delete v))) f) K.
Proof. intros Hf s h [H1 H2]. do 2 wm_step. apply Hf. split; [done |]. by apply doing_drop. Qed.

Lemma keeps_see {A} (m : M A) : keeps s3SyncMgr m -> keeps (see v) m.
Proof. intros Hm s h. eapply wpc_post; [apply Hm |]. intros h' r E. by apply see_s3. Qed.
Lemma keeps_see_pending f : keeps (see v) (modify (on_pending f)).
Proof. by apply keeps_modify. Qed.
Lemma keeps_see_mountedAt f : keeps (see v) (modify (on_mountedAt f)).
Proof. by apply keeps_modify. Qed.
#[local] Hint Resolve keeps_see_pending keeps_see_mountedAt : keeps.

(** *** Mounting *)

Lemma sim_mount p ctx g k : sim (mount_steps k) (mountS3Volume clientset v p ctx g) (fun r => k (is_ok r)).
Proof.
  unfold mountS3Volume, mount_steps, act. apply (sim_silent _ _ true); [done |].
  assert (Hfail : forall e : gerr, sim (Do MountEnd k) (ret (@Err unit gerr e)) (fun r => k (is_ok r))).
  { intros e b o s h H. split; [by apply doing_mount_failed | done]. }
  apply sim_skip; [keeps |]. intros [vs | e]; [| apply Hfail].
  apply sim_skip; [keeps |]. intros mm. apply sim_skip; [keeps |]. intros gl.
  apply sim_skip; [keeps |]. intros [[g' mm'] r]. apply sim_skip; [by apply keeps_modify |]. intros u.
  destruct r as [u' | e]; [| apply Hfail].
  intros b o s h H. do 3 wm_step. split; [by apply doing_mounted | done].
Qed.

Lemma sim_reexpose p k : sim (reexpose_steps k) (reexposeLiveSession v p) k.
Proof.
  unfold reexposeLiveSession, reexpose_steps. apply sim_lookup. intros [mm |].
  - rewrite bool_decide_eq_true_2 by eauto. case_match; [apply (sim_silent _ _ false); [done | by apply sim_ret] |].
    apply sim_skip; [keeps |]. intros []; cbn [negb]; [| apply (sim_silent _ _ false); [done | by apply sim_ret]].
    apply sim_skip; [keeps |]. intros [u | e]; [| apply (sim_silent _ _ false); [done | by apply sim_ret]].
    apply (sim_silent _ _ true); [done |]. do 2 (apply sim_skip; [keeps |]; intros ?). by apply sim_ret.
  - rewrite bool_decide_eq_false_2 by by intros [? ?]. by apply sim_ret.
Qed.

(** *** Drain goroutines *)

(** [m] takes a drain goroutine from [P] to its end, its slot free. *)
Definition freed (s0 s : node) : Prop := draining v s = false /\ tasks_of v s = tasks_of v s0.
Definition frees (P : proc) (m : M unit) : Prop :=
  forall b o s h, doing b P o s -> wpc anything (m s) (fun _ r => doing b Done o (fst r) /\ freed s (fst r)) h.

Lemma frees_bind {A} P K (m : M A) f : sim P m K -> (forall a, frees (K a) (f a)) -> frees P (mbind m f).
Proof.
  intros Hm Hf b o s h H. apply wpm_bind. eapply wpc_post; [by apply Hm |]. intros h1 [s1 a] [H1 [= _ E]].
  eapply wpc_post; [by apply Hf |]. intros h2 r [H2 [F1 F2]]. split; [done |]. split; [done |]. by rewrite F2.
Qed.
Lemma frees_skip {A} P (m : M A) f : keeps (see v) m -> (forall a, frees P (f a)) -> frees P (mbind m f).
Proof. intros Hm Hf. eapply frees_bind; [by apply sim_keeps | exact Hf]. Qed.

Lemma finish_frees d : frees (EndDrain >> Done) (finishBackgroundDrain v d).
Proof.
  intros b o s h H. unfold finishBackgroundDrain. do 2 wm_step. apply (doing_end_drain _ _ true) in H.
  assert (Hk : keeps (see v) (if d then modify (on_pending (fun p => p ∖ {[v]})) ;~ lift (ClearDrainPending v)
                              else modify (on_pending (fun p => {[v]} ∪ p)) ;~ lift (SaveDrainPending v))) by keeps.
  eapply wpc_post; [apply Hk |]. intros h' r E. split; [exact (doing_see _ _ _ _ _ E H) |].
  unfold freed. unfold see, shown in E. injection E as _ -> _ ->. split; [apply draining_end | done].
Qed.
#[local] Hint Resolve finish_frees : keeps.

Lemma lookup_frees f P Q :
  (forall mm, frees P (f (Some mm))) -> frees Q (f None) -> frees (HasManager ?> P |> Q) (mbind (lookup_manager v) f).
Proof.
  intros Hs Hn b o s h H. unfold lookup_manager. do 2 wm_step. apply doing_manager in H. unfold managed in H.
  destruct (_ !! v) as [mm |]; [rewrite bool_decide_eq_true_2 in H by eauto; by apply Hs |].
  rewrite bool_decide_eq_false_2 in H by by intros [? ?]. by apply Hn.
Qed.
Lemma unmount_frees mm after :
  (forall r, frees (EndDrain >> Done) (after r)) ->
  frees (UnmountBegin >> UnmountEnd >> DropManager >> EndDrain >> Done)
    (mbind (lift (Unmount mm)) (fun r => modify (on_managers (delete v)) ;~ after r)).
Proof.
  intros Ha. eapply (frees_bind _ (fun _ => DropManager >> EndDrain >> Done)).
  - unfold act. do 2 (apply (sim_silent _ _ true); [done |]). apply sim_keeps. keeps.
  - intros r. eapply (frees_bind _ (fun _ => EndDrain >> Done)); [| intros ?; apply Ha].
    intros b o s h H. wm_step. split; [by apply (doing_drop _ _ true) in H | done].
Qed.

Lemma task_frees t : task_volume t = v -> frees (goroutine t) (run_task clientset t).
Proof.
  intros Hv. destruct t as [w | w staging ctx]; cbn in *; subst w.
  - unfold drain_task, drain_thread. apply lookup_frees; [intros mm | apply finish_frees]. apply unmount_frees. intros r.
    apply frees_skip; [keeps |]. intros _. apply finish_frees.
  - unfold resume_task, resume_thread. eapply frees_bind; [apply sim_mount |]. intros [u | e]; cbn [is_ok]; [| apply finish_frees].
    apply lookup_frees; [intros mm | apply finish_frees]. apply unmount_frees. intros r.
    do 2 (apply frees_skip; [keeps |]; intros _). apply finish_frees.
Qed.

(** The drain of [v] ends. *)
Lemma drain_of_tasks s : drain_of v (tasks (s3SyncMgr s)) = head (tasks_of v s).
Proof.
  unfold drain_of, tasks_of. induction (tasks (s3SyncMgr s)) as [| t l IH]; [done |]. cbn. by case_bool_decide.
Qed.
Lemma tasks_of_volume t s : t ∈ tasks_of v s -> task_volume t = v.
Proof. intros [_ H]%elem_of_filter_bool. by apply bool_decide_eq_true in H. Qed.
Lemma tasks_of_finished s :
  tasks_of v (on_tasks (List.filter (fun u => negb (bool_decide (task_volume u = v)))) s) = [].
Proof.
  unfold tasks_of. cbn. induction (tasks (s3SyncMgr s)) as [| t l IH]; [done |]. cbn.
  destruct (bool_decide (task_volume t = v)) eqn:E; cbn; [done |]. by rewrite E.
Qed.

Lemma finish_task_runs t b o s h :
  task_volume t = v -> doing b (goroutine t) o s ->
  wpc anything (finish_task clientset t s) (fun _ r => doing b Done o (fst r) /\ draining v (fst r) = false /\ tasks_of v (fst r) = []) h.
Proof.
  intros Hv H. unfold finish_task. wm_step. eapply wpc_post; [by apply task_frees |]. intros h1 [s1 u] (H1 & H2 & _).
  cbn [fst] in *. wm_step. rewrite Hv. splits; [exact H1 | exact H2 | apply tasks_of_finished].
Qed.

Lemma drain_ends_beside b P s h :
  working b P s -> ended P = false -> draining v s = true ->
  wpc anything (run_drain clientset v s) (fun _ r => working b P (fst r) /\ draining v (fst r) = false) h.
Proof.
  intros [H1 H2] HP Hd. unfold run_drain. do 2 wm_step. rewrite drain_of_tasks. unfold one_task in H1. rewrite Hd in H1.
  pose proof (tasks_of_volume) as Hv. specialize (fun t => Hv t s).
  destruct (tasks_of v s) as [| t [| ? ?]]; try done. cbn [head map] in *.
  apply doing_swap in H2. unfold live in H2. cbn in H2. rewrite HP in H2. cbn in H2.
  eapply wpc_post; [apply finish_task_runs; [apply Hv; by left | exact H2] |].
  intros h1 r (H3 & H4 & H5). split; [| done]. split; [unfold one_task; by rewrite H4, H5 |].
  rewrite H5. apply doing_swap in H3. exact H3.
Qed.

Lemma drain_rests : preserves resting (run_drain clientset v).
Proof.
  intros s h (H1 & c & H2 & H3 & H4). unfold run_drain. do 2 wm_step. rewrite drain_of_tasks.
  pose proof (tasks_of_volume) as Hv. specialize (fun t => Hv t s). unfold one_task in H1.
  destruct (tasks_of v s) as [| t [| t' l]] eqn:Et; cbn [head map] in *; [| | by destruct (draining v s)].
  { wm_step. split; [by unfold one_task; rewrite Et |]. exists c. split; [done |]. split; [done | by rewrite Et]. }
  apply live_one in H4 as (pre & post & E & Hpre & Hpost).
  eapply wpc_post; [apply (finish_task_runs t false []); [apply Hv; by left |] |].
  - exists c, None, pre, post. splits; try done. by rewrite live_app, Hpre, Hpost.
  - intros h1 r (H5 & H6 & H7). apply working_done. split; [unfold one_task; by rewrite H6, H7 |]. by rewrite H7.
Qed.

(** *** Staging and clean-up *)

Lemma wsim_setup b p ctx g k :
  (forall r, ended (k r) = false) ->
  wsim b (setup_steps k) (setupS3Sync clientset v p ctx g) (fun r => k (is_ok r)).
Proof.
  intros Hk. unfold setupS3Sync, setup_steps.
  set (rest := reexpose_steps _).
  assert (Hrest : forall r : unit, wsim b rest (live <~ reexposeLiveSession v p ;;
    if (live : bool) then ret (Ok tt)
    else attempt _ <~ mountS3Volume clientset v p ctx g else (fun e => e) ;;
         now <~ ask CNow ;; modify (on_mountedAt (insert v now)) ;~ ret (Ok tt)) (fun r => k (is_ok r))).
  { intros u0. eapply wsim_bind; [apply sim_wsim, sim_reexpose |]. intros []; cbn beta iota; [by apply wsim_ret |].
    eapply wsim_bind; [apply sim_wsim, sim_mount |]. intros [u | e]; [| by apply wsim_ret].
    do 2 (apply wsim_skip; [keeps |]; intros ?). by apply wsim_ret. }
  apply (wsim_bind _ _ _ _ (fun w : bool => if w then rest else k false)).
  - unfold waitForBackgroundDrain, isBackgroundDraining. intros s h [H1 H2]. do 2 wm_step. fold (draining v s).
    apply doing_draining in H2. destruct (draining v s) eqn:Hd; cbn [negb]; [| by split].
    apply doing_draining in H2. rewrite Hd in H2. wm_step. apply wpm_ask; [done |]. intros []; cbn [fst snd].
    + wm_step. eapply wpc_post; [by apply drain_ends_beside |]. intros h1 r [[H3 H4] H5]. wm_step.
      split; [done |]. exact (doing_drained _ _ _ _ H5 H4).
    + wm_step. split; [done |]. by apply (doing_silent _ _ _ false) in H2.
  - intros []; cbn [negb]; [| by apply wsim_ret]. unfold hasPendingDrain. do 2 (apply wsim_skip; [keeps |]; intros ?). apply Hrest. exact tt.
Qed.

(** The slot is taken, then the goroutine started. *)
Lemma idle_tasks b P s : working b P s -> draining v s = false -> doing b P [] s /\ tasks_of v s = [].
Proof.
  intros [H1 H2] Hd. unfold one_task in H1. rewrite Hd in H1. apply nil_length_inv in H1. by rewrite H1 in H2.
Qed.
Lemma claim_runs b k o s h :
  draining v s = false -> doing b (Do ClaimDrain k) o s ->
  wpc anything (startBackgroundDrain v s) (fun _ r => snd r = true /\ doing b (k true) o (fst r) /\ drains (fst r) = (true, tasks_of v s)) h.
Proof.
  intros Hd H. unfold startBackgroundDrain, isBackgroundDraining. do 2 wm_step. fold (draining v s). rewrite Hd. do 3 wm_step.
  wm_step. eapply wpc_post; [apply wpc_trivial |]. intros h1 u _. wm_step. splits; [done | by apply doing_claim |].
  unfold drains. by rewrite draining_claim.
Qed.
Lemma spawn_runs b t P s :
  task_volume t = v -> drains s = (true, []) -> doing b (Go (goroutine t) P) [] s ->
  working b P (on_tasks (fun l => l ++ [t]) s).
Proof.
  intros Hv [= Hd Ht] H.
  assert (Ht' : tasks_of v (on_tasks (fun l => l ++ [t]) s) = [t]).
  { unfold tasks_of in *. cbn. rewrite filter_app, Ht. cbn. by rewrite bool_decide_eq_true_2. }
  split; [unfold one_task; rewrite Ht'; by change (draining v (on_tasks (fun l => l ++ [t]) s)) with (draining v s); rewrite Hd |].
  rewrite Ht'. apply doing_go in H. cbn [app] in H. change (live [goroutine t]) with (live (map goroutine [t])) in H.
  rewrite live_goroutines in H. destruct H as (c & l & pre & post & H1 & H2 & H3 & H4 & H5).
  exists c, l, pre, post. by splits.
Qed.

Lemma wsim_resume b staging k :
  wsim b (resume_steps k) (resumeStrandedDrain clientset v staging) (fun _ => k).
Proof.
  unfold resumeStrandedDrain, resume_steps.
  destruct (bool_decide _); [apply (wsim_silent _ _ _ false); [done | by apply wsim_ret] |].
  apply wsim_skip; [keeps |]. intros [ctx |]; [| apply (wsim_silent _ _ _ false); [done | by apply wsim_ret]].
  apply (wsim_silent _ _ _ true); [done |]. intros s h H. destruct (draining v s) eqn:Hd.
  - unfold startBackgroundDrain, isBackgroundDraining. do 3 wm_step. fold (draining v s). rewrite Hd. wm.
    destruct H as [H1 H2]. split; [done |]. exact (doing_claimed _ _ _ _ Hd H2).
  - destruct (idle_tasks _ _ _ H Hd) as [H1 Ht]. wm_step. eapply wpc_post; [by apply claim_runs |].
    intros h1 [s1 mine] (Hm & H2 & E); cbn [fst snd] in *. subst mine. rewrite Ht in E. cbn [negb].
    wm_step. wm_step. eapply wpc_post; [apply wpc_trivial |]. intros h2 u _. cbn [fst snd]. unfold spawn. wm_step.
    by apply (spawn_runs _ (ResumeTask v staging ctx)).
Qed.

Lemma wsim_forced b k : wsim b (forced_steps k) (forceCleanupS3Sync clientset v) (fun _ => k).
Proof.
  unfold forceCleanupS3Sync, forced_steps. apply wsim_skip; [keeps |]. intros _. apply wsim_lookup. intros [mm |].
  - rewrite bool_decide_eq_true_2 by eauto. apply (wsim_drop _ _ _ true). apply (wsim_silent _ _ _ true); [done |].
    apply wsim_skip; [keeps |]. intros _. by apply wsim_ret.
  - rewrite bool_decide_eq_false_2 by by intros [? ?]. by apply (wsim_drop _ _ _ true), wsim_ret.
Qed.

Lemma wsim_cleanup nodeID b staging k :
  wsim b (cleanup_steps (negb (bool_decide (staging = ""))) k) (cleanupS3Sync nodeID clientset v staging) (fun _ => k).
Proof.
  unfold cleanupS3Sync, cleanup_steps, isBackgroundDraining. set (staged := negb _). set (rest := unforced_steps staged k).
  intros s h [H1 H2]. do 2 wm_step. fold (draining v s).
  apply wpm_skip_lift. intros h1 forced _. clear h.
  assert (Hf : working b (if forced : bool then forced_steps k else rest) s).
  { split; [done |]. apply doing_draining in H2. destruct (draining v s).
    - by apply (doing_silent _ _ _ forced) in H2; destruct forced.
    - apply (doing_silent _ _ _ true) in H2; [| done]. by apply (doing_silent _ _ _ forced) in H2; destruct forced. }
  clear H1 H2. destruct forced; [by apply wsim_forced |]. destruct Hf as [H1 H2]. unfold rest, unforced_steps in H2.
  apply doing_draining in H2. destruct (draining v s) eqn:Hd; [by split |].
  unfold lookup_manager. do 2 wm_step. apply doing_manager in H2. unfold managed in H2.
  destruct (_ !! v) as [mm |]; [rewrite bool_decide_eq_true_2 in H2 by eauto | rewrite bool_decide_eq_false_2 in H2 by by intros [? ?]].
  - apply wpm_skip_lift. intros h2 empty _. apply (doing_silent _ _ _ empty) in H2; [| done]. destruct empty.
    + apply (doing_silent _ _ _ true) in H2; [| done]. apply wpm_skip_lift. intros h3 r _.
      apply (doing_silent _ _ _ (snd r)) in H2; [| done].
      apply (wsim_drop b _ (fun _ => if negb (snd r) && staged then resume_steps k else k) true (fun _ => k)); [| by split].
      destruct (negb (snd r) && staged) eqn:E; [| by apply wsim_ret].
      eapply wsim_bind; [by apply wsim_resume | intros ?; by apply wsim_ret].
    + destruct (idle_tasks b _ s (conj H1 H2) Hd) as [H3 Ht]. wm_step. eapply wpc_post; [by apply claim_runs |].
      intros h3 [s3 mine] (_ & H4 & E); cbn [fst snd] in *. rewrite Ht in E. unfold spawn. do 3 wm_step.
      by apply (spawn_runs _ (DrainTask v)).
  - fold staged. apply (wpm_bind anything (if bool_decide (staging = "") then _ else _)).
    destruct (bool_decide (staging = "")) eqn:E; cbn [negb] in *.
    { wm_step. by split. }
    wm_step. eapply wpc_post; [apply wpc_trivial |]. intros h2 dirty _. cbn [fst snd].
    apply (doing_silent _ _ _ dirty) in H2; [| done]. destruct dirty; cbn [negb]; [| by split].
    apply (wsim_bind b (resume_steps k) (resumeStrandedDrain clientset v staging) _ (fun _ => k) (fun _ => k));
      [by apply wsim_resume | intros ?; by apply wsim_ret | by split].
Qed.

(** *** Operations *)

Lemma rests_keeps {A} (m : M A) : keeps (see v) m -> preserves resting m.
Proof. apply preserves_keeps. apply resting_see. Qed.
Lemma rests_of {A} P (m : M A) : P ∈ ops -> wsim false P m (fun _ => Done) -> preserves resting m.
Proof.
  intros HP Hm s h Hs. eapply wpc_post; [apply Hm; by apply working_start |]. intros h' r. apply working_done.
Qed.
Lemma wsim_locked {A} P (m : M A) K : wsim true P m (fun a => Unlock >> K a) -> wsim false (Lock >> P) m K.
Proof.
  intros Hm s h H. eapply wpc_post; [apply Hm; by apply (working_lock _ true) in H |]. intros h' r Hr.
  by apply (working_unlock _ _ true) in Hr.
Qed.
Lemma wsim_mark b P : wsim b (Mark >> P) (markVolumeSetupInProgress v) (fun _ => P).
Proof.
  intros s h H. apply wpm_modify. apply (working_doing b (Mark >> P) P s); [done | | exact H].
  intros o. exact (doing_mark b (fun _ => P) true o s).
Qed.
Lemma wsim_unmark b P : wsim b (Unmark >> P) (markVolumeSetupComplete v) (fun _ => P).
Proof.
  intros s h H. apply wpm_modify. apply (working_doing b (Unmark >> P) P s); [done | | exact H].
  intros o. exact (doing_unmark b (fun _ => P) true o s).
Qed.
Lemma wsim_in_setup {A} b k (f : bool -> M A) K :
  (forall x, wsim b (k x) (f x) K) -> wsim b (Do InSetup k) (mbind (isVolumeSetupInProgress v) f) K.
Proof.
  intros Hf s h H. unfold isVolumeSetupInProgress. do 2 wm_step. apply Hf.
  apply (working_doing b (Do InSetup k) _ s); [done | | exact H]. intros o. apply doing_in_setup.
Qed.
Lemma wsim_draining {A} b k (f : bool -> M A) K :
  (forall x, wsim b (k x) (f x) K) -> wsim b (Do Draining k) (mbind (isBackgroundDraining v) f) K.
Proof.
  intros Hf s h H. unfold isBackgroundDraining. do 2 wm_step. apply Hf.
  apply (working_doing b (Do Draining k) _ s); [done | | exact H]. intros o. apply doing_draining.
Qed.

Context (nodeID : string).

Lemma stage_follows req :
  st_volume req = v -> stage_thread ∈ ops -> preserves resting (NodeStageVolume nodeID clientset req).
Proof.
  intros Hv Hops. unfold NodeStageVolume, setupS3Volume.
  assert (Hr : forall r, preserves resting (ret r : M (result unit status))) by (intros; apply rests_keeps; keeps).
  destruct (validateStageVolumeRequest req), (st_cap req) as [cap |]; try done.
  apply preserves_bind; [preserves |]. intros [[|] | e]; [done | | done].
  apply preserves_bind; [preserves |]. intros [params | e]; [| done].
  destruct (isS3Backend _); [| preserves]. rewrite Hv. apply (rests_of _ _ Hops). unfold stage_thread. apply wsim_locked.
  eapply wsim_bind; [apply wsim_mark | intros ?].
  apply (wsim_bind _ _ _ _ (fun _ => Unmark >> Unlock >> Done)).
  - apply wsim_skip; [keeps |]. intros [u | e]; [| apply (wsim_silent _ _ _ false); [done | by apply wsim_ret]].
    apply (wsim_silent _ _ _ true); [done |]. eapply wsim_bind; [by apply (wsim_setup _ _ _ _ (fun _ => Unmark >> Unlock >> Done)) |].
    intros [u' | e]; by apply wsim_ret.
  - intros r. eapply wsim_bind; [apply wsim_unmark | intros ?]. by apply wsim_ret.
Qed.

Lemma unstage_follows staging :
  unstage_thread ∈ ops -> preserves resting (NodeUnstageVolume nodeID clientset v staging).
Proof.
  intros Hops. unfold NodeUnstageVolume, validateUnstageVolumeRequest.
  destruct (bool_decide (v = "")); [preserves |]. destruct (bool_decide (staging = "")) eqn:E; [preserves |].
  apply (rests_of _ _ Hops). unfold unstage_thread. apply wsim_locked. eapply wsim_bind.
  - replace true with (negb (bool_decide (staging = ""))) at 2 by (by rewrite E). apply wsim_cleanup.
  - intros r. apply wsim_keeps. keeps.
Qed.

Lemma publish_follows req :
  pb_volume req = v -> publish_thread ∈ ops -> preserves resting (NodePublishVolume clientset req).
Proof.
  intros Hv Hops. unfold NodePublishVolume. destruct (validatePublishVolumeRequest req); [preserves |].
  apply preserves_bind; [preserves |]. intros g. cbn zeta. unfold publish, ensureVolumeStaged, restoreS3VolumeStaging.
  destruct (isS3Backend _); [| apply rests_keeps; keeps]. rewrite Hv. apply (rests_of _ _ Hops).
  unfold publish_thread. apply wsim_locked. eapply wsim_bind; [apply wsim_mark | intros ?].
  apply (wsim_bind _ _ _ _ (fun _ => Unmark >> Unlock >> Done)).
  - apply (wsim_bind _ _ _ _ (fun _ => Unmark >> Unlock >> Done)).
    + apply wsim_skip; [keeps |]. intros [u | e]; [apply (wsim_silent _ _ _ true); [done | by apply wsim_ret] |].
      apply wsim_skip; [keeps |]. intros [|]; cbn [negb]; [| apply (wsim_silent _ _ _ true); [done | by apply wsim_ret]].
      apply wsim_skip; [keeps |]. intros [u | e']; [| apply (wsim_silent _ _ _ true); [done | by apply wsim_ret]].
      apply wsim_skip; [keeps |]. intros fs. apply (wsim_silent _ _ _ false); [done |].
      eapply wsim_bind; [by apply (wsim_setup _ _ _ _ (fun _ => Unmark >> Unlock >> Done)) |]. intros [?|?]; by apply wsim_ret.
    + intros r. apply wsim_keeps. keeps.
  - intros r. eapply wsim_bind; [apply wsim_unmark | intros ?]. by apply wsim_ret.
Qed.

Lemma orphan_follows dir : orphan_thread ∈ ops -> preserves resting (reclaimOrphanedVolume nodeID clientset v dir).
Proof.
  intros Hops. unfold reclaimOrphanedVolume. apply (rests_of _ _ Hops). unfold orphan_thread. apply wsim_locked.
  eapply wsim_bind; [exact (wsim_cleanup nodeID true "" (Unlock >> Done)) |]. intros r. apply wsim_keeps. keeps.
Qed.

(** *** The checker *)

#[local] Hint Resolve diagnose_s3 allowed_s3 lifetime_s3 restart_allowed_s3 restart_pods_s3 reattach_s3 : keeps.
#[local] Hint Extern 3 (keeps (see v) _) => apply keeps_see; solve [keeps] : keeps.

Lemma wsim_drop_manager b P : wsim b (HasManager >> DropManager >> P) (drop_manager v) (fun _ => P).
Proof.
  unfold drop_manager. apply wsim_lookup. intros mm. apply (wsim_drop _ _ _ true). by apply wsim_ret.
Qed.

Lemma wsim_reconcile p ctx missing :
  wsim false (reconcile_thread missing) (reconcileS3Mount nodeID clientset v p ctx missing) (fun _ => Done).
Proof.
  unfold reconcileS3Mount, reconcile_thread. apply wsim_locked. eapply wsim_bind; [apply wsim_mark | intros ?].
  set (last := Unmark >> Unlock >> Done). set (rem := HasManager >> _).
  assert (Hrem : wsim true rem (remount nodeID clientset v p ctx) (fun _ => last)).
  { unfold remount. apply wsim_skip; [keeps |]. intros [[ns c] pv]. apply wsim_skip; [keeps |]. intros consumers. cbn zeta.
    eapply wsim_bind; [apply wsim_drop_manager | intros old]. apply (wsim_silent _ _ _ true); [done |].
    do 4 (apply wsim_skip; [keeps |]; intros ?). eapply wsim_bind.
    { apply (wsim_setup _ _ _ _ (fun ok => if ok then last else HasManager >> DropManager >> last)). by intros []. }
    intros [?|?]; cbn [is_ok].
    - apply wsim_keeps. keeps.
    - unfold remount_failed. eapply wsim_bind; [apply wsim_drop_manager | intros ?]. apply wsim_keeps. keeps. }
  apply (wsim_bind _ _ _ _ (fun live : bool => if live then last else rem)).
  - destruct missing; [apply sim_wsim, sim_reexpose | by apply wsim_ret].
  - intros live. apply (wsim_bind _ _ _ _ (fun _ => last)); [destruct live; [by apply wsim_ret | exact Hrem] |].
    intros ?. unfold last. apply wsim_unmark.
Qed.

#[local] Hint Resolve other_setup other_cleanup other_resume other_drain other_mark other_unmark other_delete : keeps.

Lemma other_reconcile w p ctx missing : w <> v -> keeps (see v) (reconcileS3Mount nodeID clientset w p ctx missing).
Proof.
  intros Hw. unfold reconcileS3Mount, remount, remount_failed, drop_manager, lookup_manager. keeps.
Qed.
#[local] Hint Resolve other_reconcile : keeps.

Lemma repair_follows dir stale :
  check_thread true ∈ ops -> check_thread false ∈ ops -> preserves resting (repair_entry nodeID clientset dir stale).
Proof.
  intros Ht Hf. unfold repair_entry. apply preserves_bind; [preserves |]. intros w.
  destruct (bool_decide (w = "")); [preserves; destruct stale; preserves |].
  destruct (decide (w = v)) as [-> | Hw]; [| apply rests_keeps; unfold isVolumeSetupInProgress, isBackgroundDraining; keeps].
  apply (rests_of (check_thread (negb stale))); [by destruct stale |]. unfold check_thread.
  apply wsim_in_setup. intros [|].
  { unfold isBackgroundDraining. apply wsim_skip; [keeps | intros ?]. by apply wsim_ret. }
  apply wsim_draining. intros [|]; [by apply wsim_ret |]. cbn [orb].
  assert (Hskip : forall m : M unit, keeps (see v) m -> wsim false (Choose ?> reconcile_thread (negb stale) |> Done) m (fun _ => Done)).
  { intros m Hm. apply (wsim_silent _ _ _ false); [done |]. by apply wsim_keeps. }
  apply wsim_skip; [keeps |]. intros [ctx |]; [| apply Hskip; keeps].
  apply wsim_skip; [keeps |]. intros [|]; cbn [negb]; [| apply Hskip; keeps].
  do 2 (apply wsim_skip; [keeps | intros ?]). case_match; [apply Hskip; keeps |].
  apply (wsim_silent _ _ _ true); [done |]. apply wsim_reconcile.
Qed.

Lemma check_follows F :
  check_thread true ∈ ops -> check_thread false ∈ ops -> preserves resting (cleanupStaleS3Mounts nodeID clientset F).
Proof.
  intros Ht Hf. pose proof (fun d b => repair_follows d b Ht Hf) as Hr.
  assert (Hk : forall A (m : M A), spares_s3 m -> preserves resting m) by (intros; by apply rests_keeps, keeps_see).
  unfold cleanupStaleS3Mounts, check_entries, check_entry, reconcileSucceeded. preserves; first [apply Hr | apply Hk; keeps].
Qed.

Lemma recover_follows : recover_thread ∈ ops -> preserves resting (recoverStrandedVolumes clientset).
Proof.
  intros Hops. unfold recoverStrandedVolumes. apply preserves_bind; [preserves |]. intros l. case_match; [preserves |].
  apply preserves_bind; [apply rests_keeps, keeps_see, staged_ids_s3 |]. intros [staged |]; [| preserves].
  apply preserves_for_each. intros w. unfold recover_stranded.
  destruct (decide (w = v)) as [-> | Hw];
    [| apply rests_keeps; unfold isVolumeSetupInProgress, isBackgroundDraining, lookup_manager; keeps].
  destruct (bool_decide (v ∈ staged)); [cbn [orb]; apply rests_keeps; unfold isVolumeSetupInProgress, isBackgroundDraining; keeps |].
  cbn [orb]. apply (rests_of _ _ Hops). unfold recover_thread.
  apply wsim_in_setup. intros [|].
  { unfold isBackgroundDraining. apply wsim_skip; [keeps | intros ?]. by apply wsim_ret. }
  apply wsim_draining. intros [|]; [by apply wsim_ret |]. cbn [orb]. apply wsim_lookup. intros [mm |].
  { rewrite bool_decide_eq_true_2 by eauto. by apply wsim_ret. }
  rewrite bool_decide_eq_false_2 by by intros [? ?].
  assert (Hskip : wsim false (Choose ?> Done |> resume_steps Done) (ret tt) (fun _ => Done)).
  { apply (wsim_silent _ _ _ true); [done |]. by apply wsim_ret. }
  do 2 (apply wsim_skip; [keeps | intros ?]). case_match; [exact Hskip |].
  apply wsim_skip; [keeps |]. intros [|]; [exact Hskip |]. do 2 (apply wsim_skip; [keeps | intros ?]).
  apply (wsim_silent _ _ _ false); [done |]. apply wsim_resume.
Qed.

Lemma orphans_follow : orphan_thread ∈ ops -> preserves resting (cleanupOrphanedVolumes nodeID clientset).
Proof.
  intros Hops. assert (H : forall w d, preserves resting (reclaimOrphanedVolume nodeID clientset w d)).
  { intros w d. destruct (decide (w = v)) as [-> | Hw]; [by apply orphan_follows |].
    apply rests_keeps. unfold reclaimOrphanedVolume. keeps. }
  unfold cleanupOrphanedVolumes. preserves.
Qed.

(** *** Events *)

Context (ParseFloat : string -> option Q) (parse_other : string -> option Endpoint.url) (endpoint : string) (start : Z).

Lemma startup_follows :
  orphan_thread ∈ ops -> check_thread true ∈ ops -> check_thread false ∈ ops ->
  preserves resting (new_node_server nodeID clientset ParseFloat).
Proof.
  intros Ho Ht Hf. unfold new_node_server, startup_cleanup.
  apply preserves_bind; [apply rests_keeps; unfold loadPendingDrains; keeps | intros _].
  apply preserves_bind; [preserves | intros _]. apply preserves_bind; [apply rests_keeps, keeps_see, sessions_s3 | intros _].
  apply preserves_bind; [by apply check_follows | intros _]. apply preserves_bind; [preserves | intros _].
  by apply orphans_follow.
Qed.

Lemma tick_follows n :
  orphan_thread ∈ ops -> check_thread true ∈ ops -> check_thread false ∈ ops -> recover_thread ∈ ops ->
  preserves resting (checker_tick nodeID clientset ParseFloat n).
Proof.
  intros Ho Ht Hf Hr. unfold checker_tick.
  pose proof (orphans_follow Ho) as H1. pose proof (check_follows ParseFloat Ht Hf) as H2.
  pose proof (recover_follows Hr) as H3. pose proof (rests_keeps _ (keeps_see _ (consumers_s3 nodeID clientset))) as H4.
  preserves.
Qed.

(** An event about another volume. *)
Lemma other_stage req : st_volume req <> v -> keeps (see v) (NodeStageVolume nodeID clientset req).
Proof. intros Hw. unfold NodeStageVolume, setupS3Volume. keeps. Qed.
Lemma other_unstage w staging : w <> v -> keeps (see v) (NodeUnstageVolume nodeID clientset w staging).
Proof. intros Hw. unfold NodeUnstageVolume. keeps. Qed.
Lemma other_publish req : pb_volume req <> v -> keeps (see v) (NodePublishVolume clientset req).
Proof. intros Hw. unfold NodePublishVolume, publish, ensureVolumeStaged, restoreS3VolumeStaging. keeps. Qed.

Lemma handle_follows e : (forall P, P ∈ skeletons v e -> P ∈ ops) -> preserves resting (handle nodeID clientset ParseFloat parse_other endpoint start e).
Proof.
  intros Hops. destruct e as [req | w staging | req | target | req | | w | path | | n]; cbn [handle skeletons] in *;
    try lazymatch goal with |- preserves _ (mbind _ _) => apply preserves_bind; [| preserves] end.
  - destruct (decide (st_volume req = v)) as [E | E]; [| by apply rests_keeps, other_stage].
    apply stage_follows; [done |]. apply Hops. rewrite bool_decide_eq_true_2 by done. by left.
  - destruct (decide (w = v)) as [-> | E]; [| by apply rests_keeps, other_unstage].
    apply unstage_follows, Hops. rewrite bool_decide_eq_true_2 by done. by left.
  - destruct (decide (pb_volume req = v)) as [E | E]; [| by apply rests_keeps, other_publish].
    apply publish_follows; [done |]. apply Hops. rewrite bool_decide_eq_true_2 by done. by left.
  - preserves.
  - preserves.
  - apply rests_keeps, keeps_see. unfold NodeGetInfo. keeps.
  - destruct (decide (w = v)) as [-> | E]; [apply drain_rests | by apply rests_keeps, other_drain].
  - apply rests_keeps, keeps_see. unfold probe_ends. keeps.
  - apply rests_keeps, keeps_see, registration_s3.
  - apply tick_follows; apply Hops; set_solver.
Qed.

End simulation.

(** ** The refinement *)


Lemma step_more ops ops' c c' : (forall P, P ∈ ops -> P ∈ ops') -> step ops c c' -> step ops' c c'.
Proof. intros Ho. destruct 1; [apply step_start; auto | by eapply step_act | by apply step_go]. Qed.
Lemma reachable_more ops c c' : (forall P, P ∈ ops -> P ∈ operations) -> reachable operations c -> rtc (step ops) c c' -> reachable operations c'.
Proof.
  intros Ho Hr H. induction H as [| c c1 c2 Hs _ IH]; [done |]. apply IH. eapply reach_step; [exact Hr | by eapply step_more].
Qed.
Lemma startup_operations P : P ∈ startup_skeletons -> P ∈ operations.
Proof. unfold startup_skeletons, operations, locking. set_solver. Qed.
Lemma event_operations v e P : P ∈ skeletons v e -> P ∈ operations.
Proof. unfold operations, locking. destruct e; cbn; repeat case_bool_decide; set_solver. Qed.

Section refinement.
Context (nodeID : string) (clientset : bool) (ParseFloat : string -> option Q) (parse_other : string -> option Endpoint.url) (endpoint : string) (start : Z) (v : string).
Abbreviation started env h := (fst (snd (run env (new_node_server nodeID clientset ParseFloat empty_node) h))).
Abbreviation handled env e s h := (fst (snd (run env (handle nodeID clientset ParseFloat parse_other endpoint start e s) h))).
Abbreviation running := (running nodeID clientset ParseFloat parse_other endpoint start).

Lemma startup_run env h : exists c, rtc (step startup_skeletons) (Config [] idle) c /\ follows v (started env h) c.
Proof.
  set (c0 := Config [] idle). pose proof (startup_follows clientset v startup_skeletons c0 nodeID ParseFloat) as H.
  refine (proj2 (wpc_run_post env (new_node_server nodeID clientset ParseFloat empty_node)
    (fun _ r => resting v startup_skeletons c0 (fst r)) h (H _ _ _ _ _ _))); [set_solver .. |].
  split; [done |]. by exists c0.
Qed.
Lemma event_run env h s e c :
  running s -> follows v s c -> exists c', rtc (step (skeletons v e)) c c' /\ follows v (handled env e s h) c'.
Proof.
  intros Hr Hc. refine (proj2 (wpc_run_post env (handle nodeID clientset ParseFloat parse_other endpoint start e s)
    (fun _ r => resting v (skeletons v e) c (fst r)) h (handle_follows _ _ _ _ _ _ _ _ _ _ _ _ _ _))); [done |].
  split; [by apply drain_inv_one_task, (running_rest _ _ _ _ _ _ _ Hr) |]. by exists c.
Qed.

(** C10: the handlers follow the skeletons of Interleave.  Whatever the world
    answers: what the start-up of the server does to the setup mark, drain
    slot, manager and goroutines of a volume is what a run of the skeletons of
    its start-up work does; what an event does to them, from any state the
    server reaches, is what a run of that event's own skeleton (none, for an
    event that is not about the volume) does from any configuration that
    stands there, after which nobody holds the lock and the goroutines not
    ended are the volume's drain; and so every state of the server is one that
    an interleaving of the operations reaches. *)
Theorem server_follows_skeletons :
  (forall env h, exists c, rtc (step startup_skeletons) (Config [] idle) c /\ follows v (started env h) c)
  /\ (forall env h s e c, running s -> follows v s c ->
        exists c', rtc (step (skeletons v e)) c c' /\ follows v (handled env e s h) c')
  /\ (forall s, running s -> exists c, reachable operations c /\ follows v s c).
Proof.
  splits; [exact startup_run | exact event_run |].
  intros s Hr. induction Hr as [env h | env h e s Hr IH].
  - destruct (startup_run env h) as (c & H1 & H2). exists c. split; [| done].
    eapply reachable_more; [exact startup_operations | constructor | exact H1].
  - destruct IH as (c & H1 & H2). destruct (event_run env h s e c Hr H2) as (c' & H3 & H4). exists c'. split; [| done].
    eapply reachable_more; [exact (event_operations v e) | exact H1 | exact H3].
Qed.

End refinement.

(** A tick that finds uploads of a volume nothing stages, and the end of the
    drain it starts. *)
Abbreviation example_handle := (handle "n" true (fun _ => None) (fun _ => None) "unix:///csi/csi.sock" 0).
Definition recovering : node :=
  fst (snd (run unreadable_staging (example_handle (CheckerTick 1)
    (fst (snd (run quiet_env (new_node_server "n" true (fun _ => None) empty_node) [])))) [])).

Lemma server_follows_skeletons_witness :
  exists c c', reachable operations c /\ live (threads c) = [resume_thread] /\ slot (state c) = true
    /\ rtc (step []) c c' /\ live (threads c') = [] /\ state c' = idle.
Proof.
  pose proof (server_follows_skeletons "n" true (fun _ => None) (fun _ => None) "unix:///csi/csi.sock" 0 "pvc-1") as (_ & Hh & Hs).
  assert (Hr : running "n" true (fun _ => None) (fun _ => None) "unix:///csi/csi.sock" 0 recovering) by apply run_event, run_starts.
  destruct (Hs recovering Hr) as (c & H1 & H2). destruct (Hh quiet_env [] recovering (DrainEnds "pvc-1") c Hr H2) as (c' & H3 & H4 & H5).
  destruct H2 as [H2 H2']. exists c, c'. splits; [exact H1 | rewrite H2' | rewrite H2 | exact H3 | rewrite H5 | rewrite H4];
    vm_compute; reflexivity.
Defined.

End Refine.
